(** * Hierarchical allocator (master/allocator/mesos/hierarchical.cpp)

    A shallow embedding of the allocation engine of
    [HierarchicalAllocatorProcess]: the registry of agents, frameworks and
    roles, the offer filters, the quota headroom accounting, the two-stage
    allocation loop, the inverse-offer loop and the recovery hold-off.

    Conventions.
    - A failed [CHECK] terminates the process: every operation that can hit
      one returns [option], and [None] is the abort.
    - [hashmap] and [hashset] are [gmap] and [gset]; a [foreach] over one of
      them visits the entries in the order of [map_to_list] / [elements].
    - Scalar values ([Value::Scalar], compared by Mesos at a fixed precision
      of three decimals) are natural numbers of thousandths.
    - A [Duration] is its number of nanoseconds. *)

From Stdlib Require Import ZArith NArith Lia Ascii String.
From stdpp Require Import base option list gmap sets strings fin_maps.

Open Scope Z_scope.

(** ** Aborting on a failed CHECK *)

Definition CHECK (b : bool) : option unit := if b then Some tt else None.

(** Control flow of a loop body: go on with the next element ([continue], or
    falling off the end of the body), or leave the loop ([break]). *)
Inductive LoopCtl := Continue | Break.

(** [foreach l body s]: the loop [foreach (x, l) { body }] over state [s]. *)
Fixpoint foreach {A S : Type} (l : list A)
    (body : A -> S -> option (LoopCtl * S)) (s : S) : option S :=
  match l with
  | [] => Some s
  | x :: l' =>
      match body x s with
      | None => None
      | Some (Break, s') => Some s'
      | Some (Continue, s') => foreach l' body s'
      end
  end.

(** [isSome o]: the call that produced [o] returned. *)
Definition isSome {A : Type} (o : option A) : bool :=
  match o with Some _ => true | None => false end.

(** ** Time *)

Abbreviation Duration := Z (only parsing).

Definition Days (n : Z) : Duration := n * 86400 * 1000000000.
Definition Minutes (n : Z) : Duration := n * 60 * 1000000000.
Definition Seconds (n : Z) : Duration := n * 1000000000.

Definition int64_max : Z := 9223372036854775807.
Definition int64_min : Z := -9223372036854775808.

(** Modelled from the spec: [Duration::create] of stout, which is not part of
    the allocator's source file. The spec only says that an invalid
    [refuse_seconds] is coerced to the default; a value is invalid when it
    does not fit the 64-bit nanosecond count of a [Duration]. The argument,
    a [double] number of seconds in the source, is given here by the exact
    number of nanoseconds it denotes. *)
Definition Duration_create (nanos : Z) : option Duration :=
  if bool_decide (int64_max < nanos \/ nanos < int64_min) then None
  else Some nanos.

(** ** Resource quantities *)

(** Modelled from the spec: [ResourceQuantities] (common/resource_quantities),
    "a ResourceQuantities map (scalar-only)", resource name to scalar. Only
    positive entries are stored. *)
Abbreviation ResourceQuantities := (gmap string N) (only parsing).

Definition rq_get (q : ResourceQuantities) (name : string) : N :=
  default 0%N (q !! name).

Definition rq_norm (q : ResourceQuantities) : ResourceQuantities :=
  filter (fun kv => kv.2 <> 0%N) q.

(** [ResourceQuantities::add(name, scalar)]: adding zero is ignored. *)
Definition rq_add1 (q : ResourceQuantities) (name : string) (v : N)
    : ResourceQuantities :=
  if (v =? 0)%N then q else <[name := (rq_get q name + v)%N]> q.

(** [operator+=]. *)
Definition rq_add (a b : ResourceQuantities) : ResourceQuantities :=
  rq_norm (union_with (fun x y => Some (x + y)%N) a b).

(** [operator-=]: entries that would become zero or negative are dropped, so
    that per name the result is [max(0, a - b)]. *)
Definition rq_sub (a b : ResourceQuantities) : ResourceQuantities :=
  map_imap (fun name v =>
    if (v <=? rq_get b name)%N then None else Some (v - rq_get b name)%N) a.

(** [a.contains(b)]: every entry of [b] is covered by [a]. *)
Definition rq_contains (a b : ResourceQuantities) : bool :=
  bool_decide (map_Forall (fun name v => (v <= rq_get a name)%N) b).

Definition rq_empty (q : ResourceQuantities) : bool := bool_decide (q = ∅).

(** ** The Resources algebra

    The allocator treats resource arithmetic as given. The interface below
    lists the primitives of [Resources] and [Resource] that the allocator's
    source calls; the allocator is verified against any implementation. *)

Class ResourcesAlgebra := {
  Resource : Type;
  Resources : Type;
  Operation : Type;
  (* iteration and construction *)
  r_items : Resources -> list Resource;
  r_of : Resource -> Resources;
  r_none : Resources;
  (* arithmetic *)
  r_empty : Resources -> bool;
  r_plus : Resources -> Resources -> Resources;
  r_minus : Resources -> Resources -> Resources;
  r_contains : Resources -> Resources -> bool;
  r_containsQ : Resources -> ResourceQuantities -> bool;
  r_eqb : Resources -> Resources -> bool;
  r_filter : (Resource -> bool) -> Resources -> Resources;
  (* allocation info *)
  r_allocate : string -> Resources -> Resources;
  r_unallocate : Resources -> Resources;
  r_allocations : Resources -> gmap string Resources;
  r_reservations : Resources -> gmap string Resources;
  (* operations *)
  r_apply : Resources -> list Operation -> option Resources;
  (* single resources *)
  res_name : Resource -> string;
  res_scalar : Resource -> N;
  res_isScalar : Resource -> bool;
  res_isReserved : Resource -> option string -> bool;
  res_isUnreserved : Resource -> bool;
  res_isAllocatableTo : Resource -> string -> bool;
  res_isRevocable : Resource -> bool;
  res_isShared : Resource -> bool;
  res_hasRefinedReservations : Resource -> bool;
  (* Resources::shrink(&resource, target): the shrunk resource, or nothing
     when the resource is indivisible and exceeds the target. *)
  res_shrink : Resource -> N -> option Resource;
}.

(** ** Derived selections of [Resources] *)

Section Selections.
Context `{RA : ResourcesAlgebra}.

Definition reserved (role : string) (r : Resources) : Resources :=
  r_filter (fun x => res_isReserved x (Some role)) r.
Definition reservedAny (r : Resources) : Resources :=
  r_filter (fun x => res_isReserved x None) r.
Definition unreserved (r : Resources) : Resources :=
  r_filter res_isUnreserved r.
Definition allocatableTo (role : string) (r : Resources) : Resources :=
  r_filter (fun x => res_isAllocatableTo x role) r.
Definition nonRevocable (r : Resources) : Resources :=
  r_filter (fun x => negb (res_isRevocable x)) r.
Definition revocable (r : Resources) : Resources :=
  r_filter res_isRevocable r.
Definition scalars (r : Resources) : Resources :=
  r_filter res_isScalar r.
Definition shared (r : Resources) : Resources :=
  r_filter res_isShared r.

(** [ResourceQuantities::fromScalarResources]. *)
Definition fromScalarResources (r : Resources) : ResourceQuantities :=
  foldl (fun q x => rq_add1 q (res_name x) (res_scalar x)) ∅ (r_items r).

(** [Resources::sum] over the values of a map. *)
Definition r_sum (m : gmap string Resources) : Resources :=
  foldl (fun acc kv => r_plus acc kv.2) r_none (map_to_list m).

End Selections.

(** ** Data model *)

Abbreviation FrameworkID := string (only parsing).
Abbreviation SlaveID := string (only parsing).

Record DomainInfo := { fault_domain_region : option string }.

Record SlaveInfo := {
  si_id : SlaveID;
  si_hostname : string;
  si_attributes : list (string * string);
  si_domain : option DomainInfo;
}.

Record SlaveCapabilities := {
  sc_multiRole : bool;
  sc_hierarchicalRole : bool;
}.

Record FrameworkCapabilities := {
  fc_multiRole : bool;
  fc_gpuResources : bool;
  fc_regionAware : bool;
  fc_sharedResources : bool;
  fc_revocableResources : bool;
  fc_reservationRefinement : bool;
}.

(** An [Unavailability] window: start and optional duration. *)
Record Unavailability := { un_start : Z; un_duration : option Z }.

Inductive InverseOfferStatus := ACCEPT | DECLINE | UNKNOWN.

Definition status_isUnknown (s : InverseOfferStatus) : bool :=
  match s with UNKNOWN => true | _ => false end.

(** [Slave::Maintenance]. *)
Record Maintenance := {
  unavailability : Unavailability;
  offersOutstanding : gset FrameworkID;
  statuses : gmap FrameworkID InverseOfferStatus;
}.

Definition newMaintenance (u : Unavailability) : Maintenance :=
  {| unavailability := u; offersOutstanding := ∅; statuses := ∅ |}.

(** The [Filters] message of a decline: [refuse_seconds], in nanoseconds. *)
Record Filters := { refuse_seconds : Z }.

(** [RefusedInverseOfferFilter]: [expired_isPending] is the state of the
    [after(timeout)] future, pending until the timeout has elapsed. *)
Record InverseOfferFilter := {
  iof_timeout : Duration;
  expired_isPending : bool;
}.

Definition iof_filter (f : InverseOfferFilter) : bool := expired_isPending f.

Section Model.
Context `{RA : ResourcesAlgebra}.

(** [RefusedOfferFilter]: the refused resources and the expiry timeout. *)
Record OfferFilter := {
  of_resources : Resources;
  of_timeout : Duration;
}.

(** [RefusedOfferFilter::filter]: the refused resources are a superset. *)
Definition of_filter (f : OfferFilter) (r : Resources) : bool :=
  r_contains (of_resources f) r.

Record Slave := {
  info : SlaveInfo;
  slave_capabilities : SlaveCapabilities;
  activated : bool;
  total : Resources;
  allocated : Resources;
  maintenance : option Maintenance;
}.

Record Framework := {
  fw_roles : gset string;
  suppressedRoles : gset string;
  fw_capabilities : FrameworkCapabilities;
  active : bool;
  offerFilters : gmap string (gmap SlaveID (list OfferFilter));
  inverseOfferFilters : gmap SlaveID (list InverseOfferFilter);
  minAllocatableResources : gmap string (list ResourceQuantities);
}.

Record Options := {
  allocationInterval : Duration;
  opt_minAllocatableResources : option (list ResourceQuantities);
  filterGpuResources : bool;
  opt_domain : option DomainInfo;
}.

(** Modelled from the spec: the [Slave] struct of hierarchical.hpp, which is
    not part of the source file: "available = total - allocated". The total
    is stored without allocation info, so the allocation info is stripped
    before subtracting. *)
Definition getTotal (s : Slave) : Resources := total s.
Definition getAllocated (s : Slave) : Resources := allocated s.
Definition getAvailable (s : Slave) : Resources :=
  r_minus (total s) (r_unallocate (allocated s)).
Definition hasGpu (s : Slave) : bool :=
  bool_decide (0 < rq_get (fromScalarResources (scalars (total s))) "gpus")%N.

Definition slave_updateTotal (s : Slave) (t : Resources) : Slave :=
  {| info := info s; slave_capabilities := slave_capabilities s;
     activated := activated s; total := t; allocated := allocated s;
     maintenance := maintenance s |}.
Definition slave_allocate (s : Slave) (r : Resources) : Slave :=
  {| info := info s; slave_capabilities := slave_capabilities s;
     activated := activated s; total := total s;
     allocated := r_plus (allocated s) r; maintenance := maintenance s |}.
Definition slave_unallocate (s : Slave) (r : Resources) : Slave :=
  {| info := info s; slave_capabilities := slave_capabilities s;
     activated := activated s; total := total s;
     allocated := r_minus (allocated s) r; maintenance := maintenance s |}.
Definition slave_setMaintenance (s : Slave) (m : option Maintenance) : Slave :=
  {| info := info s; slave_capabilities := slave_capabilities s;
     activated := activated s; total := total s; allocated := allocated s;
     maintenance := m |}.

Definition fw_setOfferFilters (f : Framework)
    (x : gmap string (gmap SlaveID (list OfferFilter))) : Framework :=
  {| fw_roles := fw_roles f; suppressedRoles := suppressedRoles f;
     fw_capabilities := fw_capabilities f; active := active f;
     offerFilters := x; inverseOfferFilters := inverseOfferFilters f;
     minAllocatableResources := minAllocatableResources f |}.
Definition fw_setInverseOfferFilters (f : Framework)
    (x : gmap SlaveID (list InverseOfferFilter)) : Framework :=
  {| fw_roles := fw_roles f; suppressedRoles := suppressedRoles f;
     fw_capabilities := fw_capabilities f; active := active f;
     offerFilters := offerFilters f; inverseOfferFilters := x;
     minAllocatableResources := minAllocatableResources f |}.

End Model.

(** ** The sorter

    Modelled from the spec: the [Sorter] interface and its DRF implementation
    live outside the source file. Per the contract (section 4.1 of the spec) a sorter
    keeps, for each client, an activation flag and a per-agent allocation,
    and the total resources per agent; [sort] returns the active clients in
    the order of their weighted dominant share. The order itself is left to
    the environment ([drf_order]). *)

Section SorterModel.
Context `{RA : ResourcesAlgebra}.

Record Client := {
  client_active : bool;
  client_allocation : gmap SlaveID Resources;
}.

Record Sorter := {
  clients : gmap string Client;
  sorter_total : gmap SlaveID Resources;
}.

Definition newSorter : Sorter := {| clients := ∅; sorter_total := ∅ |}.

Definition sorter_contains (s : Sorter) (c : string) : bool :=
  bool_decide (is_Some (clients s !! c)).

Definition sorter_count (s : Sorter) : nat := size (clients s).

Definition set_clients (s : Sorter) (x : gmap string Client) : Sorter :=
  {| clients := x; sorter_total := sorter_total s |}.

Definition sorter_add (s : Sorter) (c : string) : Sorter :=
  match clients s !! c with
  | Some _ => s
  | None =>
      set_clients s
        (<[c := {| client_active := false; client_allocation := ∅ |}]>
           (clients s))
  end.

Definition sorter_remove (s : Sorter) (c : string) : Sorter :=
  set_clients s (delete c (clients s)).

Definition sorter_activate (s : Sorter) (c : string) : Sorter :=
  set_clients s
    (alter (fun x => {| client_active := true;
                        client_allocation := client_allocation x |}) c
       (clients s)).

Definition sorter_deactivate (s : Sorter) (c : string) : Sorter :=
  set_clients s
    (alter (fun x => {| client_active := false;
                        client_allocation := client_allocation x |}) c
       (clients s)).

(** [add(slaveId, resources)] and [remove(slaveId, resources)] of totals. *)
Definition sorter_addSlave (s : Sorter) (a : SlaveID) (r : Resources)
    : Sorter :=
  if r_empty r then s
  else {| clients := clients s;
          sorter_total :=
            <[a := r_plus (default r_none (sorter_total s !! a)) r]>
              (sorter_total s) |}.

Definition sorter_removeSlave (s : Sorter) (a : SlaveID) (r : Resources)
    : Sorter :=
  if r_empty r then s
  else
    let t := r_minus (default r_none (sorter_total s !! a)) r in
    {| clients := clients s;
       sorter_total :=
         if r_empty t then delete a (sorter_total s)
         else <[a := t]> (sorter_total s) |}.

Definition sorter_allocated (s : Sorter) (c : string) (a : SlaveID)
    (r : Resources) : Sorter :=
  set_clients s
    (alter (fun x =>
       {| client_active := client_active x;
          client_allocation :=
            <[a := r_plus (default r_none (client_allocation x !! a)) r]>
              (client_allocation x) |}) c (clients s)).

Definition sorter_unallocated (s : Sorter) (c : string) (a : SlaveID)
    (r : Resources) : Sorter :=
  set_clients s
    (alter (fun x =>
       let t := r_minus (default r_none (client_allocation x !! a)) r in
       {| client_active := client_active x;
          client_allocation :=
            if r_empty t then delete a (client_allocation x)
            else <[a := t]> (client_allocation x) |}) c (clients s)).

(** [allocation(client)]: the client's allocation per agent. *)
Definition sorter_allocation (s : Sorter) (c : string)
    : gmap SlaveID Resources :=
  match clients s !! c with
  | Some x => client_allocation x
  | None => ∅
  end.

(** [allocation(slaveId)]: the clients that hold an allocation on the agent. *)
Definition sorter_allocationOn (s : Sorter) (a : SlaveID)
    : gmap string Resources :=
  omap (fun x => client_allocation x !! a) (clients s).

Definition rq_sum {A : Type} (f : A -> ResourceQuantities) (l : list A)
    : ResourceQuantities :=
  foldl (fun acc x => rq_add acc (f x)) ∅ l.

Definition totalScalarQuantities (s : Sorter) : ResourceQuantities :=
  rq_sum (fun kv => fromScalarResources (scalars kv.2))
    (map_to_list (sorter_total s)).

Definition allocationScalarQuantities (s : Sorter) : ResourceQuantities :=
  rq_sum (fun cv =>
      rq_sum (fun kv => fromScalarResources (scalars kv.2))
        (map_to_list (client_allocation cv.2)))
    (map_to_list (clients s)).

Definition client_isActive (s : Sorter) (c : string) : bool :=
  match clients s !! c with
  | Some x => client_active x
  | None => false
  end.

End SorterModel.

(** ** The allocator process *)

Section AllocatorState.
Context `{RA : ResourcesAlgebra}.

Record Quota := { guarantee : Resources }.

(** Calls scheduled with [delay]. *)
Inductive DelayedCall := CallResume.

Record Allocator := {
  initialized : bool;
  paused : bool;
  options : Options;
  slaves : gmap SlaveID Slave;
  frameworks : gmap FrameworkID Framework;
  roles : gmap string (gset FrameworkID);
  quotaGuarantees : gmap string ResourceQuantities;
  reservationScalarQuantities : gmap string ResourceQuantities;
  roleSorter : Sorter;
  quotaRoleSorter : Sorter;
  frameworkSorters : gmap string Sorter;
  allocationCandidates : gset SlaveID;
  expectedAgentCount : option Z;
  whitelist : option (gset string);
  allocation_isPending : bool;
  delayed : list (Duration * DelayedCall);
}.

Definition set_initialized (a : Allocator) (x : bool) : Allocator :=
  {| initialized := x; paused := paused a; options := options a; slaves :=
  slaves a; frameworks := frameworks a; roles := roles a; quotaGuarantees :=
  quotaGuarantees a; reservationScalarQuantities :=
  reservationScalarQuantities a; roleSorter := roleSorter a; quotaRoleSorter
  := quotaRoleSorter a; frameworkSorters := frameworkSorters a;
  allocationCandidates := allocationCandidates a; expectedAgentCount :=
  expectedAgentCount a; whitelist := whitelist a; allocation_isPending :=
  allocation_isPending a; delayed := delayed a |}.
Definition set_paused (a : Allocator) (x : bool) : Allocator :=
  {| initialized := initialized a; paused := x; options := options a; slaves
  := slaves a; frameworks := frameworks a; roles := roles a; quotaGuarantees
  := quotaGuarantees a; reservationScalarQuantities :=
  reservationScalarQuantities a; roleSorter := roleSorter a; quotaRoleSorter
  := quotaRoleSorter a; frameworkSorters := frameworkSorters a;
  allocationCandidates := allocationCandidates a; expectedAgentCount :=
  expectedAgentCount a; whitelist := whitelist a; allocation_isPending :=
  allocation_isPending a; delayed := delayed a |}.
Definition set_options (a : Allocator) (x : Options) : Allocator :=
  {| initialized := initialized a; paused := paused a; options := x; slaves
  := slaves a; frameworks := frameworks a; roles := roles a; quotaGuarantees
  := quotaGuarantees a; reservationScalarQuantities :=
  reservationScalarQuantities a; roleSorter := roleSorter a; quotaRoleSorter
  := quotaRoleSorter a; frameworkSorters := frameworkSorters a;
  allocationCandidates := allocationCandidates a; expectedAgentCount :=
  expectedAgentCount a; whitelist := whitelist a; allocation_isPending :=
  allocation_isPending a; delayed := delayed a |}.
Definition set_slaves (a : Allocator) (x : gmap SlaveID Slave) : Allocator :=
  {| initialized := initialized a; paused := paused a; options := options a;
  slaves := x; frameworks := frameworks a; roles := roles a; quotaGuarantees
  := quotaGuarantees a; reservationScalarQuantities :=
  reservationScalarQuantities a; roleSorter := roleSorter a; quotaRoleSorter
  := quotaRoleSorter a; frameworkSorters := frameworkSorters a;
  allocationCandidates := allocationCandidates a; expectedAgentCount :=
  expectedAgentCount a; whitelist := whitelist a; allocation_isPending :=
  allocation_isPending a; delayed := delayed a |}.
Definition set_frameworks (a : Allocator) (x : gmap FrameworkID Framework) : Allocator :=
  {| initialized := initialized a; paused := paused a; options := options a;
  slaves := slaves a; frameworks := x; roles := roles a; quotaGuarantees :=
  quotaGuarantees a; reservationScalarQuantities :=
  reservationScalarQuantities a; roleSorter := roleSorter a; quotaRoleSorter
  := quotaRoleSorter a; frameworkSorters := frameworkSorters a;
  allocationCandidates := allocationCandidates a; expectedAgentCount :=
  expectedAgentCount a; whitelist := whitelist a; allocation_isPending :=
  allocation_isPending a; delayed := delayed a |}.
Definition set_roles (a : Allocator) (x : gmap string (gset FrameworkID)) : Allocator :=
  {| initialized := initialized a; paused := paused a; options := options a;
  slaves := slaves a; frameworks := frameworks a; roles := x;
  quotaGuarantees := quotaGuarantees a; reservationScalarQuantities :=
  reservationScalarQuantities a; roleSorter := roleSorter a; quotaRoleSorter
  := quotaRoleSorter a; frameworkSorters := frameworkSorters a;
  allocationCandidates := allocationCandidates a; expectedAgentCount :=
  expectedAgentCount a; whitelist := whitelist a; allocation_isPending :=
  allocation_isPending a; delayed := delayed a |}.
Definition set_quotaGuarantees (a : Allocator) (x : gmap string ResourceQuantities) : Allocator :=
  {| initialized := initialized a; paused := paused a; options := options a;
  slaves := slaves a; frameworks := frameworks a; roles := roles a;
  quotaGuarantees := x; reservationScalarQuantities :=
  reservationScalarQuantities a; roleSorter := roleSorter a; quotaRoleSorter
  := quotaRoleSorter a; frameworkSorters := frameworkSorters a;
  allocationCandidates := allocationCandidates a; expectedAgentCount :=
  expectedAgentCount a; whitelist := whitelist a; allocation_isPending :=
  allocation_isPending a; delayed := delayed a |}.
Definition set_reservationScalarQuantities (a : Allocator) (x : gmap string ResourceQuantities) : Allocator :=
  {| initialized := initialized a; paused := paused a; options := options a;
  slaves := slaves a; frameworks := frameworks a; roles := roles a;
  quotaGuarantees := quotaGuarantees a; reservationScalarQuantities := x;
  roleSorter := roleSorter a; quotaRoleSorter := quotaRoleSorter a;
  frameworkSorters := frameworkSorters a; allocationCandidates :=
  allocationCandidates a; expectedAgentCount := expectedAgentCount a;
  whitelist := whitelist a; allocation_isPending := allocation_isPending a;
  delayed := delayed a |}.
Definition set_roleSorter (a : Allocator) (x : Sorter) : Allocator :=
  {| initialized := initialized a; paused := paused a; options := options a;
  slaves := slaves a; frameworks := frameworks a; roles := roles a;
  quotaGuarantees := quotaGuarantees a; reservationScalarQuantities :=
  reservationScalarQuantities a; roleSorter := x; quotaRoleSorter :=
  quotaRoleSorter a; frameworkSorters := frameworkSorters a;
  allocationCandidates := allocationCandidates a; expectedAgentCount :=
  expectedAgentCount a; whitelist := whitelist a; allocation_isPending :=
  allocation_isPending a; delayed := delayed a |}.
Definition set_quotaRoleSorter (a : Allocator) (x : Sorter) : Allocator :=
  {| initialized := initialized a; paused := paused a; options := options a;
  slaves := slaves a; frameworks := frameworks a; roles := roles a;
  quotaGuarantees := quotaGuarantees a; reservationScalarQuantities :=
  reservationScalarQuantities a; roleSorter := roleSorter a; quotaRoleSorter
  := x; frameworkSorters := frameworkSorters a; allocationCandidates :=
  allocationCandidates a; expectedAgentCount := expectedAgentCount a;
  whitelist := whitelist a; allocation_isPending := allocation_isPending a;
  delayed := delayed a |}.
Definition set_frameworkSorters (a : Allocator) (x : gmap string Sorter) : Allocator :=
  {| initialized := initialized a; paused := paused a; options := options a;
  slaves := slaves a; frameworks := frameworks a; roles := roles a;
  quotaGuarantees := quotaGuarantees a; reservationScalarQuantities :=
  reservationScalarQuantities a; roleSorter := roleSorter a; quotaRoleSorter
  := quotaRoleSorter a; frameworkSorters := x; allocationCandidates :=
  allocationCandidates a; expectedAgentCount := expectedAgentCount a;
  whitelist := whitelist a; allocation_isPending := allocation_isPending a;
  delayed := delayed a |}.
Definition set_allocationCandidates (a : Allocator) (x : gset SlaveID) : Allocator :=
  {| initialized := initialized a; paused := paused a; options := options a;
  slaves := slaves a; frameworks := frameworks a; roles := roles a;
  quotaGuarantees := quotaGuarantees a; reservationScalarQuantities :=
  reservationScalarQuantities a; roleSorter := roleSorter a; quotaRoleSorter
  := quotaRoleSorter a; frameworkSorters := frameworkSorters a;
  allocationCandidates := x; expectedAgentCount := expectedAgentCount a;
  whitelist := whitelist a; allocation_isPending := allocation_isPending a;
  delayed := delayed a |}.
Definition set_expectedAgentCount (a : Allocator) (x : option Z) : Allocator :=
  {| initialized := initialized a; paused := paused a; options := options a;
  slaves := slaves a; frameworks := frameworks a; roles := roles a;
  quotaGuarantees := quotaGuarantees a; reservationScalarQuantities :=
  reservationScalarQuantities a; roleSorter := roleSorter a; quotaRoleSorter
  := quotaRoleSorter a; frameworkSorters := frameworkSorters a;
  allocationCandidates := allocationCandidates a; expectedAgentCount := x;
  whitelist := whitelist a; allocation_isPending := allocation_isPending a;
  delayed := delayed a |}.
Definition set_whitelist (a : Allocator) (x : option (gset string)) : Allocator :=
  {| initialized := initialized a; paused := paused a; options := options a;
  slaves := slaves a; frameworks := frameworks a; roles := roles a;
  quotaGuarantees := quotaGuarantees a; reservationScalarQuantities :=
  reservationScalarQuantities a; roleSorter := roleSorter a; quotaRoleSorter
  := quotaRoleSorter a; frameworkSorters := frameworkSorters a;
  allocationCandidates := allocationCandidates a; expectedAgentCount :=
  expectedAgentCount a; whitelist := x; allocation_isPending :=
  allocation_isPending a; delayed := delayed a |}.
Definition set_allocation_isPending (a : Allocator) (x : bool) : Allocator :=
  {| initialized := initialized a; paused := paused a; options := options a;
  slaves := slaves a; frameworks := frameworks a; roles := roles a;
  quotaGuarantees := quotaGuarantees a; reservationScalarQuantities :=
  reservationScalarQuantities a; roleSorter := roleSorter a; quotaRoleSorter
  := quotaRoleSorter a; frameworkSorters := frameworkSorters a;
  allocationCandidates := allocationCandidates a; expectedAgentCount :=
  expectedAgentCount a; whitelist := whitelist a; allocation_isPending := x;
  delayed := delayed a |}.
Definition set_delayed (a : Allocator) (x : list (Duration * DelayedCall)) : Allocator :=
  {| initialized := initialized a; paused := paused a; options := options a;
  slaves := slaves a; frameworks := frameworks a; roles := roles a;
  quotaGuarantees := quotaGuarantees a; reservationScalarQuantities :=
  reservationScalarQuantities a; roleSorter := roleSorter a; quotaRoleSorter
  := quotaRoleSorter a; frameworkSorters := frameworkSorters a;
  allocationCandidates := allocationCandidates a; expectedAgentCount :=
  expectedAgentCount a; whitelist := whitelist a; allocation_isPending :=
  allocation_isPending a; delayed := x |}.

End AllocatorState.

(** What the allocator leaves to its environment: the DRF order of a sorter,
    the random shuffles, and the default of [Filters.refuse_seconds]. *)
Class AllocatorEnv `{RA : ResourcesAlgebra} := {
  drf_order : Sorter -> list string;
  shuffle_slaves : list SlaveID -> list SlaveID;
  shuffle_resources : list Resource -> list Resource;
  default_refuse_seconds : Z;
}.

(** ** Role names *)

(** [strings::contains(role, "/")]. *)
Fixpoint contains_slash (s : string) : bool :=
  match s with
  | EmptyString => false
  | String c s' => if Ascii.eqb c "/"%char then true else contains_slash s'
  end.

(** [role.substr(0, role.find('/'))]. *)
Fixpoint before_slash (s : string) : string :=
  match s with
  | EmptyString => EmptyString
  | String c s' => if Ascii.eqb c "/"%char then EmptyString
                   else String c (before_slash s')
  end.

Definition topLevelRole (role : string) : string :=
  if contains_slash role then before_slash role else role.

Fixpoint ancestors_aux (pre s : string) : list string :=
  match s with
  | EmptyString => []
  | String c s' =>
      if Ascii.eqb c "/"%char then pre :: ancestors_aux (pre +:+ "/") s'
      else ancestors_aux (pre +:+ String c EmptyString) s'
  end.

(** Modelled from the spec: [roles::ancestors] (mesos/roles), the ancestors
    of a slash-delimited hierarchical role name "up to the root", nearest
    first: the ancestors of "a/b/c" are "a/b" and "a". *)
Definition ancestors (role : string) : list string :=
  rev (ancestors_aux EmptyString role).

(** ** Operations of the allocator *)

Section Operations.
Context `{RA : ResourcesAlgebra} `{Env : !AllocatorEnv}.

(** [Sorter::sort]: the active clients, in DRF order. *)
Definition sort (s : Sorter) : list string :=
  List.filter (client_isActive s) (drf_order s).

Definition map_isEmpty {V : Type} (m : gmap string V) : bool :=
  bool_decide (dom m = ∅).

Definition map_contains {V : Type} (m : gmap string V) (k : string) : bool :=
  bool_decide (k ∈ dom m).

(** [m[k] += q] on a map of quantities. *)
Definition rq_map_add (m : gmap string ResourceQuantities) (k : string)
    (q : ResourceQuantities) : gmap string ResourceQuantities :=
  <[k := rq_add (default ∅ (m !! k)) q]> m.

(** [m[k] += r] on a map of resources. *)
Definition r_map_add (m : gmap string Resources) (k : string)
    (r : Resources) : gmap string Resources :=
  <[k := r_plus (default r_none (m !! k)) r]> m.

Definition pause (a : Allocator) : Allocator :=
  if negb (paused a) then set_paused a true else a.

Definition resume (a : Allocator) : Allocator :=
  if paused a then set_paused a false else a.

(** [allocate(slaveIds)]: coalesce the candidates and dispatch [_allocate]
    unless one is already in flight. *)
Definition allocate (a : Allocator) (slaveIds : gset SlaveID) : Allocator :=
  if paused a then a
  else
    let a1 := set_allocationCandidates a (allocationCandidates a ∪ slaveIds) in
    if negb (allocation_isPending a1) then set_allocation_isPending a1 true
    else a1.

Definition allocateAll (a : Allocator) : Allocator :=
  allocate a (dom (slaves a)).

Definition isFrameworkTrackedUnderRole (a : Allocator) (f : FrameworkID)
    (role : string) : bool :=
  match roles a !! role with
  | Some fws => bool_decide (f ∈ fws)
  | None => false
  end.

Definition trackFrameworkUnderRole (a : Allocator) (f : FrameworkID)
    (role : string) : option Allocator :=
  CHECK (initialized a);;
  a1 ← (if map_contains (roles a) role then Some a
        else
          let a' := set_roles a (<[role := ∅]> (roles a)) in
          CHECK (negb (sorter_contains (roleSorter a') role));;
          let a' := set_roleSorter a'
            (sorter_activate (sorter_add (roleSorter a') role) role) in
          CHECK (negb (map_contains (frameworkSorters a') role));;
          let fs := foldl (fun s kv =>
                      sorter_addSlave s (si_id (info kv.2)) (getTotal kv.2))
                    newSorter (map_to_list (slaves a')) in
          Some (set_frameworkSorters a' (<[role := fs]> (frameworkSorters a'))));
  fws ← roles a1 !! role;
  CHECK (negb (bool_decide (f ∈ fws)));;
  let a2 := set_roles a1 (<[role := {[f]} ∪ fws]> (roles a1)) in
  fs ← frameworkSorters a2 !! role;
  CHECK (negb (sorter_contains fs f));;
  Some (set_frameworkSorters a2
          (<[role := sorter_add fs f]> (frameworkSorters a2))).

Definition untrackFrameworkUnderRole (a : Allocator) (f : FrameworkID)
    (role : string) : option Allocator :=
  CHECK (initialized a);;
  fws ← roles a !! role;
  CHECK (bool_decide (f ∈ fws));;
  fs ← frameworkSorters a !! role;
  CHECK (sorter_contains fs f);;
  let fws' := fws ∖ {[f]} in
  let fs' := sorter_remove fs f in
  let a1 := set_frameworkSorters
              (set_roles a (<[role := fws']> (roles a)))
              (<[role := fs']> (frameworkSorters a)) in
  if bool_decide (fws' = ∅) then
    CHECK (bool_decide (sorter_count fs' = 0%nat));;
    Some (set_frameworkSorters
            (set_roleSorter
               (set_roles a1 (delete role (roles a1)))
               (sorter_remove (roleSorter a1) role))
            (delete role (frameworkSorters a1)))
  else Some a1.

Definition trackAllocatedResources (a : Allocator) (slaveId : SlaveID)
    (f : FrameworkID) (allocated_ : Resources) : option Allocator :=
  CHECK (map_contains (slaves a) slaveId);;
  CHECK (map_contains (frameworks a) f);;
  foreach (map_to_list (r_allocations allocated_))
    (fun '(role, allocation) a =>
       a1 ← (if negb (isFrameworkTrackedUnderRole a f role)
             then trackFrameworkUnderRole a f role else Some a);
       CHECK (sorter_contains (roleSorter a1) role);;
       fs ← frameworkSorters a1 !! role;
       CHECK (sorter_contains fs f);;
       let a2 := set_roleSorter a1
                   (sorter_allocated (roleSorter a1) role slaveId allocation) in
       let a3 := set_frameworkSorters a2
                   (<[role := sorter_allocated fs f slaveId allocation]>
                      (frameworkSorters a2)) in
       let a4 := if map_contains (quotaGuarantees a3) role
                 then set_quotaRoleSorter a3
                        (sorter_allocated (quotaRoleSorter a3) role slaveId
                           (nonRevocable allocation))
                 else a3 in
       Some (Continue, a4))
    a.

Definition untrackAllocatedResources (a : Allocator) (slaveId : SlaveID)
    (f : FrameworkID) (allocated_ : Resources) : option Allocator :=
  CHECK (map_contains (frameworks a) f);;
  foreach (map_to_list (r_allocations allocated_))
    (fun '(role, allocation) a =>
       CHECK (sorter_contains (roleSorter a) role);;
       fs ← frameworkSorters a !! role;
       CHECK (sorter_contains fs f);;
       let a1 := set_frameworkSorters a
                   (<[role := sorter_unallocated fs f slaveId allocation]>
                      (frameworkSorters a)) in
       let a2 := set_roleSorter a1
                   (sorter_unallocated (roleSorter a1) role slaveId
                      allocation) in
       let a3 := if map_contains (quotaGuarantees a2) role
                 then set_quotaRoleSorter a2
                        (sorter_unallocated (quotaRoleSorter a2) role slaveId
                           (nonRevocable allocation))
                 else a2 in
       Some (Continue, a3))
    a.

Definition trackReservations (a : Allocator)
    (reservations : gmap string Resources) : Allocator :=
  foldl (fun a '(role, resources) =>
      let quantities := fromScalarResources (scalars resources) in
      if rq_empty quantities then a
      else
        set_reservationScalarQuantities a
          (foldl (fun m r => rq_map_add m r quantities)
             (reservationScalarQuantities a) (role :: ancestors role)))
    a (map_to_list reservations).

Definition untrackReservations (a : Allocator)
    (reservations : gmap string Resources) : option Allocator :=
  foreach (map_to_list reservations)
    (fun '(role, resources) a =>
       let quantities := fromScalarResources (scalars resources) in
       if rq_empty quantities then Some (Continue, a)
       else
         a' ← foreach (role :: ancestors role)
                (fun r a =>
                   current ← reservationScalarQuantities a !! r;
                   CHECK (rq_contains current quantities);;
                   let current' := rq_sub current quantities in
                   Some (Continue,
                         set_reservationScalarQuantities a
                           (if rq_empty current'
                            then delete r (reservationScalarQuantities a)
                            else <[r := current']>
                                   (reservationScalarQuantities a))))
                a;
         Some (Continue, a'))
    a.

(** [oldReservations != newReservations] on maps of resources. *)
Definition reservations_eqb (m1 m2 : gmap string Resources) : bool :=
  bool_decide (dom m1 = dom m2) &&
  forallb (fun kv => match m2 !! kv.1 with
                     | Some v => r_eqb kv.2 v
                     | None => false
                     end) (map_to_list m1).

Definition updateSlaveTotal (a : Allocator) (slaveId : SlaveID)
    (total_ : Resources) : option (bool * Allocator) :=
  slave ← slaves a !! slaveId;
  let oldTotal := getTotal slave in
  if r_eqb oldTotal total_ then Some (false, a)
  else
    let a1 := set_slaves a
                (<[slaveId := slave_updateTotal slave total_]> (slaves a)) in
    let oldReservations := r_reservations oldTotal in
    let newReservations := r_reservations total_ in
    a2 ← (if negb (reservations_eqb oldReservations newReservations)
          then a' ← untrackReservations a1 oldReservations;
               Some (trackReservations a' newReservations)
          else Some a1);
    let a3 := set_roleSorter a2
                (sorter_addSlave
                   (sorter_removeSlave (roleSorter a2) slaveId oldTotal)
                   slaveId total_) in
    let a4 := set_frameworkSorters a3
                ((fun s => sorter_addSlave
                             (sorter_removeSlave s slaveId oldTotal)
                             slaveId total_) <$> frameworkSorters a3) in
    let a5 := set_quotaRoleSorter a4
                (sorter_addSlave
                   (sorter_removeSlave (quotaRoleSorter a4) slaveId
                      (nonRevocable oldTotal))
                   slaveId (nonRevocable total_)) in
    Some (true, a5).

(** The value of a [Future<Nothing>] returned to the master. *)
Inductive FutureNothing := Failure | Nothing.

Definition updateAvailable (a : Allocator) (slaveId : SlaveID)
    (operations : list Operation) : option (FutureNothing * Allocator) :=
  CHECK (initialized a);;
  slave ← slaves a !! slaveId;
  match r_apply (getAvailable slave) operations with
  | None => Some (Failure, a)
  | Some _ =>
      updatedTotal ← r_apply (getTotal slave) operations;
      r ← updateSlaveTotal a slaveId updatedTotal;
      Some (Nothing, r.2)
  end.

(** The refuse timeout of a [Filters] message: clamped to 365 days when too
    large, the default when negative or when no [Duration] can be created
    from it. [None] is a failed [CHECK_SOME(timeout)]. *)
Definition refuseTimeout (filters : Filters) : option Duration :=
  if bool_decide (Days 365 < refuse_seconds filters) then Some (Days 365)
  else if bool_decide (refuse_seconds filters < 0)
       then Duration_create default_refuse_seconds
  else match Duration_create (refuse_seconds filters) with
       | Some t => Some t
       | None => Duration_create default_refuse_seconds
       end.

(** [frameworks.at(f).offerFilters[role][slaveId].insert(offerFilter)]. *)
Definition installOfferFilter (fw : Framework) (role : string)
    (slaveId : SlaveID) (flt : OfferFilter) : Framework :=
  let roleFilters := default ∅ (offerFilters fw !! role) in
  let agentFilters := default [] (roleFilters !! slaveId) in
  fw_setOfferFilters fw
    (<[role := <[slaveId := flt :: agentFilters]> roleFilters]>
       (offerFilters fw)).

Definition recoverResources (a : Allocator) (f : FrameworkID)
    (slaveId : SlaveID) (resources : Resources) (filters : option Filters)
    : option Allocator :=
  CHECK (initialized a);;
  if r_empty resources then Some a
  else
    let allocations := r_allocations resources in
    CHECK (bool_decide (size allocations = 1%nat));;
    role ← fst <$> head (map_to_list allocations);
    a1 ← (if map_contains (frameworks a) f then
            fs ← frameworkSorters a !! role;
            if sorter_contains fs f then
              a' ← untrackAllocatedResources a slaveId f resources;
              fw ← frameworks a' !! f;
              fs' ← frameworkSorters a' !! role;
              if bool_decide (role ∉ fw_roles fw) &&
                 map_isEmpty (sorter_allocation fs' f)
              then untrackFrameworkUnderRole a' f role
              else Some a'
            else Some a
          else Some a);
    a2 ← (if map_contains (slaves a1) slaveId then
            slave ← slaves a1 !! slaveId;
            CHECK (r_contains (getAllocated slave) resources);;
            Some (set_slaves a1
                    (<[slaveId := slave_unallocate slave resources]>
                       (slaves a1)))
          else Some a1);
    match filters with
    | None => Some a2
    | Some flt =>
        if negb (map_contains (frameworks a2) f) ||
           negb (map_contains (slaves a2) slaveId)
        then Some a2
        else
          timeout ← refuseTimeout flt;
          if negb (timeout =? 0) then
            let timeout' := Z.max (allocationInterval (options a2)) timeout in
            let unallocated := r_unallocate resources in
            let offerFilter := {| of_resources := unallocated;
                                  of_timeout := timeout' |} in
            fw ← frameworks a2 !! f;
            Some (set_frameworks a2
                    (<[f := installOfferFilter fw role slaveId offerFilter]>
                       (frameworks a2)))
          else Some a2
    end.

Definition isWhitelisted (a : Allocator) (slaveId : SlaveID) : option bool :=
  slave ← slaves a !! slaveId;
  Some (match whitelist a with
        | None => true
        | Some w => bool_decide (si_hostname (info slave) ∈ w)
        end).

(** [isFiltered(frameworkId, role, slaveId, resources)]. *)
Definition isFiltered (a : Allocator) (f : FrameworkID) (role : string)
    (slaveId : SlaveID) (resources : Resources) : option bool :=
  framework ← frameworks a !! f;
  slave ← slaves a !! slaveId;
  if fc_multiRole (fw_capabilities framework) &&
     negb (sc_multiRole (slave_capabilities slave))
  then Some true
  else if negb (sc_hierarchicalRole (slave_capabilities slave)) &&
          contains_slash role
  then Some true
  else
    match offerFilters framework !! role with
    | None => Some false
    | Some roleFilters =>
        match roleFilters !! slaveId with
        | None => Some false
        | Some agentFilters =>
            Some (existsb (fun flt => of_filter flt resources) agentFilters)
        end
    end.

(** [isFiltered(frameworkId, slaveId)], for inverse offers. *)
Definition isFilteredInverse (a : Allocator) (f : FrameworkID)
    (slaveId : SlaveID) : option bool :=
  framework ← frameworks a !! f;
  CHECK (map_contains (slaves a) slaveId);;
  match inverseOfferFilters framework !! slaveId with
  | Some flts => Some (existsb iof_filter flts)
  | None => Some false
  end.

Definition allocatable (a : Allocator) (resources : Resources)
    (role : string) (framework : Framework) : bool :=
  if r_empty resources then false
  else
    let _minAllocatableResources := opt_minAllocatableResources (options a) in
    let _minAllocatableResources :=
      match minAllocatableResources framework !! role with
      | Some l => Some l
      | None => _minAllocatableResources
      end in
    match _minAllocatableResources with
    | None => true
    | Some l =>
        if bool_decide (l = []) then true
        else existsb (fun qs => r_containsQ resources qs) l
    end.

Definition isRemoteSlave (a : Allocator) (slave : Slave) : option bool :=
  match si_domain (info slave) with
  | None => Some false
  | Some d =>
      match fault_domain_region d with
      | None => Some false
      | Some slaveRegion =>
          md ← opt_domain (options a);
          masterRegion ← fault_domain_region md;
          Some (negb (bool_decide (masterRegion = slaveRegion)))
      end
  end.

Definition isCapableOfReceivingAgent (a : Allocator)
    (frameworkCapabilities : FrameworkCapabilities) (slave : Slave)
    : option bool :=
  if filterGpuResources (options a) &&
     negb (fc_gpuResources frameworkCapabilities) && hasGpu slave
  then Some false
  else if negb (fc_regionAware frameworkCapabilities) then
    remote ← isRemoteSlave a slave;
    Some (negb remote)
  else Some true.

Definition stripIncapableResources (resources : Resources)
    (frameworkCapabilities : FrameworkCapabilities) : Resources :=
  r_filter (fun resource =>
    if negb (fc_sharedResources frameworkCapabilities) &&
       res_isShared resource then false
    else if negb (fc_revocableResources frameworkCapabilities) &&
            res_isRevocable resource then false
    else if negb (fc_reservationRefinement frameworkCapabilities) &&
            res_hasRefinedReservations resource then false
    else true) resources.

Definition setQuota (a : Allocator) (role : string) (quota : Quota)
    : option Allocator :=
  CHECK (initialized a);;
  CHECK (negb (map_contains (quotaGuarantees a) role));;
  let a1 := set_quotaGuarantees a
              (<[role := fromScalarResources (guarantee quota)]>
                 (quotaGuarantees a)) in
  let a2 := set_quotaRoleSorter a1
              (sorter_activate (sorter_add (quotaRoleSorter a1) role) role) in
  if sorter_contains (roleSorter a2) role then
    Some (foldl (fun a '(slaveId, resources) =>
                   set_quotaRoleSorter a
                     (sorter_allocated (quotaRoleSorter a) role slaveId
                        (nonRevocable resources)))
            a2 (map_to_list (sorter_allocation (roleSorter a2) role)))
  else Some a2.

Definition ALLOCATION_HOLD_OFF_RECOVERY_TIMEOUT : Duration := Minutes 10.

(** [static_cast<int>(_expectedAgentCount * AGENT_RECOVERY_FACTOR)] with the
    factor 0.8: for a non-negative [int] the product is truncated to the
    integer part of four fifths of the count. *)
Definition agentRecoveryCount (_expectedAgentCount : Z) : Z :=
  _expectedAgentCount * 4 / 5.

Definition recover (a : Allocator) (_expectedAgentCount : Z)
    (quotas : gmap string Quota) : option Allocator :=
  CHECK (initialized a);;
  CHECK (map_isEmpty (slaves a));;
  CHECK (bool_decide (sorter_count (quotaRoleSorter a) = 0%nat));;
  CHECK (bool_decide (0 <= _expectedAgentCount));;
  if map_isEmpty quotas then Some a
  else
    a1 ← foreach (map_to_list quotas)
           (fun '(role, quota) a =>
              a' ← setQuota a role quota; Some (Continue, a'))
           a;
    let a2 := set_expectedAgentCount a1
                (Some (agentRecoveryCount _expectedAgentCount)) in
    if bool_decide (expectedAgentCount a2 = Some 0) then Some a2
    else
      let a3 := pause a2 in
      Some (set_delayed a3
              ((ALLOCATION_HOLD_OFF_RECOVERY_TIMEOUT, CallResume)
                 :: delayed a3)).

Definition addSlave (a : Allocator) (slaveId : SlaveID)
    (slaveInfo : SlaveInfo) (capabilities : SlaveCapabilities)
    (unavailability_ : option Unavailability) (total_ : Resources)
    (used : gmap FrameworkID Resources) : option Allocator :=
  CHECK (initialized a);;
  CHECK (negb (map_contains (slaves a) slaveId));;
  CHECK (bool_decide (slaveId = si_id slaveInfo));;
  CHECK (negb (paused a) || bool_decide (is_Some (expectedAgentCount a)));;
  let slave := {| info := slaveInfo; slave_capabilities := capabilities;
                  activated := true; total := total_;
                  allocated := r_sum used; maintenance := None |} in
  let slave := match unavailability_ with
               | Some u => slave_setMaintenance slave (Some (newMaintenance u))
               | None => slave
               end in
  let a1 := set_slaves a (<[slaveId := slave]> (slaves a)) in
  let a2 := trackReservations a1 (r_reservations total_) in
  let a3 := set_roleSorter a2 (sorter_addSlave (roleSorter a2) slaveId total_) in
  let a4 := set_frameworkSorters a3
              ((fun s => sorter_addSlave s slaveId total_)
                 <$> frameworkSorters a3) in
  let a5 := set_quotaRoleSorter a4
              (sorter_addSlave (quotaRoleSorter a4) slaveId
                 (nonRevocable total_)) in
  a6 ← foreach (map_to_list used)
         (fun '(f, allocation) a =>
            if negb (map_contains (frameworks a) f) then Some (Continue, a)
            else a' ← trackAllocatedResources a slaveId f allocation;
                 Some (Continue, a'))
         a5;
  let a7 :=
    match expectedAgentCount a6 with
    | Some e =>
        if paused a6 && bool_decide (e <= Z.of_nat (size (slaves a6)))
        then resume (set_expectedAgentCount a6 None)
        else a6
    | None => a6
    end in
  Some (allocate a7 {[slaveId]}).

Definition updateInverseOffer (a : Allocator) (slaveId : SlaveID)
    (f : FrameworkID) (status : option InverseOfferStatus)
    (filters : option Filters) : option Allocator :=
  CHECK (initialized a);;
  framework ← frameworks a !! f;
  slave ← slaves a !! slaveId;
  maintenance_ ← maintenance slave;
  a1 ← (if bool_decide (f ∈ offersOutstanding maintenance_) then
          statuses' ← match status with
                      | Some st =>
                          CHECK (negb (status_isUnknown st));;
                          Some (<[f := st]> (statuses maintenance_))
                      | None => Some (statuses maintenance_)
                      end;
          let m' := {| unavailability := unavailability maintenance_;
                       offersOutstanding :=
                         offersOutstanding maintenance_ ∖ {[f]};
                       statuses := statuses' |} in
          Some (set_slaves a
                  (<[slaveId := slave_setMaintenance slave (Some m')]>
                     (slaves a)))
        else Some a);
  match filters with
  | None => Some a1
  | Some flt =>
      timeout ← refuseTimeout flt;
      if negb (timeout =? 0) then
        let inverseOfferFilter := {| iof_timeout := timeout;
                                     expired_isPending := true |} in
        let flts := default [] (inverseOfferFilters framework !! slaveId) in
        Some (set_frameworks a1
                (<[f := fw_setInverseOfferFilters framework
                          (<[slaveId := inverseOfferFilter :: flts]>
                             (inverseOfferFilters framework))]>
                   (frameworks a1)))
      else Some a1
  end.

(** *** The allocation run *)

(** The local variables of [__allocate]. *)
Record Locals := {
  offerable : gmap FrameworkID (gmap string (gmap SlaveID Resources));
  rolesConsumedQuota : gmap string ResourceQuantities;
  requiredHeadroom : ResourceQuantities;
  availableHeadroom : ResourceQuantities;
  offeredSharedResources : gmap SlaveID Resources;
  heldBackForHeadroom : ResourceQuantities;
  heldBackAgentCount : nat;
}.

(** [offerable[frameworkId][role][slaveId] += toAllocate]. *)
Definition offerable_add
    (m : gmap FrameworkID (gmap string (gmap SlaveID Resources)))
    (f : FrameworkID) (role : string) (slaveId : SlaveID) (r : Resources)
    : gmap FrameworkID (gmap string (gmap SlaveID Resources)) :=
  let mf := default ∅ (m !! f) in
  let mr := default ∅ (mf !! role) in
  <[f := <[role := r_map_add mr slaveId r]> mf]> m.

(** The [shrinkResources] lambda. *)
Definition shrinkResources (resources : Resources)
    (target : ResourceQuantities) : Resources :=
  if rq_empty target then r_none
  else
    let resourceVector := shuffle_resources (r_items resources) in
    (foldl (fun '(result, target) resource =>
        let scalar := rq_get target (res_name resource) in
        if (scalar =? 0)%N then (result, target)
        else match res_shrink resource scalar with
             | Some resource' =>
                 (r_plus result (r_of resource'),
                  rq_sub target (fromScalarResources (r_of resource')))
             | None => (result, target)
             end)
       (r_none, target) resourceVector).1.

(** Seeding of [rolesConsumedQuota]: reservations first, then the unreserved
    allocation of every tracked role, charged to its top-level role. *)
Definition seedConsumedQuota (a : Allocator)
    : gmap string ResourceQuantities :=
  let m1 := foldl (fun m '(role, _) =>
                rq_map_add m role
                  (default ∅ (reservationScalarQuantities a !! role)))
              ∅ (map_to_list (quotaGuarantees a)) in
  foldl (fun m '(role, _) =>
      let topLevelRole_ := topLevelRole role in
      if negb (map_contains (quotaGuarantees a) topLevelRole_) then m
      else if sorter_contains (roleSorter a) role then
        foldl (fun m '(_, resources) =>
            rq_map_add m topLevelRole_
              (fromScalarResources
                 (scalars (nonRevocable (unreserved resources)))))
          m (map_to_list (sorter_allocation (roleSorter a) role))
      else m)
    m1 (map_to_list (roles a)).

Definition seedRequiredHeadroom (a : Allocator)
    (consumed : gmap string ResourceQuantities) : ResourceQuantities :=
  foldl (fun required '(role, guarantee_) =>
      rq_add required
        (rq_sub guarantee_ (default ∅ (consumed !! role))))
    ∅ (map_to_list (quotaGuarantees a)).

Definition seedAvailableHeadroom (a : Allocator) : ResourceQuantities :=
  let availableHeadroom_ := totalScalarQuantities (roleSorter a) in
  let availableHeadroom_ :=
    rq_sub availableHeadroom_ (allocationScalarQuantities (roleSorter a)) in
  let totalAllocatedReservation :=
    foldl (fun acc '(role, _) =>
        if negb (sorter_contains (roleSorter a) role) then acc
        else
          foldl (fun acc '(_, resources) =>
              rq_add acc (fromScalarResources (scalars (reservedAny resources))))
            acc (map_to_list (sorter_allocation (roleSorter a) role)))
      ∅ (map_to_list (roles a)) in
  let totalReservation :=
    foldl (fun acc '(role, q) =>
        if negb (contains_slash role) then rq_add acc q else acc)
      ∅ (map_to_list (reservationScalarQuantities a)) in
  let availableHeadroom_ :=
    rq_sub availableHeadroom_
      (rq_sub totalReservation totalAllocatedReservation) in
  foldl (fun acc '(_, slave) =>
      rq_sub acc
        (fromScalarResources (scalars (revocable (getAvailable slave)))))
    availableHeadroom_ (map_to_list (slaves a)).

Definition seedLocals (a : Allocator) : Locals :=
  let consumed := seedConsumedQuota a in
  {| offerable := ∅;
     rolesConsumedQuota := consumed;
     requiredHeadroom := seedRequiredHeadroom a consumed;
     availableHeadroom := seedAvailableHeadroom a;
     offeredSharedResources := ∅;
     heldBackForHeadroom := ∅;
     heldBackAgentCount := 0 |}.

(** The tail of both stages once [toAllocate] is accepted: record the offer
    and the shared resources, allocate on the agent and in the sorters. The
    headroom bookkeeping differs per stage and is passed in. *)
Definition commitAllocation (a : Allocator) (f : FrameworkID)
    (role : string) (slaveId : SlaveID) (toAllocate : Resources)
    : option Allocator :=
  slave ← slaves a !! slaveId;
  let a1 := set_slaves a
              (<[slaveId := slave_allocate slave toAllocate]> (slaves a)) in
  trackAllocatedResources a1 slaveId f toAllocate.

(** One framework of the first stage (quota guarantee). *)
Definition stage1_framework (slaveId : SlaveID) (role : string)
    (quotaGuarantee : ResourceQuantities) (f : FrameworkID)
    (st : Allocator * Locals) : option (LoopCtl * (Allocator * Locals)) :=
  let '(a, loc) := st in
  slave ← slaves a !! slaveId;
  let available := getAvailable slave in
  let available :=
    r_minus available
      (default r_none (offeredSharedResources loc !! slaveId)) in
  if r_empty (allocatableTo role available) then Some (Break, st)
  else
    framework ← frameworks a !! f;
    CHECK (active framework);;
    capable ← isCapableOfReceivingAgent a (fw_capabilities framework) slave;
    if negb capable then Some (Continue, st)
    else
      let available :=
        stripIncapableResources available (fw_capabilities framework) in
      let toAllocate := nonRevocable (reserved role available) in
      let unsatisfiedQuotaGuarantee :=
        rq_sub quotaGuarantee
          (default ∅ (rolesConsumedQuota loc !! role)) in
      let unreserved_ := unreserved (nonRevocable available) in
      let newQuotaAllocation :=
        shrinkResources unreserved_ unsatisfiedQuotaGuarantee in
      let toAllocate := r_plus toAllocate newQuotaAllocation in
      if r_empty toAllocate then Some (Continue, st)
      else
        let nonQuotaGuaranteeResources :=
          r_filter (fun resource =>
            (rq_get quotaGuarantee (res_name resource) =? 0)%N) unreserved_ in
        let surplusHeadroom :=
          rq_sub (availableHeadroom loc) (requiredHeadroom loc) in
        let nonQuotaGuaranteeResources :=
          shrinkResources nonQuotaGuaranteeResources surplusHeadroom in
        let toAllocate := r_plus toAllocate nonQuotaGuaranteeResources in
        let toAllocate :=
          r_plus toAllocate
            (r_filter (fun resource => negb (res_isScalar resource))
               unreserved_) in
        filtered ← (if negb (allocatable a toAllocate role framework)
                    then Some true
                    else isFiltered a f role slaveId toAllocate);
        if (filtered : bool) then Some (Continue, st)
        else
          let toAllocate := r_allocate role toAllocate in
          let allocatedUnreserved :=
            fromScalarResources (scalars (unreserved toAllocate)) in
          let loc' :=
            {| offerable :=
                 offerable_add (offerable loc) f role slaveId toAllocate;
               rolesConsumedQuota :=
                 foldl (fun m r => rq_map_add m r allocatedUnreserved)
                   (rolesConsumedQuota loc) (role :: ancestors role);
               requiredHeadroom :=
                 rq_sub (requiredHeadroom loc)
                   (fromScalarResources (scalars newQuotaAllocation));
               availableHeadroom :=
                 rq_sub (availableHeadroom loc) allocatedUnreserved;
               offeredSharedResources :=
                 r_map_add (offeredSharedResources loc) slaveId
                   (shared toAllocate);
               heldBackForHeadroom := heldBackForHeadroom loc;
               heldBackAgentCount := heldBackAgentCount loc |} in
          a' ← commitAllocation a f role slaveId toAllocate;
          Some (Continue, (a', loc')).

Definition stage1_role (slaveId : SlaveID) (role : string)
    (st : Allocator * Locals) : option (LoopCtl * (Allocator * Locals)) :=
  quotaGuarantee ← quotaGuarantees st.1 !! role;
  if negb (map_contains (roles st.1) role) then Some (Continue, st)
  else
    slave ← slaves st.1 !! slaveId;
    if r_empty (getAvailable slave) then Some (Break, st)
    else
      frameworkSorter ← frameworkSorters st.1 !! role;
      st' ← foreach (sort frameworkSorter)
              (stage1_framework slaveId role quotaGuarantee) st;
      Some (Continue, st').

Definition stage1_slave (slaveId : SlaveID) (st : Allocator * Locals)
    : option (LoopCtl * (Allocator * Locals)) :=
  CHECK (map_contains (slaves st.1) slaveId);;
  st' ← foreach (sort (quotaRoleSorter st.1)) (stage1_role slaveId) st;
  Some (Continue, st').

(** One framework of the second stage (above the guarantee). *)
Definition stage2_framework (slaveId : SlaveID) (role : string)
    (f : FrameworkID) (st : Allocator * Locals)
    : option (LoopCtl * (Allocator * Locals)) :=
  let '(a, loc) := st in
  slave ← slaves a !! slaveId;
  let available := getAvailable slave in
  let available :=
    r_minus available
      (default r_none (offeredSharedResources loc !! slaveId)) in
  if r_empty (allocatableTo role available) then Some (Break, st)
  else
    framework ← frameworks a !! f;
    capable ← isCapableOfReceivingAgent a (fw_capabilities framework) slave;
    if negb capable then Some (Continue, st)
    else
      let available :=
        stripIncapableResources available (fw_capabilities framework) in
      let toAllocate := allocatableTo role available in
      let headroomResources :=
        nonRevocable (unreserved (scalars toAllocate)) in
      let headroomToAllocate := fromScalarResources headroomResources in
      let sufficientHeadroom :=
        rq_contains (rq_sub (availableHeadroom loc) headroomToAllocate)
          (requiredHeadroom loc) in
      let toAllocate :=
        if negb sufficientHeadroom then r_minus toAllocate headroomResources
        else toAllocate in
      let loc1 :=
        if negb sufficientHeadroom then
          {| offerable := offerable loc;
             rolesConsumedQuota := rolesConsumedQuota loc;
             requiredHeadroom := requiredHeadroom loc;
             availableHeadroom := availableHeadroom loc;
             offeredSharedResources := offeredSharedResources loc;
             heldBackForHeadroom :=
               rq_add (heldBackForHeadroom loc) headroomToAllocate;
             heldBackAgentCount := S (heldBackAgentCount loc) |}
        else loc in
      filtered ← (if negb (allocatable a toAllocate role framework)
                  then Some true
                  else isFiltered a f role slaveId toAllocate);
      if (filtered : bool) then Some (Continue, (a, loc1))
      else
        let toAllocate := r_allocate role toAllocate in
        let loc2 :=
          {| offerable :=
               offerable_add (offerable loc1) f role slaveId toAllocate;
             rolesConsumedQuota := rolesConsumedQuota loc1;
             requiredHeadroom := requiredHeadroom loc1;
             availableHeadroom :=
               if sufficientHeadroom
               then rq_sub (availableHeadroom loc1) headroomToAllocate
               else availableHeadroom loc1;
             offeredSharedResources :=
               r_map_add (offeredSharedResources loc1) slaveId
                 (shared toAllocate);
             heldBackForHeadroom := heldBackForHeadroom loc1;
             heldBackAgentCount := heldBackAgentCount loc1 |} in
        a' ← commitAllocation a f role slaveId toAllocate;
        Some (Continue, (a', loc2)).

Definition stage2_role (slaveId : SlaveID) (role : string)
    (st : Allocator * Locals) : option (LoopCtl * (Allocator * Locals)) :=
  if map_contains (quotaGuarantees st.1) role then Some (Continue, st)
  else
    slave ← slaves st.1 !! slaveId;
    if r_empty (getAvailable slave) then Some (Break, st)
    else
      frameworkSorter ← frameworkSorters st.1 !! role;
      st' ← foreach (sort frameworkSorter)
              (stage2_framework slaveId role) st;
      Some (Continue, st').

Definition stage2_slave (slaveId : SlaveID) (st : Allocator * Locals)
    : option (LoopCtl * (Allocator * Locals)) :=
  CHECK (map_contains (slaves st.1) slaveId);;
  st' ← foreach (sort (roleSorter st.1)) (stage2_role slaveId) st;
  Some (Continue, st').

(** The candidates that are whitelisted, present and activated. *)
Definition candidateSlaves (a : Allocator) : option (list SlaveID) :=
  foreach (elements (allocationCandidates a))
    (fun slaveId acc =>
       w ← isWhitelisted a slaveId;
       if w && map_contains (slaves a) slaveId &&
          default false (activated <$> slaves a !! slaveId)
       then Some (Continue, acc ++ [slaveId])
       else Some (Continue, acc))
    [].

(** What a run hands to the master: the [offerCallback] invocations, and the
    final headroom figures that the run logs. *)
Record AllocationRun := {
  run_state : Allocator;
  run_locals : Locals;
  run_offers : list (FrameworkID * gmap string (gmap SlaveID Resources));
}.

Definition __allocate (a : Allocator) : option AllocationRun :=
  candidates ← candidateSlaves a;
  let slaveIds := shuffle_slaves candidates in
  st1 ← foreach slaveIds stage1_slave (a, seedLocals a);
  st2 ← foreach slaveIds stage2_slave st1;
  Some {| run_state := st2.1; run_locals := st2.2;
          run_offers := map_to_list (offerable st2.2) |}.

(** *** Inverse offers *)

Record UnavailableResources := {
  ur_resources : Resources;
  ur_unavailability : Unavailability;
}.

Abbreviation InverseOfferable :=
  (gmap FrameworkID (gmap SlaveID UnavailableResources)) (only parsing).

Definition deallocate_framework (slaveId : SlaveID) (f : FrameworkID)
    (st : Allocator * InverseOfferable)
    : option (LoopCtl * (Allocator * InverseOfferable)) :=
  let '(a, offerable_) := st in
  framework ← frameworks a !! f;
  if negb (active framework) then Some (Continue, st)
  else
    slave ← slaves a !! slaveId;
    maintenance_ ← maintenance slave;
    let forFramework := default ∅ (offerable_ !! f) in
    let offerable_ := <[f := forFramework]> offerable_ in
    if negb (map_contains forFramework slaveId) then
      if negb (bool_decide (f ∈ offersOutstanding maintenance_)) then
        filtered ← isFilteredInverse a f slaveId;
        if (filtered : bool) then Some (Continue, (a, offerable_))
        else
          let unavailableResources :=
            {| ur_resources := r_none;
               ur_unavailability := unavailability maintenance_ |} in
          let offerable_ :=
            <[f := <[slaveId := unavailableResources]> forFramework]>
              offerable_ in
          let m' := {| unavailability := unavailability maintenance_;
                       offersOutstanding :=
                         {[f]} ∪ offersOutstanding maintenance_;
                       statuses := statuses maintenance_ |} in
          Some (Continue,
                (set_slaves a
                   (<[slaveId := slave_setMaintenance slave (Some m')]>
                      (slaves a)),
                 offerable_))
      else Some (Continue, (a, offerable_))
    else Some (Continue, (a, offerable_)).

Definition deallocate_slave (frameworkSorter : Sorter) (slaveId : SlaveID)
    (st : Allocator * InverseOfferable)
    : option (LoopCtl * (Allocator * InverseOfferable)) :=
  slave ← slaves st.1 !! slaveId;
  match maintenance slave with
  | Some _ =>
      let allocation := sorter_allocationOn frameworkSorter slaveId in
      st' ← foreach (map_to_list allocation).*1
              (deallocate_framework slaveId) st;
      Some (Continue, st')
  | None => Some (Continue, st)
  end.

Definition deallocate_sorter (frameworkSorter : Sorter)
    (st : Allocator * InverseOfferable)
    : option (LoopCtl * (Allocator * InverseOfferable)) :=
  st' ← foreach (elements (allocationCandidates st.1))
          (deallocate_slave frameworkSorter) st;
  Some (Continue, st').

(** [deallocate]: the new state and the [inverseOfferCallback] invocations. *)
Definition deallocate (a : Allocator)
    : option (Allocator *
              list (FrameworkID * gmap SlaveID UnavailableResources)) :=
  if map_isEmpty (roles a) then Some (a, [])
  else
    CHECK (negb (map_isEmpty (frameworkSorters a)));;
    st ← foreach (map_to_list (frameworkSorters a)).*2
           deallocate_sorter (a, ∅);
    Some (st.1, map_to_list st.2).

(** [_allocate]: one dispatched run, allocation then deallocation. *)
Definition _allocate (a : Allocator)
    : option (Allocator *
              list (FrameworkID * gmap string (gmap SlaveID Resources)) *
              list (FrameworkID * gmap SlaveID UnavailableResources)) :=
  let a := set_allocation_isPending a false in
  if paused a then Some (a, [], [])
  else
    run ← __allocate a;
    d ← deallocate (run_state run);
    Some (set_allocationCandidates d.1 ∅, run_offers run, d.2).

(** *** Initialization and framework registration *)

(** The state after [initialize(options, ...)]: nothing registered yet. *)
Definition initialize (_options : Options) : Allocator :=
  {| initialized := true; paused := false; options := _options;
     slaves := ∅; frameworks := ∅; roles := ∅; quotaGuarantees := ∅;
     reservationScalarQuantities := ∅; roleSorter := newSorter;
     quotaRoleSorter := newSorter; frameworkSorters := ∅;
     allocationCandidates := ∅; expectedAgentCount := None;
     whitelist := None; allocation_isPending := false; delayed := [] |}.

(** The parts of a [FrameworkInfo] that the allocator reads: the roles, the
    capabilities, and per role the optional [min_allocatable_resources] of
    its [offer_filters]. *)
Record FrameworkInfo := {
  fi_roles : gset string;
  fi_capabilities : FrameworkCapabilities;
  fi_offer_filters : gmap string (option (list ResourceQuantities));
}.

Definition unpackFrameworkOfferFilters
    (roleOfferFilters : gmap string (option (list ResourceQuantities)))
    : gmap string (list ResourceQuantities) :=
  omap id roleOfferFilters.

Definition newFramework (frameworkInfo : FrameworkInfo)
    (_suppressedRoles : gset string) (_active : bool) : Framework :=
  {| fw_roles := fi_roles frameworkInfo;
     suppressedRoles := _suppressedRoles;
     fw_capabilities := fi_capabilities frameworkInfo;
     active := _active;
     offerFilters := ∅;
     inverseOfferFilters := ∅;
     minAllocatableResources :=
       unpackFrameworkOfferFilters (fi_offer_filters frameworkInfo) |}.

Definition deactivateFramework (a : Allocator) (f : FrameworkID)
    : option Allocator :=
  CHECK (initialized a);;
  framework ← frameworks a !! f;
  a1 ← foreach (elements (fw_roles framework))
         (fun role a =>
            fs ← frameworkSorters a !! role;
            Some (Continue,
                  set_frameworkSorters a
                    (<[role := sorter_deactivate fs f]> (frameworkSorters a))))
         a;
  let framework' :=
    {| fw_roles := fw_roles framework;
       suppressedRoles := suppressedRoles framework;
       fw_capabilities := fw_capabilities framework;
       active := false;
       offerFilters := ∅;
       inverseOfferFilters := ∅;
       minAllocatableResources := minAllocatableResources framework |} in
  Some (set_frameworks a1 (<[f := framework']> (frameworks a1))).

Definition addFramework (a : Allocator) (f : FrameworkID)
    (frameworkInfo : FrameworkInfo) (used : gmap SlaveID Resources)
    (active_ : bool) (suppressedRoles_ : gset string) : option Allocator :=
  CHECK (initialized a);;
  CHECK (negb (map_contains (frameworks a) f));;
  let framework := newFramework frameworkInfo suppressedRoles_ active_ in
  let a1 := set_frameworks a (<[f := framework]> (frameworks a)) in
  a2 ← foreach (elements (fw_roles framework))
         (fun role a =>
            a' ← trackFrameworkUnderRole a f role;
            fs ← frameworkSorters a' !! role;
            let fs' := if bool_decide (role ∈ suppressedRoles_)
                       then sorter_deactivate fs f
                       else sorter_activate fs f in
            Some (Continue,
                  set_frameworkSorters a'
                    (<[role := fs']> (frameworkSorters a'))))
         a1;
  a3 ← foreach (map_to_list used)
         (fun '(slaveId, resources) a =>
            if negb (map_contains (slaves a) slaveId) then Some (Continue, a)
            else a' ← trackAllocatedResources a slaveId f resources;
                 Some (Continue, a'))
         a2;
  if active_ then Some (allocateAll a3) else deactivateFramework a3 f.

(** [updateUnavailability]: drops the inverse-offer filters for the agent and
    replaces its maintenance. *)
Definition updateUnavailability (a : Allocator) (slaveId : SlaveID)
    (unavailability_ : option Unavailability) : option Allocator :=
  CHECK (initialized a);;
  slave ← slaves a !! slaveId;
  let a1 := set_frameworks a
              ((fun fw => fw_setInverseOfferFilters fw
                            (delete slaveId (inverseOfferFilters fw)))
                 <$> frameworks a) in
  let slave' := slave_setMaintenance slave (newMaintenance <$> unavailability_) in
  Some (allocate (set_slaves a1 (<[slaveId := slave']> (slaves a1)))
          {[slaveId]}).

End Operations.

(** ** Vocabulary of the properties *)

Section Vocabulary.
Context `{RA : ResourcesAlgebra} `{Env : !AllocatorEnv}.

(** The part of the state that decides whether a filter may be installed. *)
Definition sameRegistry (a b : Allocator) : Prop :=
  frameworks b = frameworks a /\ dom (slaves b) = dom (slaves a) /\
  options b = options a.

(** The offer filters stored for a role and an agent in a framework. *)
Definition storedOfferFilters (fw : Framework) (role : string)
    (s : SlaveID) : list OfferFilter :=
  default [] (offerFilters fw !! role ≫= fun m => m !! s).

(** Everything but the role registry, the sorters and the reservation
    tracker is the same in [a] and [b]. *)
Definition sameOutsideTracking (a b : Allocator) : Prop :=
  initialized b = initialized a /\ paused b = paused a /\
  options b = options a /\ slaves b = slaves a /\
  frameworks b = frameworks a /\ quotaGuarantees b = quotaGuarantees a /\
  allocationCandidates b = allocationCandidates a /\
  expectedAgentCount b = expectedAgentCount a /\
  whitelist b = whitelist a /\
  allocation_isPending b = allocation_isPending a /\
  delayed b = delayed a.

(** What [setQuota] leaves alone. *)
Definition sameOutsideQuota (a b : Allocator) : Prop :=
  initialized b = initialized a /\ paused b = paused a /\
  slaves b = slaves a /\ expectedAgentCount b = expectedAgentCount a /\
  delayed b = delayed a.

(** The sorter records [r] as the total of agent [s]. *)
Definition sorterKnows (S : Sorter) (s : SlaveID) (r : Resources) : Prop :=
  default r_none (sorter_total S !! s) = r.


(** The quantity of [name] recorded for key [k]. *)
Definition mget (m : gmap string ResourceQuantities) (k name : string) : N :=
  rq_get (default ∅ (m !! k)) name.

Definition N_sum (l : list N) : N := foldr N.add 0%N l.

(** *** Quantities, in the words of the spec

    The spec speaks of portions of resources ("the unreserved non-revocable
    scalar portion") and of their quantities per resource name. Both are
    read here off the entries of a [Resources] value, without the selection
    functions of the code. *)

(** The amount of the resource [name] in the entries of [r] that [p]
    selects. *)
Definition quantity (p : Resource -> bool) (r : Resources) (name : string)
    : N :=
  N_sum ((fun x => if p x && String.eqb (res_name x) name
                   then res_scalar x else 0%N) <$> r_items r).

Definition anyResource : Resource -> bool := fun _ => true.

(** Two entries that differ at most in their amount and in the role they
    are allocated to: same name, same type, same reservation, same
    revocability. *)
Definition sameFlags (x y : Resource) : Prop :=
  res_name x = res_name y /\ res_isScalar x = res_isScalar y /\
  res_isUnreserved x = res_isUnreserved y /\
  res_isRevocable x = res_isRevocable y /\
  forall r, res_isReserved x r = res_isReserved y r.

(** A selection that looks at nothing else. *)
Definition byFlags (p : Resource -> bool) : Prop :=
  forall x y, sameFlags x y -> p x = p y.

(** [a] covers [b]: name by name, [a] holds at least what [b] holds. *)
Definition covers (a b : ResourceQuantities) : Prop :=
  forall n, (rq_get b n <= rq_get a n)%N.

(** Either the available headroom covers the required headroom, or the
    engine recorded that it held resources back. *)
Definition headroomKept (loc : Locals) : Prop :=
  covers (availableHeadroom loc) (requiredHeadroom loc) \/
  (0 < heldBackAgentCount loc)%nat.

(** *** The second stage, in the words of the spec *)

(** The unreserved non-revocable scalar portion of a candidate allocation. *)
Definition headroomPortion (candidate : Resources) : Resources :=
  r_filter (fun x => res_isScalar x && res_isUnreserved x &&
                     negb (res_isRevocable x)) candidate.

(** Taking [portion] out of the available headroom leaves the required
    headroom covered. *)
Definition headroomSuffices (loc : Locals) (portion : Resources) : Prop :=
  forall n, (rq_get (requiredHeadroom loc) n <=
             rq_get (availableHeadroom loc) n - quantity anyResource portion n)%N.

(** An offer goes out when it meets the minimum allocatable resources and no
    filter of the framework refuses it. *)
Definition offerAccepted (a : Allocator) (f : FrameworkID) (role : string)
    (s : SlaveID) (fw : Framework) (offer : Resources) : Prop :=
  allocatable a offer role fw = true /\
  isFiltered a f role s offer = Some false.

Definition offerRejected (a : Allocator) (f : FrameworkID) (role : string)
    (s : SlaveID) (fw : Framework) (offer : Resources) : Prop :=
  allocatable a offer role fw = false \/
  isFiltered a f role s offer = Some true.

(** [offer], allocated to the role, was added to what the run offers to the
    framework for the role on the agent. *)
Definition offerRecorded (loc loc' : Locals) (f : FrameworkID)
    (role : string) (s : SlaveID) (offer : Resources) : Prop :=
  offerable loc' =
    offerable_add (offerable loc) f role s (r_allocate role offer).

(** The held-back counters went up by one agent and by the quantities of
    [portion]. *)
Definition heldBack (loc loc' : Locals) (portion : Resources) : Prop :=
  heldBackAgentCount loc' = S (heldBackAgentCount loc) /\
  forall n, rq_get (heldBackForHeadroom loc') n =
            (rq_get (heldBackForHeadroom loc) n +
             quantity anyResource portion n)%N.

Definition nothingHeldBack (loc loc' : Locals) : Prop :=
  heldBackAgentCount loc' = heldBackAgentCount loc /\
  heldBackForHeadroom loc' = heldBackForHeadroom loc.

(** *** The first stage, in the words of the spec *)

(** The reserved-for-role non-revocable resources. *)
Definition reservedNonRevocable (role : string) (available : Resources)
    : Resources :=
  r_filter (fun x => res_isReserved x (Some role) &&
                     negb (res_isRevocable x)) available.

(** The unreserved non-revocable resources. *)
Definition unreservedNonRevocable (available : Resources) : Resources :=
  r_filter (fun x => negb (res_isRevocable x) && res_isUnreserved x)
    available.

(** Of these, the resources whose name has no quota guarantee, and the
    non-scalar ones. *)
Definition withoutGuarantee (quotaGuarantee : ResourceQuantities)
    (pool : Resources) : Resources :=
  r_filter (fun x => (rq_get quotaGuarantee (res_name x) =? 0)%N) pool.

Definition nonScalar (pool : Resources) : Resources :=
  r_filter (fun x => negb (res_isScalar x)) pool.

(** Every entry of [pool] can be shrunk to any target. *)
Definition divisible (pool : Resources) : Prop :=
  forall x t, x ∈ r_items pool -> is_Some (res_shrink x t).

(** [part] is [pool] shrunk to [target]: per name it holds at most the
    target; whatever the selection, it holds no more than the pool; and
    when the pool is divisible it holds, per name, the smaller of the pool's
    quantity and the target. *)
Definition shrunkTo (pool : Resources) (target : ResourceQuantities)
    (part : Resources) : Prop :=
  (forall n, (quantity anyResource part n <= rq_get target n)%N) /\
  (forall p, byFlags p ->
     forall n, (quantity p part n <= quantity p pool n)%N) /\
  (divisible pool ->
     forall n, quantity anyResource part n =
               N.min (quantity anyResource pool n) (rq_get target n)).

(** *** The seeding of the headroom, in the words of the spec *)

(** [r] is [role] or one of its subroles: [r] is [role] followed by nothing
    or by "/" and more. *)
Definition isRoleOrSubrole (role r : string) : bool :=
  String.eqb r role || String.prefix (role +:+ "/") r.

(** The quantity of [name] that a role's allocation on one agent charges
    against quota: its unreserved non-revocable scalars. *)
Definition chargedQuantity (name : string) (resources : Resources) : N :=
  quantity (fun x => res_isUnreserved x && negb (res_isRevocable x) &&
                     res_isScalar x) resources name.

(** Consumed quota of a top-level role: the hierarchically aggregated
    reservations of the role plus, over the role and its subroles known to
    the role sorter, the allocations restricted to unreserved non-revocable
    scalars. *)
Definition consumedQuota_spec (a : Allocator) (role name : string) : N :=
  (rq_get (default ∅ (reservationScalarQuantities a !! role)) name +
   N_sum ((fun '(r, _) =>
             if isRoleOrSubrole role r && sorter_contains (roleSorter a) r
             then N_sum ((fun '(_, resources) =>
                            chargedQuantity name resources)
                           <$> map_to_list (sorter_allocation (roleSorter a) r))
             else 0) <$> map_to_list (roles a)))%N.

(** Required headroom: the sum over the quota'ed roles of
    [max(0, guarantee - consumed)]; subtraction on [N] is truncated. *)
Definition requiredHeadroom_spec (a : Allocator) (name : string) : N :=
  N_sum ((fun '(role, guarantee_) =>
            rq_get guarantee_ name - consumedQuota_spec a role name)%N
           <$> map_to_list (quotaGuarantees a)).

(** Available headroom: total minus allocated, minus unallocated
    reservations (those of the top-level roles minus the allocated ones),
    minus unallocated revocable scalars of every agent. *)
Definition availableHeadroom_spec (a : Allocator) (name : string) : N :=
  let totalCluster :=
    N_sum ((fun '(_, r) => quantity res_isScalar r name)
             <$> map_to_list (sorter_total (roleSorter a))) in
  let allocated_ :=
    N_sum ((fun '(_, c) =>
              N_sum ((fun '(_, r) => quantity res_isScalar r name)
                       <$> map_to_list (client_allocation c)))
             <$> map_to_list (clients (roleSorter a))) in
  let totalReservation :=
    N_sum ((fun '(role, q) =>
              if contains_slash role then 0%N else rq_get q name)
             <$> map_to_list (reservationScalarQuantities a)) in
  let allocatedReservation :=
    N_sum ((fun '(role, _) =>
              if sorter_contains (roleSorter a) role
              then N_sum ((fun '(_, r) =>
                             quantity (fun x => res_isReserved x None &&
                                                res_isScalar x) r name)
                            <$> map_to_list
                                  (sorter_allocation (roleSorter a) role))
              else 0%N) <$> map_to_list (roles a)) in
  let unallocatedRevocable :=
    N_sum ((fun '(_, sl) =>
              quantity (fun x => res_isRevocable x && res_isScalar x)
                (getAvailable sl) name)
             <$> map_to_list (slaves a)) in
  (totalCluster - allocated_ - (totalReservation - allocatedReservation)
   - unallocatedRevocable)%N.

(** The inverse offer collected for a framework and an agent, if any. *)
Definition offAt (off : gmap FrameworkID (gmap SlaveID UnavailableResources))
    (f : FrameworkID) (s : SlaveID) : option UnavailableResources :=
  off !! f ≫= fun m => m !! s.

(** The framework holds an allocation on the agent in some framework
    sorter. *)
Definition holdsAllocationOn (a : Allocator) (f : FrameworkID)
    (s : SlaveID) : Prop :=
  exists role fs, frameworkSorters a !! role = Some fs /\
                  is_Some (sorter_allocationOn fs s !! f).

(** The conditions on the framework and the agent themselves: maintenance
    is set on the agent, the framework is active, no inverse offer is
    outstanding, no inverse-offer filter is pending; [u] is the inverse
    offer to send. *)
Definition inverseOfferOpen (a : Allocator) (f : FrameworkID) (s : SlaveID)
    (u : UnavailableResources) : Prop :=
  exists sl mt fw,
    slaves a !! s = Some sl /\ maintenance sl = Some mt /\
    frameworks a !! f = Some fw /\ active fw = true /\
    (f ∉ offersOutstanding mt) /\
    existsb iof_filter (default [] (inverseOfferFilters fw !! s)) = false /\
    u = {| ur_resources := r_none;
           ur_unavailability := unavailability mt |}.

(** An inverse offer is due in state [a]. *)
Definition inverseOfferDue (a : Allocator) (f : FrameworkID) (s : SlaveID)
    (u : UnavailableResources) : Prop :=
  s ∈ allocationCandidates a /\ holdsAllocationOn a f s /\
  inverseOfferOpen a f s u.

(** The inverse-offer callbacks carry [u] for the framework and agent. *)
Definition emitted
    (offers : list (FrameworkID * gmap SlaveID UnavailableResources))
    (f : FrameworkID) (s : SlaveID) (u : UnavailableResources) : Prop :=
  exists m, (f, m) ∈ offers /\ m !! s = Some u.

(** The agent [s] has [f] among its outstanding inverse offers. *)
Definition outstandingIn (a : Allocator) (f : FrameworkID) (s : SlaveID)
    : Prop :=
  exists sl mt, slaves a !! s = Some sl /\ maintenance sl = Some mt /\
                f ∈ offersOutstanding mt.

(** How the agents of [ac] relate to those of [a0] when the inverse offers
    [off] were collected in between: only the outstanding sets grew, by the
    frameworks collected for the agent. *)
Definition slavesAfter (a0 ac : Allocator)
    (off : gmap FrameworkID (gmap SlaveID UnavailableResources)) : Prop :=
  forall s,
    match slaves a0 !! s, slaves ac !! s with
    | Some sl, Some sl' =>
        match maintenance sl, maintenance sl' with
        | Some mt, Some mt' =>
            unavailability mt' = unavailability mt /\
            forall f, f ∈ offersOutstanding mt' <->
                      (f ∈ offersOutstanding mt \/ is_Some (offAt off f s))
        | None, None => True
        | _, _ => False
        end
    | None, None => True
    | _, _ => False
    end.

(** The invariant of the deallocation pass over the pairs [V] visited so
    far. *)
Definition deallocInv (a0 : Allocator) (V : FrameworkID -> SlaveID -> Prop)
    (st : Allocator *
          gmap FrameworkID (gmap SlaveID UnavailableResources)) : Prop :=
  frameworks st.1 = frameworks a0 /\
  allocationCandidates st.1 = allocationCandidates a0 /\
  frameworkSorters st.1 = frameworkSorters a0 /\
  roles st.1 = roles a0 /\
  slavesAfter a0 st.1 st.2 /\
  forall f s u,
    offAt st.2 f s = Some u <-> (V f s /\ inverseOfferOpen a0 f s u).

(** Maintenance is set on the agent. *)
Definition hasMaintenance (a : Allocator) (s : SlaveID) : Prop :=
  exists sl mt, slaves a !! s = Some sl /\ maintenance sl = Some mt.

End Vocabulary.

(** The laws of the Resources algebra that the properties of totals rest
    on: subtracting a value from itself leaves nothing, adding to nothing
    changes nothing, empty resources are the empty value, and [==] is
    equality. *)
Class ResourcesLaws `{RA : ResourcesAlgebra} : Prop := {
  r_minus_diag : forall x, r_empty (r_minus x x) = true;
  r_plus_none_l : forall y, r_plus r_none y = y;
  r_empty_none : forall y, r_empty y = true -> y = r_none;
  r_eqb_eq : forall x y, r_eqb x y = true -> x = y;
}.

(** The laws of selections and quantities. Selections compose; the entries
    of a selection are the selected entries; the quantities of a sum are the
    sums of the quantities, whatever the selection by name, type,
    reservation and revocability; a single resource holds its amount under
    its name; allocating to a role changes no such quantity; shrinking a
    resource changes nothing but its amount, which becomes the smaller of
    the amount and the target; and what is reserved for a role is not
    unreserved. *)
Class SelectionLaws `{RA : ResourcesAlgebra} : Prop := {
  r_filter_filter : forall p q x,
    r_filter p (r_filter q x) = r_filter (fun i => q i && p i) x;
  r_items_filter : forall p x,
    r_items (r_filter p x) ≡ₚ List.filter p (r_items x);
  r_items_none : r_items r_none = [];
  quantity_plus : forall p, byFlags p -> forall x y n,
    quantity p (r_plus x y) n = (quantity p x n + quantity p y n)%N;
  quantity_of : forall p x n,
    quantity p (r_of x) n =
      if p x && String.eqb (res_name x) n then res_scalar x else 0%N;
  quantity_allocate : forall p, byFlags p -> forall role x n,
    quantity p (r_allocate role x) n = quantity p x n;
  res_shrink_spec : forall x t x', res_shrink x t = Some x' ->
    sameFlags x' x /\ res_scalar x' = N.min (res_scalar x) t;
  res_reserved_not_unreserved : forall x role,
    res_isReserved x (Some role) = true -> res_isUnreserved x = false;
}.

(** ** A concrete algebra: scalar resources

    An implementation of the interface in which a resource is an amount: a
    [Resources] value maps the identity of a resource (name, reservation
    role, revocable flag, allocation role) to a positive amount, which is the
    normal form that [Resources] keeps by merging addable entries. Every
    resource is a scalar but the one named "ports", which stands for a range
    of ports and is kept by the number of ports. It serves to run the
    allocator on concrete clusters. *)

Abbreviation SKey := (string * option string * bool * option string)%type
  (only parsing).

Section ScalarResources.

Record SResource := {
  s_name : string;
  s_role : option string;
  s_revocable : bool;
  s_alloc : option string;
  s_value : N;
}.

Definition s_key (r : SResource) : SKey :=
  (s_name r, s_role r, s_revocable r, s_alloc r).

Definition s_make (k : SKey) (v : N) : SResource :=
  {| s_name := k.1.1.1; s_role := k.1.1.2; s_revocable := k.1.2;
     s_alloc := k.2; s_value := v |}.

Definition s_items (m : gmap SKey N) : list SResource :=
  (fun kv => s_make kv.1 kv.2) <$> map_to_list m.

Definition s_of (r : SResource) : gmap SKey N :=
  if (s_value r =? 0)%N then ∅ else {[ s_key r := s_value r ]}.

Definition s_plus (a b : gmap SKey N) : gmap SKey N :=
  union_with (fun x y => Some (x + y)%N) a b.

Definition s_minus (a b : gmap SKey N) : gmap SKey N :=
  map_imap (fun k v =>
    let w := default 0%N (b !! k) in
    if (v <=? w)%N then None else Some (v - w)%N) a.

Definition s_contains (a b : gmap SKey N) : bool :=
  bool_decide (map_Forall (fun k v => (v <= default 0 (a !! k))%N) b).

Definition s_quantity (a : gmap SKey N) (name : string) : N :=
  foldr (fun r acc => if bool_decide (s_name r = name)
                      then (s_value r + acc)%N else acc) 0%N (s_items a).

Definition s_containsQ (a : gmap SKey N) (q : ResourceQuantities) : bool :=
  bool_decide (map_Forall (fun name v => (v <= s_quantity a name)%N) q).

Definition s_filter (p : SResource -> bool) (a : gmap SKey N) : gmap SKey N :=
  filter (fun kv => p (s_make kv.1 kv.2) = true) a.

(** Change the identity of every entry, merging entries that coincide. *)
Definition s_rekey (g : SKey -> SKey) (a : gmap SKey N) : gmap SKey N :=
  foldr (fun kv acc => s_plus {[ g kv.1 := kv.2 ]} acc) ∅ (map_to_list a).

Definition s_allocate (role : string) (a : gmap SKey N) : gmap SKey N :=
  s_rekey (fun k => (k.1, Some role)) a.

Definition s_unallocate (a : gmap SKey N) : gmap SKey N :=
  s_rekey (fun k => (k.1, None)) a.

(** Group the entries that carry a label (allocation or reservation role). *)
Definition s_group (label : SKey -> option string) (a : gmap SKey N)
    : gmap string (gmap SKey N) :=
  foldr (fun kv acc =>
      match label kv.1 with
      | Some role =>
          <[role := s_plus {[ kv.1 := kv.2 ]} (default ∅ (acc !! role))]> acc
      | None => acc
      end) ∅ (map_to_list a).

Definition s_allocations (a : gmap SKey N) : gmap string (gmap SKey N) :=
  s_group (fun k => k.2) a.

Definition s_reservations (a : gmap SKey N) : gmap string (gmap SKey N) :=
  s_group (fun k => k.1.1.2) a.

(** RESERVE and UNRESERVE, each naming the resources in their reserved
    form; the operation converts between them and their unreserved form. *)
Inductive SOperation :=
  | RESERVE (reserved_ : gmap SKey N)
  | UNRESERVE (reserved_ : gmap SKey N).

Definition s_toUnreserved (a : gmap SKey N) : gmap SKey N :=
  s_rekey (fun k => (k.1.1.1, None, k.1.2, k.2)) a.

Definition s_apply1 (a : gmap SKey N) (op : SOperation)
    : option (gmap SKey N) :=
  let '(consumed, converted) :=
    match op with
    | RESERVE r => (s_toUnreserved r, r)
    | UNRESERVE r => (r, s_toUnreserved r)
    end in
  if s_contains a consumed then Some (s_plus (s_minus a consumed) converted)
  else None.

Definition s_apply (a : gmap SKey N) (ops : list SOperation)
    : option (gmap SKey N) :=
  foldl (fun acc op => acc ≫= fun m => s_apply1 m op) (Some a) ops.

Definition s_isReserved (r : SResource) (role : option string) : bool :=
  match role, s_role r with
  | Some x, Some y => bool_decide (x = y)
  | None, Some _ => true
  | _, None => false
  end.

Definition s_isAllocatableTo (r : SResource) (role : string) : bool :=
  match s_role r with
  | None => true
  | Some y => bool_decide (role = y) || String.prefix (y +:+ "/") role
  end.

Definition s_shrink (r : SResource) (target : N) : option SResource :=
  if (s_value r <=? target)%N then Some r
  else Some {| s_name := s_name r; s_role := s_role r;
               s_revocable := s_revocable r; s_alloc := s_alloc r;
               s_value := target |}.

Definition scalarAlgebra : ResourcesAlgebra :=
  {| Resource := SResource;
     Resources := gmap SKey N;
     Operation := SOperation;
     r_items := s_items;
     r_of := s_of;
     r_none := ∅;
     r_empty := fun a => bool_decide (a = ∅);
     r_plus := s_plus;
     r_minus := s_minus;
     r_contains := s_contains;
     r_containsQ := s_containsQ;
     r_eqb := fun a b => bool_decide (a = b);
     r_filter := s_filter;
     r_allocate := s_allocate;
     r_unallocate := s_unallocate;
     r_allocations := s_allocations;
     r_reservations := s_reservations;
     r_apply := s_apply;
     res_name := s_name;
     res_scalar := s_value;
     res_isScalar := fun r => negb (String.eqb (s_name r) "ports");
     res_isReserved := s_isReserved;
     res_isUnreserved := fun r => bool_decide (s_role r = None);
     res_isAllocatableTo := s_isAllocatableTo;
     res_isRevocable := s_revocable;
     res_isShared := fun _ => false;
     res_hasRefinedReservations := fun _ => false;
     res_shrink := s_shrink |}.

(** A deterministic environment: clients in the order of the sorter's map, no
    shuffling, and the default [refuse_seconds] of five seconds. *)
Definition scalarEnv : @AllocatorEnv scalarAlgebra :=
  {| drf_order := fun s => (map_to_list (clients s)).*1;
     shuffle_slaves := fun l => l;
     shuffle_resources := fun l => l;
     default_refuse_seconds := Seconds 5 |}.

End ScalarResources.

(** ** Concrete clusters *)

Section Scenario.
#[local] Existing Instance scalarAlgebra.
#[local] Existing Instance scalarEnv.

(** A single resource; amounts are in thousandths, so [4000] is "4". *)
Definition res (name : string) (role : option string) (revocable_ : bool)
    (alloc : option string) (v : N) : Resources :=
  {[ (name, role, revocable_, alloc) := v ]}.

Definition ex_options : Options :=
  {| allocationInterval := Seconds 1; opt_minAllocatableResources := None;
     filterGpuResources := false; opt_domain := None |}.

Definition capsNone : FrameworkCapabilities :=
  {| fc_multiRole := false; fc_gpuResources := false;
     fc_regionAware := false; fc_sharedResources := false;
     fc_revocableResources := false; fc_reservationRefinement := false |}.

Definition capsMultiRole : FrameworkCapabilities :=
  {| fc_multiRole := true; fc_gpuResources := false;
     fc_regionAware := false; fc_sharedResources := false;
     fc_revocableResources := false; fc_reservationRefinement := false |}.

Definition fwInfo (role : string) (caps : FrameworkCapabilities)
    : FrameworkInfo :=
  {| fi_roles := {[role]}; fi_capabilities := caps; fi_offer_filters := ∅ |}.

Definition agentInfo (id : string) : SlaveInfo :=
  {| si_id := id; si_hostname := id; si_attributes := [];
     si_domain := None |}.

Definition agentCaps : SlaveCapabilities :=
  {| sc_multiRole := true; sc_hierarchicalRole := true |}.

Definition agentCapsOld : SlaveCapabilities :=
  {| sc_multiRole := false; sc_hierarchicalRole := false |}.

(** Cluster A: framework "f1" in role "r", agent "a1" with 4 cpus, and one
    allocation run, after which "f1" holds the 4 cpus. *)
Definition clusterA_registered : option Allocator :=
  a ← addFramework (initialize ex_options) "f1" (fwInfo "r" capsNone) ∅
        true ∅;
  addSlave a "a1" (agentInfo "a1") agentCaps None
    (res "cpus" None false None 4000) ∅.

Definition clusterA : option Allocator :=
  a ← clusterA_registered;
  r ← _allocate a;
  Some r.1.1.

(** Cluster B: a MULTI_ROLE framework and an agent without the MULTI_ROLE
    capability; no offer was ever declined. *)
Definition clusterB : option Allocator :=
  a ← addFramework (initialize ex_options) "f1" (fwInfo "r" capsMultiRole) ∅
        true ∅;
  addSlave a "a1" (agentInfo "a1") agentCapsOld None
    (res "cpus" None false None 4000) ∅.

(** Cluster C: role "q" has a guarantee of 10 cpus, the only agent has 8,
    and no framework is registered. *)
Definition clusterC : option Allocator :=
  a ← setQuota (initialize ex_options) "q"
        {| guarantee := res "cpus" None false None 10000 |};
  addSlave a "a1" (agentInfo "a1") agentCaps None
    (res "cpus" None false None 8000) ∅.

(** Cluster E: an agent whose total holds 4 unreserved cpus and 2 revocable
    cpus; nothing is allocated. *)
Definition clusterE : option Allocator :=
  addSlave (initialize ex_options) "a1" (agentInfo "a1") agentCaps None
    (s_plus (res "cpus" None false None 4000)
            (res "cpus" None true None 2000)) ∅.

(** Cluster M: framework "f1" in role "r" and agent "a1" with 4 cpus and
    maintenance scheduled; no run has taken place yet. *)
Definition maintenanceWindow : Unavailability :=
  {| un_start := 3600; un_duration := None |}.

Definition clusterM_registered : option Allocator :=
  a ← addFramework (initialize ex_options) "f1" (fwInfo "r" capsNone) ∅
        true ∅;
  addSlave a "a1" (agentInfo "a1") agentCaps (Some maintenanceWindow)
    (res "cpus" None false None 4000) ∅.

(** Cluster M after the allocation half of a run: the framework holds the
    agent's cpus, and no inverse offer was sent yet. *)
Definition clusterM : option Allocator :=
  a ← clusterM_registered;
  r ← __allocate a;
  Some (run_state r).

(** Cluster R: role "q" is guaranteed 4 cpus and framework "fq" is in that
    role; the agent has 8 unreserved cpus, 1 cpu reserved for "q", 16 of mem
    and 100 ports. *)
Definition totalR : Resources :=
  s_plus (s_plus (res "cpus" None false None 8000)
                 (res "cpus" (Some "q") false None 1000))
         (s_plus (res "mem" None false None 16000)
                 (res "ports" None false None 100)).

Definition clusterR : option Allocator :=
  a ← setQuota (initialize ex_options) "q"
        {| guarantee := res "cpus" None false None 4000 |};
  a ← addFramework a "fq" (fwInfo "q" capsNone) ∅ true ∅;
  addSlave a "a1" (agentInfo "a1") agentCaps None totalR ∅.

(** Cluster S: role "q" is guaranteed 10 cpus; framework "fs" is in the
    subrole "q/sub" and holds 2 of the 8 cpus of the agent. *)
Definition clusterS : option Allocator :=
  a ← setQuota (initialize ex_options) "q"
        {| guarantee := res "cpus" None false None 10000 |};
  a ← addFramework a "fs" (fwInfo "q/sub" capsNone) ∅ true ∅;
  addSlave a "a1" (agentInfo "a1") agentCaps None
    (res "cpus" None false None 8000)
    {[ "fs" := res "cpus" None false (Some "q/sub") 2000 ]}.

(** Cluster T: role "q" is guaranteed 4 cpus, framework "fq" is in that
    role and framework "f1" in the role "b" without quota; the agent has 8
    cpus. *)
Definition clusterT : option Allocator :=
  a ← setQuota (initialize ex_options) "q"
        {| guarantee := res "cpus" None false None 4000 |};
  a ← addFramework a "fq" (fwInfo "q" capsNone) ∅ true ∅;
  a ← addFramework a "f1" (fwInfo "b" capsNone) ∅ true ∅;
  addSlave a "a1" (agentInfo "a1") agentCaps None
    (res "cpus" None false None 8000) ∅.

(** Cluster H: role "q" is guaranteed 4 cpus and has no framework;
    framework "f1" is in the role "b"; the agent has 8 unreserved cpus and 2
    cpus reserved for "b". *)
Definition clusterH : option Allocator :=
  a ← setQuota (initialize ex_options) "q"
        {| guarantee := res "cpus" None false None 4000 |};
  a ← addFramework a "f1" (fwInfo "b" capsNone) ∅ true ∅;
  addSlave a "a1" (agentInfo "a1") agentCaps None
    (s_plus (res "cpus" None false None 8000)
            (res "cpus" (Some "b") false None 2000)) ∅.

(** Reading a cluster, an agent or a framework out of a scenario. *)
Definition stateOf (o : option Allocator) : Allocator :=
  default (initialize ex_options) o.

(** Cluster A after "f1" declined its 4 cpus with the given
    [refuse_seconds], and in particular for 30 seconds. *)
Definition declineA (refuse : Duration) : option Allocator :=
  recoverResources (stateOf clusterA) "f1" "a1"
    (res "cpus" None false (Some "r") 4000)
    (Some {| refuse_seconds := refuse |}).

Definition clusterA_declined : option Allocator := declineA (Seconds 30).

Definition slaveOf (a : Allocator) (s : SlaveID) : Slave :=
  default {| info := agentInfo s; slave_capabilities := agentCaps;
             activated := false; total := ∅; allocated := ∅;
             maintenance := None |} (slaves a !! s).

Definition frameworkOf (a : Allocator) (f : FrameworkID) : Framework :=
  default (newFramework (fwInfo "*" capsNone) ∅ false) (frameworks a !! f).

(** Reserving one of the agent's cpus for the role "r". *)
Definition reserveOneCpu : list Operation :=
  [RESERVE (res "cpus" (Some "r") false None 1000)].

(** The guarantee of the role "q" on cluster R. *)
Definition guaranteeQ : ResourceQuantities := {[ "cpus" := 4000%N ]}.

(** What is left on the agent of a cluster at the start of a run, for a
    framework: the agent's available resources without the shared resources
    offered in the run, stripped of what the framework cannot receive. *)
Definition availableAt (o : option Allocator) (s : SlaveID)
    (f : FrameworkID) : Resources :=
  stripIncapableResources
    (r_minus (getAvailable (slaveOf (stateOf o) s))
       (default r_none
          (offeredSharedResources (seedLocals (stateOf o)) !! s)))
    (fw_capabilities (frameworkOf (stateOf o) f)).

(** The first stage on cluster R for "fq" in role "q": the pool of
    unreserved non-revocable resources, the quota part, the surplus part and
    what is offered. *)
Definition poolR : Resources :=
  unreservedNonRevocable (availableAt clusterR "a1" "fq").

Definition quotaPartR : Resources :=
  shrinkResources poolR
    (rq_sub guaranteeQ
       (default ∅ (rolesConsumedQuota (seedLocals (stateOf clusterR)) !! "q"))).

Definition surplusPartR : Resources :=
  shrinkResources (withoutGuarantee guaranteeQ poolR)
    (rq_sub (availableHeadroom (seedLocals (stateOf clusterR)))
       (requiredHeadroom (seedLocals (stateOf clusterR)))).

Definition toAllocateR : Resources :=
  r_plus
    (r_plus
       (r_plus (reservedNonRevocable "q" (availableAt clusterR "a1" "fq"))
          quotaPartR)
       surplusPartR)
    (nonScalar poolR).

(** The second stage on cluster A for "f1" in role "r", and on cluster H for
    "f1" in role "b": the candidate and what is offered. *)
Definition candidateA : Resources :=
  r_filter (fun x => res_isAllocatableTo x "r")
    (availableAt clusterA_registered "a1" "f1").

Definition candidateH : Resources :=
  r_filter (fun x => res_isAllocatableTo x "b")
    (availableAt clusterH "a1" "f1").

Definition offerH : Resources :=
  r_minus candidateH (headroomPortion candidateH).

(** The state after an accepted offer is allocated; the state itself should
    the allocation abort. *)
Definition committed (o : option Allocator) (f : FrameworkID)
    (role : string) (s : SlaveID) (offer : Resources) : Allocator :=
  default (stateOf o)
    (commitAllocation (stateOf o) f role s (r_allocate role offer)).

(** The run on a cluster; the seeded state should the run abort. *)
Definition runOf (o : option Allocator) : AllocationRun :=
  default {| run_state := stateOf o; run_locals := seedLocals (stateOf o);
             run_offers := [] |}
    (__allocate (stateOf o)).

(** The deallocation pass on cluster M, and reserving a cpu on cluster E. *)
Definition passM
    : Allocator * list (FrameworkID * gmap SlaveID UnavailableResources) :=
  default (stateOf clusterM, []) (deallocate (stateOf clusterM)).

Definition resultE : FutureNothing * Allocator :=
  default (Failure, stateOf clusterE)
    (updateAvailable (stateOf clusterE) "a1" reserveOneCpu).

(** Offers and filters in readable form. *)
Definition showOffers
    (m : gmap FrameworkID (gmap string (gmap SlaveID Resources)))
    : list (FrameworkID * list (string * list (SlaveID * list (SKey * N)))) :=
  (fun x => (x.1, (fun y => (y.1, (fun z => (z.1, map_to_list z.2))
                                    <$> map_to_list y.2))
                    <$> map_to_list x.2)) <$> map_to_list m.

Definition showFilters (l : list OfferFilter)
    : list (list (SKey * N) * Duration) :=
  (fun flt => (map_to_list (of_resources flt), of_timeout flt)) <$> l.

(** The inverse-offer callbacks in readable form. *)
Definition showInverseOffers
    (l : list (FrameworkID * gmap SlaveID UnavailableResources))
    : list (FrameworkID * list (SlaveID * Unavailability)) :=
  (fun x => (x.1, (fun y => (y.1, ur_unavailability y.2))
                    <$> map_to_list x.2)) <$> l.

End Scenario.

(** ** Further operations of the allocator

    The remaining calls of the allocator interface on frameworks, agents,
    quota and the whitelist. *)

Section Lifecycle.
Context `{RA : ResourcesAlgebra} `{Env : !AllocatorEnv}.

Definition fw_setActive (f : Framework) (x : bool) : Framework :=
  {| fw_roles := fw_roles f; suppressedRoles := suppressedRoles f;
     fw_capabilities := fw_capabilities f; active := x;
     offerFilters := offerFilters f;
     inverseOfferFilters := inverseOfferFilters f;
     minAllocatableResources := minAllocatableResources f |}.

Definition fw_setSuppressedRoles (f : Framework) (x : gset string)
    : Framework :=
  {| fw_roles := fw_roles f; suppressedRoles := x;
     fw_capabilities := fw_capabilities f; active := active f;
     offerFilters := offerFilters f;
     inverseOfferFilters := inverseOfferFilters f;
     minAllocatableResources := minAllocatableResources f |}.

Definition slave_setActivated (s : Slave) (x : bool) : Slave :=
  {| info := info s; slave_capabilities := slave_capabilities s;
     activated := x; total := total s; allocated := allocated s;
     maintenance := maintenance s |}.

(** [removeFilters(slaveId)]: every framework drops its inverse-offer
    filters for the agent and, in every role, its offer filters for the
    agent. *)
Definition removeFilters (a : Allocator) (slaveId : SlaveID)
    : option Allocator :=
  CHECK (initialized a);;
  Some (set_frameworks a
          ((fun fw =>
              fw_setOfferFilters
                (fw_setInverseOfferFilters fw
                   (delete slaveId (inverseOfferFilters fw)))
                (delete slaveId <$> offerFilters fw))
             <$> frameworks a)).

(** [removeFramework]. The allocation of the framework in a role's sorter is
    copied before it is untracked entry by entry. *)
Definition removeFramework (a : Allocator) (f : FrameworkID)
    : option Allocator :=
  CHECK (initialized a);;
  framework ← frameworks a !! f;
  a1 ← foreach (elements (fw_roles framework))
         (fun role a =>
            match frameworkSorters a !! role with
            | None => Some (Continue, a)
            | Some fs =>
                if negb (sorter_contains fs f) then Some (Continue, a)
                else
                  let allocation := sorter_allocation fs f in
                  a' ← foreach (map_to_list allocation)
                         (fun '(slaveId, allocated_) a =>
                            a' ← untrackAllocatedResources a slaveId f
                                   allocated_;
                            Some (Continue, a'))
                         a;
                  a'' ← untrackFrameworkUnderRole a' f role;
                  Some (Continue, a'')
            end)
         a;
  Some (set_frameworks a1 (delete f (frameworks a1))).

(** [activateFramework]: the roles that are not suppressed are activated in
    their sorters, and a run over all agents is requested. *)
Definition activateFramework (a : Allocator) (f : FrameworkID)
    : option Allocator :=
  CHECK (initialized a);;
  framework ← frameworks a !! f;
  let a1 := set_frameworks a
              (<[f := fw_setActive framework true]> (frameworks a)) in
  a2 ← foreach (elements (fw_roles framework))
         (fun role a =>
            fs ← frameworkSorters a !! role;
            if negb (bool_decide (role ∈ suppressedRoles framework))
            then Some (Continue,
                       set_frameworkSorters a
                         (<[role := sorter_activate fs f]>
                            (frameworkSorters a)))
            else Some (Continue, a))
         a1;
  Some (allocateAll a2).

(** [suppressRoles] and [unsuppressRoles]. *)
Definition suppressRoles (a : Allocator) (f : FrameworkID)
    (roles_ : gset string) : option Allocator :=
  CHECK (initialized a);;
  CHECK (map_contains (frameworks a) f);;
  foreach (elements roles_)
    (fun role a =>
       fs ← frameworkSorters a !! role;
       framework ← frameworks a !! f;
       Some (Continue,
             set_frameworks
               (set_frameworkSorters a
                  (<[role := sorter_deactivate fs f]> (frameworkSorters a)))
               (<[f := fw_setSuppressedRoles framework
                         ({[role]} ∪ suppressedRoles framework)]>
                  (frameworks a))))
    a.

Definition unsuppressRoles (a : Allocator) (f : FrameworkID)
    (roles_ : gset string) : option Allocator :=
  CHECK (initialized a);;
  CHECK (map_contains (frameworks a) f);;
  foreach (elements roles_)
    (fun role a =>
       fs ← frameworkSorters a !! role;
       framework ← frameworks a !! f;
       Some (Continue,
             set_frameworks
               (set_frameworkSorters a
                  (<[role := sorter_activate fs f]> (frameworkSorters a)))
               (<[f := fw_setSuppressedRoles framework
                         (suppressedRoles framework ∖ {[role]})]>
                  (frameworks a))))
    a.

(** [suppressOffers]: an empty set of roles stands for all roles of the
    framework. *)
Definition suppressOffers (a : Allocator) (f : FrameworkID)
    (roles_ : gset string) : option Allocator :=
  CHECK (initialized a);;
  framework ← frameworks a !! f;
  let roles_ := if bool_decide (roles_ = ∅) then fw_roles framework
                else roles_ in
  suppressRoles a f roles_.

(** [reviveOffers]: clears the inverse-offer filters of the framework and
    its offer filters for the roles, unsuppresses the roles and requests a
    run over all agents. *)
Definition reviveOffers (a : Allocator) (f : FrameworkID)
    (roles_ : gset string) : option Allocator :=
  CHECK (initialized a);;
  framework ← frameworks a !! f;
  let roles_ := if bool_decide (roles_ = ∅) then fw_roles framework
                else roles_ in
  let framework' :=
    fw_setOfferFilters (fw_setInverseOfferFilters framework ∅)
      (foldl (fun m role => delete role m) (offerFilters framework)
         (elements roles_)) in
  let a1 := set_frameworks a (<[f := framework']> (frameworks a)) in
  a2 ← unsuppressRoles a1 f roles_;
  Some (allocateAll a2).

(** [updateFramework]. *)
Definition updateFramework (a : Allocator) (f : FrameworkID)
    (frameworkInfo : FrameworkInfo) (suppressedRoles_ : gset string)
    : option Allocator :=
  CHECK (initialized a);;
  framework ← frameworks a !! f;
  let oldRoles := fw_roles framework in
  let newRoles := fi_roles frameworkInfo in
  a1 ← foreach (elements (newRoles ∖ oldRoles))
         (fun role a =>
            if negb (isFrameworkTrackedUnderRole a f role)
            then a' ← trackFrameworkUnderRole a f role; Some (Continue, a')
            else Some (Continue, a))
         a;
  a2 ← foreach (elements (oldRoles ∖ newRoles))
         (fun role a =>
            fs ← frameworkSorters a !! role;
            let fs' := sorter_deactivate fs f in
            let a' := set_frameworkSorters a
                        (<[role := fs']> (frameworkSorters a)) in
            a'' ← (if map_isEmpty (sorter_allocation fs' f)
                   then untrackFrameworkUnderRole a' f role
                   else Some a');
            fw ← frameworks a'' !! f;
            let fw' :=
              fw_setSuppressedRoles
                (fw_setOfferFilters fw (delete role (offerFilters fw)))
                (suppressedRoles fw ∖ {[role]}) in
            Some (Continue,
                  set_frameworks a'' (<[f := fw']> (frameworks a''))))
         a1;
  fw ← frameworks a2 !! f;
  let fw' :=
    {| fw_roles := newRoles;
       suppressedRoles := suppressedRoles fw;
       fw_capabilities := fi_capabilities frameworkInfo;
       active := active fw;
       offerFilters := offerFilters fw;
       inverseOfferFilters := inverseOfferFilters fw;
       minAllocatableResources :=
         unpackFrameworkOfferFilters (fi_offer_filters frameworkInfo) |} in
  let a3 := set_frameworks a2 (<[f := fw']> (frameworks a2)) in
  a4 ← suppressRoles a3 f suppressedRoles_;
  a5 ← unsuppressRoles a4 f (newRoles ∖ suppressedRoles_);
  fw5 ← frameworks a5 !! f;
  CHECK (bool_decide (suppressedRoles fw5 = suppressedRoles_));;
  Some a5.

(** [removeSlave]. *)
Definition removeSlave (a : Allocator) (slaveId : SlaveID)
    : option Allocator :=
  CHECK (initialized a);;
  slave ← slaves a !! slaveId;
  let a1 := set_roleSorter a
              (sorter_removeSlave (roleSorter a) slaveId (getTotal slave)) in
  let a2 := set_frameworkSorters a1
              ((fun s => sorter_removeSlave s slaveId (getTotal slave))
                 <$> frameworkSorters a1) in
  let a3 := set_quotaRoleSorter a2
              (sorter_removeSlave (quotaRoleSorter a2) slaveId
                 (nonRevocable (getTotal slave))) in
  a4 ← untrackReservations a3 (r_reservations (getTotal slave));
  let a5 := set_slaves a4 (delete slaveId (slaves a4)) in
  let a6 := set_allocationCandidates a5
              (allocationCandidates a5 ∖ {[slaveId]}) in
  removeFilters a6 slaveId.

(** [addResourceProvider]: the used resources are tracked for the known
    frameworks, the agent's total grows by [total_] and its allocation by
    the sum of the used resources. *)
Definition addResourceProvider (a : Allocator) (slaveId : SlaveID)
    (total_ : Resources) (used : gmap FrameworkID Resources)
    : option Allocator :=
  CHECK (initialized a);;
  CHECK (map_contains (slaves a) slaveId);;
  a1 ← foreach (map_to_list used)
         (fun '(f, allocation) a =>
            if negb (map_contains (frameworks a) f) then Some (Continue, a)
            else a' ← trackAllocatedResources a slaveId f allocation;
                 Some (Continue, a'))
         a;
  slave ← slaves a1 !! slaveId;
  r ← updateSlaveTotal a1 slaveId (r_plus (getTotal slave) total_);
  slave' ← slaves r.2 !! slaveId;
  Some (set_slaves r.2
          (<[slaveId := slave_allocate slave' (r_sum used)]> (slaves r.2))).

(** [activateSlave] and [deactivateSlave]. *)
Definition activateSlave (a : Allocator) (slaveId : SlaveID)
    : option Allocator :=
  CHECK (initialized a);;
  slave ← slaves a !! slaveId;
  Some (set_slaves a
          (<[slaveId := slave_setActivated slave true]> (slaves a))).

Definition deactivateSlave (a : Allocator) (slaveId : SlaveID)
    : option Allocator :=
  CHECK (initialized a);;
  slave ← slaves a !! slaveId;
  Some (set_slaves a
          (<[slaveId := slave_setActivated slave false]> (slaves a))).

(** [updateWhitelist]. *)
Definition updateWhitelist (a : Allocator)
    (_whitelist : option (gset string)) : option Allocator :=
  CHECK (initialized a);;
  Some (set_whitelist a _whitelist).

(** [removeQuota]. *)
Definition removeQuota (a : Allocator) (role : string) : option Allocator :=
  CHECK (initialized a);;
  CHECK (map_contains (quotaGuarantees a) role);;
  CHECK (sorter_contains (quotaRoleSorter a) role);;
  let a1 := set_quotaGuarantees a (delete role (quotaGuarantees a)) in
  Some (set_quotaRoleSorter a1 (sorter_remove (quotaRoleSorter a1) role)).

End Lifecycle.

(** ** Vocabulary of the further properties *)

Section LifecycleVocabulary.
Context `{RA : ResourcesAlgebra} `{Env : !AllocatorEnv}.

(** The clients of each framework sorter. *)
Definition sorterClients (a : Allocator) : gmap string (gset FrameworkID) :=
  (fun S => dom (clients S)) <$> frameworkSorters a.

(** The role registry and the sorters agree: the clients of the framework
    sorter of a role are the frameworks tracked under the role, the clients
    of the role sorter are the tracked roles, and no tracked role is
    without frameworks. *)
Definition trackingConsistent (a : Allocator) : Prop :=
  sorterClients a = roles a /\
  dom (clients (roleSorter a)) = dom (roles a) /\
  forall role fws, roles a !! role = Some fws -> fws <> ∅.

(** The role registry and the clients of the sorters are the same in [a]
    and [b]. *)
Definition sameTracking (a b : Allocator) : Prop :=
  roles b = roles a /\
  dom (clients (roleSorter b)) = dom (clients (roleSorter a)) /\
  sorterClients b = sorterClients a.

(** The framework is an active client of the framework sorter of the
    role. *)
Definition activeIn (a : Allocator) (role : string) (f : FrameworkID)
    : bool :=
  match frameworkSorters a !! role with
  | Some fs => client_isActive fs f
  | None => false
  end.

(** The offers collected so far hold an entry for the framework, the role
    and the agent. *)
Definition offeredTo
    (off : gmap FrameworkID (gmap string (gmap SlaveID Resources)))
    (f : FrameworkID) (role : string) (s : SlaveID) : Prop :=
  exists m ms, off !! f = Some m /\ m !! role = Some ms /\ is_Some (ms !! s).

(** The offer callbacks of a run offer the framework resources of the agent
    for the role. *)
Definition offerMade (run : AllocationRun) (f : FrameworkID)
    (role : string) (s : SlaveID) : Prop :=
  exists m ms, (f, m) ∈ run_offers run /\ m !! role = Some ms /\
               is_Some (ms !! s).

(** What the allocation loops keep, relative to the state [a0] at the start
    of the run and the agents [L] that the run visits: the consistency of
    the registry, that nobody was activated in a framework sorter, and that
    every offer collected is for a framework active in the sorter of the
    role at the start and for an agent of [L]. *)
Definition runInv (a0 : Allocator) (L : list SlaveID)
    (st : Allocator * Locals) : Prop :=
  (trackingConsistent a0 -> trackingConsistent st.1) /\
  (forall r g, activeIn st.1 r g = true -> activeIn a0 r g = true) /\
  (forall f role s, offeredTo (offerable st.2) f role s ->
     activeIn a0 role f = true /\ s ∈ L).

(** An agent that a run may visit: a candidate that is known, activated
    and whitelisted. *)
Definition eligibleAgent (a : Allocator) (s : SlaveID) : Prop :=
  s ∈ allocationCandidates a /\
  exists sl, slaves a !! s = Some sl /\ activated sl = true /\
    match whitelist a with
    | None => True
    | Some w => si_hostname (info sl) ∈ w
    end.

(** What an allocation run leaves alone: the control flags, the options,
    the frameworks, the candidates, the whitelist and the set of agents. *)
Definition sameControl (a b : Allocator) : Prop :=
  initialized b = initialized a /\ paused b = paused a /\
  options b = options a /\ frameworks b = frameworks a /\
  allocationCandidates b = allocationCandidates a /\
  whitelist b = whitelist a /\
  allocation_isPending b = allocation_isPending a /\
  dom (slaves b) = dom (slaves a).

(** A framework sorter as [trackFrameworkUnderRole] creates it for a new
    role: no client, and the total of every agent. *)
Definition freshSorter (a : Allocator) : Sorter :=
  foldl (fun s kv => sorter_addSlave s (si_id (info kv.2)) (getTotal kv.2))
    newSorter (map_to_list (slaves a)).

(** What the registry and the sorters hold for one role. *)
Definition roleView (a : Allocator) (r : string)
    : option (gset FrameworkID) * option Sorter * option Client :=
  (roles a !! r, frameworkSorters a !! r, clients (roleSorter a) !! r).

(** The reservation tracker, the quota role sorter, the totals of the role
    sorter and everything outside the registry are the same in [a] and
    [b]. *)
Definition sameFrame (a b : Allocator) : Prop :=
  sameOutsideTracking a b /\
  reservationScalarQuantities b = reservationScalarQuantities a /\
  quotaRoleSorter b = quotaRoleSorter a /\
  sorter_total (roleSorter b) = sorter_total (roleSorter a).

(** Relative to [a0], the state [b] tracks the framework [f] under the role
    [r] with nothing allocated, and holds nothing else new for the role. *)
Definition justAdded (a0 b : Allocator) (f : FrameworkID) (r : string)
    : Prop :=
  exists fs c,
    frameworkSorters b !! r = Some fs /\
    clients fs !! f = Some c /\ client_allocation c = ∅ /\
    sorter_remove fs f
    = default (freshSorter a0) (frameworkSorters a0 !! r) /\
    roles b !! r = Some ({[f]} ∪ default ∅ (roles a0 !! r)) /\
    (f ∉ default ∅ (roles a0 !! r)) /\
    match roles a0 !! r with
    | Some _ =>
        clients (roleSorter b) !! r = clients (roleSorter a0) !! r /\
        is_Some (frameworkSorters a0 !! r)
    | None =>
        frameworkSorters a0 !! r = None /\
        clients (roleSorter a0) !! r = None
    end.

End LifecycleVocabulary.

(** ** Further readings of the concrete clusters *)

Section FurtherScenario.
#[local] Existing Instance scalarAlgebra.
#[local] Existing Instance scalarEnv.

(** The allocator with framework "f1" in role "r" and no agent. *)
Definition clusterF : option Allocator :=
  addFramework (initialize ex_options) "f1" (fwInfo "r" capsNone) ∅ true ∅.

(** The allocation half of the first run on cluster A. *)
Definition runA : AllocationRun :=
  default {| run_state := stateOf clusterA_registered;
             run_locals := seedLocals (stateOf clusterA_registered);
             run_offers := [] |}
    (__allocate (stateOf clusterA_registered)).

(** The cpus that "f1" holds on "a1" after the first run on cluster A. *)
Definition cpusA : Resources := res "cpus" None false (Some "r") 4000.

(** The framework sorter of a role. *)
Definition sorterOf (a : Allocator) (role : string) : Sorter :=
  default newSorter (frameworkSorters a !! role).

End FurtherScenario.

(** * Properties *)

(** ** Loops *)

Section LoopLemmas.
Context {A S : Type}.

(** A property kept by every iteration is kept by the loop. *)
Lemma foreach_inv (P : S -> Prop) (l : list A)
    (body : A -> S -> option (LoopCtl * S)) :
  (forall x s c s', x ∈ l -> body x s = Some (c, s') -> P s -> P s') ->
  forall s s', foreach l body s = Some s' -> P s -> P s'.
Proof.
  induction l as [|x l IH]; intros Hbody s s' Hrun Hs; simpl in Hrun.
  - by simplify_eq.
  - destruct (body x s) as [[[] s1]|] eqn:Hx; simplify_eq.
    + eapply IH; [| exact Hrun |].
      * intros y t c t' Hy. apply Hbody. by right.
      * eapply Hbody; [left | exact Hx | exact Hs].
    + eapply Hbody; [left | exact Hx | exact Hs].
Qed.

End LoopLemmas.

(** ** Minimum allocatable resources *)

Section Allocatable.
Context `{RA : ResourcesAlgebra} `{Env : !AllocatorEnv}.

(** C4. [allocatable] refuses empty resources; accepts any non-empty
    resources when no requirement is configured (neither for the framework's
    role nor globally) or the effective requirement list is empty; and
    otherwise accepts exactly when one of the effective requirement sets is
    contained in the resources. The framework's list for the role, when
    present, replaces the global one. *)
Theorem allocatable_spec (a : Allocator) (R : Resources) (role : string)
    (fw : Framework) :
  let effective :=
    match minAllocatableResources fw !! role with
    | Some l => Some l
    | None => opt_minAllocatableResources (options a)
    end in
  (r_empty R = true -> allocatable a R role fw = false) /\
  (r_empty R = false -> effective = None \/ effective = Some [] ->
     allocatable a R role fw = true) /\
  (r_empty R = false -> forall l, effective = Some l -> l <> [] ->
     (allocatable a R role fw = true <->
      exists qs, qs ∈ l /\ r_containsQ R qs = true)).
Proof.
  intros effective. unfold allocatable. fold effective.
  split; [|split].
  - by intros ->.
  - intros -> [-> | ->]; [done|]. by rewrite bool_decide_eq_true_2.
  - intros -> l -> Hl. rewrite bool_decide_eq_false_2 by done. split.
    + intros [qs [Hin Hq]]%existsb_exists. exists qs.
      split; [by apply list_elem_of_In | done].
    + intros [qs [Hin Hq]]. apply existsb_exists. exists qs.
      split; [by apply list_elem_of_In | done].
Qed.

End Allocatable.

(** ** Resource quantities *)

Section Quantities.

Lemma rq_get_empty (n : string) : rq_get ∅ n = 0%N.
Proof. unfold rq_get. by rewrite lookup_empty. Qed.

Lemma rq_get_sub (a b : ResourceQuantities) (n : string) :
  rq_get (rq_sub a b) n = (rq_get a n - rq_get b n)%N.
Proof.
  unfold rq_sub, rq_get. rewrite map_lookup_imap.
  destruct (a !! n) as [v|]; simpl; [|lia].
  destruct (N.leb_spec v (default 0%N (b !! n))); simpl; lia.
Qed.

Lemma rq_get_norm (a : ResourceQuantities) (n : string) :
  rq_get (rq_norm a) n = rq_get a n.
Proof.
  unfold rq_norm, rq_get. rewrite map_lookup_filter.
  destruct (a !! n) as [v|]; simpl; [|done].
  case_guard; simpl in *; [done|]. lia.
Qed.

Lemma rq_get_add (a b : ResourceQuantities) (n : string) :
  rq_get (rq_add a b) n = (rq_get a n + rq_get b n)%N.
Proof.
  unfold rq_add. rewrite rq_get_norm. unfold rq_get.
  rewrite lookup_union_with.
  destruct (a !! n), (b !! n); simpl; lia.
Qed.

Lemma rq_contains_spec (a b : ResourceQuantities) :
  rq_contains a b = true <-> forall n, (rq_get b n <= rq_get a n)%N.
Proof.
  unfold rq_contains. rewrite bool_decide_eq_true, map_Forall_lookup.
  split.
  - intros H n. unfold rq_get at 1. destruct (b !! n) as [v|] eqn:Hb; simpl.
    + by apply (H n).
    + lia.
  - intros H n v Hb. specialize (H n). unfold rq_get at 1 in H.
    by rewrite Hb in H.
Qed.

(** What contains the requirement after a subtraction contained it
    before. *)
Lemma rq_contains_sub (a h r : ResourceQuantities) :
  rq_contains (rq_sub a h) r = true -> rq_contains a r = true.
Proof.
  rewrite !rq_contains_spec. intros H n. specialize (H n).
  rewrite rq_get_sub in H. lia.
Qed.

End Quantities.

(** ** Offer filters *)

Section Filters.
Context `{RA : ResourcesAlgebra} `{Env : !AllocatorEnv}.

Lemma sameRegistry_refl a : sameRegistry a a.
Proof. by repeat split. Qed.

Lemma sameRegistry_trans a b c :
  sameRegistry a b -> sameRegistry b c -> sameRegistry a c.
Proof.
  intros (?&?&?) (?&?&?). repeat split; congruence.
Qed.

Lemma untrackFrameworkUnderRole_registry a f role a' :
  untrackFrameworkUnderRole a f role = Some a' -> sameRegistry a a'.
Proof.
  unfold untrackFrameworkUnderRole. intros H.
  repeat (simplify_option_eq || case_match); by repeat split.
Qed.

Lemma untrackAllocatedResources_registry a s f R a' :
  untrackAllocatedResources a s f R = Some a' -> sameRegistry a a'.
Proof.
  unfold untrackAllocatedResources. intros H.
  apply bind_Some in H as (_ & _ & H).
  eapply (foreach_inv (sameRegistry a)); [| exact H | apply sameRegistry_refl].
  intros [role allocation] st c st' _ Hbody Hst.
  eapply sameRegistry_trans; [exact Hst|].
  repeat (simplify_option_eq || case_match); by repeat split.
Qed.

End Filters.

Section RecoverResources.
Context `{RA : ResourcesAlgebra} `{Env : !AllocatorEnv}.

(** What [recoverResources] does after the early return: it settles the
    sorters and the agent without touching the registry of frameworks, and
    then decides about the filter. *)
Lemma recoverResources_inv a f s R flt a' :
  r_empty R = false ->
  recoverResources a f s R flt = Some a' ->
  exists role a2,
    fst <$> head (map_to_list (r_allocations R)) = Some role /\
    sameRegistry a a2 /\
    match flt with
    | None => a' = a2
    | Some x =>
        if negb (map_contains (frameworks a2) f) ||
           negb (map_contains (slaves a2) s)
        then a' = a2
        else exists t, refuseTimeout x = Some t /\
          if negb (t =? 0) then
            exists fw, frameworks a2 !! f = Some fw /\
              a' = set_frameworks a2
                     (<[f := installOfferFilter fw role s
                               {| of_resources := r_unallocate R;
                                  of_timeout :=
                                    Z.max (allocationInterval (options a2)) t |}]>
                        (frameworks a2))
          else a' = a2
    end.
Proof.
  intros HR H. unfold recoverResources in H. rewrite HR in H.
  apply bind_Some in H as (_ & _ & H).
  apply bind_Some in H as (_ & _ & H).
  apply bind_Some in H as (role & Hrole & H).
  apply bind_Some in H as (a1 & H1 & H).
  apply bind_Some in H as (a2 & H2 & H).
  exists role, a2. split; [done|].
  assert (sameRegistry a a1) as R1.
  { destruct (map_contains (frameworks a) f); [|simplify_eq; apply sameRegistry_refl].
    apply bind_Some in H1 as (fs & _ & H1).
    destruct (sorter_contains fs f); [|simplify_eq; apply sameRegistry_refl].
    apply bind_Some in H1 as (a0 & Hu & H1).
    apply untrackAllocatedResources_registry in Hu.
    apply bind_Some in H1 as (fw & _ & H1).
    apply bind_Some in H1 as (fs' & _ & H1).
    destruct (_ && _); [|by simplify_eq].
    apply untrackFrameworkUnderRole_registry in H1.
    by eapply sameRegistry_trans. }
  assert (sameRegistry a1 a2) as R2.
  { destruct (map_contains (slaves a1) s); [|simplify_eq; apply sameRegistry_refl].
    apply bind_Some in H2 as (sl & Hsl & H2).
    apply bind_Some in H2 as (_ & _ & H2). simplify_eq.
    repeat split; simpl. by rewrite dom_insert_lookup_L. }
  split; [by eapply sameRegistry_trans|].
  destruct flt as [x|]; [|by simplify_eq].
  destruct (_ || _); [by simplify_eq|].
  apply bind_Some in H as (t & Ht & H). exists t. split; [done|].
  destruct (negb _); [|by simplify_eq].
  apply bind_Some in H as (fw & Hfw & H). exists fw. by simplify_eq.
Qed.

(** A call that finds the framework or the agent gone changes no
    framework. *)
Lemma recoverResources_gone a f s R flt a' :
  recoverResources a f s R flt = Some a' ->
  frameworks a !! f = None \/ slaves a !! s = None ->
  frameworks a' = frameworks a.
Proof.
  intros H Hgone.
  destruct (r_empty R) eqn:HR.
  { unfold recoverResources in H. rewrite HR in H.
    apply bind_Some in H as (_ & _ & H). by simplify_eq. }
  apply recoverResources_inv in H as (role & a2 & _ & (Hf & Hs & _) & H);
    [|done].
  destruct flt as [x|]; [|by subst].
  assert (negb (map_contains (frameworks a2) f) ||
          negb (map_contains (slaves a2) s) = true) as Hnot.
  { unfold map_contains. rewrite Hf, Hs.
    destruct Hgone as [Hg | Hg]; apply not_elem_of_dom in Hg;
      rewrite (bool_decide_eq_false_2 _ Hg); simpl; [done|].
    by rewrite orb_true_r. }
  rewrite Hnot in H. by subst.
Qed.

(** C10. [recoverResources] with empty resources returns at once and leaves
    the whole state as it was, with or without a filters object; and a call
    that finds the framework or the agent gone changes no framework, hence
    installs no offer filter. *)
Theorem recoverResources_frame (a : Allocator) (f : FrameworkID)
    (s : SlaveID) (R : Resources) (flt : option Filters) :
  (initialized a = true -> r_empty R = true ->
     recoverResources a f s R flt = Some a) /\
  (forall a', recoverResources a f s R flt = Some a' ->
     frameworks a !! f = None \/ slaves a !! s = None ->
     frameworks a' = frameworks a).
Proof.
  split.
  - intros Hi HR. unfold recoverResources. by rewrite Hi, HR.
  - intros a'. apply recoverResources_gone.
Qed.

End RecoverResources.

Section RecoverResourcesFilter.
Context `{RA : ResourcesAlgebra} `{Env : !AllocatorEnv}.

Lemma Duration_create_valid (n : Z) :
  int64_min <= n <= int64_max -> Duration_create n = Some n.
Proof.
  intros Hn. unfold Duration_create.
  rewrite bool_decide_eq_false_2; [done | lia].
Qed.

(** The refuse timeout: clamped, defaulted, or the value itself. *)
Lemma refuseTimeout_spec (x : Filters) :
  (Days 365 < refuse_seconds x -> refuseTimeout x = Some (Days 365)) /\
  (refuse_seconds x < 0 ->
     refuseTimeout x = Duration_create default_refuse_seconds) /\
  (0 <= refuse_seconds x <= Days 365 ->
     refuseTimeout x = Some (refuse_seconds x)).
Proof.
  unfold refuseTimeout. repeat split.
  - intros Hbig. by rewrite bool_decide_eq_true_2.
  - intros Hneg. rewrite bool_decide_eq_false_2.
    + by rewrite bool_decide_eq_true_2.
    + unfold Days. lia.
  - intros [Hlo Hhi]. rewrite !bool_decide_eq_false_2 by lia.
    rewrite Duration_create_valid; [done|].
    unfold Days, int64_min, int64_max in *. lia.
Qed.

Lemma storedOfferFilters_install fw role s flt :
  storedOfferFilters (installOfferFilter fw role s flt) role s =
  flt :: storedOfferFilters fw role s.
Proof.
  unfold storedOfferFilters, installOfferFilter. simpl.
  rewrite lookup_insert_eq. simpl. rewrite lookup_insert_eq. simpl.
  destruct (offerFilters fw !! role) as [m|]; simpl; [done|].
  by rewrite lookup_empty.
Qed.

(** C5 (amended). When [recoverResources] is called with non-empty resources
    and a filters object and returns: if the framework or the agent is gone,
    no framework changes; if both exist, the refuse timeout [t] is
    [refuse_seconds] clamped to 365 days when larger, the default when
    negative, and [refuse_seconds] itself otherwise; a filter is installed
    exactly when [t] is non-zero, it is added to the filters stored for the
    framework, the role of the resources and the agent, it stores the
    unallocated form of the resources, and its expiry is the larger of the
    allocation interval and [t]. *)
Theorem recoverResources_installs_filter (a : Allocator) (f : FrameworkID)
    (s : SlaveID) (R : Resources) (x : Filters) (a' : Allocator) :
  r_empty R = false ->
  recoverResources a f s R (Some x) = Some a' ->
  exists role,
    fst <$> head (map_to_list (r_allocations R)) = Some role /\
    (frameworks a !! f = None \/ slaves a !! s = None ->
       frameworks a' = frameworks a) /\
    (forall fw, frameworks a !! f = Some fw -> is_Some (slaves a !! s) ->
       exists t,
         refuseTimeout x = Some t /\
         (t = 0 -> frameworks a' = frameworks a) /\
         (t <> 0 ->
            exists fw',
              frameworks a' = <[f := fw']> (frameworks a) /\
              storedOfferFilters fw' role s =
                {| of_resources := r_unallocate R;
                   of_timeout := Z.max (allocationInterval (options a)) t |}
                :: storedOfferFilters fw role s)) /\
    (Days 365 < refuse_seconds x -> refuseTimeout x = Some (Days 365)) /\
    (refuse_seconds x < 0 ->
       refuseTimeout x = Duration_create default_refuse_seconds) /\
    (0 <= refuse_seconds x <= Days 365 ->
       refuseTimeout x = Some (refuse_seconds x)).
Proof.
  intros HR H.
  pose proof (recoverResources_gone a f s R (Some x) a' H) as Hgone.
  apply recoverResources_inv in H as (role & a2 & Hrole & (Hf & Hs & Ho) & H);
    [|done].
  exists role. split; [done|]. split; [done|].
  split; [|apply refuseTimeout_spec].
  intros fw Hfw Hsl.
  assert (negb (map_contains (frameworks a2) f) ||
          negb (map_contains (slaves a2) s) = false) as Hfound.
  { unfold map_contains. rewrite Hf, Hs.
    rewrite !bool_decide_eq_true_2; [done | |].
    - by apply elem_of_dom.
    - apply elem_of_dom. by eexists. }
  rewrite Hfound in H. destruct H as (t & Ht & H).
  exists t. split; [done|].
  destruct (Z.eqb_spec t 0) as [-> | Hne]; simpl in H.
  - split; [|done]. intros _. by subst.
  - split; [done|]. intros _.
    destruct H as (fw2 & Hfw2 & ->). rewrite Hf in Hfw2. simplify_eq.
    eexists. simpl. rewrite Hf, Ho. split; [done|].
    apply storedOfferFilters_install.
Qed.

End RecoverResourcesFilter.

Section IsFiltered.
Context `{RA : ResourcesAlgebra} `{Env : !AllocatorEnv}.

Lemma existsb_of_filter (R : Resources) (l : list OfferFilter) :
  existsb (fun flt => of_filter flt R) l = true <->
  exists flt, flt ∈ l /\ r_contains (of_resources flt) R = true.
Proof.
  rewrite existsb_exists. unfold of_filter.
  split; intros (flt & Hin & Hflt); exists flt;
    (split; [by apply list_elem_of_In | done]).
Qed.

(** C6 (amended). For an existing framework and agent, [isFiltered] returns
    true exactly when the framework is MULTI_ROLE capable and the agent is
    not, or the role is hierarchical and the agent is not HIERARCHICAL_ROLE
    capable, or some offer filter stored for the framework, role and agent
    holds resources that contain the given ones. *)
Theorem isFiltered_spec (a : Allocator) (f : FrameworkID) (role : string)
    (s : SlaveID) (R : Resources) (fw : Framework) (sl : Slave) :
  frameworks a !! f = Some fw ->
  slaves a !! s = Some sl ->
  exists b,
    isFiltered a f role s R = Some b /\
    (b = true <->
     (fc_multiRole (fw_capabilities fw) = true /\
      sc_multiRole (slave_capabilities sl) = false) \/
     (sc_hierarchicalRole (slave_capabilities sl) = false /\
      contains_slash role = true) \/
     exists flt, flt ∈ storedOfferFilters fw role s /\
                 r_contains (of_resources flt) R = true).
Proof.
  intros Hfw Hsl. unfold isFiltered, storedOfferFilters.
  rewrite Hfw, Hsl. simpl.
  destruct (fc_multiRole (fw_capabilities fw)),
           (sc_multiRole (slave_capabilities sl)),
           (sc_hierarchicalRole (slave_capabilities sl)),
           (contains_slash role); simpl;
    try (exists true; split; [reflexivity|]; naive_solver).
  all: destruct (offerFilters fw !! role) as [m|]; simpl;
    [destruct (m !! s) as [l|]; simpl |].
  all: eexists; (split; [reflexivity|]).
  all: rewrite ?existsb_of_filter; split;
    [ intros H; try done; right; right; exact H
    | intros [[? ?] | [[? ?] | H]]; try done ].
  all: destruct H as (flt & Hin & _); by apply elem_of_nil in Hin.
Qed.

End IsFiltered.

(** ** Tracking leaves the rest of the state alone *)

Section Tracking.
Context `{RA : ResourcesAlgebra} `{Env : !AllocatorEnv}.

Lemma sameOutsideTracking_refl a : sameOutsideTracking a a.
Proof. by repeat split. Qed.

Lemma sameOutsideTracking_trans a b c :
  sameOutsideTracking a b -> sameOutsideTracking b c ->
  sameOutsideTracking a c.
Proof.
  unfold sameOutsideTracking. intros Hab Hbc.
  destruct_and!. repeat split; congruence.
Qed.

Lemma foldl_inv {A B : Type} (P : A -> Prop) (g : A -> B -> A) (l : list B) :
  (forall x y, P x -> P (g x y)) -> forall x, P x -> P (foldl g x l).
Proof.
  intros Hg. induction l as [|y l IH]; intros x Hx; simpl; [done|].
  apply IH, Hg, Hx.
Qed.

Lemma trackFrameworkUnderRole_outside a f role a' :
  trackFrameworkUnderRole a f role = Some a' -> sameOutsideTracking a a'.
Proof.
  unfold trackFrameworkUnderRole. intros H.
  apply bind_Some in H as (_ & _ & H).
  apply bind_Some in H as (a1 & H1 & H).
  assert (sameOutsideTracking a a1) as Ha1.
  { destruct (map_contains (roles a) role); [simplify_eq; apply sameOutsideTracking_refl|].
    apply bind_Some in H1 as (_ & _ & H1).
    apply bind_Some in H1 as (_ & _ & H1). simplify_eq. by repeat split. }
  eapply sameOutsideTracking_trans; [exact Ha1|].
  repeat (simplify_option_eq || case_match); by repeat split.
Qed.

Lemma trackAllocatedResources_outside a s f R a' :
  trackAllocatedResources a s f R = Some a' -> sameOutsideTracking a a'.
Proof.
  unfold trackAllocatedResources. intros H.
  apply bind_Some in H as (_ & _ & H).
  apply bind_Some in H as (_ & _ & H).
  eapply (foreach_inv (sameOutsideTracking a));
    [| exact H | apply sameOutsideTracking_refl].
  intros [role allocation] st c st' _ Hbody Hst.
  eapply sameOutsideTracking_trans; [exact Hst|].
  apply bind_Some in Hbody as (a1 & H1 & Hbody).
  assert (sameOutsideTracking st a1) as Ha1.
  { destruct (negb _); [by eapply trackFrameworkUnderRole_outside|].
    simplify_eq. apply sameOutsideTracking_refl. }
  eapply sameOutsideTracking_trans; [exact Ha1|].
  apply bind_Some in Hbody as (_ & _ & Hbody).
  apply bind_Some in Hbody as (fs & _ & Hbody).
  apply bind_Some in Hbody as (_ & _ & Hbody).
  simplify_eq. destruct (map_contains _ _); by repeat split.
Qed.

Lemma trackReservations_outside a m :
  sameOutsideTracking a (trackReservations a m).
Proof.
  unfold trackReservations.
  apply (foldl_inv (sameOutsideTracking a)); [|apply sameOutsideTracking_refl].
  intros x [role r] Hx. destruct (rq_empty _); [done|].
  eapply sameOutsideTracking_trans; [exact Hx|]. by repeat split.
Qed.

End Tracking.

(** ** Recovery *)

Section Recovery.
Context `{RA : ResourcesAlgebra} `{Env : !AllocatorEnv}.

Lemma setQuota_spec a role q :
  initialized a = true ->
  quotaGuarantees a !! role = None ->
  exists a',
    setQuota a role q = Some a' /\
    quotaGuarantees a' =
      <[role := fromScalarResources (guarantee q)]> (quotaGuarantees a) /\
    sameOutsideQuota a a'.
Proof.
  intros Hi Hq. unfold setQuota. rewrite Hi. simpl.
  unfold map_contains at 1.
  rewrite bool_decide_eq_false_2 by (by apply not_elem_of_dom). simpl.
  set (a2 := set_quotaRoleSorter _ _).
  assert (quotaGuarantees a2 =
            <[role := fromScalarResources (guarantee q)]> (quotaGuarantees a)
          /\ sameOutsideQuota a a2) as Ha2 by (split; [reflexivity | by repeat split]).
  destruct (sorter_contains (roleSorter a) role);
    [|exists a2; split; [reflexivity | exact Ha2]].
  eexists. split; [reflexivity|].
  apply (foldl_inv (fun x =>
    quotaGuarantees x =
      <[role := fromScalarResources (guarantee q)]> (quotaGuarantees a) /\
    sameOutsideQuota a x)); [|exact Ha2].
  intros x [s r] [Hx1 Hx2]. split; [exact Hx1|].
  unfold sameOutsideQuota in *. destruct_and!. by repeat split.
Qed.

Lemma setQuota_foreach (l : list (string * Quota)) :
  forall a,
    NoDup l.*1 ->
    initialized a = true ->
    (forall role, role ∈ l.*1 -> quotaGuarantees a !! role = None) ->
    exists a',
      foreach l (fun '(role, quota) a =>
                   a' ← setQuota a role quota; Some (Continue, a')) a
        = Some a' /\
      sameOutsideQuota a a' /\
      (forall role q, (role, q) ∈ l ->
         quotaGuarantees a' !! role = Some (fromScalarResources (guarantee q))).
Proof.
  induction l as [|[role q] l IH]; intros a Hnd Hi Hfree; simpl.
  - exists a. split; [done|]. split; [by repeat split|].
    intros ?? Hin. by apply elem_of_nil in Hin.
  - apply NoDup_cons in Hnd as [Hnotin Hnd].
    destruct (setQuota_spec a role q Hi) as (a1 & -> & Hq1 & Hsame1).
    { apply Hfree. simpl. by left. }
    simpl.
    destruct (IH a1 Hnd) as (a' & Hrun & Hsame & Hall).
    { destruct Hsame1 as (-> & _). done. }
    { intros r Hr. rewrite Hq1. rewrite lookup_insert_ne.
      - apply Hfree. simpl. by right.
      - intros ->. done. }
    exists a'. split; [done|]. split.
    { unfold sameOutsideQuota in *. destruct_and!. repeat split; congruence. }
    intros r q' Hin. apply elem_of_cons in Hin as [Heq | Hin].
    + simplify_eq.
      (* the entry set first is not overwritten later *)
      eapply (foreach_inv (fun x =>
        quotaGuarantees x !! role = Some (fromScalarResources (guarantee q))));
        [| exact Hrun |].
      * intros [r2 q2] st c st' Hin2 Hbody Hst.
        apply bind_Some in Hbody as (st2 & Hset & Hbody). simplify_eq.
        unfold setQuota in Hset.
        apply bind_Some in Hset as (_ & _ & Hset).
        apply bind_Some in Hset as (_ & _ & Hset).
        assert (r2 <> role) as Hne.
        { intros ->. apply Hnotin. apply list_elem_of_fmap.
          by exists (role, q2). }
        set (g := fun a0 '(slaveId, resources) =>
              set_quotaRoleSorter a0
                (sorter_allocated (quotaRoleSorter a0) r2 slaveId
                   (nonRevocable resources))) in Hset.
        assert (forall l0 x, quotaGuarantees (foldl g x l0) = quotaGuarantees x)
          as Hfold.
        { intros l0 x. apply (foldl_inv (fun y =>
            quotaGuarantees y = quotaGuarantees x)); [|done].
          intros y [s r] Hy. exact Hy. }
        destruct (sorter_contains _ _); simplify_eq;
          rewrite ?Hfold; simpl; by rewrite lookup_insert_ne.
      * rewrite Hq1. by rewrite lookup_insert_eq.
    + by eapply Hall.
Qed.

Lemma addSlave_inv a s i c u t used a' :
  addSlave a s i c u t used = Some a' ->
  exists a6,
    slaves a !! s = None /\
    paused a6 = paused a /\
    expectedAgentCount a6 = expectedAgentCount a /\
    size (slaves a6) = S (size (slaves a)) /\
    a' = allocate
           (match expectedAgentCount a6 with
            | Some e =>
                if paused a6 && bool_decide (e <= Z.of_nat (size (slaves a6)))
                then resume (set_expectedAgentCount a6 None)
                else a6
            | None => a6
            end) {[s]}.
Proof.
  unfold addSlave. intros H.
  apply bind_Some in H as (_ & _ & H).
  apply bind_Some in H as ([] & Hnew & H).
  apply bind_Some in H as (_ & _ & H).
  apply bind_Some in H as (_ & _ & H).
  apply bind_Some in H as (a6 & H6 & H).
  exists a6.
  assert (slaves a !! s = None) as Hfree.
  { unfold CHECK, map_contains in Hnew. case_bool_decide; [done|].
    by apply not_elem_of_dom. }
  set (sl := match u with Some _ => _ | None => _ end) in H6.
  set (a1 := set_slaves a (<[s := sl]> (slaves a))) in H6.
  assert (sameOutsideTracking a1 a6) as Hsame.
  { eapply (foreach_inv (sameOutsideTracking a1)); [| exact H6 |].
    - intros [f r] st ct st' _ Hbody Hst.
      destruct (negb (map_contains (frameworks st) f));
        [injection Hbody as _ <-; exact Hst|].
      apply bind_Some in Hbody as (st2 & Htrack & Hbody).
      injection Hbody as _ <-.
      eapply sameOutsideTracking_trans; [exact Hst|].
      by eapply trackAllocatedResources_outside.
    - pose proof (trackReservations_outside a1 (r_reservations t)) as Ht.
      unfold sameOutsideTracking in *. destruct_and!. by repeat split. }
  destruct Hsame as (_ & Hp & _ & Hsl & _ & _ & _ & He & _).
  split; [done|]. split; [done|]. split; [done|]. split.
  - rewrite Hsl. simpl. by rewrite map_size_insert_None.
  - by simplify_eq.
Qed.

(** C8. [recover] with no quotas changes nothing. With quotas it sets every
    quota and records four fifths of the expected agent count, rounded down;
    when that number is zero it neither pauses nor schedules anything, and
    otherwise it pauses the allocator and schedules [resume] after ten
    minutes. An [addSlave] on a paused allocator that brings the number of
    agents to the recorded count resumes the allocation and dispatches a
    run. *)
Theorem recover_spec (a : Allocator) (n : Z) (quotas : gmap string Quota) :
  initialized a = true ->
  slaves a = ∅ ->
  sorter_count (quotaRoleSorter a) = 0%nat ->
  0 <= n ->
  (forall role, is_Some (quotas !! role) -> quotaGuarantees a !! role = None) ->
  exists a',
    recover a n quotas = Some a' /\
    (quotas = ∅ -> a' = a) /\
    (quotas <> ∅ ->
       (forall role q, quotas !! role = Some q ->
          quotaGuarantees a' !! role =
            Some (fromScalarResources (guarantee q))) /\
       expectedAgentCount a' = Some (n * 4 / 5) /\
       (n * 4 / 5 = 0 -> paused a' = paused a /\ delayed a' = delayed a) /\
       (n * 4 / 5 <> 0 ->
          paused a' = true /\
          delayed a' = (Minutes 10, CallResume) :: delayed a)) /\
    (forall b e s i c u t used b',
       paused b = true ->
       expectedAgentCount b = Some e ->
       e <= Z.of_nat (size (slaves b)) + 1 ->
       addSlave b s i c u t used = Some b' ->
       paused b' = false /\ expectedAgentCount b' = None /\
       s ∈ allocationCandidates b' /\ allocation_isPending b' = true).
Proof.
  intros Hi Hs Hc Hn Hfree. unfold recover.
  rewrite Hi. simpl.
  assert (map_isEmpty (slaves a) = true) as ->.
  { unfold map_isEmpty. rewrite Hs. apply bool_decide_eq_true_2.
    apply dom_empty_L. }
  simpl.
  rewrite Hc. rewrite (bool_decide_eq_true_2 (0%nat = 0%nat)) by done.
  simpl. rewrite (bool_decide_eq_true_2 (0 <= n)) by done. simpl.
  assert (forall b e s i c u t used b',
       paused b = true ->
       expectedAgentCount b = Some e ->
       e <= Z.of_nat (size (slaves b)) + 1 ->
       addSlave b s i c u t used = Some b' ->
       paused b' = false /\ expectedAgentCount b' = None /\
       s ∈ allocationCandidates b' /\ allocation_isPending b' = true)
    as Hadd.
  { intros b e s i c u t used b' Hp He Hsize Hrun.
    apply addSlave_inv in Hrun as (b6 & _ & Hp6 & He6 & Hsz & ->).
    rewrite He6, He, Hp6, Hp, Hsz. simpl.
    rewrite bool_decide_eq_true_2 by lia.
    unfold resume, allocate. simpl. rewrite Hp6, Hp. simpl.
    destruct (allocation_isPending b6) eqn:Hpend; simpl;
      repeat split; try done; set_solver. }
  unfold map_isEmpty. case_bool_decide as Hq.
  - exists a. apply dom_empty_inv_L in Hq.
    split; [done|]. split; [done|]. split; [done|exact Hadd].
  - assert (quotas <> ∅) as Hne by (intros ->; by rewrite dom_empty_L in Hq).
    destruct (setQuota_foreach (map_to_list quotas) a) as (a1 & -> & Hsame & Hall).
    { apply NoDup_fst_map_to_list. }
    { done. }
    { intros role [[r q] [-> Hin]]%list_elem_of_fmap. apply Hfree.
      apply elem_of_map_to_list in Hin. by eexists. }
    simpl. destruct Hsame as (_ & Hp1 & _ & _ & Hd1).
    case_bool_decide as Hz.
    + eexists. split; [reflexivity|]. split; [done|]. split; [|exact Hadd].
      intros _. simpl. split.
      { intros role q Hq'. apply Hall. by apply elem_of_map_to_list. }
      split; [done|]. unfold agentRecoveryCount in Hz. simplify_eq.
      split; [done|]. intros Hnz. by rewrite Hz in Hnz.
    + eexists. split; [reflexivity|]. split; [done|]. split; [|exact Hadd].
      intros _. simpl. split.
      { intros role q Hq'. unfold pause. simpl.
        destruct (negb _); simpl; apply Hall; by apply elem_of_map_to_list. }
      unfold pause. simpl. unfold agentRecoveryCount in *.
      split; [by destruct (negb (paused a1))|].
      split; [intros Hz'; by rewrite Hz' in Hz|].
      intros _. unfold ALLOCATION_HOLD_OFF_RECOVERY_TIMEOUT.
      destruct (paused a1) eqn:Hpa; simpl; rewrite ?Hpa, Hd1; done.
Qed.

End Recovery.

(** ** Agent totals *)

Section Totals.
Context `{RA : ResourcesAlgebra} `{Env : !AllocatorEnv}.

Lemma sorter_replace_total `{Laws : !ResourcesLaws} S s old new :
  sorterKnows S s old ->
  sorterKnows (sorter_addSlave (sorter_removeSlave S s old) s new) s new.
Proof.
  unfold sorterKnows, sorter_addSlave, sorter_removeSlave. intros Hold.
  rewrite Hold.
  destruct (r_empty old) eqn:Ho.
  - apply r_empty_none in Ho. subst old.
    destruct (r_empty new) eqn:Hn.
    + apply r_empty_none in Hn. by subst.
    + simpl. rewrite lookup_insert_eq. simpl. rewrite Ho.
      apply r_plus_none_l.
  - rewrite r_minus_diag.
    destruct (r_empty new) eqn:Hn; simpl.
    + rewrite lookup_delete_eq. simpl. symmetry. by apply r_empty_none.
    + rewrite lookup_insert_eq. simpl. rewrite lookup_delete_eq. simpl.
      apply r_plus_none_l.
Qed.

Lemma untrackReservations_outside a m a' :
  untrackReservations a m = Some a' -> sameOutsideTracking a a'.
Proof.
  unfold untrackReservations. intros H.
  eapply (foreach_inv (sameOutsideTracking a));
    [| exact H | apply sameOutsideTracking_refl].
  intros [role r] st c st' _ Hbody Hst.
  destruct (rq_empty _); [injection Hbody as _ <-; exact Hst|].
  apply bind_Some in Hbody as (st2 & Hin & Hbody). injection Hbody as _ <-.
  eapply (foreach_inv (sameOutsideTracking a)); [| exact Hin | exact Hst].
  intros r2 x c2 x' _ Hb Hx.
  apply bind_Some in Hb as (cur & _ & Hb).
  apply bind_Some in Hb as (_ & _ & Hb). injection Hb as _ <-.
  eapply sameOutsideTracking_trans; [exact Hx|]. by repeat split.
Qed.

Lemma untrackReservations_sorters a m a' :
  untrackReservations a m = Some a' ->
  roleSorter a' = roleSorter a /\ quotaRoleSorter a' = quotaRoleSorter a /\
  frameworkSorters a' = frameworkSorters a.
Proof.
  unfold untrackReservations. intros H.
  eapply (foreach_inv (fun x =>
    roleSorter x = roleSorter a /\ quotaRoleSorter x = quotaRoleSorter a /\
    frameworkSorters x = frameworkSorters a)); [| exact H | done].
  intros [role r] st c st' _ Hbody Hst.
  destruct (rq_empty _); [injection Hbody as _ <-; exact Hst|].
  apply bind_Some in Hbody as (st2 & Hin & Hbody). injection Hbody as _ <-.
  eapply (foreach_inv (fun x =>
    roleSorter x = roleSorter a /\ quotaRoleSorter x = quotaRoleSorter a /\
    frameworkSorters x = frameworkSorters a)); [| exact Hin | exact Hst].
  intros r2 x c2 x' _ Hb Hx.
  apply bind_Some in Hb as (cur & _ & Hb).
  apply bind_Some in Hb as (_ & _ & Hb). injection Hb as _ <-.
  exact Hx.
Qed.

Lemma trackReservations_sorters a m :
  roleSorter (trackReservations a m) = roleSorter a /\
  quotaRoleSorter (trackReservations a m) = quotaRoleSorter a /\
  frameworkSorters (trackReservations a m) = frameworkSorters a.
Proof.
  unfold trackReservations.
  apply (foldl_inv (fun x =>
    roleSorter x = roleSorter a /\ quotaRoleSorter x = quotaRoleSorter a /\
    frameworkSorters x = frameworkSorters a)); [|done].
  intros x [role r] Hx. by destruct (rq_empty _).
Qed.

(** What [updateSlaveTotal] does to the agent and to the totals recorded by
    the sorters. *)
Lemma updateSlaveTotal_spec `{Laws : !ResourcesLaws} a s sl t' r :
  slaves a !! s = Some sl ->
  updateSlaveTotal a s t' = Some r ->
  total <$> slaves r.2 !! s = Some t' /\
  (sorterKnows (roleSorter a) s (total sl) ->
     sorterKnows (roleSorter r.2) s t') /\
  (forall role fs, frameworkSorters a !! role = Some fs ->
     sorterKnows fs s (total sl) ->
     exists fs', frameworkSorters r.2 !! role = Some fs' /\
                 sorterKnows fs' s t') /\
  (sorterKnows (quotaRoleSorter a) s (nonRevocable (total sl)) ->
     sorterKnows (quotaRoleSorter r.2) s (nonRevocable t')).
Proof.
  intros Hsl H. unfold updateSlaveTotal in H. rewrite Hsl in H. simpl in H.
  unfold getTotal in H.
  destruct (r_eqb (total sl) t') eqn:Heq.
  { apply r_eqb_eq in Heq. subst t'. injection H as <-. simpl.
    rewrite Hsl. repeat split; try done. intros role fs Hfs Hk. by exists fs. }
  apply bind_Some in H as (a2 & H2 & H). injection H as <-. simpl.
  set (a1 := set_slaves a (<[s := slave_updateTotal sl t']> (slaves a))) in H2.
  assert (slaves a2 = slaves a1 /\ roleSorter a2 = roleSorter a /\
          quotaRoleSorter a2 = quotaRoleSorter a /\
          frameworkSorters a2 = frameworkSorters a) as (Hs2 & Hr2 & Hq2 & Hf2).
  { destruct (negb _).
    - apply bind_Some in H2 as (a0 & Hun & H2). injection H2 as <-.
      pose proof (untrackReservations_outside _ _ _ Hun) as Ho.
      pose proof (untrackReservations_sorters _ _ _ Hun) as (? & ? & ?).
      pose proof (trackReservations_outside a0 (r_reservations t')) as Ho'.
      pose proof (trackReservations_sorters a0 (r_reservations t')) as (? & ? & ?).
      assert (roleSorter a1 = roleSorter a) by done.
      assert (quotaRoleSorter a1 = quotaRoleSorter a) by done.
      assert (frameworkSorters a1 = frameworkSorters a) by done.
      unfold sameOutsideTracking in *. destruct_and!.
      repeat split; congruence.
    - by injection H2 as <-. }
  rewrite Hs2, Hr2, Hq2, Hf2. simpl. rewrite lookup_insert_eq. simpl.
  split; [done|]. split; [apply sorter_replace_total|].
  split; [|apply sorter_replace_total].
  intros role fs Hfs Hk. rewrite lookup_fmap, Hfs. simpl.
  eexists. split; [reflexivity|]. by apply sorter_replace_total.
Qed.

(** C9 (amended). [updateAvailable] on an existing agent returns a failure
    and leaves the whole state unchanged when the operations do not apply to
    the agent's available resources. When they apply and the call completes,
    it returns success, the agent's total is the result of applying the
    operations to the old total, the role sorter and every framework sorter
    that recorded the old total record the new one, and the quota role
    sorter, which records the non-revocable part of the total, records the
    non-revocable part of the new total. *)
Theorem updateAvailable_spec `{Laws : !ResourcesLaws} (a : Allocator) (s : SlaveID)
    (ops : list Operation) (sl : Slave) :
  initialized a = true ->
  slaves a !! s = Some sl ->
  (r_apply (getAvailable sl) ops = None ->
     updateAvailable a s ops = Some (Failure, a)) /\
  (forall t' res a',
     is_Some (r_apply (getAvailable sl) ops) ->
     r_apply (getTotal sl) ops = Some t' ->
     updateAvailable a s ops = Some (res, a') ->
     res = Nothing /\
     total <$> slaves a' !! s = Some t' /\
     (sorterKnows (roleSorter a) s (total sl) ->
        sorterKnows (roleSorter a') s t') /\
     (forall role fs, frameworkSorters a !! role = Some fs ->
        sorterKnows fs s (total sl) ->
        exists fs', frameworkSorters a' !! role = Some fs' /\
                    sorterKnows fs' s t') /\
     (sorterKnows (quotaRoleSorter a) s (nonRevocable (total sl)) ->
        sorterKnows (quotaRoleSorter a') s (nonRevocable t'))).
Proof.
  intros Hi Hsl. unfold updateAvailable. rewrite Hi, Hsl. simpl. split.
  - by intros ->.
  - intros t' res a' [av Hav] Ht H. rewrite Hav, Ht in H. simpl in H.
    apply bind_Some in H as (r & Hr & H). injection H as <- <-.
    split; [done|]. by eapply updateSlaveTotal_spec.
Qed.

End Totals.

(** ** Sums and quantities *)

Section Sums.

Lemma N_sum_app (l1 l2 : list N) :
  N_sum (l1 ++ l2) = (N_sum l1 + N_sum l2)%N.
Proof.
  unfold N_sum. induction l1 as [|x l1 IH]; simpl; lia.
Qed.

Lemma N_sum_perm (l l' : list N) : l ≡ₚ l' -> N_sum l = N_sum l'.
Proof.
  unfold N_sum.
  induction 1 as [|x l l' _ IH|x y l|l l' l'' _ IH1 _ IH2];
    simpl; [done|lia|lia|congruence].
Qed.

(** A fold that adds [w x] to a measure at every step adds their sum. *)
Lemma foldl_measure_add {A B : Type} (mu : B -> N) (h : B -> A -> B)
    (w : A -> N) (l : list A) :
  (forall acc x, x ∈ l -> mu (h acc x) = (mu acc + w x)%N) ->
  forall init, mu (foldl h init l) = (mu init + N_sum (w <$> l))%N.
Proof.
  induction l as [|x l IH]; intros Hh init;
    rewrite ?fmap_cons; cbn [N_sum foldr foldl]; [simpl; lia|].
  rewrite IH.
  - rewrite Hh by (by left). fold (N_sum (w <$> l)). lia.
  - intros acc y Hy. apply Hh. by right.
Qed.

(** A fold that takes [w x] off a measure at every step takes off their
    sum. *)
Lemma foldl_measure_sub {A B : Type} (mu : B -> N) (h : B -> A -> B)
    (w : A -> N) (l : list A) :
  (forall acc x, mu (h acc x) = (mu acc - w x)%N) ->
  forall init, mu (foldl h init l) = (mu init - N_sum (w <$> l))%N.
Proof.
  intros Hh. induction l as [|x l IH]; intros init;
    rewrite ?fmap_cons; cbn [N_sum foldr foldl]; [simpl; lia|].
  rewrite IH, Hh. fold (N_sum (w <$> l)). lia.
Qed.

Lemma N_sum_ext {A : Type} (f g : A -> N) (l : list A) :
  (forall x, x ∈ l -> f x = g x) -> N_sum (f <$> l) = N_sum (g <$> l).
Proof.
  induction l as [|x l IH]; intros H;
    rewrite ?fmap_cons; cbn [N_sum foldr]; [done|].
  rewrite H by (by left). fold (N_sum (f <$> l)). fold (N_sum (g <$> l)).
  rewrite IH; [done|].
  intros y Hy. apply H. by right.
Qed.

Lemma N_sum_le {A : Type} (f g : A -> N) (l : list A) :
  (forall x, x ∈ l -> (f x <= g x)%N) ->
  (N_sum (f <$> l) <= N_sum (g <$> l))%N.
Proof.
  induction l as [|x l IH]; intros H;
    rewrite ?fmap_cons; cbn [N_sum foldr]; [done|].
  fold (N_sum (f <$> l)). fold (N_sum (g <$> l)).
  pose proof (H x ltac:(by left)).
  assert (N_sum (f <$> l) <= N_sum (g <$> l))%N; [|lia].
  apply IH. intros y Hy. apply H. by right.
Qed.

Lemma N_sum_zero {A : Type} (l : list A) :
  N_sum ((fun _ => 0%N) <$> l) = 0%N.
Proof.
  induction l as [|x l IH]; rewrite ?fmap_cons; cbn [N_sum foldr]; [done|].
  fold (N_sum ((fun _ : A => 0%N) <$> l)). by rewrite IH.
Qed.

Lemma N_sum_filter {A : Type} (q : A -> bool) (w : A -> N) (l : list A) :
  N_sum (w <$> List.filter q l) =
  N_sum ((fun x => if q x then w x else 0%N) <$> l).
Proof.
  induction l as [|x l IH]; [done|].
  rewrite fmap_cons. cbn [List.filter N_sum foldr].
  fold (N_sum ((fun x => if q x then w x else 0%N) <$> l)).
  destruct (q x).
  - rewrite fmap_cons. cbn [N_sum foldr].
    fold (N_sum (w <$> List.filter q l)). lia.
  - rewrite IH. lia.
Qed.

(** Over the entries of a map, the terms selected by one key sum to the term
    of that key. *)
Lemma N_sum_key {V : Type} (g : string -> V -> N) (k0 : string) (v0 : V)
    (l : list (string * V)) :
  NoDup l.*1 -> (k0, v0) ∈ l ->
  N_sum ((fun '(k, v) => if bool_decide (k = k0) then g k v else 0%N) <$> l)
  = g k0 v0.
Proof.
  induction l as [|[k v] l IH]; intros Hnd Hin.
  { by apply elem_of_nil in Hin. }
  rewrite fmap_cons. cbn [N_sum foldr].
  match goal with |- (_ + ?t)%N = _ =>
    change t with (N_sum ((fun '(k, v) =>
      if bool_decide (k = k0) then g k v else 0%N) <$> l)) end.
  rewrite fmap_cons in Hnd. simpl in Hnd.
  apply NoDup_cons in Hnd as [Hk Hnd].
  apply elem_of_cons in Hin as [Heq | Hin].
  - injection Heq as <- <-. rewrite bool_decide_eq_true_2 by done.
    rewrite (N_sum_ext _ (fun _ => 0%N)); [rewrite N_sum_zero; lia|].
    intros [k v] Hkv. rewrite bool_decide_eq_false_2; [done|].
    intros ->. apply Hk. apply list_elem_of_fmap. by exists (k0, v).
  - rewrite bool_decide_eq_false_2.
    + rewrite IH by done. lia.
    + intros ->. apply Hk. apply list_elem_of_fmap. by exists (k0, v0).
Qed.

Lemma rq_get_add1 (q : ResourceQuantities) (name : string) (v : N)
    (n : string) :
  rq_get (rq_add1 q name v) n =
  (rq_get q n + if String.eqb name n then v else 0)%N.
Proof.
  unfold rq_add1. destruct (N.eqb_spec v 0) as [->|Hv].
  - destruct (String.eqb name n); lia.
  - destruct (String.eqb_spec name n) as [->|Hn]; unfold rq_get.
    + rewrite lookup_insert_eq. simpl. done.
    + rewrite lookup_insert_ne by done. lia.
Qed.

(** Covering, and the test of [ResourceQuantities::contains]. *)
Lemma covers_contains (a b : ResourceQuantities) :
  rq_contains a b = true <-> covers a b.
Proof. apply rq_contains_spec. Qed.

End Sums.

Section QuantityLemmas.
Context `{RA : ResourcesAlgebra}.

Lemma quantity_ext (p q : Resource -> bool) (r : Resources) (n : string) :
  (forall x, x ∈ r_items r -> p x = q x) -> quantity p r n = quantity q r n.
Proof.
  intros H. unfold quantity. apply N_sum_ext. intros x Hx.
  by rewrite (H x Hx).
Qed.

(** A narrower selection holds no more. *)
Lemma quantity_mono (p q : Resource -> bool) (r : Resources) (n : string) :
  (forall x, p x = true -> q x = true) ->
  (quantity p r n <= quantity q r n)%N.
Proof.
  intros H. unfold quantity. apply N_sum_le. intros x _.
  destruct (p x) eqn:Hp; simpl; [|destruct (q x && _); lia].
  by rewrite (H x Hp).
Qed.

Lemma quantity_false (p : Resource -> bool) (r : Resources) (n : string) :
  (forall x, x ∈ r_items r -> p x = false) -> quantity p r n = 0%N.
Proof.
  intros H. unfold quantity.
  rewrite (N_sum_ext _ (fun _ => 0%N)); [apply N_sum_zero|].
  intros x Hx. by rewrite (H x Hx).
Qed.

(** [ResourceQuantities::fromScalarResources] holds the quantity of every
    name. *)
Lemma fromScalarResources_get (r : Resources) (n : string) :
  rq_get (fromScalarResources r) n = quantity anyResource r n.
Proof.
  unfold fromScalarResources, quantity.
  rewrite (foldl_measure_add (fun q => rq_get q n) _
    (fun x => if anyResource x && String.eqb (res_name x) n
              then res_scalar x else 0%N)).
  - by rewrite rq_get_empty.
  - intros acc x _. apply rq_get_add1.
Qed.

Lemma byFlags_any : byFlags anyResource.
Proof. by intros x y _. Qed.

Lemma byFlags_and (p q : Resource -> bool) :
  byFlags p -> byFlags q -> byFlags (fun x => p x && q x).
Proof. intros Hp Hq x y H. by rewrite (Hp x y H), (Hq x y H). Qed.

Lemma byFlags_scalar : byFlags res_isScalar.
Proof. by intros x y (_ & H & _). Qed.

Lemma byFlags_unreserved : byFlags res_isUnreserved.
Proof. by intros x y (_ & _ & H & _). Qed.

Lemma byFlags_name (g : string -> bool) : byFlags (fun x => g (res_name x)).
Proof. intros x y (H & _). by rewrite H. Qed.

Context `{Laws : !SelectionLaws}.

(** The quantity of a selection is the quantity under both selections. *)
Lemma quantity_filter (p q : Resource -> bool) (r : Resources)
    (n : string) :
  quantity p (r_filter q r) n = quantity (fun x => q x && p x) r n.
Proof.
  unfold quantity.
  rewrite (N_sum_perm _ _ (fmap_Permutation _ _ _ (r_items_filter q r))).
  rewrite N_sum_filter. apply N_sum_ext. intros x _.
  by destruct (q x).
Qed.

Lemma quantity_none (p : Resource -> bool) (n : string) :
  quantity p r_none n = 0%N.
Proof. unfold quantity. by rewrite r_items_none. Qed.

(** The entries of a selection are selected entries. *)
Lemma r_items_filter_elem (q : Resource -> bool) (r : Resources)
    (x : Resource) :
  x ∈ r_items (r_filter q r) <-> x ∈ r_items r /\ q x = true.
Proof.
  rewrite (r_items_filter q r). rewrite list_elem_of_In, filter_In.
  by rewrite <- list_elem_of_In.
Qed.

End QuantityLemmas.

(** ** Shrinking *)

Section Shrink.
Context `{RA : ResourcesAlgebra} `{Env : !AllocatorEnv}.
Context `{Laws : !SelectionLaws}.

#[local] Abbreviation shrinkStep :=
  (fun '(result, target) resource =>
     let scalar := rq_get target (res_name resource) in
     if (scalar =? 0)%N then (result, target)
     else match res_shrink resource scalar with
          | Some resource' =>
              (r_plus result (r_of resource'),
               rq_sub target (fromScalarResources (r_of resource')))
          | None => (result, target)
          end).

(** The amount of [n] that the selection [p] finds in one entry. *)
#[local] Abbreviation amountOf p n :=
  (fun x => if p x && String.eqb (res_name x) n then res_scalar x else 0%N).

(** What the loop of [shrinkResources] has taken and what is left of the
    target add up to the target. *)
Lemma shrink_loop_conserves (l : list Resource) (n : string) :
  forall (res : Resources) (tgt : ResourceQuantities),
    let out := foldl shrinkStep (res, tgt) l in
    (quantity anyResource out.1 n + rq_get out.2 n =
     quantity anyResource res n + rq_get tgt n)%N.
Proof.
  induction l as [|x l IH]; intros res tgt; [done|].
  cbn [foldl]. cbv zeta in IH |- *.
  destruct (N.eqb_spec (rq_get tgt (res_name x)) 0) as [Hz|Hz];
    [apply IH|].
  destruct (res_shrink x (rq_get tgt (res_name x))) as [x'|] eqn:Hx;
    [|apply IH].
  specialize (IH (r_plus res (r_of x'))
                (rq_sub tgt (fromScalarResources (r_of x')))).
  rewrite IH.
  rewrite (quantity_plus _ byFlags_any), rq_get_sub, fromScalarResources_get.
  rewrite quantity_of.
  apply res_shrink_spec in Hx as ((Hname & _) & Hsc).
  change (anyResource x') with true. cbn [andb].
  destruct (String.eqb_spec (res_name x') n) as [Hn|Hn]; [|lia].
  rewrite Hsc. rewrite Hname in Hn. subst n. lia.
Qed.

(** Whatever the selection, the loop takes no more than the entries it
    visits hold. *)
Lemma shrink_loop_from (p : Resource -> bool) (Hp : byFlags p)
    (l : list Resource) (n : string) :
  forall (res : Resources) (tgt : ResourceQuantities),
    (quantity p (foldl shrinkStep (res, tgt) l).1 n <=
     quantity p res n + N_sum (amountOf p n <$> l))%N.
Proof.
  induction l as [|x l IH]; intros res tgt.
  { cbn [foldl fmap list_fmap N_sum foldr fst]. lia. }
  rewrite fmap_cons. cbn [foldl N_sum foldr]. cbv zeta in IH |- *.
  fold (N_sum (amountOf p n <$> l)).
  destruct (N.eqb_spec (rq_get tgt (res_name x)) 0) as [Hz|Hz].
  { specialize (IH res tgt). lia. }
  destruct (res_shrink x (rq_get tgt (res_name x))) as [x'|] eqn:Hx.
  2: { specialize (IH res tgt). lia. }
  specialize (IH (r_plus res (r_of x'))
                (rq_sub tgt (fromScalarResources (r_of x')))).
  rewrite (quantity_plus _ Hp), quantity_of in IH.
  apply res_shrink_spec in Hx as (Hfl & Hsc).
  rewrite (Hp x' x Hfl) in IH. destruct Hfl as (Hname & _).
  rewrite Hname in IH.
  destruct (p x && String.eqb (res_name x) n); lia.
Qed.

(** When every visited entry can be shrunk, the loop takes, per name, the
    smaller of what the entries hold and what the target asks. *)
Lemma shrink_loop_exact (l : list Resource) (n : string) :
  (forall x t, x ∈ l -> is_Some (res_shrink x t)) ->
  forall (res : Resources) (tgt : ResourceQuantities),
    quantity anyResource (foldl shrinkStep (res, tgt) l).1 n =
    (quantity anyResource res n +
     N.min (N_sum (amountOf anyResource n <$> l)) (rq_get tgt n))%N.
Proof.
  induction l as [|x l IH]; intros Hdiv res tgt.
  { cbn [foldl fmap list_fmap N_sum foldr fst]. lia. }
  rewrite fmap_cons. cbn [foldl N_sum foldr]. cbv zeta in IH |- *.
  fold (N_sum (amountOf anyResource n <$> l)).
  assert (forall y t, y ∈ l -> is_Some (res_shrink y t)) as Hdiv'
    by (intros y t Hy; apply Hdiv; by right).
  change (anyResource x) with true. cbn [andb].
  destruct (N.eqb_spec (rq_get tgt (res_name x)) 0) as [Hz|Hz].
  { rewrite (IH Hdiv').
    destruct (String.eqb_spec (res_name x) n) as [Hn|Hn]; [|lia].
    subst n. lia. }
  destruct (Hdiv x (rq_get tgt (res_name x)) ltac:(by left)) as [x' Hx].
  rewrite Hx. rewrite (IH Hdiv').
  rewrite (quantity_plus _ byFlags_any), quantity_of, rq_get_sub,
    fromScalarResources_get, quantity_of.
  apply res_shrink_spec in Hx as ((Hname & _) & Hsc).
  change (anyResource x') with true. cbn [andb]. rewrite Hname.
  destruct (String.eqb_spec (res_name x) n) as [Hn|Hn]; [|lia].
  subst n. lia.
Qed.

(** [shrinkResources] shrinks its argument to the target. *)
Lemma shrinkResources_shrunkTo (pool : Resources)
    (target : ResourceQuantities) :
  (forall l, shuffle_resources l ≡ₚ l) ->
  shrunkTo pool target (shrinkResources pool target).
Proof.
  intros Hshuffle. unfold shrunkTo, shrinkResources.
  destruct (rq_empty target) eqn:Hempty.
  { apply bool_decide_eq_true_1 in Hempty. subst target.
    split_and!.
    - intros n. rewrite quantity_none. lia.
    - intros p _ n. rewrite quantity_none. lia.
    - intros _ n. rewrite quantity_none, rq_get_empty. lia. }
  cbv zeta. split_and!.
  - intros n.
    pose proof (shrink_loop_conserves (shuffle_resources (r_items pool)) n
                  r_none target) as H.
    cbv zeta in H. rewrite quantity_none in H. lia.
  - intros p Hp n.
    pose proof (shrink_loop_from p Hp (shuffle_resources (r_items pool)) n
                  r_none target) as H.
    cbv zeta in H. rewrite quantity_none in H.
    rewrite (N_sum_perm _ _ (fmap_Permutation _ _ _
               (Hshuffle (r_items pool)))) in H.
    unfold quantity at 2. lia.
  - intros Hdiv n.
    pose proof (shrink_loop_exact (shuffle_resources (r_items pool)) n) as H.
    cbv zeta in H. rewrite H; clear H.
    + rewrite quantity_none.
      rewrite (N_sum_perm _ _ (fmap_Permutation _ _ _
                 (Hshuffle (r_items pool)))).
      unfold quantity. lia.
    + intros x t Hx. apply Hdiv. by rewrite <- (Hshuffle (r_items pool)).
Qed.

End Shrink.

(** ** The first stage *)

Section StageOne.
Context `{RA : ResourcesAlgebra} `{Env : !AllocatorEnv}.
Context `{Laws : !SelectionLaws}.

(** The chains of selections of the code are the portions of the spec. *)
Lemma reserved_nonRevocable (role : string) (x : Resources) :
  nonRevocable (reserved role x) = reservedNonRevocable role x.
Proof.
  unfold nonRevocable, reserved, reservedNonRevocable.
  apply r_filter_filter.
Qed.

Lemma nonRevocable_unreserved (x : Resources) :
  unreserved (nonRevocable x) = unreservedNonRevocable x.
Proof.
  unfold unreserved, nonRevocable, unreservedNonRevocable.
  apply r_filter_filter.
Qed.

(** What [shrinkResources] returns holds, per name, at most the target. *)
Lemma shrinkResources_bound (pool : Resources) (target : ResourceQuantities)
    (n : string) :
  (quantity anyResource (shrinkResources pool target) n <= rq_get target n)%N.
Proof.
  unfold shrinkResources. destruct (rq_empty target).
  { rewrite quantity_none. lia. }
  pose proof (shrink_loop_conserves (shuffle_resources (r_items pool)) n
                r_none target) as H.
  cbv zeta in H |- *. rewrite quantity_none in H. lia.
Qed.

(** C3. A step of the first stage for an agent, a quota role and an active,
    capable framework, with something left for the role on the agent. The
    quota part is the unreserved non-revocable resources of the agent shrunk
    to the role's unsatisfied guarantee (the guarantee minus the role's
    consumed quota): per name it holds at most the unsatisfied guarantee,
    it holds no more than the unreserved non-revocable resources hold, and
    when these are divisible it holds the smaller of the two. The base of
    [toAllocate] is the reserved-for-role non-revocable resources plus the
    quota part. When the base is empty the step continues without any
    effect, so nothing else is added. Otherwise the surplus part, which is
    the unreserved non-revocable resources whose name has no guarantee
    shrunk to the surplus headroom (available minus required), and the
    unreserved non-revocable non-scalar resources are added: that sum is what
    is checked against [allocatable] and the filters; when refused the step
    continues without effect, and when accepted the step allocates it to
    the role and offers it to the framework for the role on the agent. *)
Theorem stage1_toAllocate (a : Allocator) (loc : Locals) (s : SlaveID)
    (role : string) (quotaGuarantee : ResourceQuantities) (f : FrameworkID)
    (sl : Slave) (fw : Framework) :
  (forall l, shuffle_resources l ≡ₚ l) ->
  slaves a !! s = Some sl ->
  frameworks a !! f = Some fw ->
  active fw = true ->
  isCapableOfReceivingAgent a (fw_capabilities fw) sl = Some true ->
  let left :=
    r_minus (getAvailable sl)
      (default r_none (offeredSharedResources loc !! s)) in
  r_empty (r_filter (fun x => res_isAllocatableTo x role) left) = false ->
  let available := stripIncapableResources left (fw_capabilities fw) in
  let pool := unreservedNonRevocable available in
  let unsatisfied :=
    rq_sub quotaGuarantee (default ∅ (rolesConsumedQuota loc !! role)) in
  let surplus := rq_sub (availableHeadroom loc) (requiredHeadroom loc) in
  let quotaPart := shrinkResources pool unsatisfied in
  let surplusPart :=
    shrinkResources (withoutGuarantee quotaGuarantee pool) surplus in
  let base := r_plus (reservedNonRevocable role available) quotaPart in
  let toAllocate := r_plus (r_plus base surplusPart) (nonScalar pool) in
  let step := stage1_framework s role quotaGuarantee f (a, loc) in
  shrunkTo pool unsatisfied quotaPart /\
  shrunkTo (withoutGuarantee quotaGuarantee pool) surplus surplusPart /\
  (r_empty base = true -> step = Some (Continue, (a, loc))) /\
  (r_empty base = false ->
     (offerRejected a f role s fw toAllocate ->
        step = Some (Continue, (a, loc))) /\
     (offerAccepted a f role s fw toAllocate ->
        forall a',
          commitAllocation a f role s (r_allocate role toAllocate)
            = Some a' ->
          exists loc',
            step = Some (Continue, (a', loc')) /\
            offerRecorded loc loc' f role s toAllocate)).
Proof.
  intros Hshuffle Hsl Hfw Hact Hcap left Hleft available pool unsatisfied
    surplus quotaPart surplusPart base toAllocate step.
  split; [by apply shrinkResources_shrunkTo|].
  split; [by apply shrinkResources_shrunkTo|].
  subst step. unfold stage1_framework. rewrite Hsl. simpl. fold left.
  unfold allocatableTo. rewrite Hleft.
  rewrite Hfw. simpl. rewrite Hact. simpl. rewrite Hcap. simpl.
  fold available. rewrite reserved_nonRevocable, nonRevocable_unreserved.
  fold pool. fold unsatisfied. fold quotaPart. fold base.
  split.
  - by intros ->.
  - intros ->.
    change (r_filter (fun resource =>
              (rq_get quotaGuarantee (res_name resource) =? 0)%N) pool)
      with (withoutGuarantee quotaGuarantee pool).
    fold surplus. fold surplusPart.
    change (r_filter (fun resource => negb (res_isScalar resource)) pool)
      with (nonScalar pool).
    fold toAllocate. split.
    + intros [Hal | Hflt].
      * by rewrite Hal.
      * destruct (allocatable a toAllocate role fw); simpl; [|done].
        by rewrite Hflt.
    + intros [Hal Hflt] a' Ha'. rewrite Hal, Hflt. simpl. rewrite Ha'. simpl.
      by eexists.
Qed.

(** The unreserved scalars of what a step of the first stage allocates are
    no more than the quota part and the surplus part together. *)
Lemma stage1_allocatedUnreserved (role : string)
    (reserved_ quotaPart surplusPart nonScalar_ pool : Resources)
    (n : string) :
  (forall x, x ∈ r_items reserved_ -> res_isUnreserved x = false) ->
  (quantity anyResource
     (scalars (unreserved
        (r_allocate role
           (r_plus (r_plus (r_plus reserved_ quotaPart) surplusPart)
              (r_filter (fun x => negb (res_isScalar x)) pool))))) n
   <= quantity anyResource (scalars quotaPart) n +
      quantity anyResource surplusPart n)%N.
Proof.
  intros Hres. unfold scalars, unreserved.
  rewrite !quantity_filter.
  assert (byFlags (fun x => res_isUnreserved x &&
                            (res_isScalar x && anyResource x))) as Hp.
  { apply byFlags_and; [apply byFlags_unreserved|].
    apply byFlags_and; [apply byFlags_scalar | apply byFlags_any]. }
  rewrite (quantity_allocate _ Hp), !(quantity_plus _ Hp).
  rewrite (quantity_false _ reserved_).
  2: { intros x Hx. by rewrite (Hres x Hx). }
  rewrite (quantity_false _ (r_filter _ pool)).
  2: { intros x Hx. apply r_items_filter_elem in Hx as [_ Hx].
       apply negb_true_iff in Hx. rewrite Hx.
       by destruct (res_isUnreserved x). }
  pose proof (quantity_mono
    (fun x => res_isUnreserved x && (res_isScalar x && anyResource x))
    (fun x => res_isScalar x && anyResource x) quotaPart n) as H1.
  pose proof (quantity_mono
    (fun x => res_isUnreserved x && (res_isScalar x && anyResource x))
    anyResource surplusPart n) as H2.
  cbv beta in H1, H2.
  assert (forall x, res_isUnreserved x && (res_isScalar x && anyResource x)
                    = true -> res_isScalar x && anyResource x = true) as G1
    by (intros x Hx; by apply andb_true_iff in Hx as [_ Hx]).
  specialize (H1 G1). specialize (H2 ltac:(done)). lia.
Qed.

(** A step of the first stage keeps the required headroom covered. *)
Lemma stage1_framework_covers s role quotaGuarantee f st c st' :
  stage1_framework s role quotaGuarantee f st = Some (c, st') ->
  covers (availableHeadroom st.2) (requiredHeadroom st.2) ->
  covers (availableHeadroom st'.2) (requiredHeadroom st'.2) /\
  heldBackAgentCount st'.2 = heldBackAgentCount st.2.
Proof.
  destruct st as [a loc]. simpl. intros H Hk.
  unfold stage1_framework in H.
  apply bind_Some in H as (sl & Hsl & H).
  destruct (r_empty (allocatableTo role _)); [by simplify_eq|].
  apply bind_Some in H as (fw & Hfw & H).
  destruct (active fw); simpl in H; [|done].
  apply bind_Some in H as (capable & Hcap & H).
  destruct capable; simpl in H; [|by simplify_eq].
  destruct (r_empty (r_plus _ _)); [by simplify_eq|].
  apply bind_Some in H as (filtered & Hflt & H).
  destruct filtered; simpl in H; [by simplify_eq|].
  apply bind_Some in H as (a' & Ha' & H). injection H as _ <-. simpl.
  split; [|done]. intros n.
  rewrite !rq_get_sub, !fromScalarResources_get.
  match goal with
  | |- (_ - quantity anyResource (scalars ?q) n <=
        _ - quantity anyResource
              (scalars (unreserved (r_allocate role
                 (r_plus (r_plus (r_plus ?r ?q) ?sp) ?ns)))) n)%N =>
      pose proof (stage1_allocatedUnreserved role r q sp
                    (r_filter (fun x => negb (res_isScalar x))
                       (unreserved (nonRevocable
                          (stripIncapableResources
                             (r_minus (getAvailable sl)
                                (default r_none
                                   (offeredSharedResources loc !! s)))
                             (fw_capabilities fw)))))
                    (unreserved (nonRevocable
                       (stripIncapableResources
                          (r_minus (getAvailable sl)
                             (default r_none
                                (offeredSharedResources loc !! s)))
                          (fw_capabilities fw))))
                    n) as HU;
      pose proof (shrinkResources_bound
                    (r_filter (fun resource =>
                       (rq_get quotaGuarantee (res_name resource) =? 0)%N)
                       (unreserved (nonRevocable
                          (stripIncapableResources
                             (r_minus (getAvailable sl)
                                (default r_none
                                   (offeredSharedResources loc !! s)))
                             (fw_capabilities fw)))))
                    (rq_sub (availableHeadroom loc) (requiredHeadroom loc))
                    n) as HS
  end.
  rewrite rq_get_sub in HS. specialize (Hk n).
  assert (forall x,
    x ∈ r_items (nonRevocable (reserved role
          (stripIncapableResources
             (r_minus (getAvailable sl)
                (default r_none (offeredSharedResources loc !! s)))
             (fw_capabilities fw)))) ->
    res_isUnreserved x = false) as Hres.
  { intros x Hx. unfold nonRevocable, reserved in Hx.
    apply r_items_filter_elem in Hx as [Hx _].
    apply r_items_filter_elem in Hx as [_ Hx].
    by eapply res_reserved_not_unreserved. }
  specialize (HU Hres). cbv zeta in HU. lia.
Qed.

Lemma stage1_role_covers s role st c st' :
  stage1_role s role st = Some (c, st') ->
  covers (availableHeadroom st.2) (requiredHeadroom st.2) ->
  covers (availableHeadroom st'.2) (requiredHeadroom st'.2) /\
  heldBackAgentCount st'.2 = heldBackAgentCount st.2.
Proof.
  unfold stage1_role. intros H Hk.
  apply bind_Some in H as (g & _ & H).
  destruct (map_contains _ _); simpl in H; [|by simplify_eq].
  apply bind_Some in H as (sl & _ & H).
  destruct (r_empty _); [by simplify_eq|].
  apply bind_Some in H as (fs & _ & H).
  apply bind_Some in H as (st2 & Hrun & H). injection H as _ <-.
  eapply (foreach_inv (fun x =>
            covers (availableHeadroom x.2) (requiredHeadroom x.2) /\
            heldBackAgentCount x.2 = heldBackAgentCount st.2));
    [| exact Hrun | by split].
  intros f x cx x' _ Hx [Hc Hh].
  apply stage1_framework_covers in Hx as [Hc' Hh']; [|done].
  split; [done|congruence].
Qed.

Lemma stage1_slave_covers s st c st' :
  stage1_slave s st = Some (c, st') ->
  covers (availableHeadroom st.2) (requiredHeadroom st.2) ->
  covers (availableHeadroom st'.2) (requiredHeadroom st'.2) /\
  heldBackAgentCount st'.2 = heldBackAgentCount st.2.
Proof.
  unfold stage1_slave. intros H Hk.
  apply bind_Some in H as (_ & _ & H).
  apply bind_Some in H as (st2 & Hrun & H). injection H as _ <-.
  eapply (foreach_inv (fun x =>
            covers (availableHeadroom x.2) (requiredHeadroom x.2) /\
            heldBackAgentCount x.2 = heldBackAgentCount st.2));
    [| exact Hrun | by split].
  intros role x cx x' _ Hx [Hc Hh].
  apply stage1_role_covers in Hx as [Hc' Hh']; [|done].
  split; [done|congruence].
Qed.

(** The first stage keeps the required headroom covered. *)
Lemma stage1_covers slaveIds st st' :
  foreach slaveIds stage1_slave st = Some st' ->
  covers (availableHeadroom st.2) (requiredHeadroom st.2) ->
  covers (availableHeadroom st'.2) (requiredHeadroom st'.2).
Proof.
  intros Hrun Hk.
  eapply (foreach_inv (fun x =>
            covers (availableHeadroom x.2) (requiredHeadroom x.2)));
    [| exact Hrun | exact Hk].
  intros s x cx x' _ Hx Hc.
  by apply stage1_slave_covers in Hx as [Hc' _].
Qed.

End StageOne.

(** ** The second stage *)

Section StageTwo.
Context `{RA : ResourcesAlgebra} `{Env : !AllocatorEnv}.
Context `{Laws : !SelectionLaws}.

(** The chain of selections of the code is the portion of the spec. *)
Lemma headroomResources_portion (candidate : Resources) :
  nonRevocable (unreserved (scalars candidate)) = headroomPortion candidate.
Proof.
  unfold nonRevocable, unreserved, scalars, headroomPortion.
  rewrite (r_filter_filter res_isUnreserved res_isScalar).
  apply r_filter_filter.
Qed.

(** The test of the code decides whether the headroom suffices. *)
Lemma headroomSuffices_test (loc : Locals) (portion : Resources) :
  rq_contains
    (rq_sub (availableHeadroom loc) (fromScalarResources portion))
    (requiredHeadroom loc) = true <->
  headroomSuffices loc portion.
Proof.
  rewrite rq_contains_spec. unfold headroomSuffices.
  split; intros H n; specialize (H n);
    by rewrite rq_get_sub, fromScalarResources_get in *.
Qed.

Lemma headroomSuffices_covers (loc : Locals) (portion : Resources) :
  headroomSuffices loc portion ->
  covers (availableHeadroom loc) (requiredHeadroom loc).
Proof. intros H n. specialize (H n). lia. Qed.

(** What a step of the second stage does once it reaches the headroom
    check. *)
Lemma stage2_framework_reached a loc s role f sl fw :
  slaves a !! s = Some sl ->
  frameworks a !! f = Some fw ->
  isCapableOfReceivingAgent a (fw_capabilities fw) sl = Some true ->
  let left :=
    r_minus (getAvailable sl)
      (default r_none (offeredSharedResources loc !! s)) in
  r_empty (r_filter (fun x => res_isAllocatableTo x role) left) = false ->
  let candidate :=
    r_filter (fun x => res_isAllocatableTo x role)
      (stripIncapableResources left (fw_capabilities fw)) in
  let portion := headroomPortion candidate in
  let step := stage2_framework s role f (a, loc) in
  (~ headroomSuffices loc portion ->
     let offer := r_minus candidate portion in
     (offerRejected a f role s fw offer ->
        exists loc',
          step = Some (Continue, (a, loc')) /\
          heldBack loc loc' portion /\
          offerable loc' = offerable loc /\
          availableHeadroom loc' = availableHeadroom loc /\
          requiredHeadroom loc' = requiredHeadroom loc) /\
     (offerAccepted a f role s fw offer ->
        forall a',
          commitAllocation a f role s (r_allocate role offer) = Some a' ->
          exists loc',
            step = Some (Continue, (a', loc')) /\
            heldBack loc loc' portion /\
            offerRecorded loc loc' f role s offer /\
            availableHeadroom loc' = availableHeadroom loc /\
            requiredHeadroom loc' = requiredHeadroom loc)) /\
  (headroomSuffices loc portion ->
     (offerRejected a f role s fw candidate ->
        step = Some (Continue, (a, loc))) /\
     (offerAccepted a f role s fw candidate ->
        forall a',
          commitAllocation a f role s (r_allocate role candidate)
            = Some a' ->
          exists loc',
            step = Some (Continue, (a', loc')) /\
            nothingHeldBack loc loc' /\
            offerRecorded loc loc' f role s candidate /\
            requiredHeadroom loc' = requiredHeadroom loc /\
            forall n, rq_get (availableHeadroom loc') n =
                      (rq_get (availableHeadroom loc) n -
                       quantity anyResource portion n)%N)).
Proof.
  intros Hsl Hfw Hcap left Hleft candidate portion step.
  subst step. unfold stage2_framework. rewrite Hsl. simpl. fold left.
  unfold allocatableTo. rewrite Hleft.
  rewrite Hfw. simpl. rewrite Hcap. simpl. fold candidate.
  rewrite headroomResources_portion. fold portion.
  pose proof (headroomSuffices_test loc portion) as Htest.
  destruct (rq_contains _ (requiredHeadroom loc)) eqn:Hsuff; simpl.
  - split; [intros Hno; destruct Hno; by apply Htest|].
    intros _. split.
    + intros [Hal | Hflt].
      * by rewrite Hal.
      * destruct (allocatable a candidate role fw); simpl; [|done].
        by rewrite Hflt.
    + intros [Hal Hflt] a' Ha'. rewrite Hal, Hflt. simpl. rewrite Ha'. simpl.
      eexists. split; [done|]. simpl. split; [done|]. split; [done|].
      split; [done|]. intros n.
      by rewrite rq_get_sub, fromScalarResources_get.
  - split; [|intros Hyes; apply Htest in Hyes; congruence].
    intros _. set (offer := r_minus candidate portion). split.
    + intros Hrej.
      assert ((if negb (allocatable a offer role fw) then Some true
               else isFiltered a f role s offer) = Some true) as ->.
      { destruct Hrej as [Hal | Hflt]; [by rewrite Hal|].
        by destruct (allocatable a offer role fw). }
      simpl. eexists. split; [done|]. simpl. split; [|done].
      split; [done|]. intros n. simpl.
      by rewrite rq_get_add, fromScalarResources_get.
    + intros [Hal Hflt] a' Ha'. rewrite Hal, Hflt. simpl.
      rewrite Ha'. simpl.
      eexists. split; [done|]. simpl. split; [|done].
      split; [done|]. intros n. simpl.
      by rewrite rq_get_add, fromScalarResources_get.
Qed.

(** A step of the second stage that reaches the headroom check ends with
    the headroom kept. *)
Lemma stage2_reached_kept a loc s role f sl fw c a' loc' :
  slaves a !! s = Some sl ->
  frameworks a !! f = Some fw ->
  isCapableOfReceivingAgent a (fw_capabilities fw) sl = Some true ->
  r_empty (r_filter (fun x => res_isAllocatableTo x role)
             (r_minus (getAvailable sl)
                (default r_none (offeredSharedResources loc !! s))))
    = false ->
  stage2_framework s role f (a, loc) = Some (c, (a', loc')) ->
  headroomKept loc'.
Proof.
  intros Hsl Hfw Hcap Hleft H. unfold stage2_framework in H.
  rewrite Hsl in H. simpl in H. unfold allocatableTo in H.
  rewrite Hleft in H. rewrite Hfw in H. simpl in H.
  rewrite Hcap in H. simpl in H.
  rewrite headroomResources_portion in H.
  match type of H with context [headroomPortion ?c] =>
    pose proof (headroomSuffices_test loc (headroomPortion c)) as Htest end.
  destruct (rq_contains _ (requiredHeadroom loc)) eqn:Hsuff; simpl in H;
    apply bind_Some in H as (filtered & Hfiltered & H);
    destruct filtered; simpl in H.
  - injection H as _ _ <-. left.
    eapply headroomSuffices_covers. by apply Htest.
  - apply bind_Some in H as (a2 & Ha2 & H). injection H as _ _ <-.
    left. simpl. intros n. rewrite rq_get_sub, fromScalarResources_get.
    by apply Htest.
  - injection H as _ _ <-. right. simpl. lia.
  - apply bind_Some in H as (a2 & Ha2 & H). injection H as _ _ <-.
    right. simpl. lia.
Qed.

(** Every step of the second stage keeps the headroom. *)
Lemma stage2_framework_kept s role f st c st' :
  stage2_framework s role f st = Some (c, st') ->
  headroomKept st.2 -> headroomKept st'.2.
Proof.
  destruct st as [a loc], st' as [a' loc']. simpl. intros H Hk.
  pose proof H as H0. unfold stage2_framework in H0.
  apply bind_Some in H0 as (sl & Hsl & H0).
  destruct (r_empty (allocatableTo role _)) eqn:Hleft; [by simplify_eq|].
  apply bind_Some in H0 as (fw & Hfw & H0).
  apply bind_Some in H0 as (capable & Hcap & H0).
  destruct capable; simpl in H0; [|by simplify_eq].
  by eapply stage2_reached_kept.
Qed.

Lemma stage2_role_kept s role st c st' :
  stage2_role s role st = Some (c, st') ->
  headroomKept st.2 -> headroomKept st'.2.
Proof.
  unfold stage2_role. intros H Hk.
  destruct (map_contains _ _); [by injection H as _ <-|].
  apply bind_Some in H as (sl & _ & H).
  destruct (r_empty _); [by injection H as _ <-|].
  apply bind_Some in H as (fs & _ & H).
  apply bind_Some in H as (st2 & Hrun & H). injection H as _ <-.
  eapply (foreach_inv (fun x => headroomKept x.2)); [| exact Hrun | exact Hk].
  intros f x cx x' _. apply stage2_framework_kept.
Qed.

Lemma stage2_slave_kept s st c st' :
  stage2_slave s st = Some (c, st') ->
  headroomKept st.2 -> headroomKept st'.2.
Proof.
  unfold stage2_slave. intros H Hk.
  apply bind_Some in H as (_ & _ & H).
  apply bind_Some in H as (st2 & Hrun & H). injection H as _ <-.
  eapply (foreach_inv (fun x => headroomKept x.2)); [| exact Hrun | exact Hk].
  intros role x cx x' _. apply stage2_role_kept.
Qed.

Lemma __allocate_stages a run :
  __allocate a = Some run ->
  exists slaveIds st1,
    foreach slaveIds stage1_slave (a, seedLocals a) = Some st1 /\
    foreach slaveIds stage2_slave st1 = Some (run_state run, run_locals run).
Proof.
  unfold __allocate. intros H.
  apply bind_Some in H as (candidates & _ & H).
  apply bind_Some in H as (st1 & H1 & H).
  apply bind_Some in H as ([a2 loc2] & H2 & H). injection H as <-.
  by exists (shuffle_slaves candidates), st1.
Qed.

(** C1 (amended). A step of the second stage that reaches the headroom
    check takes the candidate allocation, which is what the role may be
    allocated of the agent's remaining resources, and its unreserved
    non-revocable scalar portion. When taking that portion out of the
    available headroom would no longer cover the required headroom, the
    portion is removed from the candidate, the held-back agent counter goes
    up by one and the held-back quantities by those of the portion, both
    headrooms stay, and the remainder is offered exactly when it is
    allocatable and not filtered. Otherwise nothing is held back and the
    whole candidate is offered exactly when it is allocatable and not
    filtered, in which case the available headroom is lowered by the
    quantities of the portion; a refused candidate changes nothing. After
    such a step the headroom is kept: available covers required, or the
    held-back counter is positive; and every step of the second stage keeps
    a kept headroom. And after every allocation run that is seeded with an
    available headroom covering the required headroom, the available
    headroom covers the required headroom or the held-back counter is
    positive. *)
Theorem stage2_headroom :
  (forall a loc s role f sl fw,
     slaves a !! s = Some sl ->
     frameworks a !! f = Some fw ->
     isCapableOfReceivingAgent a (fw_capabilities fw) sl = Some true ->
     let left :=
       r_minus (getAvailable sl)
         (default r_none (offeredSharedResources loc !! s)) in
     r_empty (r_filter (fun x => res_isAllocatableTo x role) left) = false ->
     let candidate :=
       r_filter (fun x => res_isAllocatableTo x role)
         (stripIncapableResources left (fw_capabilities fw)) in
     let portion := headroomPortion candidate in
     let step := stage2_framework s role f (a, loc) in
     (~ headroomSuffices loc portion ->
        let offer := r_minus candidate portion in
        (offerRejected a f role s fw offer ->
           exists loc',
             step = Some (Continue, (a, loc')) /\
             heldBack loc loc' portion /\
             offerable loc' = offerable loc /\
             availableHeadroom loc' = availableHeadroom loc /\
             requiredHeadroom loc' = requiredHeadroom loc) /\
        (offerAccepted a f role s fw offer ->
           forall a',
             commitAllocation a f role s (r_allocate role offer) = Some a' ->
             exists loc',
               step = Some (Continue, (a', loc')) /\
               heldBack loc loc' portion /\
               offerRecorded loc loc' f role s offer /\
               availableHeadroom loc' = availableHeadroom loc /\
               requiredHeadroom loc' = requiredHeadroom loc)) /\
     (headroomSuffices loc portion ->
        (offerRejected a f role s fw candidate ->
           step = Some (Continue, (a, loc))) /\
        (offerAccepted a f role s fw candidate ->
           forall a',
             commitAllocation a f role s (r_allocate role candidate)
               = Some a' ->
             exists loc',
               step = Some (Continue, (a', loc')) /\
               nothingHeldBack loc loc' /\
               offerRecorded loc loc' f role s candidate /\
               requiredHeadroom loc' = requiredHeadroom loc /\
               forall n, rq_get (availableHeadroom loc') n =
                         (rq_get (availableHeadroom loc) n -
                          quantity anyResource portion n)%N))) /\
  (forall a loc s role f sl fw c a' loc',
     slaves a !! s = Some sl ->
     frameworks a !! f = Some fw ->
     isCapableOfReceivingAgent a (fw_capabilities fw) sl = Some true ->
     r_empty (r_filter (fun x => res_isAllocatableTo x role)
                (r_minus (getAvailable sl)
                   (default r_none (offeredSharedResources loc !! s))))
       = false ->
     stage2_framework s role f (a, loc) = Some (c, (a', loc')) ->
     headroomKept loc') /\
  (forall s role f st c st',
     stage2_framework s role f st = Some (c, st') ->
     headroomKept st.2 -> headroomKept st'.2) /\
  (forall a run,
     __allocate a = Some run ->
     covers (availableHeadroom (seedLocals a))
       (requiredHeadroom (seedLocals a)) ->
     headroomKept (run_locals run)).
Proof.
  split_and!.
  - apply stage2_framework_reached.
  - apply stage2_reached_kept.
  - apply stage2_framework_kept.
  - intros a run Hrun Hseed.
    apply __allocate_stages in Hrun as (slaveIds & st1 & H1 & H2).
    apply stage1_covers in H1; [|exact Hseed].
    change (headroomKept (run_state run, run_locals run).2).
    eapply (foreach_inv (fun x => headroomKept x.2)); [| exact H2 | by left].
    intros s x cx x' _. apply stage2_slave_kept.
Qed.

End StageTwo.

(** ** Seeding of the headroom *)

Section RoleNames.

(** The top-level role of [r] is [role] exactly when [r] is [role] or one of
    its subroles; [role] itself is a top-level role. *)
Lemma topLevelRole_subrole (role r : string) :
  contains_slash role = false ->
  bool_decide (topLevelRole r = role) = isRoleOrSubrole role r.
Proof.
  unfold topLevelRole, isRoleOrSubrole.
  revert r. induction role as [|d role IH]; intros r Hrole.
  - change ("" +:+ "/") with "/".
    destruct r as [|c r]; [done|].
    cbn [contains_slash before_slash String.prefix String.eqb orb andb].
    destruct (Ascii.eqb_spec c "/") as [->|Hc].
    { destruct (ascii_dec "/" "/") as [_|Hne]; [|done]. by destruct r. }
    destruct (ascii_dec "/" c) as [<-|_]; [done|].
    apply bool_decide_eq_false_2. by destruct (contains_slash r).
  - cbn in Hrole. destruct (Ascii.eqb_spec d "/") as [->|Hd]; [done|].
    change (String d role +:+ "/") with (String d (role +:+ "/")).
    destruct r as [|c r]; [done|].
    cbn [contains_slash before_slash String.prefix String.eqb orb andb].
    destruct (Ascii.eqb_spec c "/") as [->|Hc].
    + destruct (Ascii.eqb_spec "/" d) as [<-|_]; [done|].
      destruct (ascii_dec d "/") as [->|_]; [done|].
      rewrite orb_false_r. by apply bool_decide_eq_false_2.
    + specialize (IH r Hrole).
      destruct (Ascii.eqb_spec c d) as [->|Hcd].
      * destruct (ascii_dec d d) as [_|Hdd]; [|done].
        rewrite <- IH. apply bool_decide_ext.
        destruct (contains_slash r); split; intros H; congruence.
      * destruct (ascii_dec d c) as [->|_]; [done|].
        apply bool_decide_eq_false_2.
        destruct (contains_slash r); congruence.
Qed.

Lemma before_slash_no_slash (r : string) :
  contains_slash (before_slash r) = false.
Proof.
  induction r as [|c r IH]; [done|]. cbn [before_slash].
  destruct (Ascii.eqb c "/") eqn:Hc; [done|].
  cbn [contains_slash]. by rewrite Hc.
Qed.

(** A top-level role has no "/" in its name. *)
Lemma topLevelRole_no_slash (r : string) :
  contains_slash (topLevelRole r) = false.
Proof.
  unfold topLevelRole. destruct (contains_slash r) eqn:Hr; [|done].
  apply before_slash_no_slash.
Qed.

End RoleNames.

Section Seed.
Context `{RA : ResourcesAlgebra} `{Env : !AllocatorEnv}.
Context `{Laws : !SelectionLaws}.

Lemma mget_map_add m k q k' name :
  mget (rq_map_add m k q) k' name =
  (mget m k' name + if bool_decide (k = k') then rq_get q name else 0)%N.
Proof.
  unfold mget, rq_map_add. case_bool_decide as Hk.
  - subst. rewrite lookup_insert_eq. simpl. apply rq_get_add.
  - rewrite lookup_insert_ne by done. lia.
Qed.

(** The selections that the seeding reads, as quantities. *)
Lemma charged_quantity (resources : Resources) (name : string) :
  rq_get (fromScalarResources
            (scalars (nonRevocable (unreserved resources)))) name =
  chargedQuantity name resources.
Proof.
  rewrite fromScalarResources_get. unfold scalars, nonRevocable, unreserved.
  rewrite !quantity_filter. unfold chargedQuantity.
  apply quantity_ext. intros x _. unfold anyResource.
  by destruct (res_isUnreserved x), (res_isRevocable x), (res_isScalar x).
Qed.

Lemma scalars_quantity (r : Resources) (name : string) :
  rq_get (fromScalarResources (scalars r)) name =
  quantity res_isScalar r name.
Proof.
  rewrite fromScalarResources_get. unfold scalars.
  rewrite quantity_filter. apply quantity_ext. intros x _.
  unfold anyResource. by destruct (res_isScalar x).
Qed.

Lemma reserved_scalars_quantity (r : Resources) (name : string) :
  rq_get (fromScalarResources (scalars (reservedAny r))) name =
  quantity (fun x => res_isReserved x None && res_isScalar x) r name.
Proof.
  rewrite fromScalarResources_get. unfold scalars, reservedAny.
  rewrite !quantity_filter. apply quantity_ext. intros x _.
  unfold anyResource. by destruct (res_isReserved x None), (res_isScalar x).
Qed.

Lemma revocable_scalars_quantity (r : Resources) (name : string) :
  rq_get (fromScalarResources (scalars (revocable r))) name =
  quantity (fun x => res_isRevocable x && res_isScalar x) r name.
Proof.
  rewrite fromScalarResources_get. unfold scalars, revocable.
  rewrite !quantity_filter. apply quantity_ext. intros x _.
  unfold anyResource. by destruct (res_isRevocable x), (res_isScalar x).
Qed.

(** The consumed quota that the code seeds for a quota'ed role: its
    reservations and the charged allocations of the roles whose top-level
    role it is. *)
Lemma seedConsumedQuota_get (a : Allocator) (role name : string) :
  is_Some (quotaGuarantees a !! role) ->
  mget (seedConsumedQuota a) role name =
  (rq_get (default ∅ (reservationScalarQuantities a !! role)) name +
   N_sum ((fun '(r, _) =>
             if bool_decide (topLevelRole r = role) &&
                sorter_contains (roleSorter a) r
             then N_sum ((fun '(_, resources) =>
                            chargedQuantity name resources)
                           <$> map_to_list (sorter_allocation (roleSorter a) r))
             else 0) <$> map_to_list (roles a)))%N.
Proof.
  intros [g0 Hg0]. unfold seedConsumedQuota.
  rewrite (foldl_measure_add (fun m => mget m role name) _
    (fun '(r, _) =>
       if bool_decide (topLevelRole r = role) &&
          sorter_contains (roleSorter a) r
       then N_sum ((fun '(_, resources) => chargedQuantity name resources)
                     <$> map_to_list (sorter_allocation (roleSorter a) r))
       else 0%N)).
  - f_equal.
    rewrite (foldl_measure_add (fun m => mget m role name) _
      (fun '(r, _) =>
         if bool_decide (r = role)
         then rq_get (default ∅ (reservationScalarQuantities a !! r)) name
         else 0%N)).
    + unfold mget at 1. rewrite lookup_empty. simpl. rewrite rq_get_empty.
      rewrite (N_sum_key
        (fun k _ => rq_get (default ∅ (reservationScalarQuantities a !! k)) name)
        role g0).
      * lia.
      * apply NoDup_fst_map_to_list.
      * by apply elem_of_map_to_list.
    + intros acc [r g] _. apply mget_map_add.
  - intros acc [r fws] _. simpl.
    unfold map_contains.
    destruct (decide (topLevelRole r = role)) as [Htop | Htop].
    + rewrite Htop. rewrite (bool_decide_eq_true_2 (role ∈ _))
        by (apply elem_of_dom; by eexists).
      rewrite (bool_decide_eq_true_2 (role = role)) by done. simpl.
      destruct (sorter_contains (roleSorter a) r); [|lia].
      apply (foldl_measure_add (fun m => mget m role name)).
      intros acc' [s res] _. rewrite mget_map_add.
      rewrite bool_decide_eq_true_2 by done. by rewrite charged_quantity.
    + rewrite (bool_decide_eq_false_2 (topLevelRole r = role)) by done. simpl.
      case_bool_decide as Hq; simpl; [|lia].
      destruct (sorter_contains (roleSorter a) r); [|lia].
      rewrite (foldl_measure_add (fun m => mget m role name) _
        (fun _ => 0%N)).
      * by rewrite N_sum_zero.
      * intros acc' [s res] _. rewrite mget_map_add.
        by rewrite bool_decide_eq_false_2.
Qed.

Lemma seedConsumedQuota_spec (a : Allocator) (role name : string) :
  is_Some (quotaGuarantees a !! role) ->
  contains_slash role = false ->
  mget (seedConsumedQuota a) role name = consumedQuota_spec a role name.
Proof.
  intros Hrole Htop. rewrite seedConsumedQuota_get by done.
  unfold consumedQuota_spec. f_equal. apply N_sum_ext.
  intros [r fws] _. by rewrite (topLevelRole_subrole role r Htop).
Qed.

(** For a quota'ed role that is not a top-level role the code counts the
    reservations only. *)
Lemma seedConsumedQuota_nested (a : Allocator) (role name : string) :
  is_Some (quotaGuarantees a !! role) ->
  contains_slash role = true ->
  mget (seedConsumedQuota a) role name =
  rq_get (default ∅ (reservationScalarQuantities a !! role)) name.
Proof.
  intros Hrole Hsub. rewrite seedConsumedQuota_get by done.
  rewrite (N_sum_ext _ (fun _ => 0%N)); [rewrite N_sum_zero; lia|].
  intros [r fws] _. rewrite bool_decide_eq_false_2; [done|].
  intros Heq. pose proof (topLevelRole_no_slash r) as Hno.
  rewrite Heq in Hno. congruence.
Qed.

Lemma seedRequiredHeadroom_spec (a : Allocator) (name : string) :
  (forall role, is_Some (quotaGuarantees a !! role) ->
     contains_slash role = false) ->
  rq_get (seedRequiredHeadroom a (seedConsumedQuota a)) name =
  requiredHeadroom_spec a name.
Proof.
  intros Htop. unfold seedRequiredHeadroom, requiredHeadroom_spec.
  rewrite (foldl_measure_add (fun q => rq_get q name) _
    (fun '(role, guarantee_) =>
       (rq_get guarantee_ name - consumedQuota_spec a role name)%N)).
  - by rewrite rq_get_empty.
  - intros acc [role g] Hin. rewrite rq_get_add, rq_get_sub.
    apply elem_of_map_to_list in Hin.
    assert (is_Some (quotaGuarantees a !! role)) as Hq by (by eexists).
    f_equal. f_equal. apply seedConsumedQuota_spec; [done|by apply Htop].
Qed.

Lemma rq_sum_get {A : Type} (f : A -> ResourceQuantities) (l : list A)
    (name : string) :
  rq_get (rq_sum f l) name = N_sum ((fun x => rq_get (f x) name) <$> l).
Proof.
  unfold rq_sum.
  rewrite (foldl_measure_add (fun q => rq_get q name) _
    (fun x => rq_get (f x) name)).
  - by rewrite rq_get_empty.
  - intros acc x _. apply rq_get_add.
Qed.

Lemma seedAvailableHeadroom_spec (a : Allocator) (name : string) :
  rq_get (seedAvailableHeadroom a) name = availableHeadroom_spec a name.
Proof.
  unfold seedAvailableHeadroom, availableHeadroom_spec.
  rewrite (foldl_measure_sub (fun q => rq_get q name) _
    (fun '(_, sl) =>
       quantity (fun x => res_isRevocable x && res_isScalar x)
         (getAvailable sl) name)).
  2: { intros acc [s sl]. rewrite rq_get_sub.
       by rewrite revocable_scalars_quantity. }
  rewrite !rq_get_sub.
  unfold totalScalarQuantities, allocationScalarQuantities.
  rewrite !rq_sum_get.
  f_equal. f_equal; [f_equal|f_equal].
  - apply N_sum_ext. intros [s r] _. apply scalars_quantity.
  - apply N_sum_ext. intros [c cl] _. simpl. rewrite rq_sum_get.
    apply N_sum_ext. intros [s r] _. apply scalars_quantity.
  - rewrite (foldl_measure_add (fun q => rq_get q name) _
      (fun '(role, q) =>
         if contains_slash role then 0%N else rq_get q name)).
    + by rewrite rq_get_empty.
    + intros acc [role q] _.
      destruct (contains_slash role); simpl; [lia|apply rq_get_add].
  - rewrite (foldl_measure_add (fun q => rq_get q name) _
      (fun '(role, _) =>
         if sorter_contains (roleSorter a) role
         then N_sum ((fun '(_, r) =>
                        quantity (fun x => res_isReserved x None &&
                                           res_isScalar x) r name)
                       <$> map_to_list (sorter_allocation (roleSorter a) role))
         else 0%N)).
    + by rewrite rq_get_empty.
    + intros acc [role fws] _. simpl.
      destruct (sorter_contains (roleSorter a) role); simpl; [|lia].
      apply (foldl_measure_add (fun q => rq_get q name)).
      intros acc' [s r] _. rewrite rq_get_add.
      by rewrite reserved_scalars_quantity.
Qed.

(** C2. The quantities that [__allocate] seeds before the first stage, read
    per resource name. The consumed quota of a top-level quota'ed role is
    its aggregated reservations plus the allocations of the role and its
    subroles restricted to unreserved non-revocable scalars (for a quota'ed
    role that is not a top-level role, only the reservations are counted);
    with quota on top-level roles only, the required headroom is the sum
    over the quota'ed roles of the guarantee minus the consumed quota, cut
    off at zero; the available headroom is the cluster total of scalars
    minus the allocated scalars, minus the unallocated reservations (the
    reservations of the top-level roles minus the allocated reservations),
    minus the unallocated revocable scalars of every agent. *)
Theorem seedLocals_spec (a : Allocator) (name : string) :
  (forall role,
     is_Some (quotaGuarantees a !! role) -> contains_slash role = false ->
     rq_get (default ∅ (rolesConsumedQuota (seedLocals a) !! role)) name =
     consumedQuota_spec a role name) /\
  (forall role,
     is_Some (quotaGuarantees a !! role) -> contains_slash role = true ->
     rq_get (default ∅ (rolesConsumedQuota (seedLocals a) !! role)) name =
     rq_get (default ∅ (reservationScalarQuantities a !! role)) name) /\
  ((forall role, is_Some (quotaGuarantees a !! role) ->
      contains_slash role = false) ->
   rq_get (requiredHeadroom (seedLocals a)) name =
     requiredHeadroom_spec a name) /\
  rq_get (availableHeadroom (seedLocals a)) name =
    availableHeadroom_spec a name.
Proof.
  unfold seedLocals. simpl. split; [|split; [|split]].
  - intros role Hrole Htop. by apply seedConsumedQuota_spec.
  - intros role Hrole Hsub. by apply seedConsumedQuota_nested.
  - apply seedRequiredHeadroom_spec.
  - apply seedAvailableHeadroom_spec.
Qed.

End Seed.

(** ** Inverse offers *)

Section DeallocateProofs.
Context `{RA : ResourcesAlgebra} `{Env : !AllocatorEnv}.

Lemma foreach_accum {A S : Type} (J : list A -> S -> Prop) (l : list A)
    (body : A -> S -> option (LoopCtl * S)) :
  (forall seen x s c s',
     J seen s -> body x s = Some (c, s') ->
     c = Continue /\ J (seen ++ [x]) s') ->
  forall s s', J [] s -> foreach l body s = Some s' -> J l s'.
Proof.
  intros Hbody.
  assert (forall seen s s',
            J seen s -> foreach l body s = Some s' -> J (seen ++ l) s') as H.
  { induction l as [|x l IH]; intros seen s s' HJ Hrun; simpl in Hrun.
    - injection Hrun as <-. by rewrite app_nil_r.
    - destruct (body x s) as [[c s1]|] eqn:Hx; [|done].
      destruct (Hbody seen x s c s1 HJ Hx) as [-> HJ1].
      rewrite (assoc_L (++) seen [x] l : seen ++ x :: l = (seen ++ [x]) ++ l)
        by done.
      by eapply IH. }
  intros s s' HJ Hrun. by apply (H [] s s').
Qed.

Lemma deallocInv_ext a0 V V' st :
  (forall f s, V f s <-> V' f s) -> deallocInv a0 V st -> deallocInv a0 V' st.
Proof.
  intros HV (H1 & H2 & H3 & H4 & H5 & H6). split_and!; try done.
  intros f s u. rewrite H6. by rewrite HV.
Qed.

Lemma offAt_touch (off : gmap FrameworkID (gmap SlaveID UnavailableResources))
    f f' s' :
  offAt (<[f := default ∅ (off !! f)]> off) f' s' = offAt off f' s'.
Proof.
  unfold offAt. destruct (decide (f' = f)) as [-> | Hne].
  - rewrite lookup_insert_eq. simpl. destruct (off !! f); simpl; [done|].
    by rewrite lookup_empty.
  - by rewrite lookup_insert_ne.
Qed.

Lemma offAt_emit (off : gmap FrameworkID (gmap SlaveID UnavailableResources))
    f s u f' s' :
  offAt (<[f := <[s := u]> (default ∅ (off !! f))]> off) f' s' =
  if decide (f' = f /\ s' = s) then Some u else offAt off f' s'.
Proof.
  unfold offAt. destruct (decide (f' = f)) as [-> | Hne].
  - rewrite lookup_insert_eq. simpl.
    destruct (decide (s' = s)) as [-> | Hs].
    + rewrite lookup_insert_eq. by rewrite decide_True.
    + rewrite lookup_insert_ne by done.
      rewrite decide_False by tauto.
      destruct (off !! f); simpl; [done|]. by rewrite lookup_empty.
  - rewrite lookup_insert_ne by done. rewrite decide_False by tauto. done.
Qed.

Lemma inverseOfferOpen_unique a f s u u' :
  inverseOfferOpen a f s u -> inverseOfferOpen a f s u' -> u = u'.
Proof.
  intros (sl & mt & fw & Hsl & Hmt & _ & _ & _ & _ & ->)
         (sl' & mt' & fw' & Hsl' & Hmt' & _ & _ & _ & _ & ->).
  by simplify_eq.
Qed.

Lemma offAt_contains
    (off : gmap FrameworkID (gmap SlaveID UnavailableResources)) f s :
  map_contains (default ∅ (off !! f)) s = true <-> is_Some (offAt off f s).
Proof.
  unfold map_contains, offAt. rewrite bool_decide_eq_true, elem_of_dom.
  destruct (off !! f); simpl; [done|]. by rewrite lookup_empty.
Qed.

(** Visiting a pair without collecting anything keeps the invariant,
    provided an offer that was open for the pair is already collected. *)
Lemma deallocInv_visit a0 V ac off off' f s :
  deallocInv a0 V (ac, off) ->
  (forall f' s', offAt off' f' s' = offAt off f' s') ->
  (forall u, inverseOfferOpen a0 f s u -> offAt off f s = Some u) ->
  deallocInv a0 (fun f' s' => V f' s' \/ (f' = f /\ s' = s)) (ac, off').
Proof.
  intros (H1 & H2 & H3 & H4 & H5 & H6) Hsame Hopen. simpl in *.
  split_and!; try done.
  - intros s0. specialize (H5 s0). simpl.
    destruct (slaves a0 !! s0) as [sl0|], (slaves ac !! s0) as [sl1|];
      try done.
    destruct (maintenance sl0) as [mt0|], (maintenance sl1) as [mt1|];
      try done.
    destruct H5 as [Hu Ho]. split; [done|]. intros f0.
    rewrite Hsame. apply Ho.
  - intros f' s' u. simpl. rewrite Hsame, H6. split.
    + intros [Hv Ho]. split; [by left | done].
    + intros [[Hv | [-> ->]] Ho]; [done|]. apply H6. by apply Hopen.
Qed.

(** Collecting an open offer for a pair keeps the invariant. *)
Lemma deallocInv_emit a0 V ac off f s sl sl0 mt mt0 fw :
  deallocInv a0 V (ac, off) ->
  slaves ac !! s = Some sl -> maintenance sl = Some mt ->
  slaves a0 !! s = Some sl0 -> maintenance sl0 = Some mt0 ->
  frameworks ac !! f = Some fw -> active fw = true ->
  offAt off f s = None ->
  f ∉ offersOutstanding mt ->
  existsb iof_filter (default [] (inverseOfferFilters fw !! s)) = false ->
  deallocInv a0 (fun f' s' => V f' s' \/ (f' = f /\ s' = s))
    (set_slaves ac
       (<[s := slave_setMaintenance sl
                 (Some {| unavailability := unavailability mt;
                          offersOutstanding := {[f]} ∪ offersOutstanding mt;
                          statuses := statuses mt |})]> (slaves ac)),
     <[f := <[s := {| ur_resources := r_none;
                      ur_unavailability := unavailability mt |}]>
              (default ∅ (off !! f))]> off).
Proof.
  intros (H1 & H2 & H3 & H4 & H5 & H6) Hsl Hmt Hsl0 Hmt0 Hfw Hact Hnone
    Hout Hflt. simpl in *.
  pose proof (H5 s) as Hs. rewrite Hsl0, Hsl, Hmt0, Hmt in Hs.
  destruct Hs as [Hun Ho].
  assert (inverseOfferOpen a0 f s
            {| ur_resources := r_none;
               ur_unavailability := unavailability mt |}) as Hopen.
  { exists sl0, mt0, fw. rewrite <- H1. split_and!; try done.
    - intros Hin. apply Hout. apply Ho. by left.
    - by rewrite Hun. }
  split_and!; try done.
  - intros s0. simpl. specialize (H5 s0).
    destruct (decide (s0 = s)) as [-> | Hne].
    + rewrite lookup_insert_eq, Hsl0, Hmt0. simpl. split; [done|].
      intros f0. rewrite offAt_emit. rewrite elem_of_union, elem_of_singleton.
      rewrite Ho. destruct (decide (f0 = f /\ s = s)) as [[-> _] | Hd].
      * split; [intros _; right; by eexists | intros _; by left].
      * split.
        -- intros [-> | H]; [exfalso; by apply Hd | done].
        -- intros H. by right.
    + rewrite lookup_insert_ne by done.
      destruct (slaves a0 !! s0) as [sl1|], (slaves ac !! s0) as [sl2|];
        try done.
      destruct (maintenance sl1) as [mt1|], (maintenance sl2) as [mt2|];
        try done.
      destruct H5 as [Hu2 Ho2]. split; [done|]. intros f0.
      rewrite offAt_emit. rewrite decide_False by tauto. apply Ho2.
  - intros f' s' u. simpl. rewrite offAt_emit.
    destruct (decide (f' = f /\ s' = s)) as [[-> ->] | Hd].
    + split.
      * intros [= <-]. split; [by right | done].
      * intros [_ Hopen']. f_equal. by eapply inverseOfferOpen_unique.
    + rewrite H6. split.
      * intros [Hv Hop]. split; [by left | done].
      * intros [[Hv | Heq] Hop]; [done | by destruct Hd].
Qed.

Lemma deallocate_framework_step a0 V s f st c st' :
  deallocInv a0 V st ->
  deallocate_framework s f st = Some (c, st') ->
  c = Continue /\
  deallocInv a0 (fun f' s' => V f' s' \/ (f' = f /\ s' = s)) st'.
Proof.
  destruct st as [ac off]. intros HI H. pose proof HI as HI0.
  destruct HI0 as (H1 & H2 & H3 & H4 & H5 & H6). simpl in *.
  unfold deallocate_framework in H.
  apply bind_Some in H as (fw & Hfw & H).
  destruct (active fw) eqn:Hact; simpl in H.
  2: { injection H as <- <-. split; [done|].
       eapply deallocInv_visit; [exact HI | done |].
       intros u (sl & mt & fw' & _ & _ & Hfw' & Hact' & _).
       rewrite <- H1 in Hfw'. simplify_eq. congruence. }
  apply bind_Some in H as (sl & Hsl & H).
  apply bind_Some in H as (mt & Hmt & H).
  pose proof (H5 s) as Hs. rewrite Hsl in Hs.
  destruct (slaves a0 !! s) as [sl0|] eqn:Hsl0; [|done].
  rewrite Hmt in Hs.
  destruct (maintenance sl0) as [mt0|] eqn:Hmt0; [|done].
  destruct Hs as [Hun Ho].
  destruct (map_contains (default ∅ (off !! f)) s) eqn:Hcont; simpl in H.
  { injection H as <- <-. split; [done|].
    eapply deallocInv_visit; [exact HI | apply offAt_touch |].
    intros u Hopen. apply offAt_contains in Hcont as [u0 Hu0].
    rewrite Hu0. f_equal. apply H6 in Hu0 as [_ Hopen0].
    by eapply inverseOfferOpen_unique. }
  assert (offAt off f s = None) as Hnone.
  { apply eq_None_not_Some. intros Hsome. apply offAt_contains in Hsome.
    congruence. }
  case_bool_decide as Hout; simpl in H.
  { injection H as <- <-. split; [done|].
    eapply deallocInv_visit; [exact HI | apply offAt_touch |].
    intros u (sl' & mt' & fw' & Hsl' & Hmt' & _ & _ & Hnot & _).
    simplify_eq. exfalso. apply Hnot. apply Ho in Hout as [Hin | Hsome]; [done|].
    rewrite Hnone in Hsome. by destruct Hsome. }
  apply bind_Some in H as (filtered & Hfiltered & H).
  unfold isFilteredInverse in Hfiltered. rewrite Hfw in Hfiltered.
  simpl in Hfiltered.
  apply bind_Some in Hfiltered as (_ & _ & Hfiltered).
  assert (filtered =
          existsb iof_filter (default [] (inverseOfferFilters fw !! s)))
    as Hfilt.
  { destruct (inverseOfferFilters fw !! s); simpl; by simplify_eq. }
  destruct filtered; simpl in H.
  { injection H as <- <-. split; [done|].
    eapply deallocInv_visit; [exact HI | apply offAt_touch |].
    intros u (sl' & mt' & fw' & _ & _ & Hfw' & _ & _ & Hno & _).
    rewrite <- H1 in Hfw'. simplify_eq. congruence. }
  injection H as <- <-. split; [done|].
  assert (<[f := <[s := {| ur_resources := r_none;
                           ur_unavailability := unavailability mt |}]>
                   (default ∅ (off !! f))]>
            (<[f := default ∅ (off !! f)]> off) =
          <[f := <[s := {| ur_resources := r_none;
                           ur_unavailability := unavailability mt |}]>
                   (default ∅ (off !! f))]> off) as ->
    by apply insert_insert_eq.
  by eapply deallocInv_emit.
Qed.

End DeallocateProofs.

Section DeallocatePass.
Context `{RA : ResourcesAlgebra} `{Env : !AllocatorEnv}.

Lemma elem_of_map_keys {V : Type} (m : gmap string V) (k : string) :
  k ∈ (map_to_list m).*1 <-> is_Some (m !! k).
Proof.
  rewrite list_elem_of_fmap. split.
  - intros [[k' v] [-> Hin]]. apply elem_of_map_to_list in Hin. by eexists.
  - intros [v Hv]. exists (k, v). split; [done|].
    by apply elem_of_map_to_list.
Qed.

Lemma deallocate_frameworks_loop a0 V s l st st' :
  deallocInv a0 V st ->
  foreach l (deallocate_framework s) st = Some st' ->
  deallocInv a0 (fun f' s' => V f' s' \/ (f' ∈ l /\ s' = s)) st'.
Proof.
  intros HI Hrun.
  eapply (foreach_accum (fun seen x =>
    deallocInv a0 (fun f' s' => V f' s' \/ (f' ∈ seen /\ s' = s)) x));
    [| | exact Hrun].
  - intros seen f x c x' HJ Hbody.
    apply (deallocate_framework_step a0 _ s f x c x' HJ) in Hbody
      as [-> HI'].
    split; [done|]. eapply deallocInv_ext; [|exact HI'].
    intros f' s'. simpl. rewrite elem_of_app, list_elem_of_singleton. tauto.
  - eapply deallocInv_ext; [|exact HI].
    intros f' s'. rewrite elem_of_nil. tauto.
Qed.

Lemma deallocate_slave_step a0 V S s st c st' :
  deallocInv a0 V st ->
  deallocate_slave S s st = Some (c, st') ->
  c = Continue /\
  deallocInv a0
    (fun f' s' => V f' s' \/
       (s' = s /\ hasMaintenance a0 s /\
        is_Some (sorter_allocationOn S s !! f'))) st'.
Proof.
  intros HI H. unfold deallocate_slave in H.
  apply bind_Some in H as (sl & Hsl & H).
  pose proof HI as (_ & _ & _ & _ & H5 & _).
  specialize (H5 s). rewrite Hsl in H5.
  destruct (slaves a0 !! s) as [sl0|] eqn:Hsl0; [|done].
  destruct (maintenance sl) as [mt|] eqn:Hmt.
  - destruct (maintenance sl0) as [mt0|] eqn:Hmt0; [|done].
    apply bind_Some in H as (st2 & Hrun & H). injection H as <- <-.
    split; [done|].
    eapply deallocInv_ext;
      [|eapply deallocate_frameworks_loop; [exact HI | exact Hrun]].
    intros f' s'. simpl. rewrite elem_of_map_keys.
    split; (intros [Hv | H]; [by left | right]).
    + destruct H as [Hin ->]. split; [done|]. split; [|done].
      by exists sl0, mt0.
    + destruct H as (-> & _ & Hin). done.
  - destruct (maintenance sl0) as [mt0|] eqn:Hmt0; [done|].
    injection H as <- <-. split; [done|].
    eapply deallocInv_ext; [|exact HI].
    intros f' s'. split; [by left|].
    intros [Hv | (-> & (sl1 & mt1 & Hsl1 & Hmt1) & _)]; [done|].
    simplify_eq.
Qed.

Lemma deallocate_sorter_step a0 V S st c st' :
  deallocInv a0 V st ->
  deallocate_sorter S st = Some (c, st') ->
  c = Continue /\
  deallocInv a0
    (fun f' s' => V f' s' \/
       (s' ∈ allocationCandidates a0 /\ hasMaintenance a0 s' /\
        is_Some (sorter_allocationOn S s' !! f'))) st'.
Proof.
  intros HI H. unfold deallocate_sorter in H.
  apply bind_Some in H as (st2 & Hrun & H). injection H as <- <-.
  split; [done|].
  pose proof HI as (_ & Hc & _).
  eapply deallocInv_ext; [|
    eapply (foreach_accum (fun seen x =>
      deallocInv a0 (fun f' s' => V f' s' \/
        (s' ∈ seen /\ hasMaintenance a0 s' /\
         is_Some (sorter_allocationOn S s' !! f'))) x));
      [| | exact Hrun]].
  - intros f' s'. simpl. rewrite Hc. by rewrite elem_of_elements.
  - intros seen s x c x' HJ Hbody.
    apply (deallocate_slave_step a0 _ S s x c x' HJ) in Hbody as [-> HI'].
    split; [done|]. eapply deallocInv_ext; [|exact HI'].
    intros f' s'. simpl. rewrite elem_of_app, list_elem_of_singleton.
    split.
    + intros [[Hv | H] | (-> & Hm & Hin)]; [by left | right | right].
      * destruct H as (? & ? & ?). split_and!; try done. by left.
      * split_and!; try done. by right.
    + intros [Hv | ([Hs | ->] & Hm & Hin)];
        [left; by left | left; right; done | right; done].
  - eapply deallocInv_ext; [|exact HI].
    intros f' s'. rewrite elem_of_nil. tauto.
Qed.

Lemma deallocInv_init a : deallocInv a (fun _ _ => False) (a, ∅).
Proof.
  split_and!; try done.
  - intros s. simpl. destruct (slaves a !! s) as [sl|]; [|done].
    destruct (maintenance sl) as [mt|]; [|done]. split; [done|].
    intros f. unfold offAt. rewrite lookup_empty. simpl.
    split; [by left|]. intros [H | [? H]]; done.
  - intros f s u. simpl. unfold offAt. rewrite lookup_empty. simpl.
    split; [done | tauto].
Qed.

(** The pass as a whole: what it collects and how it leaves the state. *)
Lemma deallocate_inv a a' offers :
  dom (roles a) = dom (frameworkSorters a) ->
  deallocate a = Some (a', offers) ->
  (forall f s u, emitted offers f s u <-> inverseOfferDue a f s u) /\
  NoDup offers.*1 /\
  (forall f s u, emitted offers f s u -> outstandingIn a' f s).
Proof.
  intros Hdom H. unfold deallocate in H.
  unfold map_isEmpty at 1 in H. case_bool_decide as Hroles.
  { injection H as <- <-. split_and!.
    - intros f s u. split.
      + intros (m & Hin & _). by apply elem_of_nil in Hin.
      + intros (_ & (role & fs & Hfs & _) & _).
        apply elem_of_dom_2 in Hfs. rewrite <- Hdom, Hroles in Hfs.
        by apply elem_of_empty in Hfs.
    - constructor.
    - intros f s u (m & Hin & _). by apply elem_of_nil in Hin. }
  apply bind_Some in H as (_ & _ & H).
  apply bind_Some in H as ([ac off] & Hrun & H). injection H as <- <-.
  assert (deallocInv a
    (fun f' s' => exists S, S ∈ (map_to_list (frameworkSorters a)).*2 /\
       s' ∈ allocationCandidates a /\ hasMaintenance a s' /\
       is_Some (sorter_allocationOn S s' !! f')) (ac, off)) as HI.
  { eapply (foreach_accum (fun seen x =>
      deallocInv a (fun f' s' => exists S, S ∈ seen /\
        s' ∈ allocationCandidates a /\ hasMaintenance a s' /\
        is_Some (sorter_allocationOn S s' !! f')) x)); [| | exact Hrun].
    - intros seen S x c x' HJ Hbody.
      apply (deallocate_sorter_step a _ S x c x' HJ) in Hbody as [-> HI'].
      split; [done|]. eapply deallocInv_ext; [|exact HI'].
      intros f' s'. simpl. split.
      + intros [(S' & HS' & H) | H].
        * exists S'. split; [|done]. apply elem_of_app. by left.
        * exists S. split; [|done]. apply elem_of_app. right.
          by apply list_elem_of_singleton.
      + intros (S' & [HS' | ->%list_elem_of_singleton]%elem_of_app & H).
        * left. by exists S'.
        * by right.
    - eapply deallocInv_ext; [|apply deallocInv_init].
      intros f' s'. split; [done|]. intros (S & HS & _).
      by apply elem_of_nil in HS. }
  destruct HI as (_ & _ & _ & _ & H5 & H6). simpl in *.
  assert (forall f s u, emitted (map_to_list off) f s u <->
                        offAt off f s = Some u) as Hem.
  { intros f s u. unfold emitted, offAt. split.
    - intros (m & Hin & Hm). apply elem_of_map_to_list in Hin.
      by rewrite Hin.
    - intros H. apply bind_Some in H as (m & Hm & H). exists m.
      split; [by apply elem_of_map_to_list | done]. }
  split_and!.
  - intros f s u. rewrite Hem, H6. unfold inverseOfferDue, holdsAllocationOn.
    split.
    + intros [(S & HS & Hc & _ & Hin) Hopen]. split_and!; try done.
      apply list_elem_of_fmap in HS as ([role S'] & -> & HS).
      apply elem_of_map_to_list in HS. by exists role, S'.
    + intros (Hc & (role & fs & Hfs & Hin) & Hopen). split; [|done].
      exists fs. split_and!; try done.
      * apply list_elem_of_fmap. exists (role, fs). split; [done|].
        by apply elem_of_map_to_list.
      * destruct Hopen as (sl & mt & _ & Hsl & Hmt & _). by exists sl, mt.
  - apply NoDup_fst_map_to_list.
  - intros f s u Hemit. apply Hem in Hemit. pose proof Hemit as Hopen.
    apply H6 in Hopen as [_ (sl & mt & _ & Hsl & Hmt & _)].
    specialize (H5 s). rewrite Hsl, Hmt in H5.
    destruct (slaves ac !! s) as [sl'|] eqn:Hsl'; [|done].
    destruct (maintenance sl') as [mt'|] eqn:Hmt'; [|done].
    exists sl', mt'. split_and!; try done. apply H5. right. by eexists.
Qed.

End DeallocatePass.

Section InverseOffers.
Context `{RA : ResourcesAlgebra} `{Env : !AllocatorEnv}.

Lemma updateInverseOffer_clears b s f status filters b' :
  updateInverseOffer b s f status filters = Some b' ->
  ~ outstandingIn b' f s.
Proof.
  unfold updateInverseOffer. intros H.
  apply bind_Some in H as (_ & _ & H).
  apply bind_Some in H as (fw & Hfw & H).
  apply bind_Some in H as (sl & Hsl & H).
  apply bind_Some in H as (mt & Hmt & H).
  apply bind_Some in H as (a1 & H1 & H).
  assert (slaves b' = slaves a1) as Hsame.
  { destruct filters as [x|]; [|by injection H as <-].
    apply bind_Some in H as (t & _ & H).
    destruct (negb _); by injection H as <-. }
  intros (sl' & mt' & Hsl' & Hmt' & Hin). rewrite Hsame in Hsl'.
  case_bool_decide as Hout.
  - apply bind_Some in H1 as (st' & _ & H1). injection H1 as <-.
    simpl in Hsl'. rewrite lookup_insert_eq in Hsl'. injection Hsl' as <-.
    simpl in Hmt'. injection Hmt' as <-. simpl in Hin.
    apply elem_of_difference in Hin as [_ Hn]. apply Hn.
    by apply elem_of_singleton.
  - injection H1 as <-. by simplify_eq.
Qed.

Lemma updateUnavailability_clears b s u b' :
  updateUnavailability b s u = Some b' ->
  forall f, ~ outstandingIn b' f s.
Proof.
  unfold updateUnavailability. intros H.
  apply bind_Some in H as (_ & _ & H).
  apply bind_Some in H as (sl & Hsl & H). injection H as <-.
  intros f (sl' & mt' & Hsl' & Hmt' & Hin).
  unfold allocate in Hsl'. simpl in Hsl'.
  assert (sl' = slave_setMaintenance sl (newMaintenance <$> u)) as ->.
  { destruct (paused b); simpl in Hsl'.
    - rewrite lookup_insert_eq in Hsl'. by injection Hsl' as <-.
    - destruct (negb (allocation_isPending b)); simpl in Hsl';
        rewrite lookup_insert_eq in Hsl'; by injection Hsl' as <-. }
  simpl in Hmt'. destruct u as [u|]; simpl in Hmt'; [|done].
  injection Hmt' as <-. simpl in Hin. by apply elem_of_empty in Hin.
Qed.

(** C7 (amended). A deallocation pass that completes sends an inverse offer for a
    framework and an agent exactly when the agent is an allocation candidate
    with maintenance set, the framework holds an allocation on the agent in
    some framework sorter, the framework is active, no inverse offer for the
    pair is outstanding and no inverse-offer filter for the pair is pending;
    the offer carries the agent's unavailability and no resources, and each
    framework is called back at most once, so that a pair is collected once
    per pass. Sending marks the pair as outstanding; while a pair is
    outstanding no pass sends an inverse offer for it. The mark is cleared
    by [updateInverseOffer] for the pair, and also by [updateUnavailability]
    on the agent, which replaces the agent's maintenance. *)
Theorem deallocate_spec (a a' : Allocator)
    (offers : list (FrameworkID * gmap SlaveID UnavailableResources)) :
  dom (roles a) = dom (frameworkSorters a) ->
  deallocate a = Some (a', offers) ->
  (forall f s u, emitted offers f s u <-> inverseOfferDue a f s u) /\
  NoDup offers.*1 /\
  (forall f s u, emitted offers f s u -> outstandingIn a' f s) /\
  (forall b b' offers' f s,
     dom (roles b) = dom (frameworkSorters b) ->
     outstandingIn b f s ->
     deallocate b = Some (b', offers') ->
     forall u, ~ emitted offers' f s u) /\
  (forall b b' f s status filters,
     updateInverseOffer b s f status filters = Some b' ->
     ~ outstandingIn b' f s) /\
  (forall b b' f s u,
     updateUnavailability b s u = Some b' -> ~ outstandingIn b' f s).
Proof.
  intros Hdom H.
  destruct (deallocate_inv a a' offers Hdom H) as (Hiff & Hnd & Hout).
  split_and!; try done.
  - intros b b' offers' f s Hdomb (sl & mt & Hsl & Hmt & Hin) Hb u Hemit.
    destruct (deallocate_inv b b' offers' Hdomb Hb) as (Hiffb & _ & _).
    apply Hiffb in Hemit as (_ & _ & (sl' & mt' & fw & Hsl' & Hmt' & _ & _ &
      Hnot & _)).
    simplify_eq. done.
  - intros b b' f s status filters. apply updateInverseOffer_clears.
  - intros b b' f s u Hb. by eapply updateUnavailability_clears.
Qed.

End InverseOffers.

(** ** The properties on concrete clusters *)

Section ScalarLaws.

(** The scalar resources satisfy the laws of the algebra. *)
Lemma scalarLaws : @ResourcesLaws scalarAlgebra.
Proof.
  split; simpl.
  - intros x. apply bool_decide_eq_true_2. apply map_eq. intros k.
    unfold s_minus. rewrite map_lookup_imap, lookup_empty.
    destruct (x !! k) as [v|] eqn:Hk; simpl; [|done].
    by rewrite N.leb_refl.
  - intros y. unfold s_plus. apply map_eq. intros k.
    rewrite lookup_union_with, lookup_empty. by destruct (y !! k).
  - intros y Hy. by apply bool_decide_eq_true_1 in Hy.
  - intros x y Hxy. by apply bool_decide_eq_true_1 in Hxy.
Qed.

End ScalarLaws.

Section ScalarSelection.
#[local] Existing Instance scalarAlgebra.

Lemma s_make_key (r : SResource) : s_make (s_key r) (s_value r) = r.
Proof. by destruct r. Qed.

Lemma s_make_inj (k k' : SKey) (v v' : N) :
  s_make k v = s_make k' v' -> k = k' /\ v = v'.
Proof.
  destruct k as [[[n ro] rv] al], k' as [[[n' ro'] rv'] al'].
  unfold s_make. simpl. intros H. injection H as -> -> -> -> ->. done.
Qed.

Lemma s_items_elem (m : gmap SKey N) (x : SResource) :
  x ∈ s_items m <-> m !! s_key x = Some (s_value x).
Proof.
  unfold s_items. rewrite list_elem_of_fmap. split.
  - intros ([k v] & -> & Hkv). apply elem_of_map_to_list in Hkv.
    simpl. by destruct k as [[[n ro] rv] al].
  - intros H. exists (s_key x, s_value x).
    split; [simpl; by rewrite s_make_key|]. by apply elem_of_map_to_list.
Qed.

Lemma s_items_NoDup (m : gmap SKey N) : NoDup (s_items m).
Proof.
  unfold s_items. apply NoDup_fmap_2; [|apply NoDup_map_to_list].
  intros [k v] [k' v'] H. simpl in H.
  by apply s_make_inj in H as [-> ->].
Qed.

Lemma s_items_filter (p : SResource -> bool) (m : gmap SKey N) :
  s_items (s_filter p m) ≡ₚ List.filter p (s_items m).
Proof.
  apply NoDup_Permutation;
    [apply s_items_NoDup
    |apply NoDup_ListNoDup, List.NoDup_filter, NoDup_ListNoDup, s_items_NoDup
    |].
  intros x. rewrite s_items_elem, list_elem_of_In, filter_In.
  rewrite <- list_elem_of_In, s_items_elem.
  unfold s_filter. rewrite map_lookup_filter_Some. simpl.
  rewrite s_make_key. tauto.
Qed.

Lemma s_filter_filter (p q : SResource -> bool) (m : gmap SKey N) :
  s_filter p (s_filter q m) = s_filter (fun i => q i && p i) m.
Proof.
  unfold s_filter. rewrite map_filter_filter. apply map_filter_ext.
  intros k v _. simpl. rewrite andb_true_iff. tauto.
Qed.

(** The sum of a weight over the entries of a value. *)
Lemma s_sum_empty (w : SResource -> N) : N_sum (w <$> s_items ∅) = 0%N.
Proof. unfold s_items. by rewrite map_to_list_empty. Qed.

Lemma s_sum_insert (w : SResource -> N) (m : gmap SKey N) (k : SKey)
    (v : N) :
  m !! k = None ->
  N_sum (w <$> s_items (<[k := v]> m)) =
  (w (s_make k v) + N_sum (w <$> s_items m))%N.
Proof.
  intros Hk. unfold s_items.
  rewrite (N_sum_perm _ (w <$> ((fun kv => s_make kv.1 kv.2) <$>
                                  ((k, v) :: map_to_list m)))).
  - by rewrite !fmap_cons.
  - by rewrite (map_to_list_insert m k v Hk).
Qed.

Lemma s_sum_delete (w : SResource -> N) (m : gmap SKey N) (k : SKey)
    (v : N) :
  m !! k = Some v ->
  N_sum (w <$> s_items m) =
  (w (s_make k v) + N_sum (w <$> s_items (delete k m)))%N.
Proof.
  intros Hk. rewrite <- (s_sum_insert w (delete k m) k v)
    by apply lookup_delete_eq.
  by rewrite insert_delete_id.
Qed.

Lemma s_sum_singleton (w : SResource -> N) (k : SKey) (v : N) :
  N_sum (w <$> s_items {[k := v]}) = w (s_make k v).
Proof.
  unfold s_items. rewrite map_to_list_singleton. cbn. lia.
Qed.

Lemma s_sum_plus (w : SResource -> N) :
  (forall k v1 v2,
     w (s_make k (v1 + v2)) = (w (s_make k v1) + w (s_make k v2))%N) ->
  forall a b : gmap SKey N,
    N_sum (w <$> s_items (s_plus a b)) =
    (N_sum (w <$> s_items a) + N_sum (w <$> s_items b))%N.
Proof.
  intros Hw a. induction a as [|k v a Hk IH] using map_ind; intros b.
  { replace (s_plus ∅ b) with b; [by rewrite s_sum_empty|].
    unfold s_plus. apply map_eq. intros i.
    rewrite lookup_union_with, lookup_empty. by destruct (b !! i). }
  rewrite (s_sum_insert w a k v Hk).
  destruct (b !! k) as [u|] eqn:Hb.
  - replace (s_plus (<[k := v]> a) b)
      with (<[k := (v + u)%N]> (s_plus a (delete k b))).
    + rewrite s_sum_insert.
      * rewrite IH, Hw, (s_sum_delete w b k u Hb). lia.
      * unfold s_plus. rewrite lookup_union_with, Hk, lookup_delete_eq.
        done.
    + unfold s_plus. apply map_eq. intros i.
      destruct (decide (i = k)) as [->|Hi].
      * by rewrite lookup_insert_eq, lookup_union_with, lookup_insert_eq, Hb.
      * rewrite lookup_insert_ne, !lookup_union_with, lookup_insert_ne,
          lookup_delete_ne by done. done.
  - unfold s_plus. rewrite <- insert_union_with_l by done.
    rewrite s_sum_insert.
    + fold (s_plus a b). rewrite IH. lia.
    + by rewrite lookup_union_with, Hk, Hb.
Qed.

(** A selection by flags does not look at the amount or at the role the
    resource is allocated to. *)
Lemma s_byFlags (p : SResource -> bool) (k : SKey) (al : option string)
    (v v' : N) :
  byFlags p -> p (s_make (k.1, al) v') = p (s_make k v).
Proof.
  intros Hp. apply Hp. destruct k as [[[n ro] rv] al0].
  unfold sameFlags, s_make. simpl. done.
Qed.

Lemma s_byFlags_amount (p : SResource -> bool) (k : SKey) (v v' : N) :
  byFlags p -> p (s_make k v') = p (s_make k v).
Proof.
  intros Hp. rewrite <- (s_byFlags p k k.2 v v' Hp).
  by destruct k as [[[n ro] rv] al0].
Qed.

Lemma s_weight_additive (p : SResource -> bool) (n : string) :
  byFlags p ->
  forall k v1 v2,
    (if p (s_make k (v1 + v2)) && String.eqb (s_name (s_make k (v1 + v2))) n
     then s_value (s_make k (v1 + v2)) else 0%N) =
    ((if p (s_make k v1) && String.eqb (s_name (s_make k v1)) n
      then s_value (s_make k v1) else 0) +
     (if p (s_make k v2) && String.eqb (s_name (s_make k v2)) n
      then s_value (s_make k v2) else 0))%N.
Proof.
  intros Hp k v1 v2.
  rewrite (s_byFlags_amount p k v1 (v1 + v2) Hp).
  rewrite (s_byFlags_amount p k v1 v2 Hp). simpl.
  destruct (p (s_make k v1) && String.eqb k.1.1.1 n); lia.
Qed.

Lemma s_quantity_plus (p : SResource -> bool) :
  byFlags p -> forall (x y : gmap SKey N) (n : string),
    quantity p (s_plus x y) n = (quantity p x n + quantity p y n)%N.
Proof.
  intros Hp x y n. unfold quantity. simpl.
  apply (s_sum_plus (fun x => if p x && String.eqb (s_name x) n
                              then s_value x else 0%N)).
  by apply s_weight_additive.
Qed.

Lemma s_quantity_rekey (p : SResource -> bool) (g : SKey -> option string)
    (m : gmap SKey N) (n : string) :
  byFlags p ->
  quantity p (s_rekey (fun k => (k.1, g k)) m) n = quantity p m n.
Proof.
  intros Hp. unfold quantity, s_rekey. simpl.
  unfold s_items at 2. rewrite <- list_fmap_compose.
  induction (map_to_list m) as [|[k v] l IH].
  { simpl. by rewrite s_sum_empty. }
  cbn [foldr]. rewrite fmap_cons.
  rewrite (s_sum_plus _ (s_weight_additive p n Hp)).
  rewrite s_sum_singleton, IH. cbn [N_sum foldr compose fst snd].
  rewrite (s_byFlags p k (g k) v v Hp). simpl.
  by destruct k as [[[n0 ro] rv] al0].
Qed.

(** The scalar resources satisfy the laws of selections and quantities. *)
Lemma scalarSelectionLaws : @SelectionLaws scalarAlgebra.
Proof.
  split.
  - intros p q x. apply s_filter_filter.
  - intros p x. apply s_items_filter.
  - simpl. unfold s_items. by rewrite map_to_list_empty.
  - apply s_quantity_plus.
  - intros p x n. unfold quantity. simpl. unfold s_of.
    destruct (N.eqb_spec (s_value x) 0) as [Hz|Hz].
    + rewrite s_sum_empty. rewrite Hz. by destruct (p x && _).
    + by rewrite s_sum_singleton, s_make_key.
  - intros p Hp role x n. simpl. unfold s_allocate.
    by apply (s_quantity_rekey p (fun _ => Some role)).
  - intros x t x' H. simpl in *. unfold s_shrink in H.
    destruct (N.leb_spec (s_value x) t) as [Hle|Hgt]; injection H as <-.
    + split; [done|]. lia.
    + split; [done|]. simpl. lia.
  - intros x role H. simpl in *. unfold s_isReserved in H.
    apply bool_decide_eq_false_2. by destruct (s_role x).
Qed.

End ScalarSelection.

(** Reading the result of a call that returned. *)
Lemma Some_default {A : Type} (d : A) (o : option A) :
  isSome o = true -> o = Some (default d o).
Proof. by destruct o. Qed.

Lemma Some_default_step {A B C : Type} (d : A * (B * C))
    (o : option (A * (B * C))) :
  isSome o = true ->
  o = Some ((default d o).1, ((default d o).2.1, (default d o).2.2)).
Proof. by destruct o as [[? [? ?]]|]. Qed.

Lemma Some_default_pair {A B : Type} (d : A * B) (o : option (A * B)) :
  isSome o = true -> o = Some ((default d o).1, (default d o).2).
Proof. by destruct o as [[? ?]|]. Qed.

Lemma isSome_is_Some {A : Type} (o : option A) :
  isSome o = true -> is_Some o.
Proof. destruct o; [by eexists | done]. Qed.

(** Quota is set on top-level roles only when no quota'ed role has a "/" in
    its name. *)
Lemma quota_topLevel `{RA : ResourcesAlgebra} (a : Allocator) :
  forallb (fun role => negb (contains_slash role))
    (map_to_list (quotaGuarantees a)).*1 = true ->
  forall role, is_Some (quotaGuarantees a !! role) ->
               contains_slash role = false.
Proof.
  intros Hall role [g Hg]. rewrite forallb_forall in Hall.
  apply negb_true_iff, Hall, list_elem_of_In, list_elem_of_fmap.
  exists (role, g). split; [done|]. by apply elem_of_map_to_list.
Qed.

Section Examples.
#[local] Existing Instance scalarAlgebra.
#[local] Existing Instance scalarEnv.
#[local] Existing Instance scalarSelectionLaws.

(** Every scalar resource can be shrunk, and the environment does not
    shuffle. *)
Lemma scalar_divisible (pool : Resources) : divisible pool.
Proof.
  intros x t _. simpl. unfold s_shrink.
  destruct (s_value x <=? t)%N; by eexists.
Qed.

Lemma scalar_shuffle (l : list Resource) : shuffle_resources l ≡ₚ l.
Proof. reflexivity. Qed.

(** C1, counterexample. Role "q" is guaranteed 10 cpus, the cluster has 8,
    and no framework is registered. After the run the available headroom
    (8 cpus) does not cover the required headroom (10 cpus), and nothing was
    held back: the held-back counter is zero and the held-back quantities
    are empty. *)
Lemma allocate_headroom_not_kept :
  (a ← clusterC;
   run ← __allocate a;
   Some (rq_contains (availableHeadroom (run_locals run))
           (requiredHeadroom (run_locals run)),
         heldBackAgentCount (run_locals run),
         map_to_list (heldBackForHeadroom (run_locals run)),
         map_to_list (availableHeadroom (run_locals run)),
         map_to_list (requiredHeadroom (run_locals run))))
  = Some (false, 0%nat, [], [("cpus", 8000%N)], [("cpus", 10000%N)]).
Proof. vm_compute. reflexivity. Qed.

(** An agent or a framework that a cluster knows is the one that [slaveOf]
    or [frameworkOf] reads. *)
Lemma lookup_slaveOf (a : Allocator) (s : SlaveID) :
  map_contains (slaves a) s = true ->
  slaves a !! s = Some (slaveOf a s).
Proof.
  intros Hin. apply bool_decide_eq_true_1 in Hin.
  apply elem_of_dom in Hin as [sl Hsl]. unfold slaveOf. by rewrite Hsl.
Qed.

Lemma lookup_frameworkOf (a : Allocator) (f : FrameworkID) :
  map_contains (frameworks a) f = true ->
  frameworks a !! f = Some (frameworkOf a f).
Proof.
  intros Hin. apply bool_decide_eq_true_1 in Hin.
  apply elem_of_dom in Hin as [fw Hfw]. unfold frameworkOf. by rewrite Hfw.
Qed.

(** C1, on clusters A, H and T. On cluster A nothing is guaranteed: the
    step of the second stage offers "f1" the 4 cpus and takes them out of the
    available headroom. On cluster H the role "q" is guaranteed 4 cpus, and
    the agent has 8 unreserved cpus and 2 cpus reserved for "b": the step for
    "f1" in role "b" holds the 8 unreserved cpus back and offers the 2
    reserved cpus only. The runs on clusters T and H, seeded with enough
    headroom, keep the headroom. *)
Lemma stage2_headroom_witness :
  (exists loc',
     stage2_framework "a1" "r" "f1"
       (stateOf clusterA_registered, seedLocals (stateOf clusterA_registered))
     = Some (Continue,
             (committed clusterA_registered "f1" "r" "a1" candidateA, loc')) /\
     showOffers (offerable loc') =
       [("f1", [("r", [("a1", [(("cpus", None, false, Some "r"), 4000%N)])])])]
     /\ heldBackAgentCount loc' = 0%nat /\
     rq_get (availableHeadroom loc') "cpus" = 0%N) /\
  (exists loc',
     stage2_framework "a1" "b" "f1"
       (stateOf clusterH, seedLocals (stateOf clusterH))
     = Some (Continue, (committed clusterH "f1" "b" "a1" offerH, loc')) /\
     showOffers (offerable loc') =
       [("f1",
         [("b", [("a1", [(("cpus", Some "b", false, Some "b"), 2000%N)])])])]
     /\ heldBackAgentCount loc' = 1%nat /\
     rq_get (heldBackForHeadroom loc') "cpus" = 8000%N /\
     rq_get (availableHeadroom loc') "cpus" = 8000%N) /\
  headroomKept (run_locals (runOf clusterT)) /\
  headroomKept (run_locals (runOf clusterH)).
Proof.
  destruct stage2_headroom as (Hstep & _ & _ & Hrun).
  split; [|split; [|split]].
  - destruct (Hstep (stateOf clusterA_registered)
                (seedLocals (stateOf clusterA_registered)) "a1" "r" "f1"
                (slaveOf (stateOf clusterA_registered) "a1")
                (frameworkOf (stateOf clusterA_registered) "f1"))
      as [_ Hyes].
    + apply lookup_slaveOf. vm_compute. reflexivity.
    + apply lookup_frameworkOf. vm_compute. reflexivity.
    + vm_compute. reflexivity.
    + vm_compute. reflexivity.
    + destruct Hyes as [_ Hacc].
      { apply headroomSuffices_test. vm_compute. reflexivity. }
      destruct (Hacc ltac:(split; vm_compute; reflexivity)
                  (committed clusterA_registered "f1" "r" "a1" candidateA))
        as (loc' & Hres & [Hcount _] & Hoff & _ & Hav).
      { apply Some_default. vm_compute. reflexivity. }
      exists loc'. split; [exact Hres|].
      split; [rewrite Hoff; vm_compute; reflexivity|].
      split; [rewrite Hcount; vm_compute; reflexivity|].
      rewrite Hav. vm_compute. reflexivity.
  - destruct (Hstep (stateOf clusterH) (seedLocals (stateOf clusterH))
                "a1" "b" "f1" (slaveOf (stateOf clusterH) "a1")
                (frameworkOf (stateOf clusterH) "f1"))
      as [Hno _].
    + apply lookup_slaveOf. vm_compute. reflexivity.
    + apply lookup_frameworkOf. vm_compute. reflexivity.
    + vm_compute. reflexivity.
    + vm_compute. reflexivity.
    + destruct Hno as [_ Hacc].
      { intros Hs. apply headroomSuffices_test in Hs. vm_compute in Hs.
        discriminate Hs. }
      destruct (Hacc ltac:(split; vm_compute; reflexivity)
                  (committed clusterH "f1" "b" "a1" offerH))
        as (loc' & Hres & [Hcount Hheld] & Hoff & Hav & _).
      { apply Some_default. vm_compute. reflexivity. }
      exists loc'. split; [exact Hres|].
      split; [rewrite Hoff; vm_compute; reflexivity|].
      split; [rewrite Hcount; vm_compute; reflexivity|].
      split; [rewrite Hheld; vm_compute; reflexivity|].
      rewrite Hav. vm_compute. reflexivity.
  - apply (Hrun (stateOf clusterT)).
    + unfold runOf. apply Some_default. vm_compute. reflexivity.
    + apply covers_contains. vm_compute. reflexivity.
  - apply (Hrun (stateOf clusterH)).
    + unfold runOf. apply Some_default. vm_compute. reflexivity.
    + apply covers_contains. vm_compute. reflexivity.
Defined.

(** C3, on cluster R: role "q" is guaranteed 4 cpus, of which the cpu
    reserved for "q" on the agent consumes 1. Of the 8 unreserved cpus the
    quota part holds the 3 that the guarantee still lacks; the surplus part
    holds the 16 of mem, which has no guarantee, and no more cpus. The first
    stage offers "fq" the reserved cpu, the 3 cpus, the mem and the ports,
    allocated to "q". *)
Lemma stage1_toAllocate_witness :
  quantity anyResource poolR "cpus" = 8000%N /\
  quantity anyResource quotaPartR "cpus" = 3000%N /\
  quantity anyResource surplusPartR "mem" = 16000%N /\
  quantity anyResource surplusPartR "cpus" = 0%N /\
  exists loc',
    stage1_framework "a1" "q" guaranteeQ "fq"
      (stateOf clusterR, seedLocals (stateOf clusterR))
    = Some (Continue, (committed clusterR "fq" "q" "a1" toAllocateR, loc')) /\
    showOffers (offerable loc') =
      [("fq",
        [("q",
          [("a1",
            [(("cpus", None, false, Some "q"), 3000%N);
             (("mem", None, false, Some "q"), 16000%N);
             (("cpus", Some "q", false, Some "q"), 1000%N);
             (("ports", None, false, Some "q"), 100%N)])])])].
Proof.
  destruct (stage1_toAllocate (stateOf clusterR)
              (seedLocals (stateOf clusterR)) "a1" "q" guaranteeQ "fq"
              (slaveOf (stateOf clusterR) "a1")
              (frameworkOf (stateOf clusterR) "fq"))
    as ((_ & _ & Hquota) & (_ & _ & Hsurplus) & _ & Hstep).
  - exact scalar_shuffle.
  - apply lookup_slaveOf. vm_compute. reflexivity.
  - apply lookup_frameworkOf. vm_compute. reflexivity.
  - vm_compute. reflexivity.
  - vm_compute. reflexivity.
  - vm_compute. reflexivity.
  - split; [vm_compute; reflexivity|].
    split.
    { unfold quotaPartR, poolR, availableAt.
      rewrite (Hquota (scalar_divisible _) "cpus"). vm_compute. reflexivity. }
    split.
    { unfold surplusPartR, poolR, availableAt.
      rewrite (Hsurplus (scalar_divisible _) "mem"). vm_compute.
      reflexivity. }
    split.
    { unfold surplusPartR, poolR, availableAt.
      rewrite (Hsurplus (scalar_divisible _) "cpus"). vm_compute.
      reflexivity. }
    destruct Hstep as [_ Hacc]; [vm_compute; reflexivity|].
    destruct (Hacc ltac:(split; vm_compute; reflexivity)
                (committed clusterR "fq" "q" "a1" toAllocateR))
      as (loc' & Hres & Hoff).
    { apply Some_default. vm_compute. reflexivity. }
    exists loc'. split; [exact Hres|].
    rewrite Hoff. vm_compute. reflexivity.
Defined.

(** C5, counterexample. On cluster A the framework and the agent exist and
    "f1" declines its 4 cpus with [refuse_seconds] zero. The allocation
    interval is one second, so the larger of the interval and the timeout is
    one second, which is not zero; yet the call installs no filter. *)
Lemma recoverResources_zero_refuse_no_filter :
  (fw ← frameworks (stateOf (declineA 0)) !! "f1";
   Some (isSome (declineA 0),
         map_contains (frameworks (stateOf clusterA)) "f1",
         map_contains (slaves (stateOf clusterA)) "a1",
         refuseTimeout {| refuse_seconds := 0 |},
         Z.max (allocationInterval (options (stateOf clusterA))) 0,
         map_isEmpty (offerFilters fw),
         showFilters (storedOfferFilters fw "r" "a1")))
  = Some (true, true, true, Some 0, Seconds 1, true, []).
Proof. vm_compute. reflexivity. Qed.

(** C5, on cluster A: declining the 4 cpus for 30 seconds installs a filter
    for "f1", the role "r" and the agent that stores the cpus in unallocated
    form and expires after 30 seconds. *)
Lemma recoverResources_installs_filter_witness :
  exists fw',
    frameworks (stateOf clusterA_declined) !! "f1" = Some fw' /\
    showFilters (storedOfferFilters fw' "r" "a1") =
      [([(("cpus", None, false, None), 4000%N)], Seconds 30)].
Proof.
  destruct (recoverResources_installs_filter (stateOf clusterA) "f1" "a1"
              (res "cpus" None false (Some "r") 4000)
              {| refuse_seconds := Seconds 30 |}
              (stateOf clusterA_declined))
    as (role & Hrole & _ & Hinst & _).
  - vm_compute. reflexivity.
  - unfold stateOf at 2. apply Some_default. vm_compute. reflexivity.
  - vm_compute in Hrole. injection Hrole as <-.
    destruct (Hinst (frameworkOf (stateOf clusterA) "f1"))
      as (t & Ht & _ & Hfw).
    + apply lookup_frameworkOf. vm_compute. reflexivity.
    + apply isSome_is_Some. vm_compute. reflexivity.
    + vm_compute in Ht. injection Ht as <-.
      destruct Hfw as (fw' & Hfws & Hst); [done|].
      exists fw'. split.
      * rewrite Hfws. apply lookup_insert_eq.
      * rewrite Hst. vm_compute. reflexivity.
Defined.

(** C6, counterexample. On cluster B the framework has the MULTI_ROLE
    capability and the agent does not. No offer was declined, so the
    framework stores no offer filter at all; yet [isFiltered] answers
    true. *)
Lemma isFiltered_without_stored_filter :
  (a ← clusterB;
   fw ← frameworks a !! "f1";
   b ← isFiltered a "f1" "r" "a1" (res "cpus" None false None 4000);
   Some (b, map_isEmpty (offerFilters fw),
         showFilters (storedOfferFilters fw "r" "a1")))
  = Some (true, true, []).
Proof. vm_compute. reflexivity. Qed.

(** C6, on cluster A after the 4 cpus were declined: the cpus are
    filtered, and since neither implicit filter applies there, a stored
    filter contains them. *)
Lemma isFiltered_spec_witness :
  isFiltered (stateOf clusterA_declined) "f1" "r" "a1"
    (res "cpus" None false None 4000) = Some true /\
  exists flt,
    flt ∈ storedOfferFilters (frameworkOf (stateOf clusterA_declined) "f1")
            "r" "a1" /\
    r_contains (of_resources flt) (res "cpus" None false None 4000) = true.
Proof.
  destruct (isFiltered_spec (stateOf clusterA_declined) "f1" "r" "a1"
              (res "cpus" None false None 4000)
              (frameworkOf (stateOf clusterA_declined) "f1")
              (slaveOf (stateOf clusterA_declined) "a1"))
    as (b & Hb & Hiff).
  - apply lookup_frameworkOf. vm_compute. reflexivity.
  - apply lookup_slaveOf. vm_compute. reflexivity.
  - split; [vm_compute; reflexivity|].
    vm_compute in Hb. injection Hb as <-.
    destruct (proj1 Hiff eq_refl) as [[Hm _] | [[Hh _] | Hex]].
    + vm_compute in Hm. discriminate Hm.
    + vm_compute in Hh. discriminate Hh.
    + exact Hex.
Defined.

(** C7, counterexample. On cluster M a first run sends "f1" an inverse
    offer for "a1". Then the master schedules the same maintenance again
    with [updateUnavailability]; [updateInverseOffer] is never called. The
    next run sends "f1" an inverse offer for "a1" again. A third run, with
    nothing in between, sends none. *)
Lemma deallocate_repeats_after_updateUnavailability :
  (a0 ← clusterM_registered;
   r1 ← _allocate a0;
   a2 ← updateUnavailability r1.1.1 "a1" (Some maintenanceWindow);
   r2 ← _allocate a2;
   r3 ← _allocate r2.1.1;
   Some (showInverseOffers r1.2, showInverseOffers r2.2,
         showInverseOffers r3.2))
  = Some ([("f1", [("a1", maintenanceWindow)])],
          [("f1", [("a1", maintenanceWindow)])], []).
Proof. vm_compute. reflexivity. Qed.

(** C7, on cluster M, where "f1" holds the cpus of "a1" and maintenance is
    scheduled: the pass sends "f1" one inverse offer, for "a1", with the
    scheduled unavailability. *)
Lemma deallocate_spec_witness :
  showInverseOffers passM.2 = [("f1", [("a1", maintenanceWindow)])] /\
  NoDup passM.2.*1.
Proof.
  split; [vm_compute; reflexivity|].
  eapply proj1, proj2, (deallocate_spec (stateOf clusterM) passM.1 passM.2).
  - vm_compute. reflexivity.
  - unfold passM. apply Some_default_pair. vm_compute. reflexivity.
Defined.

(** C8, on a fresh allocator: recovering with two expected agents and a
    quota for "q" pauses the allocator, records one expected agent and
    schedules the resume after ten minutes. *)
Lemma recover_spec_witness :
  exists a',
    recover (initialize ex_options) 2
      {[ "q" := {| guarantee := res "cpus" None false None 10000 |} ]}
      = Some a' /\
    paused a' = true /\ expectedAgentCount a' = Some 1 /\
    delayed a' = [(Minutes 10, CallResume)].
Proof.
  destruct (recover_spec (initialize ex_options) 2
              {[ "q" := {| guarantee := res "cpus" None false None 10000 |} ]})
    as (a' & Hrec & _ & Hq & _).
  - reflexivity.
  - reflexivity.
  - reflexivity.
  - lia.
  - intros role _. apply lookup_empty.
  - exists a'. split; [exact Hrec|].
    destruct Hq as (_ & He & _ & Hp); [apply insert_non_empty|].
    destruct Hp as [Hp Hd]; [done|].
    split; [exact Hp|]. split; [exact He | exact Hd].
Defined.

(** C9, counterexample. The agent of cluster E has 4 unreserved and 2
    revocable cpus. Reserving one cpu succeeds; the agent's total and the
    role sorter's total for the agent then are the result of applying the
    operation, revocable cpus included, but the quota role sorter's total
    for the agent is not: it lacks the revocable cpus. *)
Lemma updateAvailable_quota_sorter_total :
  (a ← clusterE;
   r ← updateAvailable a "a1" reserveOneCpu;
   sl ← slaves r.2 !! "a1";
   sl0 ← slaves a !! "a1";
   Some (map_to_list <$> r_apply (total sl0) reserveOneCpu,
         map_to_list (total sl),
         map_to_list <$> sorter_total (roleSorter r.2) !! "a1",
         map_to_list <$> sorter_total (quotaRoleSorter r.2) !! "a1"))
  = Some (Some [(("cpus", None, true, None), 2000%N);
                (("cpus", Some "r", false, None), 1000%N);
                (("cpus", None, false, None), 3000%N)],
          [(("cpus", None, true, None), 2000%N);
           (("cpus", Some "r", false, None), 1000%N);
           (("cpus", None, false, None), 3000%N)],
          Some [(("cpus", None, true, None), 2000%N);
                (("cpus", Some "r", false, None), 1000%N);
                (("cpus", None, false, None), 3000%N)],
          Some [(("cpus", Some "r", false, None), 1000%N);
                (("cpus", None, false, None), 3000%N)]).
Proof. vm_compute. reflexivity. Qed.

(** C9, on cluster E: reserving one cpu succeeds and the agent's total
    becomes one reserved cpu, three unreserved cpus and the two revocable
    cpus. *)
Lemma updateAvailable_spec_witness :
  resultE.1 = Nothing /\
  map_to_list <$> (total <$> slaves resultE.2 !! "a1") =
    Some [(("cpus", None, true, None), 2000%N);
          (("cpus", Some "r", false, None), 1000%N);
          (("cpus", None, false, None), 3000%N)].
Proof.
  destruct (updateAvailable_spec (Laws := scalarLaws) (stateOf clusterE) "a1"
              reserveOneCpu (slaveOf (stateOf clusterE) "a1")) as [_ Hok].
  - vm_compute. reflexivity.
  - apply lookup_slaveOf. vm_compute. reflexivity.
  - destruct (Hok (default r_none
                     (r_apply (getTotal (slaveOf (stateOf clusterE) "a1"))
                        reserveOneCpu))
                resultE.1 resultE.2) as (Hres & Htot & _).
    + apply isSome_is_Some. vm_compute. reflexivity.
    + apply Some_default. vm_compute. reflexivity.
    + unfold resultE. apply Some_default_pair. vm_compute. reflexivity.
    + split; [exact Hres|]. rewrite Htot. vm_compute. reflexivity.
Defined.

(** C2, on clusters S and E. On cluster S the role "q" is guaranteed 10
    cpus and the framework in its subrole "q/sub" holds 2 of the agent's 8
    cpus: "q" has consumed 2 cpus, 8 more are required and 6 are available.
    On cluster E the 2 revocable cpus do not count as headroom. *)
Lemma seedLocals_spec_witness :
  rq_get (default ∅ (rolesConsumedQuota (seedLocals (stateOf clusterS))
                       !! "q")) "cpus" = 2000%N /\
  rq_get (requiredHeadroom (seedLocals (stateOf clusterS))) "cpus"
    = 8000%N /\
  rq_get (availableHeadroom (seedLocals (stateOf clusterS))) "cpus"
    = 6000%N /\
  rq_get (availableHeadroom (seedLocals (stateOf clusterE))) "cpus"
    = 4000%N.
Proof.
  destruct (seedLocals_spec (stateOf clusterS) "cpus")
    as (Hc & _ & Hr & Ha).
  destruct (seedLocals_spec (stateOf clusterE) "cpus")
    as (_ & _ & _ & Ha').
  rewrite (Hc "q"), Hr, Ha, Ha'.
  - split; [vm_compute; reflexivity|]. split; [vm_compute; reflexivity|].
    split; vm_compute; reflexivity.
  - apply quota_topLevel. vm_compute. reflexivity.
  - apply isSome_is_Some. vm_compute. reflexivity.
  - reflexivity.
Defined.

(** C4, with the global requirement "1 cpu, or 32 of mem": 2 cpus are
    allocatable. *)
Lemma allocatable_spec_witness :
  allocatable
    (initialize
       {| allocationInterval := Seconds 1;
          opt_minAllocatableResources :=
            Some [ {[ "cpus" := 1000%N ]}; {[ "mem" := 32000%N ]} ];
          filterGpuResources := false; opt_domain := None |})
    (res "cpus" None false None 2000) "r"
    (newFramework (fwInfo "r" capsNone) ∅ true) = true.
Proof.
  assert (r_empty (res "cpus" None false None 2000) = false) as HR
    by (vm_compute; reflexivity).
  apply (proj2 (proj2 (allocatable_spec _ _ _ _)) HR
           [ {[ "cpus" := 1000%N ]}; {[ "mem" := 32000%N ]} ]).
  - vm_compute. reflexivity.
  - discriminate.
  - exists {[ "cpus" := 1000%N ]}. split; [apply list_elem_of_here|].
    vm_compute. reflexivity.
Defined.

(** C10, on cluster A: recovering no resources leaves the state as it
    is. *)
Lemma recoverResources_frame_witness :
  recoverResources (stateOf clusterA) "f1" "a1" r_none
    (Some {| refuse_seconds := Seconds 30 |}) = Some (stateOf clusterA).
Proof.
  apply (proj1 (recoverResources_frame (stateOf clusterA) "f1" "a1" r_none
                  (Some {| refuse_seconds := Seconds 30 |})));
    vm_compute; reflexivity.
Defined.

End Examples.

(** * Further properties *)

(** ** The role registry and the sorters *)

(** Equalities of finite sets by membership. *)
Ltac set_members :=
  apply set_eq; intros ?;
  repeat first
    [ rewrite elem_of_union | rewrite elem_of_difference
    | rewrite elem_of_intersection | rewrite elem_of_singleton
    | rewrite elem_of_empty ];
  intuition congruence.

Section RegistryAndSorters.
Context `{RA : ResourcesAlgebra} `{Env : !AllocatorEnv}.

Lemma sorterClients_lookup a role :
  sorterClients a !! role = (fun S => dom (clients S)) <$> frameworkSorters a !! role.
Proof. unfold sorterClients. by rewrite lookup_fmap. Qed.

Lemma trackingConsistent_sorter a role fws :
  trackingConsistent a -> roles a !! role = Some fws ->
  exists fs, frameworkSorters a !! role = Some fs /\ dom (clients fs) = fws.
Proof.
  intros (Hc & _ & _) Hr. rewrite <- Hc, sorterClients_lookup in Hr.
  destruct (frameworkSorters a !! role) as [fs|]; simplify_eq/=. by exists fs.
Qed.

Lemma trackingConsistent_no_sorter a role :
  trackingConsistent a -> roles a !! role = None ->
  frameworkSorters a !! role = None /\ clients (roleSorter a) !! role = None.
Proof.
  intros (Hc & Hd & _) Hr. split.
  - rewrite <- Hc, sorterClients_lookup in Hr.
    by destruct (frameworkSorters a !! role).
  - apply not_elem_of_dom. rewrite Hd. by apply not_elem_of_dom.
Qed.

Lemma sorter_contains_true (S : Sorter) c :
  sorter_contains S c = true <-> c ∈ dom (clients S).
Proof.
  unfold sorter_contains. rewrite bool_decide_eq_true. symmetry.
  apply elem_of_dom.
Qed.

Lemma sorter_contains_false (S : Sorter) c :
  sorter_contains S c = false <-> c ∉ dom (clients S).
Proof.
  rewrite <- sorter_contains_true. by destruct (sorter_contains S c).
Qed.

Lemma map_contains_true {V} (m : gmap string V) k :
  map_contains m k = true <-> is_Some (m !! k).
Proof.
  unfold map_contains. rewrite bool_decide_eq_true. apply elem_of_dom.
Qed.

Lemma map_contains_false {V} (m : gmap string V) k :
  map_contains m k = false <-> m !! k = None.
Proof.
  unfold map_contains. rewrite bool_decide_eq_false. apply not_elem_of_dom.
Qed.

Lemma dom_clients_add (S : Sorter) c :
  dom (clients (sorter_add S c)) = {[c]} ∪ dom (clients S).
Proof.
  unfold sorter_add. destruct (clients S !! c) as [x|] eqn:Hc; simpl.
  - apply elem_of_dom_2 in Hc. set_members.
  - by rewrite dom_insert_L.
Qed.

Lemma dom_clients_remove (S : Sorter) c :
  dom (clients (sorter_remove S c)) = dom (clients S) ∖ {[c]}.
Proof. unfold sorter_remove. simpl. by rewrite dom_delete_L. Qed.

Lemma dom_clients_activate (S : Sorter) c :
  dom (clients (sorter_activate S c)) = dom (clients S).
Proof. unfold sorter_activate. simpl. by rewrite dom_alter_L. Qed.

Lemma dom_clients_deactivate (S : Sorter) c :
  dom (clients (sorter_deactivate S c)) = dom (clients S).
Proof. unfold sorter_deactivate. simpl. by rewrite dom_alter_L. Qed.

Lemma dom_clients_allocated (S : Sorter) c s r :
  dom (clients (sorter_allocated S c s r)) = dom (clients S).
Proof. unfold sorter_allocated. simpl. by rewrite dom_alter_L. Qed.

Lemma dom_clients_unallocated (S : Sorter) c s r :
  dom (clients (sorter_unallocated S c s r)) = dom (clients S).
Proof. unfold sorter_unallocated. simpl. by rewrite dom_alter_L. Qed.

Lemma clients_addSlave (S : Sorter) s r :
  clients (sorter_addSlave S s r) = clients S.
Proof. unfold sorter_addSlave. by destruct (r_empty r). Qed.

Lemma clients_removeSlave (S : Sorter) s r :
  clients (sorter_removeSlave S s r) = clients S.
Proof. unfold sorter_removeSlave. by destruct (r_empty r). Qed.

Lemma clients_fold_addSlave (l : list (SlaveID * Slave)) (S : Sorter) :
  clients (foldl (fun s kv => sorter_addSlave s (si_id (info kv.2))
                                (getTotal kv.2)) S l) = clients S.
Proof.
  revert S. induction l as [|x l IH]; intros S; simpl; [done|].
  by rewrite IH, clients_addSlave.
Qed.

(** Tracking a framework under a role it is not tracked under. *)
Lemma trackFrameworkUnderRole_fresh a f role :
  initialized a = true ->
  trackingConsistent a ->
  isFrameworkTrackedUnderRole a f role = false ->
  exists a',
    trackFrameworkUnderRole a f role = Some a' /\
    trackingConsistent a' /\
    roles a' = <[role := {[f]} ∪ default ∅ (roles a !! role)]> (roles a).
Proof.
  intros Hi Hwf Hnot. unfold trackFrameworkUnderRole. rewrite Hi. simpl.
  unfold isFrameworkTrackedUnderRole in Hnot.
  destruct (roles a !! role) as [fws|] eqn:Hr.
  - assert (map_contains (roles a) role = true) as ->
      by (apply map_contains_true; eauto).
    simpl. rewrite Hr. simpl. apply bool_decide_eq_false in Hnot.
    rewrite bool_decide_eq_false_2 by done. simpl.
    destruct (trackingConsistent_sorter a role fws Hwf Hr) as (fs & Hfs & Hd).
    rewrite Hfs. simpl.
    assert (sorter_contains fs f = false) as ->
      by (apply sorter_contains_false; by rewrite Hd).
    simpl. eexists. split; [reflexivity|]. split; [|done].
    destruct Hwf as (Hc & Hdom & Hne). split_and!; simpl.
    + unfold sorterClients. simpl. rewrite fmap_insert, dom_clients_add, Hd.
      by rewrite <- Hc.
    + rewrite dom_insert_L, Hdom. apply elem_of_dom_2 in Hr. set_members.
    + intros role' fws'. destruct (decide (role = role')) as [<-|Hn].
      * rewrite lookup_insert_eq. intros [= <-] Hempty.
        apply (not_elem_of_empty (C := gset string) f). rewrite <- Hempty.
        apply elem_of_union_l. by apply elem_of_singleton.
      * rewrite lookup_insert_ne by done. apply Hne.
  - assert (map_contains (roles a) role = false) as ->
      by (by apply map_contains_false).
    simpl.
    destruct (trackingConsistent_no_sorter a role Hwf Hr) as (Hfs & Hrs).
    assert (sorter_contains (roleSorter a) role = false) as ->
      by (apply sorter_contains_false; by apply not_elem_of_dom).
    simpl.
    assert (map_contains (frameworkSorters a) role = false) as ->
      by (by apply map_contains_false).
    simpl. rewrite !lookup_insert_eq. simpl.
    rewrite bool_decide_eq_false_2 by apply not_elem_of_empty. simpl.
    rewrite ?lookup_insert_eq. simpl.
    match goal with |- context [sorter_contains ?S f] =>
      assert (sorter_contains S f = false) as -> end.
    { apply sorter_contains_false. rewrite clients_fold_addSlave. simpl.
      rewrite dom_empty_L. apply not_elem_of_empty. }
    simpl. eexists. split; [reflexivity|]. split.
    + destruct Hwf as (Hc & Hdom & Hne). split_and!; simpl.
      * unfold sorterClients. simpl.
        rewrite !insert_insert_eq, fmap_insert, dom_clients_add.
        rewrite clients_fold_addSlave. simpl. rewrite dom_empty_L.
        rewrite <- Hc. unfold sorterClients. done.
      * rewrite dom_alter_L, dom_clients_add, !dom_insert_L, Hdom.
        set_members.
      * intros role' fws'. rewrite insert_insert_eq.
        destruct (decide (role = role')) as [<-|Hn].
        -- rewrite lookup_insert_eq. intros [= <-].
           rewrite union_empty_r_L. apply non_empty_singleton_L.
        -- rewrite lookup_insert_ne by done. apply Hne.
    + simpl. by rewrite insert_insert_eq.
Qed.

(** Untracking a framework that is tracked under the role. *)
Lemma untrackFrameworkUnderRole_tracked a f role fws :
  initialized a = true ->
  trackingConsistent a ->
  roles a !! role = Some fws -> f ∈ fws ->
  exists a',
    untrackFrameworkUnderRole a f role = Some a' /\
    trackingConsistent a' /\
    roles a' = (if bool_decide (fws ∖ {[f]} = ∅) then delete role (roles a)
                else <[role := fws ∖ {[f]}]> (roles a)).
Proof.
  intros Hi Hwf Hr Hf. unfold untrackFrameworkUnderRole.
  rewrite Hi, Hr. simpl. rewrite (bool_decide_eq_true_2 (f ∈ fws)) by done.
  simpl.
  destruct (trackingConsistent_sorter a role fws Hwf Hr) as (fs & Hfs & Hd).
  rewrite Hfs. simpl.
  assert (sorter_contains fs f = true) as ->
    by (apply sorter_contains_true; by rewrite Hd).
  simpl. destruct Hwf as (Hc & Hdom & Hne).
  case_bool_decide as Hempty.
  - assert (sorter_count (sorter_remove fs f) = 0%nat) as Hcount.
    { unfold sorter_count. apply map_size_empty_iff.
      apply (dom_empty_iff_L (D := gset string)).
      by rewrite dom_clients_remove, Hd. }
    rewrite (bool_decide_eq_true_2 (sorter_count _ = _)) by done. simpl.
    eexists. split; [reflexivity|]. split; [|simpl; by rewrite delete_insert_eq].
    split_and!; simpl.
    + unfold sorterClients. simpl.
      rewrite !delete_insert_eq, fmap_delete. by rewrite <- Hc.
    + rewrite dom_delete_L, delete_insert_eq, dom_delete_L. by rewrite Hdom.
    + intros role' fws'. rewrite delete_insert_eq.
      destruct (decide (role = role')) as [<-|Hn].
      * by rewrite lookup_delete_eq.
      * rewrite lookup_delete_ne by done. apply Hne.
  - eexists. split; [reflexivity|]. split; [|done].
    split_and!; simpl.
    + unfold sorterClients. simpl.
      rewrite fmap_insert, dom_clients_remove, Hd. by rewrite <- Hc.
    + rewrite dom_insert_L, Hdom. apply elem_of_dom_2 in Hr. set_members.
    + intros role' fws'. destruct (decide (role = role')) as [<-|Hn].
      * rewrite lookup_insert_eq. by intros [= <-].
      * rewrite lookup_insert_ne by done. apply Hne.
Qed.

Lemma sorter_remove_add (S : Sorter) c :
  clients S !! c = None -> sorter_remove (sorter_add S c) c = S.
Proof.
  intros Hc. unfold sorter_remove, sorter_add, set_clients. rewrite Hc. simpl.
  rewrite delete_insert_id by done. by destruct S.
Qed.

Lemma sorter_remove_activate_add (S : Sorter) c :
  clients S !! c = None ->
  sorter_remove (sorter_activate (sorter_add S c) c) c = S.
Proof.
  intros Hc. unfold sorter_remove, sorter_activate, sorter_add, set_clients.
  rewrite Hc. simpl. rewrite delete_alter_eq, delete_insert_id by done.
  by destruct S.
Qed.

(** Tracking and then untracking leaves the state as it was. *)
Lemma track_untrack a f role a' :
  trackingConsistent a ->
  isFrameworkTrackedUnderRole a f role = false ->
  trackFrameworkUnderRole a f role = Some a' ->
  untrackFrameworkUnderRole a' f role = Some a.
Proof.
  intros Hwf Hnot H. unfold trackFrameworkUnderRole in H.
  destruct (initialized a) eqn:Hi; [|done]. simpl in H.
  unfold isFrameworkTrackedUnderRole in Hnot.
  destruct (roles a !! role) as [fws|] eqn:Hr.
  - assert (map_contains (roles a) role = true) as Hmc
      by (apply map_contains_true; eauto).
    rewrite Hmc in H. simpl in H. rewrite Hr in H. simpl in H.
    apply bool_decide_eq_false in Hnot.
    rewrite bool_decide_eq_false_2 in H by done. simpl in H.
    destruct (trackingConsistent_sorter a role fws Hwf Hr) as (fs & Hfs & Hd).
    rewrite Hfs in H. simpl in H.
    assert (sorter_contains fs f = false) as Hsc
      by (apply sorter_contains_false; by rewrite Hd).
    rewrite Hsc in H. simpl in H. injection H as <-.
    unfold untrackFrameworkUnderRole. simpl. rewrite Hi. simpl.
    rewrite !lookup_insert_eq. simpl.
    rewrite (bool_decide_eq_true_2 (f ∈ _))
      by (apply elem_of_union_l; by apply elem_of_singleton).
    simpl.
    assert (sorter_contains (sorter_add fs f) f = true) as ->.
    { apply sorter_contains_true. rewrite dom_clients_add.
      apply elem_of_union_l. by apply elem_of_singleton. }
    simpl.
    assert (({[f]} ∪ fws) ∖ {[f]} = fws) as -> by set_members.
    destruct Hwf as (_ & _ & Hne).
    rewrite bool_decide_eq_false_2 by (by eapply Hne).
    rewrite sorter_remove_add
      by (apply not_elem_of_dom; by rewrite Hd).
    rewrite !insert_insert_eq.
    rewrite (insert_id (roles a) role fws),
      (insert_id (frameworkSorters a) role fs) by done.
    by destruct a.
  - assert (map_contains (roles a) role = false) as Hmc
      by (by apply map_contains_false).
    rewrite Hmc in H. simpl in H.
    destruct (trackingConsistent_no_sorter a role Hwf Hr) as (Hfs & Hrs).
    assert (sorter_contains (roleSorter a) role = false) as Hsc
      by (apply sorter_contains_false; by apply not_elem_of_dom).
    rewrite Hsc in H. simpl in H.
    assert (map_contains (frameworkSorters a) role = false) as Hmf
      by (by apply map_contains_false).
    rewrite Hmf in H. simpl in H. rewrite !lookup_insert_eq in H. simpl in H.
    rewrite bool_decide_eq_false_2 in H by apply not_elem_of_empty.
    simpl in H. rewrite ?lookup_insert_eq in H. simpl in H.
    match type of H with context [sorter_contains ?S f] =>
      assert (sorter_contains S f = false) as Hsf;
      [| assert (clients S !! f = None) as Hcf;
         [| rewrite Hsf in H; set (S0 := S) in * ] ] end.
    { apply sorter_contains_false. rewrite clients_fold_addSlave. simpl.
      rewrite dom_empty_L. apply not_elem_of_empty. }
    { by rewrite clients_fold_addSlave. }
    simpl in H. injection H as <-.
    unfold untrackFrameworkUnderRole. simpl. rewrite Hi. simpl.
    rewrite !lookup_insert_eq. simpl.
    rewrite (bool_decide_eq_true_2 (f ∈ _))
      by (apply elem_of_union_l; by apply elem_of_singleton).
    simpl.
    assert (sorter_contains (sorter_add S0 f) f = true) as ->.
    { apply sorter_contains_true. rewrite dom_clients_add.
      apply elem_of_union_l. by apply elem_of_singleton. }
    simpl.
    assert (({[f]} ∪ ∅) ∖ {[f]} = (∅ : gset string)) as -> by set_members.
    rewrite bool_decide_eq_true_2 by done.
    rewrite sorter_remove_add by done.
    assert (sorter_count S0 = 0%nat) as ->.
    { unfold sorter_count, S0. by rewrite clients_fold_addSlave. }
    rewrite bool_decide_eq_true_2 by done. simpl.
    rewrite sorter_remove_activate_add by done.
    rewrite !insert_insert_eq, !delete_insert_id by done.
    by destruct a.
Qed.

End RegistryAndSorters.

Section TrackingPreserved.
Context `{RA : ResourcesAlgebra} `{Env : !AllocatorEnv}.

Lemma sameTracking_refl a : sameTracking a a.
Proof. by repeat split. Qed.

Lemma sameTracking_trans a b c :
  sameTracking a b -> sameTracking b c -> sameTracking a c.
Proof.
  intros (H1 & H2 & H3) (H4 & H5 & H6). repeat split; congruence.
Qed.

Lemma trackingConsistent_same a b :
  sameTracking a b -> trackingConsistent a -> trackingConsistent b.
Proof.
  intros (H1 & H2 & H3) (Hc & Hd & Hne). repeat split.
  - congruence.
  - congruence.
  - intros role fws. rewrite H1. apply Hne.
Qed.

Lemma isFrameworkTrackedUnderRole_same a b f role :
  sameTracking a b ->
  isFrameworkTrackedUnderRole b f role = isFrameworkTrackedUnderRole a f role.
Proof.
  intros (H1 & _). unfold isFrameworkTrackedUnderRole. by rewrite H1.
Qed.

Lemma trackFrameworkUnderRole_consistent a f role a' :
  trackingConsistent a ->
  isFrameworkTrackedUnderRole a f role = false ->
  trackFrameworkUnderRole a f role = Some a' ->
  trackingConsistent a' /\
  roles a' = <[role := {[f]} ∪ default ∅ (roles a !! role)]> (roles a).
Proof.
  intros Hwf Hnot H.
  assert (initialized a = true) as Hi.
  { unfold trackFrameworkUnderRole in H. by destruct (initialized a). }
  destruct (trackFrameworkUnderRole_fresh a f role Hi Hwf Hnot)
    as (a'' & Ha'' & Hwf' & Hr).
  by simplify_eq.
Qed.

Lemma untrackFrameworkUnderRole_consistent a f role a' :
  trackingConsistent a ->
  untrackFrameworkUnderRole a f role = Some a' ->
  trackingConsistent a' /\
  exists fws, roles a !! role = Some fws /\ f ∈ fws /\
    roles a' = (if bool_decide (fws ∖ {[f]} = ∅) then delete role (roles a)
                else <[role := fws ∖ {[f]}]> (roles a)).
Proof.
  intros Hwf H. pose proof H as H0. unfold untrackFrameworkUnderRole in H0.
  destruct (initialized a) eqn:Hi; [|done]. simpl in H0.
  apply bind_Some in H0 as (fws & Hr & H0).
  destruct (bool_decide (f ∈ fws)) eqn:Hf; [|done].
  apply bool_decide_eq_true in Hf.
  destruct (untrackFrameworkUnderRole_tracked a f role fws Hi Hwf Hr Hf)
    as (a'' & Ha'' & Hwf' & Hr').
  simplify_eq. split; [done|]. by exists fws.
Qed.

Lemma clientSets_insert (m : gmap string Sorter) role fs fs' :
  m !! role = Some fs ->
  dom (clients fs') = dom (clients fs) ->
  (fun S => dom (clients S)) <$> <[role := fs']> m
  = (fun S => dom (clients S)) <$> m.
Proof.
  intros Hfs Hd. rewrite fmap_insert, Hd.
  apply insert_id. by rewrite lookup_fmap, Hfs.
Qed.

Lemma clientSets_fmap (m : gmap string Sorter) (g : Sorter -> Sorter) :
  (forall S, clients (g S) = clients S) ->
  (fun S => dom (clients S)) <$> (g <$> m)
  = (fun S => dom (clients S)) <$> m.
Proof.
  intros Hg. rewrite <- map_fmap_compose.
  apply map_fmap_ext. intros role S _. simpl. by rewrite Hg.
Qed.

Lemma trackAllocatedResources_consistent a s f R a' :
  trackingConsistent a ->
  trackAllocatedResources a s f R = Some a' ->
  trackingConsistent a'.
Proof.
  intros Hwf H. unfold trackAllocatedResources in H.
  destruct (map_contains (slaves a) s); [|done].
  destruct (map_contains (frameworks a) f); [|done]. simpl in H.
  eapply (foreach_inv trackingConsistent); [| exact H | exact Hwf].
  intros [role allocation] b c b' _ Hb Hwb.
  apply bind_Some in Hb as (b1 & Hb1 & Hb).
  assert (trackingConsistent b1) as Hw1.
  { destruct (isFrameworkTrackedUnderRole b f role) eqn:Ht; simpl in Hb1.
    - by simplify_eq.
    - by eapply trackFrameworkUnderRole_consistent. }
  destruct (sorter_contains (roleSorter b1) role); [|done]. simpl in Hb.
  apply bind_Some in Hb as (fs & Hfs & Hb).
  destruct (sorter_contains fs f); [|done]. simpl in Hb.
  injection Hb as _ <-.
  eapply trackingConsistent_same; [|exact Hw1].
  destruct (map_contains _ role); (split; [done|]);
    (split; [apply dom_clients_allocated|]);
    unfold sorterClients; simpl;
    by eapply clientSets_insert; [|apply dom_clients_allocated].
Qed.

Lemma untrackAllocatedResources_sameTracking a s f R a' :
  untrackAllocatedResources a s f R = Some a' -> sameTracking a a'.
Proof.
  intros H. unfold untrackAllocatedResources in H.
  destruct (map_contains (frameworks a) f); [|done]. simpl in H.
  eapply (foreach_inv (sameTracking a)); [| exact H | apply sameTracking_refl].
  intros [role allocation] b c b' _ Hb Hab.
  destruct (sorter_contains (roleSorter b) role); [|done]. simpl in Hb.
  apply bind_Some in Hb as (fs & Hfs & Hb).
  destruct (sorter_contains fs f); [|done]. simpl in Hb.
  injection Hb as _ <-.
  eapply sameTracking_trans; [exact Hab|].
  destruct (map_contains _ role); (split; [done|]);
    (split; [apply dom_clients_unallocated|]);
    unfold sorterClients; simpl;
    by eapply clientSets_insert; [|apply dom_clients_unallocated].
Qed.

Lemma commitAllocation_consistent a f role s R a' :
  trackingConsistent a ->
  commitAllocation a f role s R = Some a' ->
  trackingConsistent a'.
Proof.
  intros Hwf H. unfold commitAllocation in H.
  apply bind_Some in H as (sl & Hsl & H).
  eapply trackAllocatedResources_consistent; [|exact H]. exact Hwf.
Qed.

End TrackingPreserved.

Section OperationsPreserve.
Context `{RA : ResourcesAlgebra} `{Env : !AllocatorEnv}.

Lemma trackFrameworkUnderRole_untracked a f role a' :
  trackFrameworkUnderRole a f role = Some a' ->
  isFrameworkTrackedUnderRole a f role = false.
Proof.
  intros H. unfold trackFrameworkUnderRole in H.
  unfold isFrameworkTrackedUnderRole.
  destruct (initialized a); [|done]. simpl in H.
  destruct (roles a !! role) as [fws|] eqn:Hr; [|done].
  assert (map_contains (roles a) role = true) as Hmc
    by (apply map_contains_true; eauto).
  rewrite Hmc in H. simpl in H. rewrite Hr in H. simpl in H.
  by destruct (bool_decide (f ∈ fws)).
Qed.

Lemma trackFrameworkUnderRole_keeps a f role a' :
  trackingConsistent a ->
  trackFrameworkUnderRole a f role = Some a' ->
  trackingConsistent a'.
Proof.
  intros Hwf H. eapply trackFrameworkUnderRole_consistent; [done| |done].
  by eapply trackFrameworkUnderRole_untracked.
Qed.

Lemma initialize_consistent o : trackingConsistent (initialize o).
Proof.
  split_and!; simpl.
  - unfold sorterClients. simpl. by rewrite fmap_empty.
  - by rewrite !dom_empty_L.
  - intros role fws. by rewrite lookup_empty.
Qed.

Lemma allocate_sameTracking a S : sameTracking a (allocate a S).
Proof.
  unfold allocate. destruct (paused a); [apply sameTracking_refl|].
  simpl. by destruct (allocation_isPending a).
Qed.

Lemma resume_sameTracking a : sameTracking a (resume a).
Proof. unfold resume. by destruct (paused a). Qed.

Lemma pause_sameTracking a : sameTracking a (pause a).
Proof. unfold pause. by destruct (paused a). Qed.

Lemma set_frameworks_sameTracking a x : sameTracking a (set_frameworks a x).
Proof. done. Qed.

Lemma set_slaves_sameTracking a x : sameTracking a (set_slaves a x).
Proof. done. Qed.

(** Replacing the sorter of a role by one with the same clients. *)
Lemma set_sorter_sameTracking a role fs fs' :
  frameworkSorters a !! role = Some fs ->
  dom (clients fs') = dom (clients fs) ->
  sameTracking a
    (set_frameworkSorters a (<[role := fs']> (frameworkSorters a))).
Proof.
  intros Hfs Hd. split; [done|]. split; [done|].
  unfold sorterClients. simpl. by eapply clientSets_insert.
Qed.

Lemma deactivateFramework_sameTracking a f a' :
  deactivateFramework a f = Some a' -> sameTracking a a'.
Proof.
  intros H. unfold deactivateFramework in H.
  destruct (initialized a); [|done]. simpl in H.
  apply bind_Some in H as (fw & Hfw & H).
  apply bind_Some in H as (a1 & H1 & H). injection H as <-.
  eapply sameTracking_trans; [|apply set_frameworks_sameTracking].
  eapply (foreach_inv (sameTracking a)); [| exact H1 | apply sameTracking_refl].
  intros role b c b' _ Hb Hab.
  apply bind_Some in Hb as (fs & Hfs & Hb). injection Hb as _ <-.
  eapply sameTracking_trans; [exact Hab|].
  eapply set_sorter_sameTracking; [exact Hfs|apply dom_clients_deactivate].
Qed.

Lemma addFramework_consistent a f i used act sup a' :
  trackingConsistent a ->
  addFramework a f i used act sup = Some a' ->
  trackingConsistent a'.
Proof.
  intros Hwf H. unfold addFramework in H.
  destruct (initialized a); [|done]. simpl in H.
  destruct (negb (map_contains (frameworks a) f)); [|done]. simpl in H.
  apply bind_Some in H as (a2 & H2 & H).
  apply bind_Some in H as (a3 & H3 & H).
  assert (trackingConsistent a2) as Hw2.
  { eapply (foreach_inv trackingConsistent); [| exact H2 |].
    - intros role b c b' _ Hb Hwb.
      apply bind_Some in Hb as (b1 & Hb1 & Hb).
      apply bind_Some in Hb as (fs & Hfs & Hb). injection Hb as _ <-.
      eapply trackingConsistent_same;
        [|eapply trackFrameworkUnderRole_keeps; [exact Hwb | exact Hb1]].
      eapply set_sorter_sameTracking; [exact Hfs|].
      destruct (bool_decide (role ∈ sup));
        [apply dom_clients_deactivate | apply dom_clients_activate].
    - eapply trackingConsistent_same; [apply set_frameworks_sameTracking|].
      exact Hwf. }
  assert (trackingConsistent a3) as Hw3.
  { eapply (foreach_inv trackingConsistent); [| exact H3 | exact Hw2].
    intros [s R] b c b' _ Hb Hwb. cbv beta in Hb.
    destruct (negb (map_contains (slaves b) s)); [by simplify_eq|].
    apply bind_Some in Hb as (b1 & Hb1 & Hb). injection Hb as _ <-.
    by eapply trackAllocatedResources_consistent. }
  destruct act.
  - injection H as <-. eapply trackingConsistent_same; [|exact Hw3].
    apply allocate_sameTracking.
  - eapply trackingConsistent_same; [|exact Hw3].
    by eapply deactivateFramework_sameTracking.
Qed.

Lemma removeFramework_consistent a f a' :
  trackingConsistent a ->
  removeFramework a f = Some a' ->
  trackingConsistent a'.
Proof.
  intros Hwf H. unfold removeFramework in H.
  destruct (initialized a); [|done]. simpl in H.
  apply bind_Some in H as (fw & Hfw & H).
  apply bind_Some in H as (a1 & H1 & H). injection H as <-.
  eapply trackingConsistent_same; [apply set_frameworks_sameTracking|].
  eapply (foreach_inv trackingConsistent); [| exact H1 | exact Hwf].
  intros role b c b' _ Hb Hwb. cbv beta in Hb.
  destruct (frameworkSorters b !! role) as [fs|]; [|by simplify_eq].
  destruct (negb (sorter_contains fs f)); [by simplify_eq|].
  apply bind_Some in Hb as (b1 & Hb1 & Hb).
  apply bind_Some in Hb as (b2 & Hb2 & Hb). injection Hb as _ <-.
  eapply untrackFrameworkUnderRole_consistent; [|exact Hb2].
  eapply (foreach_inv trackingConsistent); [| exact Hb1 | exact Hwb].
  intros [s R] d c' d' _ Hd Hwd.
  apply bind_Some in Hd as (d1 & Hd1 & Hd). injection Hd as _ <-.
  eapply trackingConsistent_same; [|exact Hwd].
  by eapply untrackAllocatedResources_sameTracking.
Qed.

Lemma activateFramework_sameTracking a f a' :
  activateFramework a f = Some a' -> sameTracking a a'.
Proof.
  intros H. unfold activateFramework in H.
  destruct (initialized a); [|done]. simpl in H.
  apply bind_Some in H as (fw & Hfw & H).
  apply bind_Some in H as (a2 & H2 & H). injection H as <-.
  eapply sameTracking_trans; [|apply allocate_sameTracking].
  eapply (foreach_inv (sameTracking a)); [| exact H2 |].
  - intros role b c b' _ Hb Hab.
    apply bind_Some in Hb as (fs & Hfs & Hb).
    destruct (negb (bool_decide (role ∈ suppressedRoles fw)));
      injection Hb as _ <-; [|done].
    eapply sameTracking_trans; [exact Hab|].
    eapply set_sorter_sameTracking; [exact Hfs|apply dom_clients_activate].
  - apply set_frameworks_sameTracking.
Qed.

Lemma suppressRoles_sameTracking a f rs a' :
  suppressRoles a f rs = Some a' -> sameTracking a a'.
Proof.
  intros H. unfold suppressRoles in H.
  destruct (initialized a); [|done]. simpl in H.
  destruct (map_contains (frameworks a) f); [|done]. simpl in H.
  eapply (foreach_inv (sameTracking a)); [| exact H | apply sameTracking_refl].
  intros role b c b' _ Hb Hab.
  apply bind_Some in Hb as (fs & Hfs & Hb).
  apply bind_Some in Hb as (fw & Hfw & Hb). injection Hb as _ <-.
  eapply sameTracking_trans; [exact Hab|].
  eapply sameTracking_trans; [|apply set_frameworks_sameTracking].
  eapply set_sorter_sameTracking; [exact Hfs|apply dom_clients_deactivate].
Qed.

Lemma unsuppressRoles_sameTracking a f rs a' :
  unsuppressRoles a f rs = Some a' -> sameTracking a a'.
Proof.
  intros H. unfold unsuppressRoles in H.
  destruct (initialized a); [|done]. simpl in H.
  destruct (map_contains (frameworks a) f); [|done]. simpl in H.
  eapply (foreach_inv (sameTracking a)); [| exact H | apply sameTracking_refl].
  intros role b c b' _ Hb Hab.
  apply bind_Some in Hb as (fs & Hfs & Hb).
  apply bind_Some in Hb as (fw & Hfw & Hb). injection Hb as _ <-.
  eapply sameTracking_trans; [exact Hab|].
  eapply sameTracking_trans; [|apply set_frameworks_sameTracking].
  eapply set_sorter_sameTracking; [exact Hfs|apply dom_clients_activate].
Qed.

Lemma suppressOffers_sameTracking a f rs a' :
  suppressOffers a f rs = Some a' -> sameTracking a a'.
Proof.
  intros H. unfold suppressOffers in H.
  destruct (initialized a); [|done]. simpl in H.
  apply bind_Some in H as (fw & Hfw & H).
  by eapply suppressRoles_sameTracking.
Qed.

Lemma reviveOffers_sameTracking a f rs a' :
  reviveOffers a f rs = Some a' -> sameTracking a a'.
Proof.
  intros H. unfold reviveOffers in H.
  destruct (initialized a); [|done]. simpl in H.
  apply bind_Some in H as (fw & Hfw & H).
  apply bind_Some in H as (a2 & H2 & H). injection H as <-.
  eapply sameTracking_trans; [|apply allocate_sameTracking].
  eapply sameTracking_trans; [apply set_frameworks_sameTracking|].
  by eapply unsuppressRoles_sameTracking.
Qed.

End OperationsPreserve.

Section AgentsPreserve.
Context `{RA : ResourcesAlgebra} `{Env : !AllocatorEnv}.

Lemma trackReservations_sameTracking a m :
  sameTracking a (trackReservations a m).
Proof.
  unfold trackReservations.
  apply (foldl_inv (sameTracking a)); [|apply sameTracking_refl].
  intros b [role R] Hab. by destruct (rq_empty _).
Qed.

Lemma untrackReservations_sameTracking a m a' :
  untrackReservations a m = Some a' -> sameTracking a a'.
Proof.
  intros H. unfold untrackReservations in H.
  eapply (foreach_inv (sameTracking a)); [| exact H | apply sameTracking_refl].
  intros [role R] b c b' _ Hb Hab. cbv beta in Hb.
  destruct (rq_empty _); [by simplify_eq|].
  apply bind_Some in Hb as (b1 & Hb1 & Hb). injection Hb as _ <-.
  eapply (foreach_inv (sameTracking a)); [| exact Hb1 | exact Hab].
  intros r d c' d' _ Hd Had.
  apply bind_Some in Hd as (cur & Hcur & Hd).
  destruct (rq_contains cur _); [|done]. simpl in Hd.
  injection Hd as _ <-. by destruct (rq_empty _).
Qed.

Lemma updateSlaveTotal_sameTracking a s t r :
  updateSlaveTotal a s t = Some r -> sameTracking a r.2.
Proof.
  intros H. unfold updateSlaveTotal in H.
  apply bind_Some in H as (sl & Hsl & H).
  destruct (r_eqb (getTotal sl) t); [injection H as <-; apply sameTracking_refl|].
  apply bind_Some in H as (a2 & H2 & H). injection H as <-. simpl.
  assert (sameTracking a a2) as (Hr & Hd & Hc).
  { destruct (negb (reservations_eqb _ _)); simpl in H2.
    - apply bind_Some in H2 as (a1 & H1 & H2). injection H2 as <-.
      eapply sameTracking_trans; [|apply trackReservations_sameTracking].
      eapply sameTracking_trans; [apply set_slaves_sameTracking|].
      by eapply untrackReservations_sameTracking.
    - injection H2 as <-. apply set_slaves_sameTracking. }
  split; [done|]. split.
  - simpl. by rewrite clients_addSlave, clients_removeSlave.
  - unfold sorterClients. simpl. rewrite clientSets_fmap; [done|].
    intros S. by rewrite clients_addSlave, clients_removeSlave.
Qed.

Lemma removeFilters_sameTracking a s a' :
  removeFilters a s = Some a' -> sameTracking a a'.
Proof.
  intros H. unfold removeFilters in H.
  destruct (initialized a); [|done]. by injection H as <-.
Qed.

Lemma addSlave_consistent a s i c u t used a' :
  trackingConsistent a ->
  addSlave a s i c u t used = Some a' ->
  trackingConsistent a'.
Proof.
  intros Hwf H. unfold addSlave in H.
  destruct (initialized a); [|done]. simpl in H.
  destruct (negb (map_contains (slaves a) s)); [|done]. simpl in H.
  destruct (bool_decide (s = si_id i)); [|done]. simpl in H.
  destruct (negb (paused a) || _); [|done]. simpl in H.
  apply bind_Some in H as (a6 & H6 & H). injection H as <-.
  assert (trackingConsistent a6) as Hw6.
  { eapply (foreach_inv trackingConsistent); [| exact H6 |].
    - intros [f R] b cc b' _ Hb Hwb. cbv beta in Hb.
      destruct (negb (map_contains (frameworks b) f)); [by simplify_eq|].
      apply bind_Some in Hb as (b1 & Hb1 & Hb). injection Hb as _ <-.
      by eapply trackAllocatedResources_consistent.
    - eapply trackingConsistent_same; [|exact Hwf].
      match goal with |- context [trackReservations ?x ?m] =>
        pose proof (trackReservations_sameTracking x m) as (Hr & Hd & Hc) end.
      split; [exact Hr|]. split.
      + simpl. by rewrite clients_addSlave.
      + unfold sorterClients. simpl. rewrite clientSets_fmap; [exact Hc|].
        intros S. by rewrite clients_addSlave. }
  eapply trackingConsistent_same; [apply allocate_sameTracking|].
  destruct (expectedAgentCount a6) as [e|]; [|done].
  destruct (paused a6 && _); [|done].
  eapply trackingConsistent_same; [apply resume_sameTracking|]. done.
Qed.

Lemma removeSlave_sameTracking a s a' :
  removeSlave a s = Some a' -> sameTracking a a'.
Proof.
  intros H. unfold removeSlave in H.
  destruct (initialized a); [|done]. simpl in H.
  apply bind_Some in H as (sl & Hsl & H).
  apply bind_Some in H as (a4 & H4 & H).
  apply removeFilters_sameTracking in H.
  apply untrackReservations_sameTracking in H4.
  eapply sameTracking_trans; [|exact H].
  eapply sameTracking_trans; [|eapply sameTracking_trans; [exact H4|done]].
  split; [done|]. split.
  - simpl. by rewrite clients_removeSlave.
  - unfold sorterClients. simpl. rewrite clientSets_fmap; [done|].
    intros S. by rewrite clients_removeSlave.
Qed.

Lemma addResourceProvider_consistent a s t used a' :
  trackingConsistent a ->
  addResourceProvider a s t used = Some a' ->
  trackingConsistent a'.
Proof.
  intros Hwf H. unfold addResourceProvider in H.
  destruct (initialized a); [|done]. simpl in H.
  destruct (map_contains (slaves a) s); [|done]. simpl in H.
  apply bind_Some in H as (a1 & H1 & H).
  apply bind_Some in H as (sl & Hsl & H).
  apply bind_Some in H as (r & Hr & H).
  apply bind_Some in H as (sl' & Hsl' & H). injection H as <-.
  eapply trackingConsistent_same; [apply set_slaves_sameTracking|].
  eapply trackingConsistent_same; [by eapply updateSlaveTotal_sameTracking|].
  eapply (foreach_inv trackingConsistent); [| exact H1 | exact Hwf].
  intros [f R] b cc b' _ Hb Hwb. cbv beta in Hb.
  destruct (negb (map_contains (frameworks b) f)); [by simplify_eq|].
  apply bind_Some in Hb as (b1 & Hb1 & Hb). injection Hb as _ <-.
  by eapply trackAllocatedResources_consistent.
Qed.

Lemma updateAvailable_sameTracking a s ops res a' :
  updateAvailable a s ops = Some (res, a') -> sameTracking a a'.
Proof.
  intros H. unfold updateAvailable in H.
  destruct (initialized a); [|done]. simpl in H.
  apply bind_Some in H as (sl & Hsl & H).
  destruct (r_apply (getAvailable sl) ops) as [avail|];
    [|injection H as _ <-; apply sameTracking_refl].
  apply bind_Some in H as (t & Ht & H).
  apply bind_Some in H as (r & Hr & H). injection H as _ <-.
  by eapply updateSlaveTotal_sameTracking.
Qed.

Lemma updateUnavailability_sameTracking a s u a' :
  updateUnavailability a s u = Some a' -> sameTracking a a'.
Proof.
  intros H. unfold updateUnavailability in H.
  destruct (initialized a); [|done]. simpl in H.
  apply bind_Some in H as (sl & Hsl & H). injection H as <-.
  eapply sameTracking_trans; [|apply allocate_sameTracking]. done.
Qed.

Lemma updateInverseOffer_sameTracking a s f st flt a' :
  updateInverseOffer a s f st flt = Some a' -> sameTracking a a'.
Proof.
  intros H. unfold updateInverseOffer in H.
  destruct (initialized a); [|done]. simpl in H.
  apply bind_Some in H as (fw & Hfw & H).
  apply bind_Some in H as (sl & Hsl & H).
  apply bind_Some in H as (mt & Hmt & H).
  apply bind_Some in H as (a1 & H1 & H).
  assert (sameTracking a a1) as Ha1.
  { destruct (bool_decide (f ∈ offersOutstanding mt)); [|by simplify_eq].
    apply bind_Some in H1 as (x & _ & H1). by injection H1 as <-. }
  destruct flt as [x|]; [|by simplify_eq].
  apply bind_Some in H as (t & Ht & H).
  destruct (negb (t =? 0)); injection H as <-; [|done].
  eapply sameTracking_trans; [exact Ha1|done].
Qed.

Lemma recoverResources_consistent a f s R flt a' :
  trackingConsistent a ->
  recoverResources a f s R flt = Some a' ->
  trackingConsistent a'.
Proof.
  intros Hwf H. unfold recoverResources in H.
  destruct (initialized a); [|done]. simpl in H.
  destruct (r_empty R); [by simplify_eq|].
  destruct (bool_decide (size (r_allocations R) = 1%nat)); [|done].
  simpl in H.
  apply bind_Some in H as (role & Hrole & H).
  apply bind_Some in H as (a1 & H1 & H).
  apply bind_Some in H as (a2 & H2 & H).
  assert (trackingConsistent a1) as Hw1.
  { destruct (map_contains (frameworks a) f); [|by simplify_eq].
    apply bind_Some in H1 as (fs & Hfs & H1).
    destruct (sorter_contains fs f); [|by simplify_eq].
    apply bind_Some in H1 as (b & Hb & H1).
    apply bind_Some in H1 as (fw & Hfw & H1).
    apply bind_Some in H1 as (fs' & Hfs' & H1).
    assert (trackingConsistent b) as Hwb.
    { eapply trackingConsistent_same; [|exact Hwf].
      by eapply untrackAllocatedResources_sameTracking. }
    destruct (_ && _); [|by simplify_eq].
    by eapply untrackFrameworkUnderRole_consistent. }
  assert (trackingConsistent a2) as Hw2.
  { destruct (map_contains (slaves a1) s); [|by simplify_eq].
    apply bind_Some in H2 as (sl & Hsl & H2).
    destruct (r_contains _ R); [|done]. simpl in H2. by injection H2 as <-. }
  destruct flt as [x|]; [|by simplify_eq].
  destruct (_ || _); [by simplify_eq|].
  apply bind_Some in H as (t & Ht & H).
  destruct (negb (t =? 0)); [|by simplify_eq].
  apply bind_Some in H as (fw & Hfw & H). by injection H as <-.
Qed.

Lemma setQuota_sameTracking a role q a' :
  setQuota a role q = Some a' -> sameTracking a a'.
Proof.
  intros H. unfold setQuota in H.
  destruct (initialized a); [|done]. simpl in H.
  destruct (negb (map_contains (quotaGuarantees a) role)); [|done].
  simpl in H.
  destruct (sorter_contains (roleSorter a) role); injection H as <-; [|done].
  apply (foldl_inv (sameTracking a)); [|done].
  intros b [s R] Hab. eapply sameTracking_trans; [exact Hab|done].
Qed.

Lemma removeQuota_sameTracking a role a' :
  removeQuota a role = Some a' -> sameTracking a a'.
Proof.
  intros H. unfold removeQuota in H.
  destruct (initialized a); [|done]. simpl in H.
  destruct (map_contains (quotaGuarantees a) role); [|done]. simpl in H.
  destruct (sorter_contains (quotaRoleSorter a) role); [|done].
  by injection H as <-.
Qed.

End AgentsPreserve.

(** ** The allocation run *)

Section RunInvariants.
Context `{RA : ResourcesAlgebra} `{Env : !AllocatorEnv}.

Lemma client_isActive_allocated S c s R g :
  client_isActive (sorter_allocated S c s R) g = client_isActive S g.
Proof.
  unfold client_isActive, sorter_allocated. simpl.
  rewrite lookup_alter. destruct (decide (c = g)) as [<-|Hn]; [|done].
  by destruct (clients S !! c).
Qed.

Lemma client_isActive_unallocated S c s R g :
  client_isActive (sorter_unallocated S c s R) g = client_isActive S g.
Proof.
  unfold client_isActive, sorter_unallocated. simpl.
  rewrite lookup_alter. destruct (decide (c = g)) as [<-|Hn]; [|done].
  by destruct (clients S !! c).
Qed.

Lemma client_isActive_add S c g :
  client_isActive (sorter_add S c) g = true -> client_isActive S g = true.
Proof.
  unfold client_isActive, sorter_add.
  destruct (clients S !! c) as [x|] eqn:Hc; [done|]. simpl.
  destruct (decide (c = g)) as [<-|Hn].
  - by rewrite lookup_insert_eq.
  - by rewrite lookup_insert_ne.
Qed.

Lemma client_isActive_fold_addSlave (l : list (SlaveID * Slave)) g :
  client_isActive
    (foldl (fun s kv => sorter_addSlave s (si_id (info kv.2)) (getTotal kv.2))
       newSorter l) g = false.
Proof.
  unfold client_isActive. by rewrite clients_fold_addSlave.
Qed.

(** Tracking activates nobody. *)
Lemma trackFrameworkUnderRole_active a f role a' :
  trackFrameworkUnderRole a f role = Some a' ->
  forall r g, activeIn a' r g = true -> activeIn a r g = true.
Proof.
  intros H r g. unfold trackFrameworkUnderRole in H.
  destruct (initialized a); [|done]. simpl in H.
  apply bind_Some in H as (a1 & H1 & H).
  apply bind_Some in H as (fws & Hfws & H).
  destruct (negb (bool_decide (f ∈ fws))); [|done]. simpl in H.
  apply bind_Some in H as (fs & Hfs & H).
  destruct (negb (sorter_contains fs f)); [|done]. simpl in H.
  injection H as <-. simpl in Hfs. unfold activeIn. simpl.
  destruct (decide (role = r)) as [<-|Hn].
  - rewrite lookup_insert_eq. intros Hact%client_isActive_add.
    destruct (map_contains (roles a) role).
    + injection H1 as <-. by rewrite Hfs.
    + destruct (negb (sorter_contains (roleSorter _) role)); [|done].
      simpl in H1.
      destruct (negb (map_contains _ role)); [|done]. simpl in H1.
      injection H1 as <-. simpl in Hfs. rewrite lookup_insert_eq in Hfs.
      injection Hfs as <-. by rewrite client_isActive_fold_addSlave in Hact.
  - rewrite lookup_insert_ne by done.
    destruct (map_contains (roles a) role).
    + by injection H1 as <-.
    + destruct (negb (sorter_contains (roleSorter _) role)); [|done].
      simpl in H1.
      destruct (negb (map_contains _ role)); [|done]. simpl in H1.
      injection H1 as <-. simpl. by rewrite lookup_insert_ne.
Qed.

Lemma trackAllocatedResources_active a s f R a' :
  trackAllocatedResources a s f R = Some a' ->
  forall r g, activeIn a' r g = true -> activeIn a r g = true.
Proof.
  intros H. unfold trackAllocatedResources in H.
  destruct (map_contains (slaves a) s); [|done].
  destruct (map_contains (frameworks a) f); [|done]. simpl in H.
  eapply (foreach_inv
            (fun b => forall r g, activeIn b r g = true -> activeIn a r g = true));
    [| exact H | done].
  intros [role allocation] b c b' _ Hb Hab r g.
  apply bind_Some in Hb as (b1 & Hb1 & Hb).
  destruct (sorter_contains (roleSorter b1) role); [|done]. simpl in Hb.
  apply bind_Some in Hb as (fs & Hfs & Hb).
  destruct (sorter_contains fs f); [|done]. simpl in Hb.
  injection Hb as _ <-. intros Hact. apply Hab.
  assert (activeIn b1 r g = true) as Hb1act.
  { revert Hact. unfold activeIn.
    destruct (map_contains (quotaGuarantees _) role); simpl;
      (destruct (decide (role = r)) as [<-|Hn];
       [rewrite lookup_insert_eq, client_isActive_allocated, Hfs
       |rewrite lookup_insert_ne by done]; done). }
  destruct (negb (isFrameworkTrackedUnderRole b f role)); simpl in Hb1.
  - by eapply trackFrameworkUnderRole_active.
  - by injection Hb1 as <-.
Qed.

Lemma commitAllocation_active a f role s R a' :
  commitAllocation a f role s R = Some a' ->
  forall r g, activeIn a' r g = true -> activeIn a r g = true.
Proof.
  intros H r g Hact. unfold commitAllocation in H.
  apply bind_Some in H as (sl & Hsl & H).
  by eapply (trackAllocatedResources_active _ _ _ _ _ H r g).
Qed.

Lemma offeredTo_add off f role s R f' role' s' :
  offeredTo (offerable_add off f role s R) f' role' s' ->
  (f' = f /\ role' = role /\ s' = s) \/ offeredTo off f' role' s'.
Proof.
  unfold offerable_add, offeredTo. intros (m & ms & Hm & Hms & Hs).
  destruct (decide (f = f')) as [<-|Hf];
    [rewrite lookup_insert_eq in Hm | rewrite lookup_insert_ne in Hm by done].
  - injection Hm as <-.
    destruct (decide (role = role')) as [<-|Hr];
      [rewrite lookup_insert_eq in Hms
      | rewrite lookup_insert_ne in Hms by done].
    + injection Hms as <-. unfold r_map_add in Hs.
      destruct (decide (s = s')) as [<-|Hss]; [by left|].
      rewrite lookup_insert_ne in Hs by done. right.
      destruct (off !! f) as [m|] eqn:Hoff; simpl in *;
        [|by rewrite lookup_empty in Hs; destruct Hs].
      destruct (m !! role) as [ms|] eqn:Hmr; simpl in *;
        [|by rewrite lookup_empty in Hs; destruct Hs].
      by exists m, ms.
    + right. destruct (off !! f) as [m|] eqn:Hoff; simpl in *;
        [|by rewrite lookup_empty in Hms].
      by exists m, ms.
  - right. by exists m, ms.
Qed.

(** The two outcomes of a step of either stage: nothing is offered and the
    state stays, or the candidate is committed and recorded as offered. *)
Lemma stage1_framework_step s role q f a loc c a' loc' :
  stage1_framework s role q f (a, loc) = Some (c, (a', loc')) ->
  (a' = a /\ offerable loc' = offerable loc) \/
  exists R, commitAllocation a f role s R = Some a' /\
            offerable loc' = offerable_add (offerable loc) f role s R.
Proof.
  intros H. unfold stage1_framework in H.
  apply bind_Some in H as (sl & Hsl & H).
  destruct (r_empty (allocatableTo role _)); [left; by simplify_eq|].
  apply bind_Some in H as (fw & Hfw & H).
  destruct (active fw); [|done]. simpl in H.
  apply bind_Some in H as (capable & Hcap & H).
  destruct capable; simpl in H; [|left; by simplify_eq].
  destruct (r_empty (r_plus _ _)); [left; by simplify_eq|].
  apply bind_Some in H as (filtered & Hflt & H).
  destruct filtered; [left; by simplify_eq|].
  apply bind_Some in H as (a1 & Ha1 & H). injection H as _ <- <-.
  right. eexists. split; [exact Ha1|done].
Qed.

Lemma stage2_framework_step s role f a loc c a' loc' :
  stage2_framework s role f (a, loc) = Some (c, (a', loc')) ->
  (a' = a /\ offerable loc' = offerable loc) \/
  exists R, commitAllocation a f role s R = Some a' /\
            offerable loc' = offerable_add (offerable loc) f role s R.
Proof.
  intros H. unfold stage2_framework in H.
  apply bind_Some in H as (sl & Hsl & H).
  destruct (r_empty (allocatableTo role _)); [left; by simplify_eq|].
  apply bind_Some in H as (fw & Hfw & H).
  apply bind_Some in H as (capable & Hcap & H).
  destruct capable; simpl in H; [|left; by simplify_eq].
  apply bind_Some in H as (filtered & Hflt & H).
  destruct filtered.
  - left. injection H as _ <- <-. split; [done|].
    by destruct (negb (rq_contains _ _)).
  - apply bind_Some in H as (a1 & Ha1 & H). injection H as _ <- <-.
    right. eexists. split; [exact Ha1|]. simpl.
    by destruct (negb (rq_contains _ _)).
Qed.

End RunInvariants.

Section RunLoops.
Context `{RA : ResourcesAlgebra} `{Env : !AllocatorEnv}.

Lemma sort_active (fs : Sorter) f :
  f ∈ sort fs -> client_isActive fs f = true.
Proof.
  unfold sort. intros Hin%list_elem_of_In. by apply filter_In in Hin as [_ ?].
Qed.

Lemma runInv_step a0 L s role f a loc a' loc' :
  s ∈ L -> activeIn a0 role f = true ->
  ((a' = a /\ offerable loc' = offerable loc) \/
   exists R, commitAllocation a f role s R = Some a' /\
             offerable loc' = offerable_add (offerable loc) f role s R) ->
  runInv a0 L (a, loc) -> runInv a0 L (a', loc').
Proof.
  intros Hs Hf Hstep (Hwf & Hact & Hoff). unfold runInv. simpl in *.
  destruct Hstep as [[-> Heq] | (R & Hcommit & Heq)].
  - split; [done|]. split; [done|]. intros g r s'. rewrite Heq. apply Hoff.
  - split_and!; simpl.
    + intros H0. eapply commitAllocation_consistent; [|exact Hcommit]. auto.
    + intros r g Hg. apply Hact. by eapply commitAllocation_active.
    + intros g r s'. rewrite Heq.
      intros [(-> & -> & ->) | Hold]%offeredTo_add; [done|]. by apply Hoff.
Qed.

Lemma runInv_frameworks a0 L s role fs
    (body : FrameworkID -> Allocator * Locals ->
            option (LoopCtl * (Allocator * Locals))) st st' :
  (forall f a loc c a' loc',
     body f (a, loc) = Some (c, (a', loc')) ->
     (a' = a /\ offerable loc' = offerable loc) \/
     exists R, commitAllocation a f role s R = Some a' /\
               offerable loc' = offerable_add (offerable loc) f role s R) ->
  s ∈ L ->
  frameworkSorters st.1 !! role = Some fs ->
  foreach (sort fs) body st = Some st' ->
  runInv a0 L st -> runInv a0 L st'.
Proof.
  intros Hbody Hs Hfs Hrun Hinv.
  assert (forall f, f ∈ sort fs -> activeIn a0 role f = true) as Hsorted.
  { intros f Hf%sort_active. destruct Hinv as (_ & Hact & _). apply Hact.
    unfold activeIn. by rewrite Hfs. }
  eapply (foreach_inv (runInv a0 L)); [| exact Hrun | exact Hinv].
  intros f [a loc] c [a' loc'] Hf Hstep. eapply runInv_step; eauto.
Qed.

Lemma runInv_stage1_role a0 L s role st c st' :
  s ∈ L -> stage1_role s role st = Some (c, st') ->
  runInv a0 L st -> runInv a0 L st'.
Proof.
  intros Hs H Hinv. unfold stage1_role in H.
  apply bind_Some in H as (q & Hq & H).
  destruct (negb (map_contains (roles st.1) role)); [by simplify_eq|].
  apply bind_Some in H as (sl & Hsl & H).
  destruct (r_empty (getAvailable sl)); [by simplify_eq|].
  apply bind_Some in H as (fs & Hfs & H).
  apply bind_Some in H as (st1 & H1 & H). injection H as _ <-.
  eapply runInv_frameworks; [| exact Hs | exact Hfs | exact H1 | exact Hinv].
  intros f a loc c' a' loc'. apply stage1_framework_step.
Qed.

Lemma runInv_stage2_role a0 L s role st c st' :
  s ∈ L -> stage2_role s role st = Some (c, st') ->
  runInv a0 L st -> runInv a0 L st'.
Proof.
  intros Hs H Hinv. unfold stage2_role in H.
  destruct (map_contains (quotaGuarantees st.1) role); [by simplify_eq|].
  apply bind_Some in H as (sl & Hsl & H).
  destruct (r_empty (getAvailable sl)); [by simplify_eq|].
  apply bind_Some in H as (fs & Hfs & H).
  apply bind_Some in H as (st1 & H1 & H). injection H as _ <-.
  eapply runInv_frameworks; [| exact Hs | exact Hfs | exact H1 | exact Hinv].
  intros f a loc c' a' loc'. apply stage2_framework_step.
Qed.

Lemma runInv_stage1_slave a0 L s st c st' :
  s ∈ L -> stage1_slave s st = Some (c, st') ->
  runInv a0 L st -> runInv a0 L st'.
Proof.
  intros Hs H Hinv. unfold stage1_slave in H.
  destruct (map_contains (slaves st.1) s); [|done]. simpl in H.
  apply bind_Some in H as (st1 & H1 & H). injection H as _ <-.
  eapply (foreach_inv (runInv a0 L)); [| exact H1 | exact Hinv].
  intros role x cx x' _. by apply runInv_stage1_role.
Qed.

Lemma runInv_stage2_slave a0 L s st c st' :
  s ∈ L -> stage2_slave s st = Some (c, st') ->
  runInv a0 L st -> runInv a0 L st'.
Proof.
  intros Hs H Hinv. unfold stage2_slave in H.
  destruct (map_contains (slaves st.1) s); [|done]. simpl in H.
  apply bind_Some in H as (st1 & H1 & H). injection H as _ <-.
  eapply (foreach_inv (runInv a0 L)); [| exact H1 | exact Hinv].
  intros role x cx x' _. by apply runInv_stage2_role.
Qed.

(** The run as a whole. *)
Lemma __allocate_runInv a run :
  __allocate a = Some run ->
  exists candidates,
    candidateSlaves a = Some candidates /\
    run_offers run = map_to_list (offerable (run_locals run)) /\
    runInv a (shuffle_slaves candidates) (run_state run, run_locals run).
Proof.
  intros H. unfold __allocate in H.
  apply bind_Some in H as (candidates & Hc & H).
  apply bind_Some in H as (st1 & H1 & H).
  apply bind_Some in H as (st2 & H2 & H). injection H as <-. simpl.
  exists candidates. split; [done|]. split; [done|].
  assert (runInv a (shuffle_slaves candidates) (a, seedLocals a)) as H0.
  { split; [done|]. split; [done|]. intros f role s (m & ms & Hm & _).
    simpl in Hm. by rewrite lookup_empty in Hm. }
  assert (runInv a (shuffle_slaves candidates) st1) as Hst1.
  { eapply (foreach_inv (runInv a _)); [| exact H1 | exact H0].
    intros s x cx x' Hs. by apply runInv_stage1_slave. }
  destruct st2 as [a2 loc2].
  eapply (foreach_inv (runInv a _)); [| exact H2 | exact Hst1].
  intros s x cx x' Hs. by apply runInv_stage2_slave.
Qed.

(** The candidates that a run visits. *)
Lemma candidateSlaves_spec a l :
  candidateSlaves a = Some l ->
  forall s, s ∈ l <-> eligibleAgent a s.
Proof.
  intros H. unfold candidateSlaves in H.
  assert (forall s, s ∈ l <->
            s ∈ elements (allocationCandidates a) /\
            exists sl, slaves a !! s = Some sl /\ activated sl = true /\
              match whitelist a with
              | None => True
              | Some w => si_hostname (info sl) ∈ w
              end) as Hl.
  { eapply (foreach_accum
              (fun seen acc => forall s, s ∈ acc <->
                 s ∈ seen /\
                 exists sl, slaves a !! s = Some sl /\ activated sl = true /\
                   match whitelist a with
                   | None => True
                   | Some w => si_hostname (info sl) ∈ w
                   end)); [| | exact H].
    - intros seen x acc c acc' Hacc Hx.
      apply bind_Some in Hx as (w & Hw & Hx).
      unfold isWhitelisted in Hw.
      apply bind_Some in Hw as (sl & Hsl & Hw). injection Hw as <-.
      rewrite Hsl in Hx. simpl in Hx.
      assert (map_contains (slaves a) x = true) as Hmc
        by (apply map_contains_true; eauto).
      rewrite Hmc in Hx. rewrite andb_true_r in Hx.
      destruct (_ && activated sl) eqn:Hcond; injection Hx as <- <-;
        (split; [done|]); intros s.
      + apply andb_true_iff in Hcond as [Hwl Hact].
        rewrite elem_of_app, list_elem_of_singleton, Hacc, elem_of_app,
          list_elem_of_singleton.
        split.
        * intros [[? ?] | ->]; [by split; [left|]|].
          split; [by right|]. exists sl. split; [done|]. split; [done|].
          destruct (whitelist a); [|done]. by apply bool_decide_eq_true in Hwl.
        * intros [[? | ->] ?]; [left | right]; done.
      + rewrite Hacc, elem_of_app, list_elem_of_singleton. split.
        * intros [? ?]. split; [by left | done].
        * intros [[? | ->] Hex]; [done|].
          destruct Hex as (sl' & Hsl' & Hact & Hwl).
          exfalso. simplify_eq. rewrite Hact, andb_true_r in Hcond.
          destruct (whitelist a); [|done].
          by apply bool_decide_eq_false in Hcond.
    - intros s. split; [by intros ?%elem_of_nil | by intros [?%elem_of_nil _]]. }
  intros s. rewrite Hl. unfold eligibleAgent. by rewrite elem_of_elements.
Qed.

Lemma deallocate_sameTracking a a' offers :
  deallocate a = Some (a', offers) -> sameTracking a a'.
Proof.
  intros H. unfold deallocate in H.
  destruct (map_isEmpty (roles a));
    [injection H as <- _; apply sameTracking_refl|].
  destruct (negb (map_isEmpty (frameworkSorters a))); [|done]. simpl in H.
  apply bind_Some in H as (st & Hst & H). injection H as <- _.
  eapply (foreach_inv (fun x => sameTracking a x.1));
    [| exact Hst | apply sameTracking_refl].
  intros fs x c x' _ Hx Hax. unfold deallocate_sorter in Hx.
  apply bind_Some in Hx as (x1 & Hx1 & Hx). injection Hx as _ <-.
  eapply (foreach_inv (fun x => sameTracking a x.1)); [| exact Hx1 | exact Hax].
  intros s y cy y' _ Hy Hay. unfold deallocate_slave in Hy.
  apply bind_Some in Hy as (sl & Hsl & Hy).
  destruct (maintenance sl); [|by simplify_eq].
  apply bind_Some in Hy as (y1 & Hy1 & Hy). injection Hy as _ <-.
  eapply (foreach_inv (fun x => sameTracking a x.1)); [| exact Hy1 | exact Hay].
  intros f [b off] cz [b' off'] _ Hz Haz. unfold deallocate_framework in Hz.
  apply bind_Some in Hz as (fw & Hfw & Hz).
  destruct (negb (active fw)); [by simplify_eq|].
  apply bind_Some in Hz as (sl' & Hsl' & Hz).
  apply bind_Some in Hz as (mt & Hmt & Hz).
  destruct (negb (map_contains _ s)); [|by simplify_eq].
  destruct (negb (bool_decide _)); [|by simplify_eq].
  apply bind_Some in Hz as (filtered & Hflt & Hz).
  destruct filtered; [by simplify_eq|]. injection Hz as _ <- _.
  eapply sameTracking_trans; [exact Haz|done].
Qed.

Lemma _allocate_consistent a r :
  trackingConsistent a -> _allocate a = Some r -> trackingConsistent r.1.1.
Proof.
  intros Hwf H. unfold _allocate in H. simpl in H.
  destruct (paused a); [by injection H as <-|].
  apply bind_Some in H as (run & Hrun & H).
  apply bind_Some in H as ([d offers] & Hd & H). injection H as <-. simpl.
  apply __allocate_runInv in Hrun as (cands & _ & _ & Hinv & _).
  apply deallocate_sameTracking in Hd.
  eapply trackingConsistent_same; [|by apply Hinv].
  eapply sameTracking_trans; [exact Hd|done].
Qed.

End RunLoops.

(** ** The registry of roles *)

Section RegistryTheorems.
Context `{RA : ResourcesAlgebra} `{Env : !AllocatorEnv}.

Lemma isTracked_true a f role :
  isFrameworkTrackedUnderRole a f role = true <->
  exists fws, roles a !! role = Some fws /\ f ∈ fws.
Proof.
  unfold isFrameworkTrackedUnderRole.
  destruct (roles a !! role) as [fws|].
  - rewrite bool_decide_eq_true. split; [by exists fws|].
    by intros (? & [= <-] & ?).
  - split; [done|]. by intros (? & ? & _).
Qed.

(** X1. On an initialized allocator whose registry is consistent,
    [trackFrameworkUnderRole] aborts when the framework is already tracked
    under the role. Otherwise it returns, the registry stays consistent, the
    pair is tracked and every other pair is tracked exactly as before, and
    [untrackFrameworkUnderRole] for the pair then restores the state it
    started from. *)
Theorem trackFrameworkUnderRole_spec (a : Allocator) (f : FrameworkID)
    (role : string) :
  initialized a = true ->
  trackingConsistent a ->
  (isFrameworkTrackedUnderRole a f role = true ->
     trackFrameworkUnderRole a f role = None) /\
  (isFrameworkTrackedUnderRole a f role = false ->
     exists a',
       trackFrameworkUnderRole a f role = Some a' /\
       trackingConsistent a' /\
       (forall g r,
          isFrameworkTrackedUnderRole a' g r = true <->
          (g = f /\ r = role) \/
          isFrameworkTrackedUnderRole a g r = true) /\
       untrackFrameworkUnderRole a' f role = Some a).
Proof.
  intros Hi Hwf. split.
  - intros Ht. destruct (trackFrameworkUnderRole a f role) as [a'|] eqn:H;
      [|done].
    apply trackFrameworkUnderRole_untracked in H. congruence.
  - intros Hnot.
    destruct (trackFrameworkUnderRole_fresh a f role Hi Hwf Hnot)
      as (a' & Ha' & Hwf' & Hr).
    exists a'. split; [done|]. split; [done|]. split.
    + intros g r. rewrite !isTracked_true, Hr.
      destruct (decide (role = r)) as [<-|Hn].
      * rewrite lookup_insert_eq. split.
        -- intros (fws & [= <-] & [Hg%elem_of_singleton | Hg]%elem_of_union);
             [by left|right].
           destruct (roles a !! role) as [fws|]; [by exists fws|].
           by apply elem_of_empty in Hg.
        -- intros [[-> _] | (fws & Hfws & Hg)]; eexists; (split; [done|]).
           ++ apply elem_of_union_l. by apply elem_of_singleton.
           ++ rewrite Hfws. by apply elem_of_union_r.
      * rewrite lookup_insert_ne by done. split; [by right|].
        by intros [[_ ->] | ?].
    + by eapply track_untrack.
Qed.

(** X2. On an initialized allocator whose registry is consistent,
    [untrackFrameworkUnderRole] aborts when the framework is not tracked
    under the role. Otherwise it returns, the registry stays consistent, the
    pair is no longer tracked and every other pair is tracked exactly as
    before; the role keeps its entry, its framework sorter and its place in
    the role sorter exactly when another framework is still tracked under
    it. *)
Theorem untrackFrameworkUnderRole_spec (a : Allocator) (f : FrameworkID)
    (role : string) :
  initialized a = true ->
  trackingConsistent a ->
  (isFrameworkTrackedUnderRole a f role = false ->
     untrackFrameworkUnderRole a f role = None) /\
  (isFrameworkTrackedUnderRole a f role = true ->
     exists a',
       untrackFrameworkUnderRole a f role = Some a' /\
       trackingConsistent a' /\
       (forall g r,
          isFrameworkTrackedUnderRole a' g r = true <->
          ~ (g = f /\ r = role) /\
          isFrameworkTrackedUnderRole a g r = true) /\
       (map_contains (roles a') role = true <->
        exists g, g <> f /\ isFrameworkTrackedUnderRole a g role = true) /\
       map_contains (frameworkSorters a') role
         = map_contains (roles a') role /\
       sorter_contains (roleSorter a') role
         = map_contains (roles a') role).
Proof.
  intros Hi Hwf. split.
  - intros Hnot. unfold untrackFrameworkUnderRole. rewrite Hi. simpl.
    unfold isFrameworkTrackedUnderRole in Hnot.
    destruct (roles a !! role) as [fws|]; [|done]. simpl. by rewrite Hnot.
  - intros (fws & Hr & Hf)%isTracked_true.
    destruct (untrackFrameworkUnderRole_tracked a f role fws Hi Hwf Hr Hf)
      as (a' & Ha' & Hwf' & Hr').
    exists a'. split; [done|]. split; [done|].
    assert (forall g r,
              isFrameworkTrackedUnderRole a' g r = true <->
              ~ (g = f /\ r = role) /\
              isFrameworkTrackedUnderRole a g r = true) as Htr.
    { intros g r. rewrite !isTracked_true, Hr'.
      destruct (decide (role = r)) as [<-|Hn].
      - case_bool_decide as Hempty.
        + rewrite lookup_delete_eq. split; [by intros (? & ? & _)|].
          intros (Hne & fws' & Hfws' & Hg). simplify_eq.
          assert (g ∈ fws ∖ {[f]}) as Hin.
          { apply elem_of_difference. split; [done|].
            rewrite elem_of_singleton. intros ->. by apply Hne. }
          rewrite Hempty in Hin. by apply elem_of_empty in Hin.
        + rewrite lookup_insert_eq. split.
          * intros (? & [= <-] & [Hg Hgf]%elem_of_difference).
            rewrite elem_of_singleton in Hgf. split; [by intros [? _]|].
            by exists fws.
          * intros (Hne & fws' & Hfws' & Hg). simplify_eq.
            eexists. split; [done|]. apply elem_of_difference.
            split; [done|]. rewrite elem_of_singleton. intros ->.
            by apply Hne.
      - assert ((if bool_decide (fws ∖ {[f]} = ∅)
                 then delete role (roles a)
                 else <[role:=fws ∖ {[f]}]> (roles a)) !! r = roles a !! r)
          as ->.
        { case_bool_decide; [by rewrite lookup_delete_ne
                            |by rewrite lookup_insert_ne]. }
        split; [|by intros [_ ?]]. intros H. split; [|done].
        by intros [_ ->]. }
    split; [exact Htr|].
    assert (map_contains (roles a') role = true <->
            exists g, g <> f /\ isFrameworkTrackedUnderRole a g role = true)
      as Hrole.
    { rewrite map_contains_true. split.
      - intros [fws' Hfws']. destruct Hwf' as (_ & _ & Hne).
        destruct (set_choose_L fws' (Hne _ _ Hfws')) as [g Hg].
        assert (isFrameworkTrackedUnderRole a' g role = true) as Hg'
          by (apply isTracked_true; eauto).
        apply Htr in Hg' as [Hneq Hga]. exists g. split; [|done].
        intros ->. by apply Hneq.
      - intros (g & Hgf & Hg).
        assert (isFrameworkTrackedUnderRole a' g role = true) as Hg'
          by (apply Htr; split; [by intros [? _]|done]).
        apply isTracked_true in Hg' as (fws' & Hfws' & _). eauto. }
    split; [exact Hrole|].
    destruct Hwf' as (Hc & Hd & _). split.
    + unfold map_contains. apply bool_decide_ext.
      rewrite <- Hc. unfold sorterClients. by rewrite dom_fmap_L.
    + unfold sorter_contains, map_contains. apply bool_decide_ext.
      rewrite <- elem_of_dom. by rewrite Hd.
Qed.

End RegistryTheorems.

Section ConsistencyTheorems.
Context `{RA : ResourcesAlgebra} `{Env : !AllocatorEnv}.

(** X3. The consistency of the registry with the sorters holds after
    [initialize] and is kept by every call on frameworks that returns:
    [addFramework], [removeFramework], [activateFramework],
    [deactivateFramework], [suppressOffers] and [reviveOffers]. In a
    consistent state the framework sorters exist for exactly the tracked
    roles. *)
Theorem trackingConsistent_frameworks :
  (forall o, trackingConsistent (initialize o)) /\
  (forall a, trackingConsistent a ->
     dom (roles a) = dom (frameworkSorters a)) /\
  (forall a f i used act sup a',
     trackingConsistent a -> addFramework a f i used act sup = Some a' ->
     trackingConsistent a') /\
  (forall a f a',
     trackingConsistent a -> removeFramework a f = Some a' ->
     trackingConsistent a') /\
  (forall a f a',
     trackingConsistent a -> activateFramework a f = Some a' ->
     trackingConsistent a') /\
  (forall a f a',
     trackingConsistent a -> deactivateFramework a f = Some a' ->
     trackingConsistent a') /\
  (forall a f rs a',
     trackingConsistent a -> suppressOffers a f rs = Some a' ->
     trackingConsistent a') /\
  (forall a f rs a',
     trackingConsistent a -> reviveOffers a f rs = Some a' ->
     trackingConsistent a').
Proof.
  split_and!.
  - apply initialize_consistent.
  - intros a (Hc & _ & _). rewrite <- Hc. unfold sorterClients.
    by rewrite dom_fmap_L.
  - intros a f i used act sup a'. apply addFramework_consistent.
  - intros a f a'. apply removeFramework_consistent.
  - intros a f a' Hwf H. eapply trackingConsistent_same; [|exact Hwf].
    by eapply activateFramework_sameTracking.
  - intros a f a' Hwf H. eapply trackingConsistent_same; [|exact Hwf].
    by eapply deactivateFramework_sameTracking.
  - intros a f rs a' Hwf H. eapply trackingConsistent_same; [|exact Hwf].
    by eapply suppressOffers_sameTracking.
  - intros a f rs a' Hwf H. eapply trackingConsistent_same; [|exact Hwf].
    by eapply reviveOffers_sameTracking.
Qed.

(** X4. The consistency of the registry with the sorters is kept by every
    call on agents, resources and quota that returns, and by an allocation
    run: [addSlave], [removeSlave], [addResourceProvider],
    [updateAvailable], [updateUnavailability], [updateInverseOffer],
    [recoverResources], [setQuota], [removeQuota] and [_allocate]. *)
Theorem trackingConsistent_agents :
  (forall a s i c u t used a',
     trackingConsistent a -> addSlave a s i c u t used = Some a' ->
     trackingConsistent a') /\
  (forall a s a',
     trackingConsistent a -> removeSlave a s = Some a' ->
     trackingConsistent a') /\
  (forall a s t used a',
     trackingConsistent a -> addResourceProvider a s t used = Some a' ->
     trackingConsistent a') /\
  (forall a s ops res a',
     trackingConsistent a -> updateAvailable a s ops = Some (res, a') ->
     trackingConsistent a') /\
  (forall a s u a',
     trackingConsistent a -> updateUnavailability a s u = Some a' ->
     trackingConsistent a') /\
  (forall a s f st flt a',
     trackingConsistent a -> updateInverseOffer a s f st flt = Some a' ->
     trackingConsistent a') /\
  (forall a f s R flt a',
     trackingConsistent a -> recoverResources a f s R flt = Some a' ->
     trackingConsistent a') /\
  (forall a role q a',
     trackingConsistent a -> setQuota a role q = Some a' ->
     trackingConsistent a') /\
  (forall a role a',
     trackingConsistent a -> removeQuota a role = Some a' ->
     trackingConsistent a') /\
  (forall a r,
     trackingConsistent a -> _allocate a = Some r ->
     trackingConsistent r.1.1).
Proof.
  split_and!.
  - intros a s i c u t used a'. apply addSlave_consistent.
  - intros a s a' Hwf H. eapply trackingConsistent_same; [|exact Hwf].
    by eapply removeSlave_sameTracking.
  - intros a s t used a'. apply addResourceProvider_consistent.
  - intros a s ops res a' Hwf H. eapply trackingConsistent_same; [|exact Hwf].
    by eapply updateAvailable_sameTracking.
  - intros a s u a' Hwf H. eapply trackingConsistent_same; [|exact Hwf].
    by eapply updateUnavailability_sameTracking.
  - intros a s f st flt a' Hwf H.
    eapply trackingConsistent_same; [|exact Hwf].
    by eapply updateInverseOffer_sameTracking.
  - intros a f s R flt a'. apply recoverResources_consistent.
  - intros a role q a' Hwf H. eapply trackingConsistent_same; [|exact Hwf].
    by eapply setQuota_sameTracking.
  - intros a role a' Hwf H. eapply trackingConsistent_same; [|exact Hwf].
    by eapply removeQuota_sameTracking.
  - intros a r. apply _allocate_consistent.
Qed.

End ConsistencyTheorems.

(** ** Offers, suppression and revival *)

Section OffersTheorems.
Context `{RA : ResourcesAlgebra} `{Env : !AllocatorEnv}.

Lemma offerMade_offeredTo run f role s :
  run_offers run = map_to_list (offerable (run_locals run)) ->
  offerMade run f role s ->
  offeredTo (offerable (run_locals run)) f role s.
Proof.
  intros Hoffers (m & ms & Hin & Hm & Hs). rewrite Hoffers in Hin.
  apply elem_of_map_to_list in Hin. by exists m, ms.
Qed.

(** X5. When the shuffle of the agents is a permutation, every offer of an
    allocation run goes to a framework that was an active client of the
    framework sorter of the offered role when the run started, and is for an
    agent that was then an allocation candidate, known, activated and
    whitelisted. *)
Theorem __allocate_offers (a : Allocator) (run : AllocationRun) :
  (forall l, shuffle_slaves l ≡ₚ l) ->
  __allocate a = Some run ->
  forall f role s,
    offerMade run f role s ->
    activeIn a role f = true /\ eligibleAgent a s.
Proof.
  intros Hshuffle Hrun f role s Hmade.
  apply __allocate_runInv in Hrun as (cands & Hc & Hoffers & _ & _ & Hoff).
  apply (offerMade_offeredTo _ _ _ _ Hoffers) in Hmade.
  apply Hoff in Hmade as [Hact Hs]. split; [done|].
  rewrite Hshuffle in Hs. by apply (candidateSlaves_spec a cands Hc).
Qed.

Lemma client_isActive_deactivate S c g :
  client_isActive (sorter_deactivate S c) g
  = if decide (c = g) then false else client_isActive S g.
Proof.
  unfold client_isActive, sorter_deactivate. simpl. rewrite lookup_alter.
  destruct (decide (c = g)) as [<-|Hn]; [|done].
  by destruct (clients S !! c).
Qed.

Lemma client_isActive_activate S c g :
  client_isActive (sorter_activate S c) g
  = if decide (c = g) then sorter_contains S c else client_isActive S g.
Proof.
  unfold client_isActive, sorter_activate, sorter_contains. simpl.
  rewrite lookup_alter.
  destruct (decide (c = g)) as [<-|Hn]; [|done].
  by destruct (clients S !! c).
Qed.

(** What [suppressRoles] does, for the roles [rs]. *)
Lemma suppressRoles_effect a f rs a' fw :
  frameworks a !! f = Some fw ->
  suppressRoles a f rs = Some a' ->
  (forall role, role ∈ rs -> activeIn a' role f = false) /\
  (forall role g, g <> f \/ role ∉ rs ->
     activeIn a' role g = activeIn a role g) /\
  frameworks a' =
    (if bool_decide (rs = ∅) then frameworks a
     else <[f := fw_setSuppressedRoles fw (suppressedRoles fw ∪ rs)]>
            (frameworks a)).
Proof.
  intros Hfw H. unfold suppressRoles in H.
  destruct (initialized a); [|done]. simpl in H.
  destruct (map_contains (frameworks a) f); [|done]. simpl in H.
  pose (J := fun (seen : list string) (b : Allocator) =>
    (forall role, role ∈ seen -> activeIn b role f = false) /\
    (forall role g, g <> f \/ role ∉ seen ->
       activeIn b role g = activeIn a role g) /\
    frameworks b =
      (if bool_decide (seen = []) then frameworks a
       else <[f := fw_setSuppressedRoles fw
                     (suppressedRoles fw ∪ list_to_set seen)]>
              (frameworks a))).
  assert (J (elements rs) a') as (Hoff & Hsame & Hfws).
  { eapply (foreach_accum J); [| | exact H].
    - intros seen role b c b' (Hoff & Hsame & Hfws) Hb.
      apply bind_Some in Hb as (fs & Hfs & Hb).
      apply bind_Some in Hb as (fwb & Hfwb & Hb). injection Hb as <- <-.
      split; [done|]. split_and!.
      + intros r [Hr | ->%list_elem_of_singleton]%elem_of_app;
          unfold activeIn; simpl.
        * destruct (decide (role = r)) as [<-|Hn].
          -- rewrite lookup_insert_eq, client_isActive_deactivate.
             by rewrite decide_True.
          -- rewrite lookup_insert_ne by done. by apply Hoff.
        * rewrite lookup_insert_eq, client_isActive_deactivate.
          by rewrite decide_True.
      + intros r g Hcond. unfold activeIn at 1. simpl.
        destruct (decide (role = r)) as [<-|Hn].
        * rewrite lookup_insert_eq, client_isActive_deactivate.
          destruct Hcond as [Hg | Hr].
          -- rewrite decide_False by done.
             rewrite <- (Hsame role g) by (by left).
             unfold activeIn. by rewrite Hfs.
          -- exfalso. apply Hr, elem_of_app. right.
             by apply list_elem_of_singleton.
        * rewrite lookup_insert_ne by done. apply Hsame.
          destruct Hcond as [Hg | Hr]; [by left|right].
          intros Hin. apply Hr, elem_of_app. by left.
      + simpl. rewrite bool_decide_eq_false_2 by (by destruct seen).
        rewrite Hfws in Hfwb |- *. case_bool_decide as Hseen.
        * subst seen. simplify_eq. f_equal. unfold fw_setSuppressedRoles.
          simpl. f_equal. rewrite (union_empty_r_L {[role]}).
          apply (comm_L (∪)).
        * rewrite lookup_insert_eq in Hfwb. injection Hfwb as <-.
          rewrite insert_insert_eq. f_equal. unfold fw_setSuppressedRoles.
          simpl. f_equal. rewrite list_to_set_app_L. simpl.
          rewrite (union_empty_r_L {[role]}).
          rewrite (comm_L (∪) {[role]}). by rewrite (assoc_L (∪)).
    - split_and!; [by intros role ?%elem_of_nil | done | done]. }
  split_and!.
  - intros role Hr. apply Hoff. by apply elem_of_elements.
  - intros role g Hcond. apply Hsame.
    destruct Hcond as [Hg | Hr]; [by left|right].
    by rewrite elem_of_elements.
  - rewrite Hfws, list_to_set_elements_L.
    assert (bool_decide (elements rs = []) = bool_decide (rs = ∅)) as ->;
      [|done].
    apply bool_decide_ext. rewrite elements_empty_iff.
    by rewrite leibniz_equiv_iff.
Qed.

Lemma foreach_total {A S : Type} (P : S -> Prop) (l : list A)
    (body : A -> S -> option (LoopCtl * S)) :
  (forall x s, x ∈ l -> P s ->
     exists s', body x s = Some (Continue, s') /\ P s') ->
  forall s, P s -> exists s', foreach l body s = Some s' /\ P s'.
Proof.
  induction l as [|x l IH]; intros Hbody s Hs; simpl.
  - by exists s.
  - destruct (Hbody x s) as (s1 & -> & Hs1); [by left | done |].
    apply IH; [|done]. intros y t Hy. apply Hbody. by right.
Qed.

(** The part of the state that [suppressRoles] and [unsuppressRoles] leave
    alone. *)
Lemma suppressRoles_frame a f rs a' :
  suppressRoles a f rs = Some a' ->
  slaves a' = slaves a /\ paused a' = paused a /\
  allocationCandidates a' = allocationCandidates a /\
  allocation_isPending a' = allocation_isPending a /\
  initialized a' = initialized a /\
  dom (frameworkSorters a') = dom (frameworkSorters a).
Proof.
  intros H. unfold suppressRoles in H.
  destruct (initialized a) eqn:Hi; [|done]. simpl in H.
  destruct (map_contains (frameworks a) f); [|done]. simpl in H.
  eapply (foreach_inv (fun b =>
    slaves b = slaves a /\ paused b = paused a /\
    allocationCandidates b = allocationCandidates a /\
    allocation_isPending b = allocation_isPending a /\
    initialized b = true /\
    dom (frameworkSorters b) = dom (frameworkSorters a)));
    [| exact H | done].
  intros role b c b' _ Hb (H1 & H2 & H3 & H4 & H5 & H6).
  apply bind_Some in Hb as (fs & Hfs & Hb).
  apply bind_Some in Hb as (fwb & Hfwb & Hb). injection Hb as _ <-.
  simpl. split_and!; try done.
  rewrite dom_insert_L, H6. apply elem_of_dom_2 in Hfs.
  rewrite <- H6. set_members.
Qed.

Lemma unsuppressRoles_frame a f rs a' :
  unsuppressRoles a f rs = Some a' ->
  slaves a' = slaves a /\ paused a' = paused a /\
  allocationCandidates a' = allocationCandidates a /\
  allocation_isPending a' = allocation_isPending a /\
  initialized a' = initialized a /\
  dom (frameworkSorters a') = dom (frameworkSorters a).
Proof.
  intros H. unfold unsuppressRoles in H.
  destruct (initialized a) eqn:Hi; [|done]. simpl in H.
  destruct (map_contains (frameworks a) f); [|done]. simpl in H.
  eapply (foreach_inv (fun b =>
    slaves b = slaves a /\ paused b = paused a /\
    allocationCandidates b = allocationCandidates a /\
    allocation_isPending b = allocation_isPending a /\
    initialized b = true /\
    dom (frameworkSorters b) = dom (frameworkSorters a)));
    [| exact H | done].
  intros role b c b' _ Hb (H1 & H2 & H3 & H4 & H5 & H6).
  apply bind_Some in Hb as (fs & Hfs & Hb).
  apply bind_Some in Hb as (fwb & Hfwb & Hb). injection Hb as _ <-.
  simpl. split_and!; try done.
  rewrite dom_insert_L, H6. apply elem_of_dom_2 in Hfs.
  rewrite <- H6. set_members.
Qed.

(** [suppressRoles] returns exactly when every role has a framework
    sorter. *)
Lemma suppressRoles_returns a f rs :
  initialized a = true -> is_Some (frameworks a !! f) ->
  (is_Some (suppressRoles a f rs) <->
   forall role, role ∈ rs -> is_Some (frameworkSorters a !! role)).
Proof.
  intros Hi Hf. split.
  - intros [a' H] role Hrole. pose proof H as H0.
    unfold suppressRoles in H0. rewrite Hi in H0. simpl in H0.
    destruct (map_contains (frameworks a) f); [|done]. simpl in H0.
    apply elem_of_elements in Hrole. revert Hrole.
    cut (forall r, r ∈ elements rs -> r ∈ dom (frameworkSorters a));
      [intros Hall ?; by apply elem_of_dom, Hall|].
    eapply (foreach_accum (fun seen b =>
      dom (frameworkSorters b) = dom (frameworkSorters a) /\
      forall r, r ∈ seen -> r ∈ dom (frameworkSorters a))); [| | exact H0].
    + intros seen r b c b' [Hd Hseen] Hb.
      apply bind_Some in Hb as (fs & Hfs & Hb).
      apply bind_Some in Hb as (fwb & Hfwb & Hb). injection Hb as <- <-.
      split; [done|]. apply elem_of_dom_2 in Hfs. simpl. split.
      * rewrite dom_insert_L, <- Hd. set_members.
      * intros r' [?| ->%list_elem_of_singleton]%elem_of_app; [by apply Hseen|].
        by rewrite <- Hd.
    + split; [done|]. by intros r ?%elem_of_nil.
  - intros Hall. unfold suppressRoles. rewrite Hi. simpl.
    assert (map_contains (frameworks a) f = true) as ->
      by (by apply map_contains_true).
    simpl.
    destruct (foreach_total
      (fun b => is_Some (frameworks b !! f) /\
                dom (frameworkSorters b) = dom (frameworkSorters a))
      (elements rs)
      (fun role b =>
         fs ← frameworkSorters b !! role;
         framework ← frameworks b !! f;
         Some (Continue,
               set_frameworks
                 (set_frameworkSorters b
                    (<[role := sorter_deactivate fs f]> (frameworkSorters b)))
                 (<[f := fw_setSuppressedRoles framework
                           ({[role]} ∪ suppressedRoles framework)]>
                    (frameworks b))))) with (s := a) as (a' & Ha' & _);
      [| done | by rewrite Ha'].
    intros role b Hrole%elem_of_elements [[fwb Hfwb] Hd].
    destruct (Hall role Hrole) as [fs0 Hfs0].
    assert (is_Some (frameworkSorters b !! role)) as [fs Hfs].
    { apply elem_of_dom. rewrite Hd. by apply elem_of_dom_2 in Hfs0. }
    rewrite Hfs, Hfwb. simpl. eexists. split; [done|]. simpl. split.
    + rewrite lookup_insert_eq. eauto.
    + rewrite dom_insert_L, <- Hd. apply elem_of_dom_2 in Hfs. set_members.
Qed.

(** X6. [suppressOffers] on an initialized allocator, for a known
    framework; an empty set of roles stands for all roles of the framework.
    The call aborts unless every role concerned has a framework sorter, and
    returns otherwise (the calls on a sorter always return in the sorter
    model). When it returns, the framework is inactive in the sorter of
    each of these roles and hence absent from its sort order; every other
    framework, and the framework itself in other roles, is as active as
    before; the roles are added to the suppressed roles of the framework;
    and the next allocation run offers the framework nothing for
    these roles. *)
Theorem suppressOffers_spec (a : Allocator) (f : FrameworkID)
    (rs : gset string) (fw : Framework) :
  initialized a = true ->
  frameworks a !! f = Some fw ->
  let rs' := if bool_decide (rs = ∅) then fw_roles fw else rs in
  (is_Some (suppressOffers a f rs) <->
   forall role, role ∈ rs' -> is_Some (frameworkSorters a !! role)) /\
  forall a', suppressOffers a f rs = Some a' ->
    (forall role, role ∈ rs' ->
       activeIn a' role f = false /\
       forall fs', frameworkSorters a' !! role = Some fs' -> f ∉ sort fs') /\
    (forall role g, g <> f \/ role ∉ rs' ->
       activeIn a' role g = activeIn a role g) /\
    (exists fw',
       frameworks a' !! f = Some fw' /\
       suppressedRoles fw' = suppressedRoles fw ∪ rs' /\
       fw_roles fw' = fw_roles fw /\ active fw' = active fw /\
       offerFilters fw' = offerFilters fw) /\
    (forall g, g <> f -> frameworks a' !! g = frameworks a !! g) /\
    (forall run role s, role ∈ rs' -> __allocate a' = Some run ->
       ~ offerMade run f role s).
Proof.
  intros Hi Hfw rs'.
  assert (suppressOffers a f rs = suppressRoles a f rs') as Heq.
  { unfold suppressOffers. rewrite Hi, Hfw. done. }
  rewrite Heq. split; [by apply suppressRoles_returns|].
  intros a' H.
  destruct (suppressRoles_effect a f rs' a' fw Hfw H) as (Hoff & Hsame & Hfws).
  split_and!.
  - intros role Hrole. split; [by apply Hoff|].
    intros fs' Hfs' Hin%sort_active.
    specialize (Hoff role Hrole). unfold activeIn in Hoff.
    rewrite Hfs' in Hoff. congruence.
  - exact Hsame.
  - rewrite Hfws. case_bool_decide as Hempty.
    + exists fw. rewrite Hempty. by rewrite (right_id_L ∅ (∪)).
    + eexists. rewrite lookup_insert_eq. done.
  - intros g Hg. rewrite Hfws. case_bool_decide; [done|].
    by rewrite lookup_insert_ne.
  - intros run role s Hrole Hrun Hmade.
    apply __allocate_runInv in Hrun as (cands & _ & Hoffers & _ & _ & Hinv).
    apply (offerMade_offeredTo _ _ _ _ Hoffers) in Hmade.
    apply Hinv in Hmade as [Hact _]. rewrite (Hoff role Hrole) in Hact.
    done.
Qed.

End OffersTheorems.

Section ReviveTheorems.
Context `{RA : ResourcesAlgebra} `{Env : !AllocatorEnv}.

Lemma unsuppressRoles_effect a f rs a' fw :
  frameworks a !! f = Some fw ->
  unsuppressRoles a f rs = Some a' ->
  (forall role fs, role ∈ rs -> frameworkSorters a !! role = Some fs ->
     activeIn a' role f = sorter_contains fs f) /\
  (forall role g, g <> f \/ role ∉ rs ->
     activeIn a' role g = activeIn a role g) /\
  frameworks a' =
    (if bool_decide (rs = ∅) then frameworks a
     else <[f := fw_setSuppressedRoles fw (suppressedRoles fw ∖ rs)]>
            (frameworks a)).
Proof.
  intros Hfw H. unfold unsuppressRoles in H.
  destruct (initialized a); [|done]. simpl in H.
  destruct (map_contains (frameworks a) f); [|done]. simpl in H.
  pose (J := fun (seen : list string) (b : Allocator) =>
    (forall role fs, role ∈ seen -> frameworkSorters a !! role = Some fs ->
       activeIn b role f = sorter_contains fs f) /\
    (forall role g, g <> f \/ role ∉ seen ->
       activeIn b role g = activeIn a role g) /\
    (forall role, role ∉ seen ->
       frameworkSorters b !! role = frameworkSorters a !! role) /\
    frameworks b =
      (if bool_decide (seen = []) then frameworks a
       else <[f := fw_setSuppressedRoles fw
                     (suppressedRoles fw ∖ list_to_set seen)]>
              (frameworks a))).
  assert (NoDup (elements rs)) as Hnd by apply NoDup_elements.
  remember (elements rs) as l eqn:Hl.
  assert (J l a' /\ True) as [(Hon & Hsame & _ & Hfws) _].
  { split; [|done].
    assert (forall l0 seen, NoDup (seen ++ l0) -> forall b, J seen b ->
              foreach l0 (fun role a =>
                fs ← frameworkSorters a !! role;
                framework ← frameworks a !! f;
                Some (Continue,
                      set_frameworks
                        (set_frameworkSorters a
                           (<[role := sorter_activate fs f]>
                              (frameworkSorters a)))
                        (<[f := fw_setSuppressedRoles framework
                                  (suppressedRoles framework ∖ {[role]})]>
                           (frameworks a)))) b = Some a' ->
              J (seen ++ l0) a') as Hgen.
    { clear H Hnd. intros l0.
      induction l0 as [|role l0 IH]; intros seen Hnd b HJ Hrun;
        simpl in Hrun.
      - injection Hrun as <-. by rewrite app_nil_r.
      - apply bind_Some in Hrun as ([c b1] & Hb & Hrun).
        apply bind_Some in Hb as (fs & Hfs & Hb).
        apply bind_Some in Hb as (fwb & Hfwb & Hb). injection Hb as <- <-.
        rewrite (assoc_L (++) seen [role] l0
                   : seen ++ role :: l0 = (seen ++ [role]) ++ l0) in Hnd |- *
          by done.
        eapply IH; [exact Hnd | | exact Hrun].
        destruct HJ as (Hon & Hsame & Hsort & Hfws).
        assert (role ∉ seen) as Hfresh.
        { apply NoDup_app in Hnd as (Hnd & _ & _).
          apply NoDup_app in Hnd as (_ & Hdisj & _).
          intros Hin. apply (Hdisj role Hin). by apply list_elem_of_singleton. }
        split_and!.
        + intros r fs0 [Hr | ->%list_elem_of_singleton]%elem_of_app Hfs0;
            unfold activeIn; simpl.
          * destruct (decide (role = r)) as [<-|Hn]; [done|].
            rewrite lookup_insert_ne by done. by apply Hon.
          * rewrite lookup_insert_eq, client_isActive_activate.
            rewrite decide_True by done.
            rewrite (Hsort role Hfresh) in Hfs. by simplify_eq.
        + intros r g Hcond. unfold activeIn at 1. simpl.
          destruct (decide (role = r)) as [<-|Hn].
          * rewrite lookup_insert_eq, client_isActive_activate.
            destruct Hcond as [Hg | Hr].
            -- rewrite decide_False by done.
               rewrite <- (Hsame role g) by (by left).
               unfold activeIn. by rewrite Hfs.
            -- exfalso. apply Hr, elem_of_app. right.
               by apply list_elem_of_singleton.
          * rewrite lookup_insert_ne by done. apply Hsame.
            destruct Hcond as [Hg | Hr]; [by left|right].
            intros Hin. apply Hr, elem_of_app. by left.
        + intros r Hr. simpl.
          rewrite lookup_insert_ne.
          * apply Hsort. intros Hin. apply Hr, elem_of_app. by left.
          * intros ->. apply Hr, elem_of_app. right.
            by apply list_elem_of_singleton.
        + simpl. rewrite bool_decide_eq_false_2 by (by destruct seen).
          rewrite Hfws in Hfwb |- *. case_bool_decide as Hseen.
          * subst seen. simplify_eq. f_equal. unfold fw_setSuppressedRoles.
            simpl. f_equal. by rewrite (union_empty_r_L {[role]}).
          * rewrite lookup_insert_eq in Hfwb. injection Hfwb as <-.
            rewrite insert_insert_eq. f_equal. unfold fw_setSuppressedRoles.
            simpl. f_equal. rewrite list_to_set_app_L. simpl.
            rewrite (union_empty_r_L {[role]}). set_members. }
    apply (Hgen l [] Hnd a); [|exact H].
    split_and!; [by intros role fs ?%elem_of_nil | done | done | done]. }
  subst l. split_and!.
  - intros role fs Hr. apply Hon. by apply elem_of_elements.
  - intros role g Hcond. apply Hsame.
    destruct Hcond as [Hg | Hr]; [by left|right].
    by rewrite elem_of_elements.
  - rewrite Hfws, list_to_set_elements_L.
    assert (bool_decide (elements rs = []) = bool_decide (rs = ∅)) as ->;
      [|done].
    apply bool_decide_ext. rewrite elements_empty_iff.
    by rewrite leibniz_equiv_iff.
Qed.

Lemma unsuppressRoles_returns a f rs :
  initialized a = true -> is_Some (frameworks a !! f) ->
  (is_Some (unsuppressRoles a f rs) <->
   forall role, role ∈ rs -> is_Some (frameworkSorters a !! role)).
Proof.
  intros Hi Hf. split.
  - intros [a' H] role Hrole. pose proof H as H0.
    unfold unsuppressRoles in H0. rewrite Hi in H0. simpl in H0.
    destruct (map_contains (frameworks a) f); [|done]. simpl in H0.
    apply elem_of_elements in Hrole. revert Hrole.
    cut (forall r, r ∈ elements rs -> r ∈ dom (frameworkSorters a));
      [intros Hall ?; by apply elem_of_dom, Hall|].
    eapply (foreach_accum (fun seen b =>
      dom (frameworkSorters b) = dom (frameworkSorters a) /\
      forall r, r ∈ seen -> r ∈ dom (frameworkSorters a))); [| | exact H0].
    + intros seen r b c b' [Hd Hseen] Hb.
      apply bind_Some in Hb as (fs & Hfs & Hb).
      apply bind_Some in Hb as (fwb & Hfwb & Hb). injection Hb as <- <-.
      split; [done|]. apply elem_of_dom_2 in Hfs. simpl. split.
      * rewrite dom_insert_L, <- Hd. set_members.
      * intros r' [?| ->%list_elem_of_singleton]%elem_of_app; [by apply Hseen|].
        by rewrite <- Hd.
    + split; [done|]. by intros r ?%elem_of_nil.
  - intros Hall. unfold unsuppressRoles. rewrite Hi. simpl.
    assert (map_contains (frameworks a) f = true) as ->
      by (by apply map_contains_true).
    simpl.
    destruct (foreach_total
      (fun b => is_Some (frameworks b !! f) /\
                dom (frameworkSorters b) = dom (frameworkSorters a))
      (elements rs)
      (fun role b =>
         fs ← frameworkSorters b !! role;
         framework ← frameworks b !! f;
         Some (Continue,
               set_frameworks
                 (set_frameworkSorters b
                    (<[role := sorter_activate fs f]> (frameworkSorters b)))
                 (<[f := fw_setSuppressedRoles framework
                           (suppressedRoles framework ∖ {[role]})]>
                    (frameworks b))))) with (s := a) as (a' & Ha' & _);
      [| done | by rewrite Ha'].
    intros role b Hrole%elem_of_elements [[fwb Hfwb] Hd].
    destruct (Hall role Hrole) as [fs0 Hfs0].
    assert (is_Some (frameworkSorters b !! role)) as [fs Hfs].
    { apply elem_of_dom. rewrite Hd. by apply elem_of_dom_2 in Hfs0. }
    rewrite Hfs, Hfwb. simpl. eexists. split; [done|]. simpl. split.
    + rewrite lookup_insert_eq. eauto.
    + rewrite dom_insert_L, <- Hd. apply elem_of_dom_2 in Hfs. set_members.
Qed.

Lemma lookup_foldl_delete {V : Type} (l : list string) (m : gmap string V) r :
  foldl (fun m role => delete role m) m l !! r
  = if bool_decide (r ∈ l) then None else m !! r.
Proof.
  revert m. induction l as [|x l IH]; intros m; cbn [foldl].
  - rewrite bool_decide_eq_false_2; [done|]. by intros ?%elem_of_nil.
  - rewrite IH. destruct (decide (r = x)) as [->|Hn].
    + rewrite lookup_delete_eq.
      rewrite (bool_decide_eq_true_2 (x ∈ x :: l)) by (by left).
      by destruct (bool_decide (x ∈ l)).
    + rewrite lookup_delete_ne by done.
      assert (bool_decide (r ∈ l) = bool_decide (r ∈ x :: l)) as ->; [|done].
      apply bool_decide_ext.
      rewrite elem_of_cons. split; [by right|]. by intros [?|?].
Qed.

(** X7. [reviveOffers] on an initialized allocator, for a known framework;
    an empty set of roles stands for all roles of the framework. The call
    aborts unless every role concerned has a framework sorter, and returns
    otherwise (the calls on a sorter always return in the sorter model). When
    it returns, the framework has no inverse-offer filter left and no offer
    filter for these roles, while its offer filters for other roles stay;
    the roles are no longer suppressed; in the sorter of each of these roles
    the framework is active if it is a client; and unless the allocator is
    paused, every known agent is an allocation candidate of a run that is
    pending. *)
Theorem reviveOffers_spec (a : Allocator) (f : FrameworkID)
    (rs : gset string) (fw : Framework) :
  initialized a = true ->
  frameworks a !! f = Some fw ->
  let rs' := if bool_decide (rs = ∅) then fw_roles fw else rs in
  (is_Some (reviveOffers a f rs) <->
   forall role, role ∈ rs' -> is_Some (frameworkSorters a !! role)) /\
  forall a', reviveOffers a f rs = Some a' ->
    (exists fw',
       frameworks a' !! f = Some fw' /\
       inverseOfferFilters fw' = ∅ /\
       (forall role s, role ∈ rs' -> storedOfferFilters fw' role s = []) /\
       (forall role, role ∉ rs' ->
          offerFilters fw' !! role = offerFilters fw !! role) /\
       suppressedRoles fw' = suppressedRoles fw ∖ rs' /\
       fw_roles fw' = fw_roles fw /\ active fw' = active fw) /\
    (forall role fs, role ∈ rs' -> frameworkSorters a !! role = Some fs ->
       activeIn a' role f = sorter_contains fs f) /\
    (paused a = false ->
       allocationCandidates a' = allocationCandidates a ∪ dom (slaves a) /\
       allocation_isPending a' = true) /\
    (paused a = true ->
       allocationCandidates a' = allocationCandidates a /\
       allocation_isPending a' = allocation_isPending a).
Proof.
  intros Hi Hfw rs'.
  pose (fw1 := fw_setOfferFilters (fw_setInverseOfferFilters fw ∅)
                 (foldl (fun m role => delete role m) (offerFilters fw)
                    (elements rs'))).
  pose (a1 := set_frameworks a (<[f := fw1]> (frameworks a))).
  assert (reviveOffers a f rs
          = a2 ← unsuppressRoles a1 f rs'; Some (allocateAll a2)) as Heq.
  { unfold reviveOffers. rewrite Hi, Hfw. done. }
  assert (frameworks a1 !! f = Some fw1) as Hfw1
    by apply lookup_insert_eq.
  rewrite Heq. split.
  - etrans; [|apply (unsuppressRoles_returns a1 f rs' Hi); eauto].
    split.
    + intros [a' H]. apply bind_Some in H as (a2 & H2 & _). eauto.
    + intros [a2 H2]. rewrite H2. simpl. eauto.
  - intros a' H. apply bind_Some in H as (a2 & H2 & H). injection H as <-.
    destruct (unsuppressRoles_effect a1 f rs' a2 fw1 Hfw1 H2)
      as (Hon & Hsame & Hfws).
    destruct (unsuppressRoles_frame a1 f rs' a2 H2)
      as (Hsl & Hp & Hcand & Hpend & _ & _).
    assert (frameworks (allocateAll a2) = frameworks a2
            /\ frameworkSorters (allocateAll a2) = frameworkSorters a2)
      as [Hfa Hsa].
    { unfold allocateAll, allocate. destruct (paused a2); [done|].
      simpl. by destruct (allocation_isPending a2). }
    split_and!.
    + rewrite Hfa, Hfws.
      assert (exists fw', (if bool_decide (rs' = ∅) then frameworks a1
                else <[f:=fw_setSuppressedRoles fw1
                            (suppressedRoles fw1 ∖ rs')]> (frameworks a1))
               !! f = Some fw' /\
              offerFilters fw' = offerFilters fw1 /\
              inverseOfferFilters fw' = ∅ /\
              suppressedRoles fw' = suppressedRoles fw ∖ rs' /\
              fw_roles fw' = fw_roles fw /\ active fw' = active fw)
        as (fw' & Hfw' & Ho & Hio & Hsup & Hro & Hac).
      { case_bool_decide as Hempty.
        - exists fw1. split; [done|]. split_and!; try done. simpl.
          rewrite Hempty. by rewrite difference_empty_L.
        - eexists. rewrite lookup_insert_eq. done. }
      exists fw'. split; [done|]. split; [done|]. split_and!; try done.
      * intros role s Hrole. unfold storedOfferFilters. rewrite Ho. simpl.
        rewrite lookup_foldl_delete.
        rewrite bool_decide_eq_true_2 by (by apply elem_of_elements). done.
      * intros role Hrole. rewrite Ho. simpl. rewrite lookup_foldl_delete.
        rewrite bool_decide_eq_false_2; [done|]. by rewrite elem_of_elements.
    + intros role fs Hrole Hfs. unfold activeIn. rewrite Hsa.
      by apply (Hon role fs Hrole).
    + intros Hnp. unfold allocateAll, allocate. rewrite Hp. simpl.
      rewrite Hnp. simpl. rewrite Hcand, Hsl. simpl.
      by destruct (allocation_isPending a2) eqn:Hpd; simpl; rewrite ?Hpd.
    + intros Hpaused. unfold allocateAll, allocate. rewrite Hp. simpl.
      rewrite Hpaused. done.
Qed.

End ReviveTheorems.

(** ** Agents *)

Section AgentTheorems.
Context `{RA : ResourcesAlgebra} `{Env : !AllocatorEnv}.

Lemma removeFilters_frameworks a s a' :
  removeFilters a s = Some a' ->
  slaves a' = slaves a /\
  allocationCandidates a' = allocationCandidates a /\
  roleSorter a' = roleSorter a /\ quotaRoleSorter a' = quotaRoleSorter a /\
  frameworkSorters a' = frameworkSorters a /\
  forall f,
    frameworks a' !! f =
    (fun fw => fw_setOfferFilters
                 (fw_setInverseOfferFilters fw
                    (delete s (inverseOfferFilters fw)))
                 (delete s <$> offerFilters fw)) <$> frameworks a !! f.
Proof.
  intros H. unfold removeFilters in H.
  destruct (initialized a); [|done]. injection H as <-. simpl.
  split_and!; try done. intros f. by rewrite lookup_fmap.
Qed.

Lemma storedOfferFilters_removed (fw : Framework) s role s' :
  storedOfferFilters
    (fw_setOfferFilters
       (fw_setInverseOfferFilters fw (delete s (inverseOfferFilters fw)))
       (delete s <$> offerFilters fw)) role s'
  = if decide (s = s') then [] else storedOfferFilters fw role s'.
Proof.
  unfold storedOfferFilters. simpl. rewrite lookup_fmap.
  destruct (offerFilters fw !! role) as [m|]; simpl.
  - destruct (decide (s = s')) as [<-|Hn].
    + by rewrite lookup_delete_eq.
    + by rewrite lookup_delete_ne.
  - by destruct (decide (s = s')).
Qed.

(** X8. [removeFilters] on an initialized allocator returns. Afterwards no
    framework stores an offer filter or an inverse-offer filter for the
    agent, the filters for every other agent are as before, and the agent
    is filtered for a framework and a role only by the two implicit
    capability filters. Agents, candidates and sorters are untouched. *)
Theorem removeFilters_spec (a : Allocator) (s : SlaveID) :
  initialized a = true ->
  exists a',
    removeFilters a s = Some a' /\
    slaves a' = slaves a /\
    allocationCandidates a' = allocationCandidates a /\
    dom (frameworks a') = dom (frameworks a) /\
    (forall f fw', frameworks a' !! f = Some fw' ->
       exists fw,
         frameworks a !! f = Some fw /\
         (forall role, storedOfferFilters fw' role s = []) /\
         inverseOfferFilters fw' !! s = None /\
         (forall role s', s' <> s ->
            storedOfferFilters fw' role s' = storedOfferFilters fw role s' /\
            inverseOfferFilters fw' !! s' = inverseOfferFilters fw !! s') /\
         fw_roles fw' = fw_roles fw /\ active fw' = active fw /\
         suppressedRoles fw' = suppressedRoles fw /\
         fw_capabilities fw' = fw_capabilities fw) /\
    (forall f role R fw sl,
       frameworks a !! f = Some fw -> slaves a !! s = Some sl ->
       isFiltered a' f role s R =
       Some (fc_multiRole (fw_capabilities fw) &&
               negb (sc_multiRole (slave_capabilities sl)) ||
             negb (sc_hierarchicalRole (slave_capabilities sl)) &&
               contains_slash role)).
Proof.
  intros Hi.
  destruct (removeFilters a s) as [a'|] eqn:H;
    [|unfold removeFilters in H; by rewrite Hi in H].
  destruct (removeFilters_frameworks a s a' H)
    as (Hsl & Hcand & _ & _ & _ & Hfws).
  exists a'. split; [done|]. split; [done|]. split; [done|]. split_and!.
  - apply set_eq. intros f. rewrite !elem_of_dom, Hfws.
    by rewrite fmap_is_Some.
  - intros f fw'. rewrite Hfws. intros Hfw'.
    destruct (frameworks a !! f) as [fw|]; [|done]. injection Hfw' as <-.
    exists fw. split; [done|]. split_and!; try done.
    + intros role. rewrite storedOfferFilters_removed. by rewrite decide_True.
    + simpl. apply lookup_delete_eq.
    + intros role s' Hs'. rewrite storedOfferFilters_removed.
      rewrite decide_False by done. split; [done|]. simpl.
      by rewrite lookup_delete_ne.
  - intros f role R fw sl Hfw Hs. unfold isFiltered.
    rewrite Hfws, Hfw, Hsl, Hs. simpl.
    destruct (fc_multiRole (fw_capabilities fw) && _); [done|].
    destruct (negb (sc_hierarchicalRole _) && _); [done|]. simpl.
    rewrite lookup_fmap. destruct (offerFilters fw !! role) as [m|]; [|done].
    simpl. by rewrite lookup_delete_eq.
Qed.

Lemma sorter_removeSlave_knows `{Laws : !ResourcesLaws} S s old :
  sorterKnows S s old ->
  sorterKnows (sorter_removeSlave S s old) s r_none.
Proof.
  unfold sorterKnows, sorter_removeSlave. intros Hold. rewrite Hold.
  destruct (r_empty old) eqn:Ho.
  - apply r_empty_none in Ho. by subst old.
  - rewrite r_minus_diag. simpl. by rewrite lookup_delete_eq.
Qed.

(** X9. [removeSlave] of a known agent, when it returns: the agent is gone
    from the agents and from the allocation candidates, no framework keeps
    an offer filter or an inverse-offer filter for it, and every sorter
    that recorded the agent's total records nothing for it any more; the
    other agents are untouched. Removing the agent again aborts, and when
    the shuffle of the agents is a permutation, a following allocation run
    offers nothing on the agent. *)
Theorem removeSlave_spec `{Laws : !ResourcesLaws} (a : Allocator)
    (s : SlaveID) (sl : Slave) (a' : Allocator) :
  slaves a !! s = Some sl ->
  removeSlave a s = Some a' ->
  slaves a' = delete s (slaves a) /\
  allocationCandidates a' = allocationCandidates a ∖ {[s]} /\
  (forall f fw', frameworks a' !! f = Some fw' ->
     (forall role, storedOfferFilters fw' role s = []) /\
     inverseOfferFilters fw' !! s = None) /\
  (sorterKnows (roleSorter a) s (total sl) ->
     sorterKnows (roleSorter a') s r_none) /\
  (forall role fs, frameworkSorters a !! role = Some fs ->
     sorterKnows fs s (total sl) ->
     exists fs', frameworkSorters a' !! role = Some fs' /\
                 sorterKnows fs' s r_none) /\
  (sorterKnows (quotaRoleSorter a) s (nonRevocable (total sl)) ->
     sorterKnows (quotaRoleSorter a') s r_none) /\
  removeSlave a' s = None /\
  ((forall l, shuffle_slaves l ≡ₚ l) ->
   forall run f role, __allocate a' = Some run -> ~ offerMade run f role s).
Proof.
  intros Hsl H. pose proof H as H0. unfold removeSlave in H0.
  destruct (initialized a) eqn:Hi; [|done]. simpl in H0.
  rewrite Hsl in H0. simpl in H0.
  apply bind_Some in H0 as (a4 & H4 & H0).
  destruct (untrackReservations_sorters _ _ _ H4) as (Hrs & Hqs & Hfs).
  pose proof (untrackReservations_outside _ _ _ H4)
    as (_ & _ & _ & Hsl4 & Hfw4 & _ & Hc4 & _).
  simpl in *.
  destruct (removeFilters_frameworks _ s a' H0)
    as (Hsl' & Hcand' & Hrs' & Hqs' & Hfs' & Hfws').
  simpl in *.
  assert (slaves a' = delete s (slaves a)) as Hslaves
    by (by rewrite Hsl', Hsl4).
  assert (allocationCandidates a' = allocationCandidates a ∖ {[s]}) as Hcands
    by (by rewrite Hcand', Hc4).
  split; [done|]. split; [done|]. split_and!.
  - intros f fw'. rewrite Hfws'. intros Hfw'.
    destruct (frameworks a4 !! f) as [fw|]; [|done]. injection Hfw' as <-.
    split.
    + intros role. rewrite storedOfferFilters_removed. by rewrite decide_True.
    + simpl. apply lookup_delete_eq.
  - intros Hk. rewrite Hrs', Hrs. by apply sorter_removeSlave_knows.
  - intros role fs Hfsr Hk. rewrite Hfs', Hfs, lookup_fmap, Hfsr. simpl.
    eexists. split; [done|]. by apply sorter_removeSlave_knows.
  - intros Hk. rewrite Hqs', Hqs. by apply sorter_removeSlave_knows.
  - unfold removeSlave. rewrite Hslaves, lookup_delete_eq.
    by destruct (initialized a').
  - intros Hshuffle run f role Hrun Hmade.
    apply __allocate_runInv in Hrun as (cands & Hc & Hoffers & _ & _ & Hinv).
    apply (offerMade_offeredTo _ _ _ _ Hoffers) in Hmade.
    apply Hinv in Hmade as [_ Hs]. rewrite Hshuffle in Hs.
    apply (candidateSlaves_spec a' cands Hc) in Hs as [Hs _].
    rewrite Hcands in Hs. apply elem_of_difference in Hs as [_ Hs].
    apply Hs. by apply elem_of_singleton.
Qed.

Lemma candidateSlaves_returns a :
  is_Some (candidateSlaves a) <->
  forall s, s ∈ allocationCandidates a -> is_Some (slaves a !! s).
Proof.
  unfold candidateSlaves. split.
  - intros [l H] s Hs%elem_of_elements. revert s Hs.
    eapply (foreach_accum (fun seen (acc : list SlaveID) =>
              forall s, s ∈ seen -> is_Some (slaves a !! s))); [| | exact H].
    + intros seen x acc c acc' Hseen Hx.
      apply bind_Some in Hx as (w & Hw & Hx).
      apply bind_Some in Hw as (sl & Hsl & _).
      split; [by destruct (_ && _); simplify_eq|].
      intros s [?| ->%list_elem_of_singleton]%elem_of_app; [by apply Hseen|].
      eauto.
    + by intros s ?%elem_of_nil.
  - intros Hall.
    destruct (foreach_total (fun _ : list SlaveID => True)
      (elements (allocationCandidates a))
      (fun slaveId acc =>
         w ← isWhitelisted a slaveId;
         if w && map_contains (slaves a) slaveId &&
            default false (activated <$> slaves a !! slaveId)
         then Some (Continue, acc ++ [slaveId])
         else Some (Continue, acc))) with (s := @nil SlaveID)
      as (l & Hl & _); [| done | by rewrite Hl].
    intros s acc Hs%elem_of_elements _.
    destruct (Hall s Hs) as [sl Hsl]. unfold isWhitelisted. rewrite Hsl.
    simpl. destruct (_ && _); eauto.
Qed.

Lemma candidateSlaves_NoDup a l :
  candidateSlaves a = Some l -> NoDup l.
Proof.
  intros H. unfold candidateSlaves in H.
  cut (NoDup (elements (allocationCandidates a)) ->
       NoDup l /\ forall s, s ∈ l -> s ∈ elements (allocationCandidates a)).
  { intros Hcut. apply Hcut, NoDup_elements. }
  eapply (foreach_accum (fun seen (acc : list SlaveID) =>
            NoDup seen -> NoDup acc /\ forall s, s ∈ acc -> s ∈ seen));
    [| | exact H].
  - intros seen x acc c acc' Hacc Hx.
    apply bind_Some in Hx as (w & Hw & Hx).
    assert (c = Continue /\ (acc' = acc ++ [x] \/ acc' = acc)) as [-> Hacc'].
    { destruct (_ && _); injection Hx as <- <-; eauto. }
    split; [done|]. intros Hnd.
    apply NoDup_app in Hnd as (Hnd & Hdisj & _).
    destruct (Hacc Hnd) as [Hnd' Hsub].
    destruct Hacc' as [-> | ->].
    + split.
      * apply NoDup_app. split; [done|]. split; [|apply NoDup_singleton].
        intros s Hs ->%list_elem_of_singleton.
        apply (Hdisj x); [by apply Hsub | by apply list_elem_of_singleton].
      * intros s [?| ->%list_elem_of_singleton]%elem_of_app;
          apply elem_of_app; [left; by apply Hsub | right].
        by apply list_elem_of_singleton.
    + split; [done|]. intros s Hs. apply elem_of_app. left. by apply Hsub.
  - intros _. split; [apply NoDup_nil_2 | done].
Qed.

(** X10. The agents that an allocation run visits. The selection at the
    start of [__allocate] aborts unless every allocation candidate is a
    known agent; otherwise it yields, each once, exactly the candidates
    that are activated and whose hostname is in the whitelist, if there is
    a whitelist. *)
Theorem candidateSlaves_eligible (a : Allocator) :
  (is_Some (candidateSlaves a) <->
   forall s, s ∈ allocationCandidates a -> is_Some (slaves a !! s)) /\
  (forall l, candidateSlaves a = Some l ->
     NoDup l /\ forall s, s ∈ l <-> eligibleAgent a s).
Proof.
  split; [apply candidateSlaves_returns|].
  intros l Hl. split; [by eapply candidateSlaves_NoDup|].
  by apply candidateSlaves_spec.
Qed.

Lemma eligibleAgent_activated a s sl :
  slaves a !! s = Some sl -> eligibleAgent a s -> activated sl = true.
Proof. intros Hsl (_ & sl' & Hsl' & Hact & _). by simplify_eq. Qed.

Lemma no_offer_on_ineligible a s run f role :
  (forall l, shuffle_slaves l ≡ₚ l) ->
  ~ eligibleAgent a s ->
  __allocate a = Some run -> ~ offerMade run f role s.
Proof.
  intros Hshuffle Hnot Hrun Hmade.
  apply __allocate_runInv in Hrun as (cands & Hc & Hoffers & _ & _ & Hinv).
  apply (offerMade_offeredTo _ _ _ _ Hoffers) in Hmade.
  apply Hinv in Hmade as [_ Hs]. rewrite Hshuffle in Hs.
  by apply (candidateSlaves_spec a cands Hc) in Hs.
Qed.

(** X11. [deactivateSlave] of a known agent on an initialized allocator
    returns and changes nothing but the agent's activation flag. The agent
    is then not eligible for an allocation run, the other agents are as
    eligible as before, and when the shuffle of the agents is a permutation
    the next run offers nothing on the agent. If the agent was activated,
    [activateSlave] restores the state. On an unknown agent both calls
    abort. *)
Theorem deactivateSlave_spec (a : Allocator) (s : SlaveID) (sl : Slave) :
  initialized a = true ->
  slaves a !! s = Some sl ->
  exists a',
    deactivateSlave a s = Some a' /\
    a' = set_slaves a (<[s := slave_setActivated sl false]> (slaves a)) /\
    ~ eligibleAgent a' s /\
    (forall s', s' <> s -> eligibleAgent a' s' <-> eligibleAgent a s') /\
    ((forall l, shuffle_slaves l ≡ₚ l) ->
     forall run f role, __allocate a' = Some run ->
       ~ offerMade run f role s) /\
    (activated sl = true -> activateSlave a' s = Some a) /\
    (forall s0, slaves a !! s0 = None ->
       deactivateSlave a s0 = None /\ activateSlave a s0 = None).
Proof.
  intros Hi Hsl. eexists. split.
  { unfold deactivateSlave. rewrite Hi, Hsl. done. }
  split; [done|].
  assert (~ eligibleAgent
            (set_slaves a (<[s := slave_setActivated sl false]> (slaves a)))
            s) as Hnot.
  { intros (_ & sl' & Hsl' & Hact & _). simpl in Hsl'.
    rewrite lookup_insert_eq in Hsl'. by simplify_eq. }
  split; [done|]. split_and!.
  - intros s' Hs'. unfold eligibleAgent. simpl.
    by rewrite lookup_insert_ne.
  - intros Hshuffle run f role. by apply no_offer_on_ineligible.
  - intros Hact. unfold activateSlave. simpl. rewrite Hi. simpl.
    rewrite lookup_insert_eq. simpl. rewrite insert_insert_eq.
    assert (slave_setActivated (slave_setActivated sl false) true = sl) as ->.
    { destruct sl. simpl in *. by subst. }
    rewrite (insert_id (slaves a) s sl) by done. by destruct a.
  - intros s0 Hs0. unfold deactivateSlave, activateSlave.
    by rewrite Hi, Hs0.
Qed.

End AgentTheorems.

(** ** Runs, the whitelist and quota *)

Section RunTheorems.
Context `{RA : ResourcesAlgebra} `{Env : !AllocatorEnv}.

(** A run without eligible agents offers nothing and changes nothing. *)
Lemma __allocate_no_candidates a run :
  (forall l, shuffle_slaves l ≡ₚ l) ->
  (forall s, ~ eligibleAgent a s) ->
  __allocate a = Some run ->
  run_offers run = [] /\ run_state run = a.
Proof.
  intros Hshuffle Hnone H. unfold __allocate in H.
  apply bind_Some in H as (cands & Hc & H).
  assert (cands = []) as ->.
  { destruct cands as [|x l]; [done|]. exfalso. apply (Hnone x).
    apply (candidateSlaves_spec a _ Hc). by left. }
  assert (shuffle_slaves [] = []) as Hnil.
  { apply Permutation_nil. symmetry. apply Hshuffle. }
  rewrite Hnil in H. simpl in H. injection H as <-. simpl.
  by rewrite map_to_list_empty.
Qed.

(** X12. [updateWhitelist] on an initialized allocator returns and only
    replaces the whitelist: afterwards a known agent is whitelisted
    exactly when there is no whitelist or its hostname is on it. With an
    empty whitelist no agent is eligible for a run, and when the shuffle of
    the agents is a permutation a run then makes no offer and leaves the
    state as it is. *)
Theorem updateWhitelist_spec (a : Allocator) (w : option (gset string)) :
  initialized a = true ->
  exists a',
    updateWhitelist a w = Some a' /\
    a' = set_whitelist a w /\
    (forall s sl, slaves a !! s = Some sl ->
       isWhitelisted a' s =
       Some (match w with
             | None => true
             | Some ws => bool_decide (si_hostname (info sl) ∈ ws)
             end)) /\
    (w = Some ∅ -> forall s, ~ eligibleAgent a' s) /\
    (w = Some ∅ -> (forall l, shuffle_slaves l ≡ₚ l) ->
     forall run, __allocate a' = Some run ->
       run_offers run = [] /\ run_state run = a').
Proof.
  intros Hi. eexists. split.
  { unfold updateWhitelist. rewrite Hi. done. }
  split; [done|].
  assert (w = Some ∅ -> forall s, ~ eligibleAgent (set_whitelist a w) s)
    as Hnone.
  { intros -> s (_ & sl & _ & _ & Hw). simpl in Hw.
    by apply elem_of_empty in Hw. }
  split_and!.
  - intros s sl Hsl. unfold isWhitelisted. simpl. by rewrite Hsl.
  - exact Hnone.
  - intros Hw Hshuffle run. apply __allocate_no_candidates; [done|].
    by apply Hnone.
Qed.

(** X13. Quota round trip. On an initialized allocator, [removeQuota]
    aborts for a role without quota. For a role that has neither a quota
    nor a place in the quota role sorter, [setQuota] returns and records the
    scalar quantities of the guarantee, a second [setQuota] for the role
    aborts, and [removeQuota] then restores the state as it was before. *)
Theorem setQuota_removeQuota (a : Allocator) (role : string) (q : Quota) :
  initialized a = true ->
  quotaGuarantees a !! role = None ->
  sorter_contains (quotaRoleSorter a) role = false ->
  removeQuota a role = None /\
  exists a',
    setQuota a role q = Some a' /\
    quotaGuarantees a' !! role = Some (fromScalarResources (guarantee q)) /\
    sorter_contains (quotaRoleSorter a') role = true /\
    client_isActive (quotaRoleSorter a') role = true /\
    setQuota a' role q = None /\
    removeQuota a' role = Some a.
Proof.
  intros Hi Hq Hs.
  assert (map_contains (quotaGuarantees a) role = false) as Hmc
    by (by apply map_contains_false).
  split.
  { unfold removeQuota. by rewrite Hi, Hmc. }
  unfold setQuota. rewrite Hi, Hmc. simpl.
  assert (clients (quotaRoleSorter a) !! role = None) as Hc.
  { apply sorter_contains_false in Hs. by apply not_elem_of_dom. }
  match goal with |- exists a', ?x = Some a' /\ _ =>
    assert (exists a', x = Some a' /\
              initialized a' = true /\
              quotaGuarantees a' =
                <[role := fromScalarResources (guarantee q)]>
                  (quotaGuarantees a) /\
              (exists m,
                 quotaRoleSorter a' =
                   set_clients (quotaRoleSorter a)
                     (<[role := {| client_active := true;
                                   client_allocation := m |}]>
                        (clients (quotaRoleSorter a)))) /\
              set_quotaRoleSorter
                (set_quotaGuarantees a' (quotaGuarantees a))
                (quotaRoleSorter a) = a)
      as (a' & Ha' & Hi' & Hq' & (m & Hs') & Hrest) end.
  { assert (sorter_activate (sorter_add (quotaRoleSorter a) role) role
            = set_clients (quotaRoleSorter a)
                (<[role := {| client_active := true;
                              client_allocation := ∅ |}]>
                   (clients (quotaRoleSorter a)))) as Hsa.
    { unfold sorter_activate, sorter_add. rewrite Hc. simpl.
      unfold set_clients. simpl. f_equal.
      by rewrite alter_insert_eq. }
    destruct (sorter_contains (roleSorter _) role).
    - eexists. split; [reflexivity|].
      match goal with |- context [foldl ?g ?x ?l0] =>
        generalize l0; intros l;
        assert (forall b,
          initialized b = true /\
          quotaGuarantees b =
            <[role := fromScalarResources (guarantee q)]>
              (quotaGuarantees a) /\
          (exists m,
             quotaRoleSorter b =
               set_clients (quotaRoleSorter a)
                 (<[role := {| client_active := true;
                               client_allocation := m |}]>
                    (clients (quotaRoleSorter a)))) /\
          set_quotaRoleSorter
            (set_quotaGuarantees b (quotaGuarantees a))
            (quotaRoleSorter a) = a ->
          let b' := foldl g b l in
          initialized b' = true /\
          quotaGuarantees b' =
            <[role := fromScalarResources (guarantee q)]>
              (quotaGuarantees a) /\
          (exists m,
             quotaRoleSorter b' =
               set_clients (quotaRoleSorter a)
                 (<[role := {| client_active := true;
                               client_allocation := m |}]>
                    (clients (quotaRoleSorter a)))) /\
          set_quotaRoleSorter
            (set_quotaGuarantees b' (quotaGuarantees a))
            (quotaRoleSorter a) = a) as Hfold end.
      { induction l as [|[s R] l IH]; intros b Hb; simpl; [done|].
        apply IH. destruct Hb as (Hb1 & Hb2 & (m & Hb3) & Hb4).
        split_and!; try done.
        eexists. simpl. rewrite Hb3. unfold sorter_allocated, set_clients.
        simpl. f_equal. rewrite alter_insert_eq. simpl. done. }
      apply Hfold. simpl. split; [done|]. split; [done|]. split.
      + rewrite Hsa. eauto.
      + by destruct a.
    - eexists. split; [reflexivity|]. simpl. split; [done|].
      split; [done|]. split; [rewrite Hsa; eauto|]. by destruct a. }
  exists a'. split; [done|].
  split; [by rewrite Hq', lookup_insert_eq|].
  assert (clients (quotaRoleSorter a') !! role
          = Some {| client_active := true; client_allocation := m |}) as Hcl.
  { rewrite Hs'. simpl. apply lookup_insert_eq. }
  assert (sorter_contains (quotaRoleSorter a') role = true) as Hsc.
  { apply sorter_contains_true. by apply elem_of_dom_2 in Hcl. }
  split; [done|].
  split; [unfold client_isActive; by rewrite Hcl|].
  assert (map_contains (quotaGuarantees a') role = true) as Hmc'.
  { apply map_contains_true. rewrite Hq', lookup_insert_eq. eauto. }
  split.
  - unfold setQuota. by rewrite Hi', Hmc'.
  - unfold removeQuota. rewrite Hi', Hmc', Hsc. simpl. f_equal.
    assert (delete role (quotaGuarantees a') = quotaGuarantees a) as ->
      by (by rewrite Hq', delete_insert_id).
    assert (sorter_remove (quotaRoleSorter a') role = quotaRoleSorter a)
      as ->; [|exact Hrest].
    rewrite Hs'. unfold sorter_remove, set_clients. simpl.
    rewrite delete_insert_id by done. by destruct (quotaRoleSorter a).
Qed.

(** X14. Requests for an allocation run coalesce: two requests in a row
    amount to one request for the union of their agents. On a paused
    allocator a request changes nothing, so that a request made between
    [pause] and [resume] is forgotten; otherwise the agents join the
    allocation candidates and a run is pending. *)
Theorem allocate_coalesces (a : Allocator) (S1 S2 : gset SlaveID) :
  allocate (allocate a S1) S2 = allocate a (S1 ∪ S2) /\
  (paused a = true -> allocate a S1 = a) /\
  (paused a = false ->
     allocationCandidates (allocate a S1) = allocationCandidates a ∪ S1 /\
     allocation_isPending (allocate a S1) = true /\
     resume (allocate (pause a) S1) = a).
Proof.
  split_and!.
  - unfold allocate. destruct (paused a) eqn:Hp; simpl; [by rewrite Hp|].
    destruct (allocation_isPending a) eqn:Hpd; simpl; rewrite Hp; simpl;
      rewrite ?Hpd; simpl; by rewrite (assoc_L (∪)).
  - intros Hp. unfold allocate. by rewrite Hp.
  - intros Hp. unfold allocate, pause, resume. rewrite Hp. simpl.
    split_and!.
    + by destruct (allocation_isPending a).
    + by destruct (allocation_isPending a) eqn:Hpd; simpl.
    + destruct a. simpl in *. by subst.
Qed.

Lemma sameControl_refl a : sameControl a a.
Proof. by repeat split. Qed.

Lemma sameControl_trans a b c :
  sameControl a b -> sameControl b c -> sameControl a c.
Proof.
  intros (H1 & H2 & H3 & H4 & H5 & H6 & H7 & H8)
         (G1 & G2 & G3 & G4 & G5 & G6 & G7 & G8).
  repeat split; congruence.
Qed.

Lemma commitAllocation_control a f role s R a' :
  commitAllocation a f role s R = Some a' -> sameControl a a'.
Proof.
  intros H. unfold commitAllocation in H.
  apply bind_Some in H as (sl & Hsl & H).
  apply trackAllocatedResources_outside in H
    as (H1 & H2 & H3 & H4 & H5 & H6 & H7 & H8 & H9 & H10 & H11).
  simpl in *. repeat split; try done.
  rewrite H4, dom_insert_L. apply elem_of_dom_2 in Hsl. set_members.
Qed.

Lemma __allocate_control a run :
  __allocate a = Some run -> sameControl a (run_state run).
Proof.
  intros H. unfold __allocate in H.
  apply bind_Some in H as (cands & Hc & H).
  apply bind_Some in H as (st1 & H1 & H).
  apply bind_Some in H as (st2 & H2 & H). injection H as <-. simpl.
  assert (forall s role (body : FrameworkID -> Allocator * Locals ->
                                 option (LoopCtl * (Allocator * Locals)))
            l st st',
            (forall f a loc c a' loc',
               body f (a, loc) = Some (c, (a', loc')) ->
               (a' = a /\ offerable loc' = offerable loc) \/
               exists R, commitAllocation a f role s R = Some a' /\
                 offerable loc' = offerable_add (offerable loc) f role s R) ->
            foreach l body st = Some st' ->
            sameControl a st.1 -> sameControl a st'.1) as Hfw.
  { intros s role body l st st' Hbody Hrun Hst.
    eapply (foreach_inv (fun x => sameControl a x.1)); [| exact Hrun | exact Hst].
    intros f [b loc] c [b' loc'] _ Hstep Hb. simpl in *.
    destruct (Hbody _ _ _ _ _ _ Hstep) as [[-> _] | (R & Hcommit & _)];
      [done|].
    eapply sameControl_trans; [exact Hb|].
    by eapply commitAllocation_control. }
  assert (sameControl a st1.1) as Hst1.
  { eapply (foreach_inv (fun x => sameControl a x.1));
      [| exact H1 | apply sameControl_refl].
    intros s x cx x' _ Hx Hax. unfold stage1_slave in Hx.
    destruct (map_contains (slaves x.1) s); [|done]. simpl in Hx.
    apply bind_Some in Hx as (x1 & Hx1 & Hx). injection Hx as _ <-.
    eapply (foreach_inv (fun x => sameControl a x.1)); [| exact Hx1 | exact Hax].
    intros role y cy y' _ Hy Hay. unfold stage1_role in Hy.
    apply bind_Some in Hy as (q & Hq & Hy).
    destruct (negb (map_contains (roles y.1) role)); [by simplify_eq|].
    apply bind_Some in Hy as (sl & Hsl & Hy).
    destruct (r_empty (getAvailable sl)); [by simplify_eq|].
    apply bind_Some in Hy as (fs & Hfs & Hy).
    apply bind_Some in Hy as (y1 & Hy1 & Hy). injection Hy as _ <-.
    eapply (Hfw s role); [| exact Hy1 | exact Hay].
    intros f b loc c b' loc'. apply stage1_framework_step. }
  eapply (foreach_inv (fun x => sameControl a x.1)); [| exact H2 | exact Hst1].
  intros s x cx x' _ Hx Hax. unfold stage2_slave in Hx.
  destruct (map_contains (slaves x.1) s); [|done]. simpl in Hx.
  apply bind_Some in Hx as (x1 & Hx1 & Hx). injection Hx as _ <-.
  eapply (foreach_inv (fun x => sameControl a x.1)); [| exact Hx1 | exact Hax].
  intros role y cy y' _ Hy Hay. unfold stage2_role in Hy.
  destruct (map_contains (quotaGuarantees y.1) role); [by simplify_eq|].
  apply bind_Some in Hy as (sl & Hsl & Hy).
  destruct (r_empty (getAvailable sl)); [by simplify_eq|].
  apply bind_Some in Hy as (fs & Hfs & Hy).
  apply bind_Some in Hy as (y1 & Hy1 & Hy). injection Hy as _ <-.
  eapply (Hfw s role); [| exact Hy1 | exact Hay].
  intros f b loc c b' loc'. apply stage2_framework_step.
Qed.

Lemma deallocate_control a a' offers :
  deallocate a = Some (a', offers) -> sameControl a a'.
Proof.
  intros H. unfold deallocate in H.
  destruct (map_isEmpty (roles a));
    [injection H as <- _; apply sameControl_refl|].
  destruct (negb (map_isEmpty (frameworkSorters a))); [|done]. simpl in H.
  apply bind_Some in H as (st & Hst & H). injection H as <- _.
  eapply (foreach_inv (fun x => sameControl a x.1));
    [| exact Hst | apply sameControl_refl].
  intros fs x c x' _ Hx Hax. unfold deallocate_sorter in Hx.
  apply bind_Some in Hx as (x1 & Hx1 & Hx). injection Hx as _ <-.
  eapply (foreach_inv (fun x => sameControl a x.1)); [| exact Hx1 | exact Hax].
  intros s y cy y' _ Hy Hay. unfold deallocate_slave in Hy.
  apply bind_Some in Hy as (sl & Hsl & Hy).
  destruct (maintenance sl); [|by simplify_eq].
  apply bind_Some in Hy as (y1 & Hy1 & Hy). injection Hy as _ <-.
  eapply (foreach_inv (fun x => sameControl a x.1)); [| exact Hy1 | exact Hay].
  intros f [b off] cz [b' off'] _ Hz Haz. unfold deallocate_framework in Hz.
  apply bind_Some in Hz as (fw & Hfw & Hz).
  destruct (negb (active fw)); [by simplify_eq|].
  apply bind_Some in Hz as (sl' & Hsl' & Hz).
  apply bind_Some in Hz as (mt & Hmt & Hz).
  destruct (negb (map_contains _ s)); [|by simplify_eq].
  destruct (negb (bool_decide _)); [|by simplify_eq].
  apply bind_Some in Hz as (filtered & Hflt & Hz).
  destruct filtered; [by simplify_eq|]. injection Hz as _ <- _.
  eapply sameControl_trans; [exact Haz|]. simpl in *.
  repeat split; try done. simpl.
  rewrite dom_insert_L. apply elem_of_dom_2 in Hsl'. set_members.
Qed.

End RunTheorems.

Section DispatchTheorems.
Context `{RA : ResourcesAlgebra} `{Env : !AllocatorEnv}.

(** A run with no candidate agents on a consistent state changes nothing
    and offers nothing. *)
Lemma _allocate_idle (b : Allocator) :
  (forall l, shuffle_slaves l ≡ₚ l) -> trackingConsistent b ->
  paused b = false -> allocationCandidates b = ∅ ->
  allocation_isPending b = false ->
  _allocate b = Some (b, [], []).
Proof.
  intros Hshuffle (Hsc & _ & _) Hp Hc Hpd.
  assert (set_allocation_isPending b false = b) as Hb
    by (destruct b; simpl in *; by subst).
  assert (set_allocationCandidates b ∅ = b) as Hb'
    by (destruct b; simpl in *; by subst).
  unfold _allocate. rewrite Hb, Hp.
  assert (__allocate b = Some {| run_state := b; run_locals := seedLocals b;
                                 run_offers := [] |}) as ->.
  { unfold __allocate, candidateSlaves. rewrite Hc, elements_empty. simpl.
    assert (shuffle_slaves [] = []) as ->
      by (apply Permutation_nil; symmetry; apply Hshuffle).
    simpl. by rewrite map_to_list_empty. }
  simpl.
  assert (deallocate b = Some (b, [])) as ->; [|simpl; by rewrite Hb'].
  unfold deallocate. destruct (map_isEmpty (roles b)) eqn:He; [done|].
  assert (map_isEmpty (frameworkSorters b) = false) as ->.
  { unfold map_isEmpty in *. apply bool_decide_eq_false.
    apply bool_decide_eq_false in He. intros H. apply He.
    by rewrite <- Hsc; unfold sorterClients; rewrite dom_fmap_L. }
  simpl.
  destruct (foreach_total (fun st => st = (b, ∅))
              (map_to_list (frameworkSorters b)).*2 deallocate_sorter)
    with (s := (b, ∅ : gmap FrameworkID (gmap SlaveID UnavailableResources))) as (st & -> & ->); [|done|].
  - intros fs st _ ->. exists (b, ∅). split; [|done].
    unfold deallocate_sorter. simpl. by rewrite Hc, elements_empty.
  - simpl. by rewrite map_to_list_empty.
Qed.

(** X15. A dispatched run on a paused allocator only clears the pending
    flag: the candidates stay and nothing is offered. A completed run
    clears the candidates and the pending flag, and keeps the frameworks,
    the whitelist and the set of agents; on a consistent state, with a
    shuffle that permutes, the run after it changes nothing and offers
    nothing. *)
Theorem _allocate_spec (a : Allocator) :
  (paused a = true ->
     _allocate a = Some (set_allocation_isPending a false, [], [])) /\
  (forall a' offers inverse,
     paused a = false -> _allocate a = Some (a', offers, inverse) ->
     allocationCandidates a' = ∅ /\ allocation_isPending a' = false /\
     paused a' = false /\ frameworks a' = frameworks a /\
     whitelist a' = whitelist a /\ dom (slaves a') = dom (slaves a) /\
     ((forall l, shuffle_slaves l ≡ₚ l) -> trackingConsistent a ->
      _allocate a' = Some (a', [], []))).
Proof.
  split.
  - intros Hp. unfold _allocate. simpl. by rewrite Hp.
  - intros a' offers inverse Hp H.
    assert (forall Hwf : trackingConsistent a, trackingConsistent a') as Hwf'
      by (intros Hwf; by apply (_allocate_consistent a _ Hwf H)).
    unfold _allocate in H. simpl in H. rewrite Hp in H.
    apply bind_Some in H as (run & Hrun & H).
    apply bind_Some in H as ([d inv] & Hd & H). simpl in H.
    injection H as <- <- <-.
    apply __allocate_control in Hrun
      as (H1 & H2 & H3 & H4 & H5 & H6 & H7 & H8).
    apply deallocate_control in Hd
      as (G1 & G2 & G3 & G4 & G5 & G6 & G7 & G8).
    simpl in *.
    assert (paused d = false) as Hpd by congruence.
    assert (allocation_isPending d = false) as Hpend by congruence.
    split_and!; try congruence.
    intros Hshuffle Hwf. by apply _allocate_idle; [| apply Hwf' | | |].
Qed.

End DispatchTheorems.

(** ** Activation of frameworks *)

Section FrameworkTheorems.
Context `{RA : ResourcesAlgebra} `{Env : !AllocatorEnv}.

(** A loop over roles that rewrites the framework sorter of each role. *)
Lemma foreach_sorters (g : string -> Sorter -> Sorter)
    (body : string -> Allocator -> option (LoopCtl * Allocator))
    (l : list string) :
  (forall role b,
     body role b =
     fs ← frameworkSorters b !! role;
     Some (Continue,
           set_frameworkSorters b
             (<[role := g role fs]> (frameworkSorters b)))) ->
  NoDup l ->
  forall a,
    (is_Some (foreach l body a) <->
     forall role, role ∈ l -> is_Some (frameworkSorters a !! role)) /\
    forall a', foreach l body a = Some a' ->
      a' = set_frameworkSorters a (frameworkSorters a') /\
      (forall role, role ∈ l ->
         exists fs, frameworkSorters a !! role = Some fs /\
                    frameworkSorters a' !! role = Some (g role fs)) /\
      (forall role, role ∉ l ->
         frameworkSorters a' !! role = frameworkSorters a !! role).
Proof.
  intros Hbody. induction l as [|x l IH]; intros Hnd a.
  - simpl. split.
    + split; [by intros _ role ?%elem_of_nil | eauto].
    + intros a' [= <-]. split_and!; [by destruct a | | done].
      by intros role ?%elem_of_nil.
  - apply NoDup_cons in Hnd as [Hx Hnd]. simpl. rewrite Hbody.
    destruct (frameworkSorters a !! x) as [fs|] eqn:Hfs; simpl.
    + destruct (IH Hnd (set_frameworkSorters a
                          (<[x := g x fs]> (frameworkSorters a))))
        as [Hret Heff].
      split.
      * rewrite Hret. simpl. split.
        -- intros Hall role [->|Hin]%elem_of_cons; [eauto|].
           specialize (Hall role Hin).
           rewrite lookup_insert_ne in Hall by (by intros ->). done.
        -- intros Hall role Hin.
           destruct (decide (x = role)) as [->|Hn];
             [rewrite lookup_insert_eq; eauto|].
           rewrite lookup_insert_ne by done. apply Hall. by right.
      * intros a' Ha'. destruct (Heff a' Ha') as (Heq & Hins & Hout).
        simpl in *. split_and!.
        -- exact Heq.
        -- intros role [->|Hr]%elem_of_cons.
           ++ exists fs. split; [done|]. rewrite (Hout x Hx).
              by rewrite lookup_insert_eq.
           ++ destruct (Hins role Hr) as (fs' & Hfs' & Hres).
              rewrite lookup_insert_ne in Hfs' by (by intros ->). eauto.
        -- intros role Hr. rewrite Hout.
           ++ rewrite lookup_insert_ne; [done|]. intros ->. apply Hr. by left.
           ++ intros Hrl. apply Hr. by right.
    + split; [|done]. split; [by intros [? ?]|].
      intros Hall. destruct (Hall x) as [? ?]; [by left|congruence].
Qed.

Lemma is_Some_bind_Some {A B : Type} (m : option A) (h : A -> B) :
  is_Some (x ← m; Some (h x)) <-> is_Some m.
Proof. destruct m; simpl; split; intros [? ?]; eauto; done. Qed.

Lemma sorter_allocation_deactivate S c g :
  sorter_allocation (sorter_deactivate S c) g = sorter_allocation S g.
Proof.
  unfold sorter_allocation, sorter_deactivate. simpl. rewrite lookup_alter.
  destruct (decide (c = g)) as [<-|Hn]; [|done].
  by destruct (clients S !! c).
Qed.

Lemma sorter_allocation_activate S c g :
  sorter_allocation (sorter_activate S c) g = sorter_allocation S g.
Proof.
  unfold sorter_allocation, sorter_activate. simpl. rewrite lookup_alter.
  destruct (decide (c = g)) as [<-|Hn]; [|done].
  by destruct (clients S !! c).
Qed.

(** What [deactivateFramework] does to the state. *)
Lemma deactivateFramework_effect (a : Allocator) (f : FrameworkID)
    (fw : Framework) (a' : Allocator) :
  frameworks a !! f = Some fw ->
  deactivateFramework a f = Some a' ->
  frameworks a' =
    <[f := {| fw_roles := fw_roles fw;
              suppressedRoles := suppressedRoles fw;
              fw_capabilities := fw_capabilities fw;
              active := false;
              offerFilters := ∅;
              inverseOfferFilters := ∅;
              minAllocatableResources := minAllocatableResources fw |}]>
      (frameworks a) /\
  (forall role, role ∈ fw_roles fw -> activeIn a' role f = false) /\
  (forall role g, g <> f \/ role ∉ fw_roles fw ->
     activeIn a' role g = activeIn a role g) /\
  (forall role fs g, frameworkSorters a !! role = Some fs ->
     exists fs', frameworkSorters a' !! role = Some fs' /\
                 sorter_allocation fs' g = sorter_allocation fs g) /\
  slaves a' = slaves a /\
  allocationCandidates a' = allocationCandidates a.
Proof.
  intros Hfw H.
  destruct (foreach_sorters (fun _ fs => sorter_deactivate fs f)
              (fun role a =>
                 fs ← frameworkSorters a !! role;
                 Some (Continue,
                       set_frameworkSorters a
                         (<[role := sorter_deactivate fs f]>
                            (frameworkSorters a))))
              (elements (fw_roles fw)) ltac:(done)
              (NoDup_elements _) a) as [_ Heff].
  unfold deactivateFramework in H.
  destruct (initialized a); [|done]. rewrite Hfw in H. simpl in H.
  apply bind_Some in H as (a1 & Ha1 & [= <-]).
  destruct (Heff a1 Ha1) as (Heq & Hin & Hout).
  split_and!.
  - simpl. by rewrite Heq.
  - intros role Hrole%elem_of_elements.
    destruct (Hin role Hrole) as (fs & Hfs & Hfs').
    unfold activeIn. simpl. rewrite Hfs', client_isActive_deactivate.
    by rewrite decide_True.
  - intros role g Hcond. unfold activeIn. simpl.
    destruct (decide (role ∈ elements (fw_roles fw))) as [Hrole|Hrole].
    + destruct (Hin role Hrole) as (fs & Hfs & Hfs').
      rewrite Hfs', Hfs, client_isActive_deactivate.
      destruct Hcond as [Hg|Hr]; [by rewrite decide_False|].
      by apply elem_of_elements in Hrole.
    + by rewrite (Hout role Hrole).
  - intros role fs g Hfs. simpl.
    destruct (decide (role ∈ elements (fw_roles fw))) as [Hrole|Hrole].
    + destruct (Hin role Hrole) as (fs0 & Hfs0 & Hfs').
      simplify_eq. eexists. split; [done|].
      apply sorter_allocation_deactivate.
    + exists fs. by rewrite (Hout role Hrole).
  - simpl. by rewrite Heq.
  - simpl. by rewrite Heq.
Qed.

(** X16. [deactivateFramework] on an initialized allocator, for a known
    framework, aborts unless every role of the framework has a framework
    sorter, and returns otherwise (the calls on a sorter always return in
    the sorter model). When it returns, the framework is marked inactive and
    has lost all its offer filters and inverse-offer filters; it is
    inactive in the sorter of each of its roles, while the sorters keep the
    record of what is allocated to it; the other frameworks are as active
    as before; agents and candidates are untouched; and the next allocation
    run offers the framework nothing in its roles. *)
Theorem deactivateFramework_spec (a : Allocator) (f : FrameworkID)
    (fw : Framework) :
  initialized a = true ->
  frameworks a !! f = Some fw ->
  (is_Some (deactivateFramework a f) <->
   forall role, role ∈ fw_roles fw ->
     is_Some (frameworkSorters a !! role)) /\
  forall a', deactivateFramework a f = Some a' ->
    (exists fw',
       frameworks a' !! f = Some fw' /\
       active fw' = false /\ offerFilters fw' = ∅ /\
       inverseOfferFilters fw' = ∅ /\
       fw_roles fw' = fw_roles fw /\
       suppressedRoles fw' = suppressedRoles fw /\
       fw_capabilities fw' = fw_capabilities fw) /\
    (forall g, g <> f -> frameworks a' !! g = frameworks a !! g) /\
    (forall role, role ∈ fw_roles fw -> activeIn a' role f = false) /\
    (forall role g, g <> f \/ role ∉ fw_roles fw ->
       activeIn a' role g = activeIn a role g) /\
    (forall role fs g, frameworkSorters a !! role = Some fs ->
       exists fs', frameworkSorters a' !! role = Some fs' /\
                   sorter_allocation fs' g = sorter_allocation fs g) /\
    slaves a' = slaves a /\
    allocationCandidates a' = allocationCandidates a /\
    (forall run role s, role ∈ fw_roles fw -> __allocate a' = Some run ->
       ~ offerMade run f role s).
Proof.
  intros Hi Hfw. split.
  - destruct (foreach_sorters (fun _ fs => sorter_deactivate fs f)
                (fun role a =>
                   fs ← frameworkSorters a !! role;
                   Some (Continue,
                         set_frameworkSorters a
                           (<[role := sorter_deactivate fs f]>
                              (frameworkSorters a))))
                (elements (fw_roles fw)) ltac:(done)
                (NoDup_elements _) a) as [Hret _].
    unfold deactivateFramework. rewrite Hi, Hfw. simpl.
    rewrite is_Some_bind_Some, Hret.
    by setoid_rewrite elem_of_elements.
  - intros a' H.
    destruct (deactivateFramework_effect a f fw a' Hfw H)
      as (Hfws & Hoff & Hsame & Halloc & Hsl & Hcand).
    split_and!; try done.
    + eexists. rewrite Hfws, lookup_insert_eq. done.
    + intros g Hg. by rewrite Hfws, lookup_insert_ne.
    + intros run role s Hrole Hrun Hmade.
      apply __allocate_runInv in Hrun as (cands & _ & Hoffers & _ & _ & Hinv).
      apply (offerMade_offeredTo _ _ _ _ Hoffers) in Hmade.
      apply Hinv in Hmade as [Hact _]. rewrite (Hoff role Hrole) in Hact.
      done.
Qed.

(** X17. [activateFramework] on an initialized allocator, for a known
    framework, aborts unless every role of the framework has a framework
    sorter, and returns otherwise (the calls on a sorter always return in
    the sorter model). When it returns, the framework is marked active and
    keeps its roles, suppressed roles and filters; in the sorter of each of
    its roles that is not suppressed it is active if it is a client, and in
    the suppressed roles it is as active as before; the other frameworks
    are as active as before; and unless the allocator is paused, every
    known agent is an allocation candidate of a pending run. *)
Theorem activateFramework_spec (a : Allocator) (f : FrameworkID)
    (fw : Framework) :
  initialized a = true ->
  frameworks a !! f = Some fw ->
  (is_Some (activateFramework a f) <->
   forall role, role ∈ fw_roles fw ->
     is_Some (frameworkSorters a !! role)) /\
  forall a', activateFramework a f = Some a' ->
    frameworks a' = <[f := fw_setActive fw true]> (frameworks a) /\
    (forall role fs, role ∈ fw_roles fw -> role ∉ suppressedRoles fw ->
       frameworkSorters a !! role = Some fs ->
       activeIn a' role f = sorter_contains fs f) /\
    (forall role g, g <> f \/ role ∉ fw_roles fw \/
                    role ∈ suppressedRoles fw ->
       activeIn a' role g = activeIn a role g) /\
    slaves a' = slaves a /\
    (paused a = false ->
       allocationCandidates a' = allocationCandidates a ∪ dom (slaves a) /\
       allocation_isPending a' = true) /\
    (paused a = true ->
       allocationCandidates a' = allocationCandidates a /\
       allocation_isPending a' = allocation_isPending a).
Proof.
  intros Hi Hfw.
  pose (g := fun (role : string) (fs : Sorter) =>
               if bool_decide (role ∈ suppressedRoles fw) then fs
               else sorter_activate fs f).
  pose (a0 := set_frameworks a (<[f := fw_setActive fw true]> (frameworks a))).
  destruct (foreach_sorters g
              (fun role a =>
                 fs ← frameworkSorters a !! role;
                 if negb (bool_decide (role ∈ suppressedRoles fw))
                 then Some (Continue,
                            set_frameworkSorters a
                              (<[role := sorter_activate fs f]>
                                 (frameworkSorters a)))
                 else Some (Continue, a))
              (elements (fw_roles fw))) with (a := a0) as [Hret Heff].
  { intros role b. destruct (frameworkSorters b !! role) as [fs|] eqn:Hfs;
      [|done]. simpl. unfold g. case_bool_decide; simpl; [|done].
    rewrite insert_id by done. by destruct b. }
  { apply NoDup_elements. }
  unfold activateFramework. rewrite Hi, Hfw. simpl. fold a0. split.
  - rewrite is_Some_bind_Some, Hret.
    by setoid_rewrite elem_of_elements.
  - intros a' H. apply bind_Some in H as (a1 & Ha1 & [= <-]).
    destruct (Heff a1 Ha1) as (Heq & Hin & Hout).
    assert (forall role g0, activeIn (allocateAll a1) role g0
                            = activeIn a1 role g0) as Hall.
    { intros role g0. unfold activeIn, allocateAll, allocate.
      destruct (paused a1); [done|]. simpl.
      by destruct (allocation_isPending a1). }
    assert (frameworks (allocateAll a1) = frameworks a1
            /\ slaves (allocateAll a1) = slaves a1) as [Hf1 Hs1].
    { unfold allocateAll, allocate. destruct (paused a1); [done|]. simpl.
      by destruct (allocation_isPending a1). }
    split_and!.
    + rewrite Hf1, Heq. done.
    + intros role fs Hrole%elem_of_elements Hsup Hfs. rewrite Hall.
      destruct (Hin role Hrole) as (fs0 & Hfs0 & Hfs').
      simpl in Hfs0. simplify_eq. unfold activeIn. rewrite Hfs'.
      unfold g. rewrite bool_decide_eq_false_2 by done.
      rewrite client_isActive_activate. by rewrite decide_True.
    + intros role g0 Hcond. rewrite Hall. unfold activeIn.
      destruct (decide (role ∈ elements (fw_roles fw))) as [Hrole|Hrole].
      * destruct (Hin role Hrole) as (fs & Hfs & Hfs'). simpl in Hfs.
        rewrite Hfs', Hfs. unfold g. case_bool_decide as Hsup; [done|].
        rewrite client_isActive_activate.
        destruct Hcond as [Hg|[Hr|Hr]]; [by rewrite decide_False| |done].
        by apply elem_of_elements in Hrole.
      * by rewrite (Hout role Hrole).
    + rewrite Hs1, Heq. done.
    + intros Hp. assert (paused a1 = false) as Hp1 by (by rewrite Heq).
      unfold allocateAll, allocate. rewrite Hp1. simpl.
      assert (allocationCandidates a1 = allocationCandidates a
              /\ slaves a1 = slaves a) as [-> ->] by (by rewrite Heq).
      by destruct (allocation_isPending a1) eqn:Hpd.
    + intros Hp. assert (paused a1 = true) as Hp1 by (by rewrite Heq).
      unfold allocateAll, allocate. rewrite Hp1. by rewrite Heq.
Qed.

End FrameworkTheorems.

(** ** Registration of frameworks *)

Section RegistrationTheorems.
Context `{RA : ResourcesAlgebra} `{Env : !AllocatorEnv}.

Lemma client_isActive_add_eq S c g :
  client_isActive (sorter_add S c) g = client_isActive S g.
Proof.
  unfold client_isActive, sorter_add.
  destruct (clients S !! c) as [x|] eqn:Hc; [done|]. simpl.
  destruct (decide (c = g)) as [<-|Hn].
  - by rewrite lookup_insert_eq, Hc.
  - by rewrite lookup_insert_ne.
Qed.

(** Tracking changes nobody's activity. *)
Lemma trackFrameworkUnderRole_activeIn a f role a' :
  trackFrameworkUnderRole a f role = Some a' ->
  forall r g, activeIn a' r g = activeIn a r g.
Proof.
  intros H r g. unfold trackFrameworkUnderRole in H.
  destruct (initialized a); [|done]. simpl in H.
  apply bind_Some in H as (a1 & H1 & H).
  apply bind_Some in H as (fws & Hfws & H).
  destruct (negb (bool_decide (f ∈ fws))); [|done]. simpl in H.
  apply bind_Some in H as (fs & Hfs & H).
  destruct (negb (sorter_contains fs f)); [|done]. simpl in H.
  injection H as <-. simpl in Hfs. unfold activeIn. simpl.
  destruct (decide (role = r)) as [<-|Hn].
  - rewrite lookup_insert_eq, client_isActive_add_eq.
    destruct (map_contains (roles a) role).
    + injection H1 as <-. by rewrite Hfs.
    + destruct (negb (sorter_contains (roleSorter _) role)); [|done].
      simpl in H1.
      destruct (negb (map_contains _ role)) eqn:Hno; [|done]. simpl in H1.
      injection H1 as <-. simpl in Hfs, Hno. rewrite lookup_insert_eq in Hfs.
      injection Hfs as <-. rewrite client_isActive_fold_addSlave.
      apply negb_true_iff, map_contains_false in Hno. by rewrite Hno.
  - rewrite lookup_insert_ne by done.
    destruct (map_contains (roles a) role).
    + by injection H1 as <-.
    + destruct (negb (sorter_contains (roleSorter _) role)); [|done].
      simpl in H1.
      destruct (negb (map_contains _ role)); [|done]. simpl in H1.
      injection H1 as <-. simpl. by rewrite lookup_insert_ne.
Qed.

Lemma trackFrameworkUnderRole_tracking a f role a' :
  trackingConsistent a ->
  trackFrameworkUnderRole a f role = Some a' ->
  forall g r,
    isFrameworkTrackedUnderRole a' g r = true <->
    (g = f /\ r = role) \/ isFrameworkTrackedUnderRole a g r = true.
Proof.
  intros Hwf H g r.
  pose proof (trackFrameworkUnderRole_untracked _ _ _ _ H) as Hnot.
  destruct (trackFrameworkUnderRole_consistent a f role a' Hwf Hnot H)
    as [_ Hr].
  rewrite !isTracked_true, Hr.
  destruct (decide (role = r)) as [<-|Hn].
  - rewrite lookup_insert_eq. split.
    + intros (fws & [= <-] & [Hg%elem_of_singleton | Hg]%elem_of_union);
        [by left|right].
      destruct (roles a !! role) as [fws|]; [by exists fws|].
      by apply elem_of_empty in Hg.
    + intros [[-> _] | (fws & Hfws & Hg)]; eexists; (split; [done|]).
      * apply elem_of_union_l. by apply elem_of_singleton.
      * rewrite Hfws. by apply elem_of_union_r.
  - rewrite lookup_insert_ne by done. split; [by right|].
    by intros [[_ ->] | ?].
Qed.

Lemma untrackFrameworkUnderRole_tracking a f role a' :
  trackingConsistent a ->
  untrackFrameworkUnderRole a f role = Some a' ->
  forall g r,
    isFrameworkTrackedUnderRole a' g r = true <->
    ~ (g = f /\ r = role) /\ isFrameworkTrackedUnderRole a g r = true.
Proof.
  intros Hwf H g r.
  destruct (untrackFrameworkUnderRole_consistent a f role a' Hwf H)
    as (_ & fws & Hr & Hf & Hr').
  rewrite !isTracked_true, Hr'.
  destruct (decide (role = r)) as [<-|Hn].
  - case_bool_decide as Hempty.
    + rewrite lookup_delete_eq. split; [by intros (? & ? & _)|].
      intros (Hne & fws' & Hfws' & Hg). simplify_eq.
      assert (g ∈ fws ∖ {[f]}) as Hin.
      { apply elem_of_difference. split; [done|].
        rewrite elem_of_singleton. intros ->. by apply Hne. }
      rewrite Hempty in Hin. by apply elem_of_empty in Hin.
    + rewrite lookup_insert_eq. split.
      * intros (? & [= <-] & [Hg Hgf]%elem_of_difference).
        rewrite elem_of_singleton in Hgf. split; [by intros [? _]|].
        by exists fws.
      * intros (Hne & fws' & Hfws' & Hg). simplify_eq.
        eexists. split; [done|]. apply elem_of_difference.
        split; [done|]. rewrite elem_of_singleton. intros ->.
        by apply Hne.
  - assert ((if bool_decide (fws ∖ {[f]} = ∅)
             then delete role (roles a)
             else <[role:=fws ∖ {[f]}]> (roles a)) !! r = roles a !! r)
      as ->.
    { case_bool_decide; [by rewrite lookup_delete_ne
                        |by rewrite lookup_insert_ne]. }
    split; [|by intros [_ ?]]. intros H0. split; [|done].
    by intros [_ ->].
Qed.

(** An active client of a framework sorter is tracked under the role. *)
Lemma activeIn_tracked a role f :
  trackingConsistent a -> activeIn a role f = true ->
  isFrameworkTrackedUnderRole a f role = true.
Proof.
  intros (Hsc & _ & _) Hact. unfold activeIn in Hact.
  destruct (frameworkSorters a !! role) as [fs|] eqn:Hfs; [|done].
  apply isTracked_true. exists (dom (clients fs)). split.
  - by rewrite <- Hsc, sorterClients_lookup, Hfs.
  - unfold client_isActive in Hact. apply elem_of_dom.
    by destruct (clients fs !! f).
Qed.

Lemma untrackFrameworkUnderRole_outside a f role a' :
  untrackFrameworkUnderRole a f role = Some a' -> sameOutsideTracking a a'.
Proof.
  intros H. unfold untrackFrameworkUnderRole in H.
  destruct (initialized a); [|done]. simpl in H.
  apply bind_Some in H as (fws & Hfws & H).
  destruct (bool_decide (f ∈ fws)); [|done]. simpl in H.
  apply bind_Some in H as (fs & Hfs & H).
  destruct (sorter_contains fs f); [|done]. simpl in H.
  destruct (bool_decide (fws ∖ {[f]} = ∅)).
  - destruct (bool_decide (_ = 0%nat)); [|done]. simpl in H.
    injection H as <-. by repeat split.
  - injection H as <-. by repeat split.
Qed.

Lemma untrackAllocatedResources_outside a s f R a' :
  untrackAllocatedResources a s f R = Some a' -> sameOutsideTracking a a'.
Proof.
  intros H. unfold untrackAllocatedResources in H.
  destruct (map_contains (frameworks a) f); [|done]. simpl in H.
  eapply (foreach_inv (sameOutsideTracking a));
    [| exact H | apply sameOutsideTracking_refl].
  intros [role allocation] b c b' _ Hb Hab.
  eapply sameOutsideTracking_trans; [exact Hab|].
  destruct (sorter_contains (roleSorter b) role); [|done]. simpl in Hb.
  apply bind_Some in Hb as (fs & Hfs & Hb).
  destruct (sorter_contains fs f); [|done]. simpl in Hb.
  injection Hb as _ <-. destruct (map_contains _ _); by repeat split.
Qed.

(** What the loop of [removeFramework] over the roles keeps and reaches. *)
Lemma removeFramework_roles a f (l : list string) a1 :
  trackingConsistent a ->
  foreach l
    (fun role a =>
       match frameworkSorters a !! role with
       | None => Some (Continue, a)
       | Some fs =>
           if negb (sorter_contains fs f) then Some (Continue, a)
           else
             let allocation := sorter_allocation fs f in
             a' ← foreach (map_to_list allocation)
                    (fun '(slaveId, allocated_) a =>
                       a' ← untrackAllocatedResources a slaveId f
                              allocated_;
                       Some (Continue, a'))
                    a;
             a'' ← untrackFrameworkUnderRole a' f role;
             Some (Continue, a'')
       end) a = Some a1 ->
  trackingConsistent a1 /\ sameOutsideTracking a a1 /\
  (forall g r, isFrameworkTrackedUnderRole a1 g r = true ->
     isFrameworkTrackedUnderRole a g r = true) /\
  (forall g r, g <> f ->
     isFrameworkTrackedUnderRole a1 g r = isFrameworkTrackedUnderRole a g r) /\
  (forall r, r ∈ l -> isFrameworkTrackedUnderRole a1 f r = false).
Proof.
  intros Hwf H.
  pose (J := fun (seen : list string) (b : Allocator) =>
    trackingConsistent b /\ sameOutsideTracking a b /\
    (forall g r, isFrameworkTrackedUnderRole b g r = true ->
       isFrameworkTrackedUnderRole a g r = true) /\
    (forall g r, g <> f ->
       isFrameworkTrackedUnderRole b g r
       = isFrameworkTrackedUnderRole a g r) /\
    (forall r, r ∈ seen -> isFrameworkTrackedUnderRole b f r = false)).
  cut (J l a1); [done|].
  eapply (foreach_accum J); [| | exact H].
  - intros seen role b c b' (Hwb & Hout & Hsub & Hoth & Hseen) Hb.
    cbv beta in Hb.
    assert (forall b0, trackingConsistent b0 ->
              (forall g r, isFrameworkTrackedUnderRole b0 g r
                           = isFrameworkTrackedUnderRole b g r) ->
              isFrameworkTrackedUnderRole b0 f role = false ->
              sameOutsideTracking b b0 -> J (seen ++ [role]) b0) as Hskip.
    { intros b0 Hw0 Heq Hno Hout0. split_and!; [done| | | |].
      - by eapply sameOutsideTracking_trans.
      - intros g r. rewrite Heq. apply Hsub.
      - intros g r Hg. rewrite Heq. by apply Hoth.
      - intros r [Hr| ->%list_elem_of_singleton]%elem_of_app; [|done].
        rewrite Heq. by apply Hseen. }
    destruct (frameworkSorters b !! role) as [fs|] eqn:Hfs.
    + destruct (negb (sorter_contains fs f)) eqn:Hcont.
      * injection Hb as <- <-. split; [done|].
        apply Hskip; [done | done | | apply sameOutsideTracking_refl].
        apply not_true_is_false. intros (fws & Hfws & Hin)%isTracked_true.
        destruct (trackingConsistent_sorter b role fws Hwb Hfws)
          as (fs' & Hfs' & Hdom). simplify_eq.
        apply negb_true_iff, sorter_contains_false in Hcont. done.
      * apply bind_Some in Hb as (b1 & Hb1 & Hb).
        apply bind_Some in Hb as (b2 & Hb2 & Hb). injection Hb as <- <-.
        split; [done|].
        assert (sameTracking b b1 /\ sameOutsideTracking b b1)
          as [Hst1 Hout1].
        { eapply (foreach_inv (fun x => sameTracking b x /\
                                        sameOutsideTracking b x));
            [| exact Hb1 |].
          - intros [s R] d c' d' _ Hd [Hsd Hod].
            apply bind_Some in Hd as (d1 & Hd1 & Hd). injection Hd as _ <-.
            split.
            + eapply sameTracking_trans; [exact Hsd|].
              by eapply untrackAllocatedResources_sameTracking.
            + eapply sameOutsideTracking_trans; [exact Hod|].
              by eapply untrackAllocatedResources_outside.
          - split; [apply sameTracking_refl|apply sameOutsideTracking_refl]. }
        assert (trackingConsistent b1) as Hw1
          by (by eapply trackingConsistent_same).
        pose proof (untrackFrameworkUnderRole_tracking b1 f role b2 Hw1 Hb2)
          as Htr.
        destruct (untrackFrameworkUnderRole_consistent b1 f role b2 Hw1 Hb2)
          as [Hw2 _].
        assert (forall g r, isFrameworkTrackedUnderRole b1 g r
                            = isFrameworkTrackedUnderRole b g r) as Heq1
          by (intros g r; by apply isFrameworkTrackedUnderRole_same).
        split_and!; [done| | | |].
        -- eapply sameOutsideTracking_trans; [exact Hout|].
           eapply sameOutsideTracking_trans; [exact Hout1|].
           by eapply untrackFrameworkUnderRole_outside.
        -- intros g r [_ Hg]%Htr. apply Hsub. by rewrite <- Heq1.
        -- intros g r Hg. rewrite <- (Hoth g r Hg), <- Heq1.
           apply Bool.eq_iff_eq_true. rewrite Htr. split; [by intros [_ ?]|].
           intros Ht. split; [|done]. by intros [-> _].
        -- intros r [Hr| ->%list_elem_of_singleton]%elem_of_app.
           ++ apply not_true_is_false. intros [_ Ht]%Htr.
              rewrite Heq1, (Hseen r Hr) in Ht. done.
           ++ apply not_true_is_false. intros [Hne _]%Htr. by apply Hne.
    + injection Hb as <- <-. split; [done|].
      apply Hskip; [done | done | | apply sameOutsideTracking_refl].
      apply not_true_is_false. intros (fws & Hfws & Hin)%isTracked_true.
      destruct (trackingConsistent_sorter b role fws Hwb Hfws)
        as (fs' & Hfs' & _). congruence.
  - unfold J. split_and!; [done|apply sameOutsideTracking_refl|done|done|].
    by intros r ?%elem_of_nil.
Qed.

(** X18. [removeFramework] on an initialized allocator whose registry is
    consistent aborts for an unknown framework. For a known framework,
    when it returns: the framework is unknown afterwards and is tracked
    under none of its roles; no other framework loses or gains a role;
    agents and candidates are untouched; removing the framework again
    aborts; and the next allocation run offers it nothing in its roles. *)
Theorem removeFramework_spec (a : Allocator) (f : FrameworkID)
    (fw : Framework) :
  initialized a = true ->
  trackingConsistent a ->
  frameworks a !! f = Some fw ->
  (forall g, frameworks a !! g = None -> removeFramework a g = None) /\
  forall a', removeFramework a f = Some a' ->
    frameworks a' = delete f (frameworks a) /\
    slaves a' = slaves a /\
    allocationCandidates a' = allocationCandidates a /\
    (forall role, role ∈ fw_roles fw ->
       isFrameworkTrackedUnderRole a' f role = false) /\
    (forall g role, g <> f ->
       isFrameworkTrackedUnderRole a' g role
       = isFrameworkTrackedUnderRole a g role) /\
    removeFramework a' f = None /\
    (forall run role s, role ∈ fw_roles fw -> __allocate a' = Some run ->
       ~ offerMade run f role s).
Proof.
  intros Hi Hwf Hfw. split.
  - intros g Hg. unfold removeFramework. by rewrite Hi, Hg.
  - intros a' H. pose proof H as H0. unfold removeFramework in H0.
    rewrite Hi, Hfw in H0. simpl in H0.
    apply bind_Some in H0 as (a1 & Ha1 & [= <-]).
    destruct (removeFramework_roles a f _ a1 Hwf Ha1)
      as (Hw1 & Hout & Hsub & Hoth & Hseen).
    destruct Hout as (H1 & H2 & H3 & H4 & H5 & H6 & H7 & H8 & H9 & H10 & H11).
    assert (forall role, role ∈ fw_roles fw ->
              isFrameworkTrackedUnderRole
                (set_frameworks a1 (delete f (frameworks a1))) f role
              = false) as Hgone.
    { intros role Hrole. apply (Hseen role). by apply elem_of_elements. }
    split_and!; simpl; try congruence.
    + exact Hgone.
    + exact Hoth.
    + unfold removeFramework. simpl. rewrite H1, Hi. simpl.
      by rewrite lookup_delete_eq.
    + intros run role s Hrole Hrun Hmade.
      apply __allocate_runInv in Hrun as (cands & _ & Hoffers & _ & _ & Hinv).
      apply (offerMade_offeredTo _ _ _ _ Hoffers) in Hmade.
      apply Hinv in Hmade as [Hact _].
      apply activeIn_tracked in Hact.
      * rewrite (Hgone role Hrole) in Hact. done.
      * eapply trackingConsistent_same; [apply set_frameworks_sameTracking|].
        exact Hw1.
Qed.

(** What [trackAllocatedResources] does to the registry and to the
    activity of the clients. *)
Lemma trackAllocatedResources_effect a s f R a' :
  trackingConsistent a ->
  trackAllocatedResources a s f R = Some a' ->
  trackingConsistent a' /\
  (forall r g, activeIn a' r g = activeIn a r g) /\
  (forall g r, isFrameworkTrackedUnderRole a g r = true ->
     isFrameworkTrackedUnderRole a' g r = true) /\
  (forall g r, g <> f ->
     isFrameworkTrackedUnderRole a' g r = isFrameworkTrackedUnderRole a g r).
Proof.
  intros Hwf H. unfold trackAllocatedResources in H.
  destruct (map_contains (slaves a) s); [|done].
  destruct (map_contains (frameworks a) f); [|done]. simpl in H.
  eapply (foreach_inv (fun b =>
    trackingConsistent b /\
    (forall r g, activeIn b r g = activeIn a r g) /\
    (forall g r, isFrameworkTrackedUnderRole a g r = true ->
       isFrameworkTrackedUnderRole b g r = true) /\
    (forall g r, g <> f ->
       isFrameworkTrackedUnderRole b g r
       = isFrameworkTrackedUnderRole a g r))); [| exact H | done].
  intros [role allocation] b c b' _ Hb (Hwb & Hact & Hsub & Hoth).
  apply bind_Some in Hb as (b1 & Hb1 & Hb).
  assert (trackingConsistent b1 /\
          (forall r g, activeIn b1 r g = activeIn b r g) /\
          (forall g r, isFrameworkTrackedUnderRole b g r = true ->
             isFrameworkTrackedUnderRole b1 g r = true) /\
          (forall g r, g <> f ->
             isFrameworkTrackedUnderRole b1 g r
             = isFrameworkTrackedUnderRole b g r))
    as (Hw1 & Hact1 & Hsub1 & Hoth1).
  { destruct (isFrameworkTrackedUnderRole b f role) eqn:Ht; simpl in Hb1.
    - by simplify_eq.
    - pose proof (trackFrameworkUnderRole_tracking b f role b1 Hwb Hb1)
        as Htr.
      split_and!.
      + by eapply trackFrameworkUnderRole_keeps.
      + by apply (trackFrameworkUnderRole_activeIn b f role).
      + intros g r Hg. apply Htr. by right.
      + intros g r Hg. apply Bool.eq_iff_eq_true. rewrite Htr.
        split; [|by right]. by intros [[-> _]|?]. }
  destruct (sorter_contains (roleSorter b1) role); [|done]. simpl in Hb.
  apply bind_Some in Hb as (fs & Hfs & Hb).
  destruct (sorter_contains fs f); [|done]. simpl in Hb.
  injection Hb as _ <-.
  assert (forall g r,
            isFrameworkTrackedUnderRole
              (if map_contains (quotaGuarantees b1) role
               then set_quotaRoleSorter
                      (set_frameworkSorters
                         (set_roleSorter b1
                            (sorter_allocated (roleSorter b1) role s
                               allocation))
                         (<[role := sorter_allocated fs f s allocation]>
                            (frameworkSorters b1)))
                      (sorter_allocated (quotaRoleSorter b1) role s
                         (nonRevocable allocation))
               else set_frameworkSorters
                      (set_roleSorter b1
                         (sorter_allocated (roleSorter b1) role s
                            allocation))
                      (<[role := sorter_allocated fs f s allocation]>
                         (frameworkSorters b1))) g r
            = isFrameworkTrackedUnderRole b1 g r) as Heq
    by (intros g r; by destruct (map_contains _ role)).
  split_and!.
  - eapply trackingConsistent_same; [|exact Hw1].
    destruct (map_contains _ role); (split; [done|]);
      (split; [apply dom_clients_allocated|]);
      unfold sorterClients; simpl;
      by eapply clientSets_insert; [|apply dom_clients_allocated].
  - intros r g. rewrite <- Hact, <- Hact1. unfold activeIn.
    destruct (map_contains _ role); simpl;
      (destruct (decide (role = r)) as [<-|Hn];
       [rewrite lookup_insert_eq, client_isActive_allocated, Hfs
       |rewrite lookup_insert_ne by done]; done).
  - intros g r Hg. simpl in Heq. rewrite Heq. by apply Hsub1, Hsub.
  - intros g r Hg. simpl in Heq. rewrite Heq, Hoth1 by done. by apply Hoth.
Qed.

(** What the loop of [addFramework] over the roles keeps and reaches. *)
Lemma addFramework_roles a0 f (sup : gset string) (l : list string) a2 :
  trackingConsistent a0 ->
  foreach l
    (fun role a =>
       a' ← trackFrameworkUnderRole a f role;
       fs ← frameworkSorters a' !! role;
       let fs' := if bool_decide (role ∈ sup)
                  then sorter_deactivate fs f
                  else sorter_activate fs f in
       Some (Continue,
             set_frameworkSorters a'
               (<[role := fs']> (frameworkSorters a')))) a0 = Some a2 ->
  trackingConsistent a2 /\ sameOutsideTracking a0 a2 /\
  (forall r, r ∈ l ->
     isFrameworkTrackedUnderRole a0 f r = false /\
     isFrameworkTrackedUnderRole a2 f r = true /\
     activeIn a2 r f = negb (bool_decide (r ∈ sup))) /\
  (forall g r, g <> f ->
     isFrameworkTrackedUnderRole a2 g r = isFrameworkTrackedUnderRole a0 g r
     /\ activeIn a2 r g = activeIn a0 r g).
Proof.
  intros Hwf H.
  pose (J := fun (seen : list string) (b : Allocator) =>
    trackingConsistent b /\ sameOutsideTracking a0 b /\
    (forall r, r ∈ seen ->
       isFrameworkTrackedUnderRole a0 f r = false /\
       isFrameworkTrackedUnderRole b f r = true /\
       activeIn b r f = negb (bool_decide (r ∈ sup))) /\
    (forall g r, g <> f ->
       isFrameworkTrackedUnderRole b g r = isFrameworkTrackedUnderRole a0 g r
       /\ activeIn b r g = activeIn a0 r g) /\
    (forall r, r ∉ seen ->
       isFrameworkTrackedUnderRole b f r
       = isFrameworkTrackedUnderRole a0 f r)).
  cut (J l a2); [by intros (? & ? & ? & ? & _)|].
  eapply (foreach_accum J); [| | exact H].
  - intros seen role b c b' (Hwb & Hout & Hseen & Hoth & Hrest) Hb.
    apply bind_Some in Hb as (b1 & Hb1 & Hb).
    apply bind_Some in Hb as (fs & Hfs & Hb). injection Hb as <- <-.
    split; [done|].
    pose proof (trackFrameworkUnderRole_untracked _ _ _ _ Hb1) as Hnot.
    pose proof (trackFrameworkUnderRole_tracking b f role b1 Hwb Hb1) as Htr.
    pose proof (trackFrameworkUnderRole_activeIn b f role b1 Hb1) as Hact1.
    pose proof (trackFrameworkUnderRole_keeps b f role b1 Hwb Hb1) as Hw1.
    assert (role ∉ seen) as Hfresh.
    { intros Hin. destruct (Hseen role Hin) as (_ & Ht & _). congruence. }
    assert (sorter_contains fs f = true) as Hcl.
    { assert (isFrameworkTrackedUnderRole b1 f role = true) as Ht
        by (apply Htr; by left).
      apply isTracked_true in Ht as (fws & Hfws & Hin).
      destruct (trackingConsistent_sorter b1 role fws Hw1 Hfws)
        as (fs' & Hfs' & Hdom). simplify_eq.
      by apply sorter_contains_true. }
    split_and!.
    + eapply trackingConsistent_same; [|exact Hw1].
      eapply set_sorter_sameTracking; [exact Hfs|].
      destruct (bool_decide (role ∈ sup));
        [apply dom_clients_deactivate | apply dom_clients_activate].
    + eapply sameOutsideTracking_trans; [exact Hout|].
      eapply sameOutsideTracking_trans;
        [by eapply trackFrameworkUnderRole_outside|]. by repeat split.
    + intros r [Hr| ->%list_elem_of_singleton]%elem_of_app.
      * destruct (Hseen r Hr) as (H0 & Ht & Ha). split_and!; [done| |].
        -- change (isFrameworkTrackedUnderRole b1 f r = true).
           apply Htr. by right.
        -- unfold activeIn. simpl.
           rewrite lookup_insert_ne by (intros ->; by apply Hfresh).
           rewrite <- Ha, <- Hact1. done.
      * split_and!.
        -- by rewrite <- (Hrest role Hfresh).
        -- change (isFrameworkTrackedUnderRole b1 f role = true).
           apply Htr. by left.
        -- unfold activeIn. simpl. rewrite lookup_insert_eq.
           case_bool_decide; simpl.
           ++ rewrite client_isActive_deactivate. by rewrite decide_True.
           ++ rewrite client_isActive_activate. by rewrite decide_True.
    + intros g r Hg. destruct (Hoth g r Hg) as [Ht Ha]. split.
      * rewrite <- Ht.
        change (isFrameworkTrackedUnderRole b1 g r
                = isFrameworkTrackedUnderRole b g r).
        apply Bool.eq_iff_eq_true. rewrite Htr.
        split; [|by right]. by intros [[-> _]|?].
      * rewrite <- Ha, <- Hact1. unfold activeIn. simpl.
        destruct (decide (role = r)) as [<-|Hn];
          [|by rewrite lookup_insert_ne].
        rewrite lookup_insert_eq, Hfs.
        destruct (bool_decide (role ∈ sup));
          [rewrite client_isActive_deactivate
          |rewrite client_isActive_activate]; by rewrite decide_False.
    + intros r Hr. rewrite <- Hrest
        by (intros Hin; apply Hr, elem_of_app; by left).
      change (isFrameworkTrackedUnderRole b1 f r
              = isFrameworkTrackedUnderRole b f r).
      apply Bool.eq_iff_eq_true. rewrite Htr.
      split; [|by right]. intros [[_ ->]|?]; [|done].
      exfalso. apply Hr, elem_of_app. right. by apply list_elem_of_singleton.
  - unfold J. split_and!; [done|apply sameOutsideTracking_refl| |done|done].
    by intros r ?%elem_of_nil.
Qed.

(** X19. [addFramework] on an initialized allocator whose registry is
    consistent aborts for a framework that is already known. When it
    returns, the framework is registered with the roles and capabilities
    of its info, the given suppressed roles and activity flag, and no
    filters; it was tracked under none of its roles before and is tracked
    under each of them now, and it is active in the sorter of a role
    exactly when it was added active and the role is not suppressed. No
    other framework changes its roles or its activity, the agents are
    untouched, a framework added active requests a run over all agents,
    and adding the framework again aborts. *)
Theorem addFramework_spec (a : Allocator) (f : FrameworkID)
    (i : FrameworkInfo) (used : gmap SlaveID Resources) (act : bool)
    (sup : gset string) :
  initialized a = true ->
  trackingConsistent a ->
  (is_Some (frameworks a !! f) -> addFramework a f i used act sup = None) /\
  forall a', addFramework a f i used act sup = Some a' ->
    frameworks a' = <[f := newFramework i sup act]> (frameworks a) /\
    slaves a' = slaves a /\
    (forall role, role ∈ fi_roles i ->
       isFrameworkTrackedUnderRole a f role = false /\
       isFrameworkTrackedUnderRole a' f role = true /\
       activeIn a' role f = act && negb (bool_decide (role ∈ sup))) /\
    (forall g role, g <> f ->
       isFrameworkTrackedUnderRole a' g role
       = isFrameworkTrackedUnderRole a g role /\
       activeIn a' role g = activeIn a role g) /\
    (act = true -> paused a = false ->
       allocationCandidates a' = allocationCandidates a ∪ dom (slaves a) /\
       allocation_isPending a' = true) /\
    (act = false -> allocationCandidates a' = allocationCandidates a) /\
    addFramework a' f i used act sup = None.
Proof.
  intros Hi Hwf. split.
  - intros Hf. unfold addFramework. rewrite Hi. simpl.
    apply map_contains_true in Hf. by rewrite Hf.
  - intros a' H. pose proof H as H0. unfold addFramework in H0.
    rewrite Hi in H0. simpl in H0.
    destruct (negb (map_contains (frameworks a) f)); [|done]. simpl in H0.
    apply bind_Some in H0 as (a2 & H2 & H0).
    apply bind_Some in H0 as (a3 & H3 & H0).
    pose (a1 := set_frameworks a
                  (<[f := newFramework i sup act]> (frameworks a))).
    assert (trackingConsistent a1) as Hw1
      by (eapply trackingConsistent_same;
          [apply set_frameworks_sameTracking|exact Hwf]).
    destruct (addFramework_roles a1 f sup _ a2 Hw1 H2)
      as (Hw2 & Hout2 & Hroles & Hoth2).
    assert (trackingConsistent a3 /\ sameOutsideTracking a2 a3 /\
            (forall r g, activeIn a3 r g = activeIn a2 r g) /\
            (forall g r, isFrameworkTrackedUnderRole a2 g r = true ->
               isFrameworkTrackedUnderRole a3 g r = true) /\
            (forall g r, g <> f ->
               isFrameworkTrackedUnderRole a3 g r
               = isFrameworkTrackedUnderRole a2 g r))
      as (Hw3 & Hout3 & Hact3 & Hsub3 & Hoth3).
    { eapply (foreach_inv (fun b =>
        trackingConsistent b /\ sameOutsideTracking a2 b /\
        (forall r g, activeIn b r g = activeIn a2 r g) /\
        (forall g r, isFrameworkTrackedUnderRole a2 g r = true ->
           isFrameworkTrackedUnderRole b g r = true) /\
        (forall g r, g <> f ->
           isFrameworkTrackedUnderRole b g r
           = isFrameworkTrackedUnderRole a2 g r))); [| exact H3 |].
      - intros [s R] b c b' _ Hb (Hwb & Hob & Hab & Hsb & Htb).
        cbv beta in Hb.
        destruct (negb (map_contains (slaves b) s)); [by simplify_eq|].
        apply bind_Some in Hb as (b1 & Hb1 & Hb). injection Hb as _ <-.
        destruct (trackAllocatedResources_effect b s f R b1 Hwb Hb1)
          as (Hwb1 & Hab1 & Hsb1 & Htb1).
        split_and!; [done| | | |].
        + eapply sameOutsideTracking_trans; [exact Hob|].
          by eapply trackAllocatedResources_outside.
        + intros r g. by rewrite Hab1.
        + intros g r Hg. by apply Hsb1, Hsb.
        + intros g r Hg. by rewrite Htb1, Htb.
      - split_and!; [done|apply sameOutsideTracking_refl|done|done|done]. }
    assert (sameOutsideTracking a1 a3) as Hout
      by (by eapply sameOutsideTracking_trans).
    destruct Hout as (G1 & G2 & G3 & G4 & G5 & G6 & G7 & G8 & G9 & G10 & G11).
    simpl in *.
    assert (addFramework a' f i used act sup = None) as Hagain.
    { unfold addFramework.
      destruct (initialized a'); [|done]. simpl.
      assert (map_contains (frameworks a') f = true) as ->; [|done].
      apply map_contains_true. destruct act.
      - injection H0 as <-.
        assert (frameworks (allocateAll a3) = frameworks a3) as ->.
        { unfold allocateAll, allocate. destruct (paused a3); [done|].
          simpl. by destruct (allocation_isPending a3). }
        rewrite G5, lookup_insert_eq. eauto.
      - assert (frameworks a3 !! f = Some (newFramework i sup false)) as Hf3
          by (by rewrite G5, lookup_insert_eq).
        destruct (deactivateFramework_effect a3 f _ a' Hf3 H0) as (-> & _).
        rewrite lookup_insert_eq. eauto. }
    destruct act.
    + injection H0 as <-.
      assert (forall g r, isFrameworkTrackedUnderRole (allocateAll a3) g r
                          = isFrameworkTrackedUnderRole a3 g r) as Ht.
      { intros g r. unfold allocateAll, allocate.
        destruct (paused a3); [done|]. simpl.
        by destruct (allocation_isPending a3). }
      assert (forall r g, activeIn (allocateAll a3) r g = activeIn a3 r g)
        as Ha.
      { intros r g. unfold allocateAll, allocate.
        destruct (paused a3); [done|]. simpl.
        by destruct (allocation_isPending a3). }
      split_and!.
      * rewrite <- G5. unfold allocateAll, allocate.
        destruct (paused a3); [done|]. simpl.
        by destruct (allocation_isPending a3).
      * rewrite <- G4. unfold allocateAll, allocate.
        destruct (paused a3); [done|]. simpl.
        by destruct (allocation_isPending a3).
      * intros role Hrole%elem_of_elements.
        destruct (Hroles role Hrole) as (Hn & Htr & Hac).
        rewrite Ht, Ha, Hact3. split_and!; [done|by apply Hsub3|done].
      * intros g role Hg. rewrite Ht, Ha, Hact3, Hoth3 by done.
        by apply Hoth2.
      * intros _ Hp. unfold allocateAll, allocate.
        rewrite G2. simpl. rewrite Hp. simpl. rewrite G7, G4. simpl.
        by destruct (allocation_isPending a3) eqn:Hpd.
      * done.
      * exact Hagain.
    + assert (frameworks a3 !! f = Some (newFramework i sup false)) as Hf3
        by (by rewrite G5, lookup_insert_eq).
      destruct (deactivateFramework_effect a3 f _ a' Hf3 H0)
        as (Hfws & Hoff & Hsame & _ & Hsl & Hcand).
      pose proof (deactivateFramework_sameTracking a3 f a' H0) as Hst.
      split_and!.
      * rewrite Hfws, G5, insert_insert_eq. done.
      * by rewrite Hsl.
      * intros role Hrole. pose proof Hrole as Hr'%elem_of_elements.
        destruct (Hroles role Hr') as (Hn & Htr & Hac).
        rewrite (isFrameworkTrackedUnderRole_same a3 a') by done.
        split_and!; [done|by apply Hsub3|]. by apply Hoff.
      * intros g role Hg.
        rewrite (isFrameworkTrackedUnderRole_same a3 a') by done.
        rewrite Hsame by (by left). rewrite Hact3, Hoth3 by done.
        by apply Hoth2.
      * done.
      * intros _. by rewrite Hcand.
      * exact Hagain.
Qed.

End RegistrationTheorems.

(** ** Recovered resources and new agents *)

Section AgentResourceTheorems.
Context `{RA : ResourcesAlgebra} `{Env : !AllocatorEnv}.

(** The first step of [recoverResources], on the sorters, leaves the agents
    and the frameworks alone. *)
Lemma recoverResources_untrack_outside a f s R role a1 :
  (if map_contains (frameworks a) f then
     fs ← frameworkSorters a !! role;
     if sorter_contains fs f then
       a' ← untrackAllocatedResources a s f R;
       fw ← frameworks a' !! f;
       fs' ← frameworkSorters a' !! role;
       if bool_decide (role ∉ fw_roles fw) &&
          map_isEmpty (sorter_allocation fs' f)
       then untrackFrameworkUnderRole a' f role
       else Some a'
     else Some a
   else Some a) = Some a1 ->
  sameOutsideTracking a a1.
Proof.
  intros H1.
  destruct (map_contains (frameworks a) f);
    [|simplify_eq; apply sameOutsideTracking_refl].
  apply bind_Some in H1 as (fs & _ & H1).
  destruct (sorter_contains fs f);
    [|simplify_eq; apply sameOutsideTracking_refl].
  apply bind_Some in H1 as (a0 & Hu & H1).
  apply untrackAllocatedResources_outside in Hu.
  apply bind_Some in H1 as (fw & _ & H1).
  apply bind_Some in H1 as (fs' & _ & H1).
  destruct (_ && _); [|by simplify_eq].
  apply untrackFrameworkUnderRole_outside in H1.
  by eapply sameOutsideTracking_trans.
Qed.

(** X20. [recoverResources] with non-empty resources on an initialized
    allocator, for a known agent. The call aborts when the resources are
    not allocated to exactly one role, and when the agent's allocation does
    not contain them. When it returns, the resources are taken off the
    agent's allocation and the agent is otherwise as before; the other
    agents, the allocation candidates and the pause flag are untouched, so
    no allocation run is requested. *)
Theorem recoverResources_allocation (a : Allocator) (f : FrameworkID)
    (s : SlaveID) (R : Resources) (flt : option Filters) (sl : Slave) :
  initialized a = true ->
  r_empty R = false ->
  slaves a !! s = Some sl ->
  (size (r_allocations R) <> 1%nat ->
     recoverResources a f s R flt = None) /\
  (r_contains (getAllocated sl) R = false ->
     recoverResources a f s R flt = None) /\
  forall a', recoverResources a f s R flt = Some a' ->
    r_contains (getAllocated sl) R = true /\
    slaves a' = <[s := slave_unallocate sl R]> (slaves a) /\
    getAllocated (slave_unallocate sl R) = r_minus (getAllocated sl) R /\
    getTotal (slave_unallocate sl R) = getTotal sl /\
    allocationCandidates a' = allocationCandidates a /\
    allocation_isPending a' = allocation_isPending a /\
    paused a' = paused a.
Proof.
  intros Hi HR Hsl. unfold recoverResources. rewrite Hi, HR. simpl.
  split_and!.
  - intros Hsize. by rewrite bool_decide_eq_false_2.
  - intros Hnot.
    destruct (bool_decide (size (r_allocations R) = 1%nat)); [|done]. simpl.
    destruct (fst <$> head (map_to_list (r_allocations R))) as [role|];
      [|done]. simpl.
    match goal with
    | |- (?m ≫= _) = None => destruct m as [a1|] eqn:H1; [|done]
    end. simpl.
    apply recoverResources_untrack_outside in H1
      as (_ & _ & _ & Hs1 & _).
    assert (map_contains (slaves a1) s = true) as ->
      by (apply map_contains_true; rewrite Hs1; eauto).
    rewrite Hs1, Hsl. simpl. by rewrite Hnot.
  - intros a' H.
    apply bind_Some in H as (_ & _ & H).
    apply bind_Some in H as (role & Hrole & H).
    apply bind_Some in H as (a1 & H1 & H).
    apply bind_Some in H as (a2 & H2 & H).
    apply recoverResources_untrack_outside in H1
      as (_ & Hp1 & _ & Hs1 & _ & _ & Hc1 & _ & _ & Hpd1 & _).
    assert (map_contains (slaves a1) s = true) as Hin
      by (apply map_contains_true; rewrite Hs1; eauto).
    rewrite Hin, Hs1, Hsl in H2. simpl in H2.
    destruct (r_contains (getAllocated sl) R) eqn:Hcont; [|done].
    simpl in H2. injection H2 as <-.
    assert (slaves a' = <[s := slave_unallocate sl R]> (slaves a) /\
            allocationCandidates a' = allocationCandidates a /\
            allocation_isPending a' = allocation_isPending a /\
            paused a' = paused a) as (? & ? & ? & ?).
    { destruct flt as [x|]; [|by simplify_eq].
      destruct (_ || _); [by simplify_eq|].
      apply bind_Some in H as (t & Ht & H).
      destruct (negb _); [|by simplify_eq].
      apply bind_Some in H as (fw & Hfw & H). by simplify_eq. }
    by split_and!.
Qed.

End AgentResourceTheorems.

Section NewAgentTheorems.
Context `{RA : ResourcesAlgebra} `{Env : !AllocatorEnv}.

Lemma trackFrameworkUnderRole_totals a f role a' :
  trackFrameworkUnderRole a f role = Some a' ->
  sorter_total (roleSorter a') = sorter_total (roleSorter a) /\
  quotaRoleSorter a' = quotaRoleSorter a /\
  forall r fs, frameworkSorters a !! r = Some fs ->
    exists fs', frameworkSorters a' !! r = Some fs' /\
                sorter_total fs' = sorter_total fs.
Proof.
  intros H. unfold trackFrameworkUnderRole in H.
  destruct (initialized a); [|done]. simpl in H.
  apply bind_Some in H as (a1 & H1 & H).
  apply bind_Some in H as (fws & Hfws & H).
  destruct (negb (bool_decide (f ∈ fws))); [|done]. simpl in H.
  apply bind_Some in H as (fs & Hfs & H).
  destruct (negb (sorter_contains fs f)); [|done]. simpl in H.
  injection H as <-. simpl in *.
  assert (sorter_total (sorter_add fs f) = sorter_total fs) as Hadd
    by (unfold sorter_add; by destruct (clients fs !! f)).
  destruct (map_contains (roles a) role).
  - injection H1 as <-. split_and!; [done|done|].
    intros r fs0 Hfs0. destruct (decide (role = r)) as [<-|Hn].
    + rewrite lookup_insert_eq. simplify_eq. eauto.
    + rewrite lookup_insert_ne by done. eauto.
  - destruct (negb (sorter_contains (roleSorter _) role)); [|done].
    simpl in H1.
    destruct (negb (map_contains _ role)) eqn:Hno; [|done]. simpl in H1.
    injection H1 as <-. simpl in *.
    apply negb_true_iff, map_contains_false in Hno.
    split_and!; [|done|].
    + unfold sorter_add. by destruct (clients (roleSorter a) !! role).
    + intros r fs0 Hfs0. destruct (decide (role = r)) as [<-|Hn];
        [congruence|].
      rewrite !lookup_insert_ne by done. eauto.
Qed.

Lemma trackAllocatedResources_totals a s f R a' :
  trackAllocatedResources a s f R = Some a' ->
  sorter_total (roleSorter a') = sorter_total (roleSorter a) /\
  sorter_total (quotaRoleSorter a') = sorter_total (quotaRoleSorter a) /\
  forall r fs, frameworkSorters a !! r = Some fs ->
    exists fs', frameworkSorters a' !! r = Some fs' /\
                sorter_total fs' = sorter_total fs.
Proof.
  intros H. unfold trackAllocatedResources in H.
  destruct (map_contains (slaves a) s); [|done].
  destruct (map_contains (frameworks a) f); [|done]. simpl in H.
  eapply (foreach_inv (fun b =>
    sorter_total (roleSorter b) = sorter_total (roleSorter a) /\
    sorter_total (quotaRoleSorter b) = sorter_total (quotaRoleSorter a) /\
    forall r fs, frameworkSorters a !! r = Some fs ->
      exists fs', frameworkSorters b !! r = Some fs' /\
                  sorter_total fs' = sorter_total fs));
    [| exact H | by eauto].
  intros [role allocation] b c b' _ Hb (Hr & Hq & Hf).
  apply bind_Some in Hb as (b1 & Hb1 & Hb).
  assert (sorter_total (roleSorter b1) = sorter_total (roleSorter b) /\
          quotaRoleSorter b1 = quotaRoleSorter b /\
          forall r fs, frameworkSorters b !! r = Some fs ->
            exists fs', frameworkSorters b1 !! r = Some fs' /\
                        sorter_total fs' = sorter_total fs)
    as (Hr1 & Hq1 & Hf1).
  { destruct (negb (isFrameworkTrackedUnderRole b f role)).
    - by eapply trackFrameworkUnderRole_totals.
    - injection Hb1 as <-. eauto. }
  destruct (sorter_contains (roleSorter b1) role); [|done]. simpl in Hb.
  apply bind_Some in Hb as (fs & Hfs & Hb).
  destruct (sorter_contains fs f); [|done]. simpl in Hb.
  injection Hb as _ <-.
  split_and!.
  - rewrite <- Hr, <- Hr1. by destruct (map_contains _ role).
  - rewrite <- Hq, <- Hq1. by destruct (map_contains _ role).
  - intros r fs0 Hfs0. destruct (Hf r fs0 Hfs0) as (fs1 & Hfs1 & Ht1).
    destruct (Hf1 r fs1 Hfs1) as (fs2 & Hfs2 & Ht2).
    assert (exists fs',
              <[role := sorter_allocated fs f s allocation]>
                (frameworkSorters b1) !! r = Some fs' /\
              sorter_total fs' = sorter_total fs0) as Hres.
    { destruct (decide (role = r)) as [<-|Hn].
      - rewrite lookup_insert_eq. eexists. split; [done|]. simpl.
        simplify_eq. congruence.
      - rewrite lookup_insert_ne by done. exists fs2. split; [done|].
        congruence. }
    by destruct (map_contains _ role).
Qed.

Lemma sorter_addSlave_knows `{Laws : !ResourcesLaws} S s new :
  sorterKnows S s r_none -> sorterKnows (sorter_addSlave S s new) s new.
Proof.
  unfold sorterKnows, sorter_addSlave. intros Hold.
  destruct (r_empty new) eqn:Hn.
  - apply r_empty_none in Hn. by subst.
  - simpl. rewrite lookup_insert_eq. simpl. rewrite Hold.
    apply r_plus_none_l.
Qed.

(** X21. [addSlave] on an initialized allocator aborts for an agent that is
    already known, for an id that differs from the id in the agent's info,
    and on a paused allocator that expects no agents. When it returns, the
    agent is registered, activated, with the given total, with the sum of
    the used resources as its allocation and with the given unavailability
    as its maintenance; the other agents and the frameworks are untouched;
    every sorter that recorded nothing for the agent records its total, the
    quota role sorter the non-revocable part of it; unless the allocator is
    still paused the agent is an allocation candidate of a pending run, and
    eligible for it when the whitelist admits its hostname; and adding the
    agent again aborts. *)
Theorem addSlave_spec `{Laws : !ResourcesLaws} (a : Allocator)
    (s : SlaveID) (i : SlaveInfo) (c : SlaveCapabilities)
    (u : option Unavailability) (t : Resources)
    (used : gmap FrameworkID Resources) :
  initialized a = true ->
  (is_Some (slaves a !! s) -> addSlave a s i c u t used = None) /\
  (s <> si_id i -> addSlave a s i c u t used = None) /\
  (paused a = true -> expectedAgentCount a = None ->
     addSlave a s i c u t used = None) /\
  forall a', addSlave a s i c u t used = Some a' ->
    slaves a' =
      <[s := {| info := i; slave_capabilities := c; activated := true;
                total := t; allocated := r_sum used;
                maintenance := newMaintenance <$> u |}]> (slaves a) /\
    frameworks a' = frameworks a /\
    whitelist a' = whitelist a /\
    (sorterKnows (roleSorter a) s r_none ->
       sorterKnows (roleSorter a') s t) /\
    (forall role fs, frameworkSorters a !! role = Some fs ->
       sorterKnows fs s r_none ->
       exists fs', frameworkSorters a' !! role = Some fs' /\
                   sorterKnows fs' s t) /\
    (sorterKnows (quotaRoleSorter a) s r_none ->
       sorterKnows (quotaRoleSorter a') s (nonRevocable t)) /\
    (paused a = false -> paused a' = false) /\
    (paused a' = false ->
       s ∈ allocationCandidates a' /\ allocation_isPending a' = true /\
       (match whitelist a with
        | None => True
        | Some w => si_hostname i ∈ w
        end -> eligibleAgent a' s)) /\
    addSlave a' s i c u t used = None.
Proof.
  intros Hi. split_and!.
  - intros Hs. unfold addSlave. rewrite Hi. simpl.
    apply map_contains_true in Hs. by rewrite Hs.
  - intros Hne. unfold addSlave. rewrite Hi. simpl.
    destruct (negb (map_contains (slaves a) s)); [|done]. simpl.
    by rewrite (bool_decide_eq_false_2 (s = si_id i)).
  - intros Hp He. unfold addSlave. rewrite Hi. simpl.
    destruct (negb (map_contains (slaves a) s)); [|done]. simpl.
    destruct (bool_decide (s = si_id i)); [|done]. simpl.
    by rewrite Hp, He.
  - intros a' H. unfold addSlave in H. rewrite Hi in H. simpl in H.
    destruct (negb (map_contains (slaves a) s)); [|done]. simpl in H.
    destruct (bool_decide (s = si_id i)); [|done]. simpl in H.
    destruct (negb (paused a) || _) eqn:Hgo; [|done]. simpl in H.
    apply bind_Some in H as (a6 & H6 & H). injection H as <-.
    pose (sl := match u with
                | Some u0 =>
                    slave_setMaintenance
                      {| info := i; slave_capabilities := c;
                         activated := true; total := t;
                         allocated := r_sum used; maintenance := None |}
                      (Some (newMaintenance u0))
                | None =>
                    {| info := i; slave_capabilities := c;
                       activated := true; total := t;
                       allocated := r_sum used; maintenance := None |}
                end).
    assert (sl = {| info := i; slave_capabilities := c; activated := true;
                    total := t; allocated := r_sum used;
                    maintenance := newMaintenance <$> u |}) as Hsl
      by (unfold sl; by destruct u).
    fold sl in H6. rewrite Hsl in H6. clear sl Hsl.
    set (sl := {| info := i; slave_capabilities := c; activated := true;
                  total := t; allocated := r_sum used;
                  maintenance := newMaintenance <$> u |}) in *.
    set (a1 := set_slaves a (<[s := sl]> (slaves a))) in *.
    destruct (trackReservations_sorters a1 (r_reservations t))
      as (Hrs & Hqs & Hfs).
    destruct (trackReservations_outside a1 (r_reservations t))
      as (O1 & O2 & O3 & O4 & O5 & O6 & O7 & O8 & O9 & O10 & O11).
    set (a2 := trackReservations a1 (r_reservations t)) in *.
    assert (sameOutsideTracking a2 a6 /\
            sorter_total (roleSorter a6)
            = sorter_total (sorter_addSlave (roleSorter a2) s t) /\
            sorter_total (quotaRoleSorter a6)
            = sorter_total (sorter_addSlave (quotaRoleSorter a2) s
                              (nonRevocable t)) /\
            forall r fs, frameworkSorters a2 !! r = Some fs ->
              exists fs', frameworkSorters a6 !! r = Some fs' /\
                sorter_total fs' = sorter_total (sorter_addSlave fs s t))
      as (Hout & Hr6 & Hq6 & Hf6).
    { eapply (foreach_inv (fun b =>
        sameOutsideTracking a2 b /\
        sorter_total (roleSorter b)
        = sorter_total (sorter_addSlave (roleSorter a2) s t) /\
        sorter_total (quotaRoleSorter b)
        = sorter_total (sorter_addSlave (quotaRoleSorter a2) s
                          (nonRevocable t)) /\
        forall r fs, frameworkSorters a2 !! r = Some fs ->
          exists fs', frameworkSorters b !! r = Some fs' /\
            sorter_total fs' = sorter_total (sorter_addSlave fs s t)));
        [| exact H6 |].
      - intros [f R] b cc b' _ Hb (Hob & Hrb & Hqb & Hfb). cbv beta in Hb.
        destruct (negb (map_contains (frameworks b) f)); [by simplify_eq|].
        apply bind_Some in Hb as (b1 & Hb1 & Hb). injection Hb as _ <-.
        destruct (trackAllocatedResources_totals b s f R b1 Hb1)
          as (Hr1 & Hq1 & Hf1).
        split_and!.
        + eapply sameOutsideTracking_trans; [exact Hob|].
          by eapply trackAllocatedResources_outside.
        + by rewrite Hr1.
        + by rewrite Hq1.
        + intros r fs Hfs0. destruct (Hfb r fs Hfs0) as (fs1 & Hfs1 & Ht1).
          destruct (Hf1 r fs1 Hfs1) as (fs2 & Hfs2 & Ht2).
          exists fs2. split; [done|]. congruence.
      - split_and!; [by repeat split|done|done|].
        intros r fs Hfs0. simpl. rewrite lookup_fmap, Hfs0. simpl. eauto. }
    destruct Hout as (P1 & P2 & P3 & P4 & P5 & P6 & P7 & P8 & P9 & P10 & P11).
    simpl in *.
    set (a7 := match expectedAgentCount a6 with
               | Some e =>
                   if paused a6 &&
                      bool_decide (e <= Z.of_nat (size (slaves a6)))
                   then resume (set_expectedAgentCount a6 None)
                   else a6
               | None => a6
               end).
    assert (slaves a7 = slaves a6 /\ frameworks a7 = frameworks a6 /\
            whitelist a7 = whitelist a6 /\ roleSorter a7 = roleSorter a6 /\
            quotaRoleSorter a7 = quotaRoleSorter a6 /\
            frameworkSorters a7 = frameworkSorters a6 /\
            initialized a7 = initialized a6 /\
            (paused a6 = false -> paused a7 = false))
      as (Q1 & Q2 & Q3 & Q4 & Q5 & Q6 & Q7 & Q8).
    { unfold a7. destruct (expectedAgentCount a6); [|done].
      destruct (paused a6 && _); [|done]. unfold resume. simpl.
      by destruct (paused a6) eqn:Hp6. }
    assert (forall S0 : gset SlaveID,
              slaves (allocate a7 S0) = slaves a7 /\
              frameworks (allocate a7 S0) = frameworks a7 /\
              whitelist (allocate a7 S0) = whitelist a7 /\
              roleSorter (allocate a7 S0) = roleSorter a7 /\
              quotaRoleSorter (allocate a7 S0) = quotaRoleSorter a7 /\
              frameworkSorters (allocate a7 S0) = frameworkSorters a7 /\
              initialized (allocate a7 S0) = initialized a7 /\
              paused (allocate a7 S0) = paused a7) as Hal.
    { intros S0. unfold allocate. destruct (paused a7) eqn:Hp7; [done|].
      simpl. by destruct (allocation_isPending a7). }
    destruct (Hal {[s]}) as (R1 & R2 & R3 & R4 & R5 & R6 & R7 & R8).
    assert (slaves (allocate a7 {[s]}) = <[s := sl]> (slaves a)) as Hslaves
      by (rewrite R1, Q1, P4, O4; done).
    split_and!.
    + exact Hslaves.
    + by rewrite R2, Q2, P5, O5.
    + by rewrite R3, Q3, P9, O9.
    + intros Hk. unfold sorterKnows. rewrite R4, Q4, Hr6, Hrs.
      by apply sorter_addSlave_knows.
    + intros role fs Hfs0 Hk. rewrite <- Hfs in Hfs0.
      destruct (Hf6 role fs Hfs0) as (fs' & Hfs' & Ht').
      exists fs'. rewrite R6, Q6. split; [done|].
      unfold sorterKnows. rewrite Ht'. by apply sorter_addSlave_knows.
    + intros Hk. unfold sorterKnows. rewrite R5, Q5, Hq6, Hqs.
      by apply sorter_addSlave_knows.
    + intros Hp. rewrite R8. apply Q8. by rewrite P2, O2.
    + intros Hp'. rewrite R8 in Hp'.
      assert (s ∈ allocationCandidates (allocate a7 {[s]}) /\
              allocation_isPending (allocate a7 {[s]}) = true) as [Hc Hpd].
      { unfold allocate. rewrite Hp'. simpl.
        destruct (allocation_isPending a7) eqn:Hpd7; simpl;
          (split; [|done]); apply elem_of_union_r;
          by apply elem_of_singleton. }
      split_and!; [done|done|].
      intros Hw. split; [done|]. exists sl. rewrite Hslaves.
      rewrite lookup_insert_eq. split_and!; [done|done|].
      by rewrite R3, Q3, P9, O9.
    + unfold addSlave. rewrite R7, Q7, P1, O1. simpl. rewrite Hi. simpl.
      assert (map_contains (slaves (allocate a7 {[s]})) s = true) as ->;
        [|done].
      apply map_contains_true. rewrite Hslaves, lookup_insert_eq. eauto.
Qed.

End NewAgentTheorems.

(** ** Updates of a framework *)

Section UpdateFrameworkTheorems.
Context `{RA : ResourcesAlgebra} `{Env : !AllocatorEnv}.

Lemma client_isActive_remove S c g :
  g <> c -> client_isActive (sorter_remove S c) g = client_isActive S g.
Proof.
  intros Hg. unfold client_isActive, sorter_remove. simpl.
  by rewrite lookup_delete_ne.
Qed.

(** Untracking a framework changes the activity of no other framework. *)
Lemma untrackFrameworkUnderRole_activeIn a f role a' :
  untrackFrameworkUnderRole a f role = Some a' ->
  forall r g, g <> f -> activeIn a' r g = activeIn a r g.
Proof.
  intros H r g Hg. unfold untrackFrameworkUnderRole in H.
  destruct (initialized a); [|done]. simpl in H.
  apply bind_Some in H as (fws & Hfws & H).
  destruct (bool_decide (f ∈ fws)); [|done]. simpl in H.
  apply bind_Some in H as (fs & Hfs & H).
  destruct (sorter_contains fs f); [|done]. simpl in H.
  destruct (bool_decide (fws ∖ {[f]} = ∅)).
  - destruct (bool_decide (_ = 0%nat)) eqn:Hcount; [|done]. simpl in H.
    injection H as <-. unfold activeIn. simpl.
    destruct (decide (role = r)) as [<-|Hn].
    + rewrite lookup_delete_eq, Hfs.
      apply bool_decide_eq_true in Hcount. unfold sorter_count in Hcount.
      apply map_size_empty_iff in Hcount.
      rewrite <- (client_isActive_remove fs f g Hg).
      unfold client_isActive. by rewrite Hcount, lookup_empty.
    + rewrite lookup_delete_ne by done. by rewrite lookup_insert_ne.
  - injection H as <-. unfold activeIn. simpl.
    destruct (decide (role = r)) as [<-|Hn].
    + rewrite lookup_insert_eq, Hfs. by apply client_isActive_remove.
    + by rewrite lookup_insert_ne.
Qed.

(** What the loop of [updateFramework] over the roles that the framework
    gives up keeps and reaches. *)
Lemma updateFramework_removed a f fw (l : list string) a2 :
  frameworks a !! f = Some fw ->
  foreach l
    (fun role a =>
       fs ← frameworkSorters a !! role;
       let fs' := sorter_deactivate fs f in
       let a' := set_frameworkSorters a
                   (<[role := fs']> (frameworkSorters a)) in
       a'' ← (if map_isEmpty (sorter_allocation fs' f)
              then untrackFrameworkUnderRole a' f role
              else Some a');
       fw ← frameworks a'' !! f;
       let fw' :=
         fw_setSuppressedRoles
           (fw_setOfferFilters fw (delete role (offerFilters fw)))
           (suppressedRoles fw ∖ {[role]}) in
       Some (Continue,
             set_frameworks a'' (<[f := fw']> (frameworks a'')))) a
  = Some a2 ->
  slaves a2 = slaves a /\
  allocationCandidates a2 = allocationCandidates a /\
  allocation_isPending a2 = allocation_isPending a /\
  paused a2 = paused a /\
  (forall g, g <> f -> frameworks a2 !! g = frameworks a !! g) /\
  (forall g role, g <> f -> activeIn a2 role g = activeIn a role g) /\
  exists fw2,
    frameworks a2 !! f = Some fw2 /\
    fw_roles fw2 = fw_roles fw /\ active fw2 = active fw /\
    inverseOfferFilters fw2 = inverseOfferFilters fw /\
    offerFilters fw2 = foldl (fun m r => delete r m) (offerFilters fw) l.
Proof.
  intros Hfw H.
  pose (J := fun (seen : list string) (b : Allocator) =>
    slaves b = slaves a /\
    allocationCandidates b = allocationCandidates a /\
    allocation_isPending b = allocation_isPending a /\
    paused b = paused a /\
    (forall g, g <> f -> frameworks b !! g = frameworks a !! g) /\
    (forall g role, g <> f -> activeIn b role g = activeIn a role g) /\
    exists fw2,
      frameworks b !! f = Some fw2 /\
      fw_roles fw2 = fw_roles fw /\ active fw2 = active fw /\
      inverseOfferFilters fw2 = inverseOfferFilters fw /\
      offerFilters fw2
      = foldl (fun m r => delete r m) (offerFilters fw) seen).
  cut (J l a2); [done|].
  eapply (foreach_accum J); [| | exact H].
  - intros seen role b c b'
      (H1 & H2 & H3 & H4 & H5 & H6 & fwb & Hfwb & F1 & F2 & F3 & F4) Hb.
    apply bind_Some in Hb as (fs & Hfs & Hb).
    apply bind_Some in Hb as (b2 & Hb2 & Hb).
    apply bind_Some in Hb as (fw2 & Hfw2 & Hb). injection Hb as <- <-.
    split; [done|].
    pose (b1 := set_frameworkSorters b
                  (<[role := sorter_deactivate fs f]>
                     (frameworkSorters b))).
    assert (forall g r, g <> f -> activeIn b1 r g = activeIn b r g) as Hact1.
    { intros g r Hg. unfold activeIn. simpl.
      destruct (decide (role = r)) as [<-|Hn];
        [|by rewrite lookup_insert_ne].
      rewrite lookup_insert_eq, Hfs, client_isActive_deactivate.
      by rewrite decide_False. }
    assert (sameOutsideTracking b1 b2 /\
            forall g r, g <> f -> activeIn b2 r g = activeIn b1 r g)
      as [(O1 & O2 & O3 & O4 & O5 & O6 & O7 & O8 & O9 & O10 & O11) Hact2].
    { fold b1 in Hb2. destruct (map_isEmpty _).
      - split; [by eapply untrackFrameworkUnderRole_outside|].
        intros g r. by apply (untrackFrameworkUnderRole_activeIn b1 f role).
      - injection Hb2 as <-. split; [apply sameOutsideTracking_refl|done]. }
    simpl in *. rewrite O5, Hfwb in Hfw2. injection Hfw2 as <-.
    unfold J. simpl. split_and!; try congruence.
    + intros g Hg. rewrite lookup_insert_ne by done. rewrite O5.
      by apply H5.
    + intros g r Hg.
      change (activeIn b2 r g = activeIn a r g).
      rewrite Hact2, Hact1 by done. by apply H6.
    + eexists. rewrite lookup_insert_eq. split; [done|]. simpl.
      split_and!; [done|done|done|].
      by rewrite foldl_snoc, F4.
  - unfold J. split_and!; try done. exists fw. by split_and!.
Qed.

(** X22. [updateFramework] aborts on an unknown framework. For a known
    framework, when it returns: the framework has the roles, capabilities
    and minimal allocatable resources of the new info and exactly the given
    suppressed roles; it keeps its activity flag and inverse-offer filters;
    it loses the offer filters of the roles it gave up and keeps the
    others; it is inactive in the sorter of every suppressed role; the
    other frameworks keep their entry and their activity; and agents and
    allocation candidates are untouched, so no allocation run is
    requested. *)
Theorem updateFramework_spec (a : Allocator) (f : FrameworkID)
    (i : FrameworkInfo) (sup : gset string) (fw : Framework) :
  frameworks a !! f = Some fw ->
  (forall g, frameworks a !! g = None -> updateFramework a g i sup = None) /\
  forall a', updateFramework a f i sup = Some a' ->
    (exists fw',
       frameworks a' !! f = Some fw' /\
       fw_roles fw' = fi_roles i /\
       suppressedRoles fw' = sup /\
       fw_capabilities fw' = fi_capabilities i /\
       minAllocatableResources fw'
       = unpackFrameworkOfferFilters (fi_offer_filters i) /\
       active fw' = active fw /\
       inverseOfferFilters fw' = inverseOfferFilters fw /\
       forall role,
         offerFilters fw' !! role =
         if bool_decide (role ∈ fw_roles fw ∖ fi_roles i) then None
         else offerFilters fw !! role) /\
    (forall g, g <> f -> frameworks a' !! g = frameworks a !! g) /\
    (forall role, role ∈ sup -> activeIn a' role f = false) /\
    (forall g role, g <> f -> activeIn a' role g = activeIn a role g) /\
    slaves a' = slaves a /\
    allocationCandidates a' = allocationCandidates a /\
    allocation_isPending a' = allocation_isPending a.
Proof.
  intros Hfw. split.
  - intros g Hg. unfold updateFramework.
    destruct (initialized a); [|done]. simpl. by rewrite Hg.
  - intros a' H. unfold updateFramework in H.
    destruct (initialized a); [|done]. simpl in H. rewrite Hfw in H.
    simpl in H.
    apply bind_Some in H as (a1 & H1 & H).
    apply bind_Some in H as (a2 & H2 & H).
    apply bind_Some in H as (fw2 & Hfw2 & H).
    apply bind_Some in H as (a4 & H4 & H).
    apply bind_Some in H as (a5 & H5 & H).
    apply bind_Some in H as (fw5 & Hfw5 & H).
    destruct (bool_decide (suppressedRoles fw5 = sup)) eqn:Hsup; [|done].
    simpl in H. injection H as <-. apply bool_decide_eq_true in Hsup.
    assert (sameOutsideTracking a a1 /\
            forall r g, activeIn a1 r g = activeIn a r g) as [Hout1 Hact1].
    { eapply (foreach_inv (fun b =>
        sameOutsideTracking a b /\
        forall r g, activeIn b r g = activeIn a r g)); [| exact H1 |].
      - intros role b c b' _ Hb [Hob Hab]. cbv beta in Hb.
        destruct (negb (isFrameworkTrackedUnderRole b f role));
          [|by simplify_eq].
        apply bind_Some in Hb as (b1 & Hb1 & Hb). injection Hb as _ <-.
        split.
        + eapply sameOutsideTracking_trans; [exact Hob|].
          by eapply trackFrameworkUnderRole_outside.
        + intros r g.
          rewrite (trackFrameworkUnderRole_activeIn b f role b1 Hb1).
          apply Hab.
      - split; [apply sameOutsideTracking_refl|done]. }
    destruct Hout1 as (O1 & O2 & O3 & O4 & O5 & O6 & O7 & O8 & O9 & O10 & O11).
    assert (frameworks a1 !! f = Some fw) as Hfw1 by (by rewrite O5).
    destruct (updateFramework_removed a1 f fw _ a2 Hfw1 H2)
      as (P1 & P2 & P3 & P4 & P5 & P6 & fw2' & Hfw2' & F1 & F2 & F3 & F4).
    rewrite Hfw2 in Hfw2'. injection Hfw2' as <-.
    set (fw3 := {| fw_roles := fi_roles i;
                   suppressedRoles := suppressedRoles fw2;
                   fw_capabilities := fi_capabilities i;
                   active := active fw2;
                   offerFilters := offerFilters fw2;
                   inverseOfferFilters := inverseOfferFilters fw2;
                   minAllocatableResources :=
                     unpackFrameworkOfferFilters (fi_offer_filters i) |})
      in *.
    set (a3 := set_frameworks a2 (<[f := fw3]> (frameworks a2))) in *.
    assert (frameworks a3 !! f = Some fw3) as Hfw3
      by (simpl; by rewrite lookup_insert_eq).
    destruct (suppressRoles_effect a3 f sup a4 fw3 Hfw3 H4)
      as (Hoff4 & Hsame4 & Hfws4).
    destruct (suppressRoles_frame a3 f sup a4 H4)
      as (S1 & S2 & S3 & S4 & _ & _).
    assert (exists fw4, frameworks a4 !! f = Some fw4 /\
              fw_roles fw4 = fi_roles i /\
              fw_capabilities fw4 = fi_capabilities i /\
              minAllocatableResources fw4
              = unpackFrameworkOfferFilters (fi_offer_filters i) /\
              active fw4 = active fw /\
              inverseOfferFilters fw4 = inverseOfferFilters fw /\
              offerFilters fw4 = offerFilters fw2)
      as (fw4 & Hfw4 & A1 & A2 & A3 & A4 & A5 & A6).
    { rewrite Hfws4. destruct (bool_decide (sup = ∅)).
      - exists fw3. by split_and!.
      - eexists. rewrite lookup_insert_eq. by split_and!. }
    destruct (unsuppressRoles_effect a4 f _ a5 fw4 Hfw4 H5)
      as (_ & Hsame5 & Hfws5).
    destruct (unsuppressRoles_frame a4 f _ a5 H5)
      as (U1 & U2 & U3 & U4 & _ & _).
    assert (fw_roles fw5 = fi_roles i /\
            fw_capabilities fw5 = fi_capabilities i /\
            minAllocatableResources fw5
            = unpackFrameworkOfferFilters (fi_offer_filters i) /\
            active fw5 = active fw /\
            inverseOfferFilters fw5 = inverseOfferFilters fw /\
            offerFilters fw5 = offerFilters fw2)
      as (B1 & B2 & B3 & B4 & B5 & B6).
    { rewrite Hfws5 in Hfw5. destruct (bool_decide (fi_roles i ∖ sup = ∅)).
      - simplify_eq. by split_and!.
      - rewrite lookup_insert_eq in Hfw5. injection Hfw5 as <-.
        by split_and!. }
    split_and!.
    + exists fw5. split_and!; try done.
      intros role. rewrite B6, F4, lookup_foldl_delete.
      apply (f_equal (fun b : bool =>
               if b then None else offerFilters fw !! role)).
      apply bool_decide_ext. by rewrite elem_of_elements.
    + intros g Hg. rewrite Hfws5.
      assert (frameworks a4 !! g = frameworks a !! g) as Hg4.
      { rewrite Hfws4.
        assert (frameworks a3 !! g = frameworks a !! g) as Hg3
          by (simpl; rewrite lookup_insert_ne by done;
              rewrite P5 by done; by rewrite O5).
        destruct (bool_decide (sup = ∅)); [done|].
        by rewrite lookup_insert_ne. }
      destruct (bool_decide (fi_roles i ∖ sup = ∅)); [done|]. by rewrite lookup_insert_ne.
    + intros role Hrole. rewrite Hsame5.
      * by apply Hoff4.
      * right. intros [_ ?]%elem_of_difference. done.
    + intros g role Hg. rewrite Hsame5, Hsame4 by (by left).
      change (activeIn a2 role g = activeIn a role g).
      rewrite P6 by done. apply Hact1.
    + rewrite U1, S1. simpl. by rewrite P1.
    + rewrite U3, S3. simpl. by rewrite P2.
    + rewrite U4, S4. simpl. by rewrite P3.
Qed.

End UpdateFrameworkTheorems.

(** ** Adding and removing a framework *)

Section RoundTrip.
Context `{RA : ResourcesAlgebra} `{Env : !AllocatorEnv}.

(** A loop whose every iteration returns and continues, with a property
    that follows the elements visited. *)
Lemma foreach_total_accum {A S : Type} (J : list A -> S -> Prop)
    (l : list A) (body : A -> S -> option (LoopCtl * S)) :
  (forall seen x s, J seen s -> x ∉ seen -> x ∈ l ->
     exists s', body x s = Some (Continue, s') /\ J (seen ++ [x]) s') ->
  NoDup l ->
  forall s, J [] s -> exists s', foreach l body s = Some s' /\ J l s'.
Proof.
  intros Hbody Hnd.
  assert (forall rest seen s, seen ++ rest = l -> J seen s ->
            exists s', foreach rest body s = Some s' /\ J l s') as H.
  { induction rest as [|x rest IH]; intros seen s Heq HJ.
    - rewrite app_nil_r in Heq. subst. by exists s.
    - simpl. destruct (Hbody seen x s HJ) as (s1 & -> & HJ1).
      + subst l. apply NoDup_app in Hnd as (_ & Hdis & _).
        intros Hin. apply (Hdis x Hin). by left.
      + subst l. apply elem_of_app. right. by left.
      + apply (IH (seen ++ [x])); [by rewrite <- app_assoc|done]. }
  intros s. by apply (H l []).
Qed.

Lemma sorter_remove_deactivate (S : Sorter) c :
  sorter_remove (sorter_deactivate S c) c = sorter_remove S c.
Proof.
  unfold sorter_remove, sorter_deactivate, set_clients. simpl.
  by rewrite delete_alter_eq.
Qed.

Lemma sorter_remove_activate (S : Sorter) c :
  sorter_remove (sorter_activate S c) c = sorter_remove S c.
Proof.
  unfold sorter_remove, sorter_activate, set_clients. simpl.
  by rewrite delete_alter_eq.
Qed.

Lemma clients_freshSorter a : clients (freshSorter a) = ∅.
Proof. unfold freshSorter. by rewrite clients_fold_addSlave. Qed.

(** A client that was just added, whatever its activation, holds
    nothing. *)
Lemma client_added (S : Sorter) c (act : bool) :
  clients S !! c = None ->
  exists x,
    clients (if act then sorter_deactivate (sorter_add S c) c
             else sorter_activate (sorter_add S c) c) !! c = Some x /\
    client_allocation x = ∅.
Proof.
  intros Hc. unfold sorter_add. rewrite Hc.
  destruct act; simpl; rewrite lookup_alter_eq, lookup_insert_eq; simpl;
    by eexists.
Qed.

Lemma roleView_eq a b r :
  roleView b r = roleView a r <->
  roles b !! r = roles a !! r /\
  frameworkSorters b !! r = frameworkSorters a !! r /\
  clients (roleSorter b) !! r = clients (roleSorter a) !! r.
Proof.
  unfold roleView. split.
  - intros [= ? ? ?]. done.
  - intros (-> & -> & ->). done.
Qed.

Lemma justAdded_view a0 b b' f r :
  roleView b' r = roleView b r -> justAdded a0 b f r -> justAdded a0 b' f r.
Proof.
  intros (Hr & Hs & Hc)%roleView_eq
         (fs & c & H1 & H2 & H3 & H4 & H5 & H6 & H7).
  exists fs, c. rewrite Hr, Hs. split_and!; try done.
  destruct (roles a0 !! r); [|done]. by rewrite Hc.
Qed.

(** One iteration of the loop of [addFramework] over the roles. *)
Lemma addFramework_step a0 f (sup : gset string) r b c b' :
  slaves b = slaves a0 ->
  roleView b r = roleView a0 r ->
  (a' ← trackFrameworkUnderRole b f r;
   fs ← frameworkSorters a' !! r;
   Some (Continue,
         set_frameworkSorters a'
           (<[r := if bool_decide (r ∈ sup) then sorter_deactivate fs f
                   else sorter_activate fs f]> (frameworkSorters a'))))
  = Some (c, b') ->
  sameFrame b b' /\
  (forall r', r' <> r -> roleView b' r' = roleView b r') /\
  justAdded a0 b' f r.
Proof.
  intros Hsl (Hr & Hs & Hc)%roleView_eq H.
  apply bind_Some in H as (b1 & Hb1 & H).
  apply bind_Some in H as (fs & Hfs & H). injection H as _ <-.
  unfold trackFrameworkUnderRole in Hb1.
  destruct (initialized b); [|done]. simpl in Hb1.
  apply bind_Some in Hb1 as (x1 & H1 & Hb1).
  apply bind_Some in Hb1 as (fws & Hfws & Hb1).
  destruct (negb (bool_decide (f ∈ fws))) eqn:Hnotin; [|done]. simpl in Hb1.
  apply bind_Some in Hb1 as (fs0 & Hfs0 & Hb1).
  destruct (negb (sorter_contains fs0 f)) eqn:Hnc; [|done]. simpl in Hb1.
  injection Hb1 as <-. simpl in Hfs0, Hfs.
  rewrite lookup_insert_eq in Hfs. injection Hfs as <-.
  apply negb_true_iff, bool_decide_eq_false in Hnotin.
  apply negb_true_iff, sorter_contains_false in Hnc.
  apply not_elem_of_dom in Hnc.
  destruct (client_added fs0 f (bool_decide (r ∈ sup)) Hnc)
    as (x & Hx & Hxa).
  assert (sorter_remove
            (if bool_decide (r ∈ sup)
             then sorter_deactivate (sorter_add fs0 f) f
             else sorter_activate (sorter_add fs0 f) f) f = fs0) as Hrem.
  { destruct (bool_decide (r ∈ sup)).
    - rewrite sorter_remove_deactivate. by apply sorter_remove_add.
    - by apply sorter_remove_activate_add. }
  destruct (map_contains (roles b) r) eqn:Hmc.
  - injection H1 as <-.
    split_and!.
    + by repeat split.
    + intros r' Hr'. apply roleView_eq. simpl.
      by rewrite !lookup_insert_ne.
    + exists (if bool_decide (r ∈ sup)
              then sorter_deactivate (sorter_add fs0 f) f
              else sorter_activate (sorter_add fs0 f) f), x.
      simpl. rewrite !lookup_insert_eq.
      rewrite <- Hr, <- Hs, Hfws, Hfs0. simpl.
      split_and!; by eauto.
  - destruct (negb (sorter_contains (roleSorter _) r)) eqn:Hrs; [|done].
    simpl in H1.
    destruct (negb (map_contains _ r)) eqn:Hno; [|done]. simpl in H1.
    injection H1 as <-. simpl in *.
    rewrite lookup_insert_eq in Hfws. rewrite lookup_insert_eq in Hfs0.
    injection Hfws as <-. injection Hfs0 as <-.
    apply map_contains_false in Hmc.
    apply negb_true_iff, map_contains_false in Hno.
    apply negb_true_iff, sorter_contains_false in Hrs.
    apply not_elem_of_dom in Hrs.
    split_and!.
    + repeat split; simpl.
      unfold sorter_add. by destruct (clients (roleSorter b) !! r).
    + intros r' Hr'. apply roleView_eq. simpl.
      rewrite !lookup_insert_ne by done. split_and!; [done|done|].
      unfold sorter_add. rewrite Hrs. simpl.
      rewrite lookup_alter_ne by done. by rewrite lookup_insert_ne.
    + eexists _, x. simpl. rewrite !lookup_insert_eq.
      rewrite <- Hr, <- Hs, <- Hc, Hmc, Hno, Hrs. simpl.
      split_and!; try done.
      rewrite Hrem. unfold freshSorter. by rewrite Hsl.
Qed.

(** One iteration of the loop of [removeFramework] over the roles, for a
    role under which the framework was just added. *)
Lemma removeFramework_step a0 f r b :
  initialized b = true ->
  (forall fws, roles a0 !! r = Some fws -> fws <> ∅) ->
  justAdded a0 b f r ->
  exists b',
    match frameworkSorters b !! r with
    | None => Some (Continue, b)
    | Some fs =>
        if negb (sorter_contains fs f) then Some (Continue, b)
        else
          let allocation := sorter_allocation fs f in
          a' ← foreach (map_to_list allocation)
                 (fun '(slaveId, allocated_) a =>
                    a' ← untrackAllocatedResources a slaveId f allocated_;
                    Some (Continue, a'))
                 b;
          a'' ← untrackFrameworkUnderRole a' f r;
          Some (Continue, a'')
    end = Some (Continue, b') /\
    sameFrame b b' /\
    (forall r', r' <> r -> roleView b' r' = roleView b r') /\
    roleView b' r = roleView a0 r.
Proof.
  intros Hi Hne (fs & c & Hfs & Hc & Hal & Hrem & Hroles & Hnotin & Hm).
  rewrite Hfs.
  assert (sorter_contains fs f = true) as ->
    by (apply sorter_contains_true; by apply elem_of_dom_2 in Hc).
  simpl. unfold sorter_allocation. rewrite Hc, Hal, map_to_list_empty.
  simpl. unfold untrackFrameworkUnderRole. rewrite Hi, Hroles. simpl.
  rewrite (bool_decide_eq_true_2 (f ∈ {[f]} ∪ default ∅ (roles a0 !! r)))
    by (apply elem_of_union_l; by apply elem_of_singleton).
  simpl. rewrite Hfs. simpl.
  assert (sorter_contains fs f = true) as ->
    by (apply sorter_contains_true; by apply elem_of_dom_2 in Hc).
  simpl.
  assert (({[f]} ∪ default ∅ (roles a0 !! r)) ∖ {[f]}
          = default ∅ (roles a0 !! r)) as ->.
  { apply set_eq. intros y. rewrite elem_of_difference, elem_of_union.
    rewrite elem_of_singleton. split; [by intros [[?|?] ?]|].
    intros Hy. split; [by right|]. by intros ->. }
  rewrite Hrem.
  destruct (roles a0 !! r) as [fws|] eqn:Hra; simpl in *.
  - destruct Hm as [Hcl [fs0 Hfs0]]. rewrite Hfs0. simpl.
    rewrite bool_decide_eq_false_2 by (by apply Hne).
    eexists. split; [reflexivity|]. split_and!.
    + by repeat split.
    + intros r' Hr'. apply roleView_eq. simpl.
      by rewrite !lookup_insert_ne.
    + apply roleView_eq. simpl. rewrite !lookup_insert_eq.
      by rewrite Hra, Hfs0, Hcl.
  - destruct Hm as [Hs0 Hc0]. rewrite Hs0. simpl.
    rewrite bool_decide_eq_true_2 by done. simpl.
    assert (sorter_count (freshSorter a0) = 0%nat) as Hcount
      by (unfold sorter_count; by rewrite clients_freshSorter).
    rewrite bool_decide_eq_true_2 by exact Hcount. simpl.
    eexists. split; [reflexivity|]. split_and!.
    + by repeat split.
    + intros r' Hr'. apply roleView_eq. simpl.
      rewrite !lookup_delete_ne by done.
      by rewrite !lookup_insert_ne.
    + apply roleView_eq. simpl. rewrite !lookup_delete_eq.
      by rewrite Hra, Hs0, Hc0.
Qed.

Lemma sameFrame_refl a : sameFrame a a.
Proof. by repeat split. Qed.

Lemma sameFrame_trans a b c : sameFrame a b -> sameFrame b c -> sameFrame a c.
Proof.
  intros (H1 & H2 & H3 & H4) (G1 & G2 & G3 & G4). split_and!.
  - by eapply sameOutsideTracking_trans.
  - congruence.
  - congruence.
  - congruence.
Qed.

(** Two states with the same frame and the same view of every role are
    equal. *)
Lemma allocator_eq a b :
  sameFrame a b -> (forall r, roleView b r = roleView a r) -> b = a.
Proof.
  intros ((H1 & H2 & H3 & H4 & H5 & H6 & H7 & H8 & H9 & H10 & H11)
          & G1 & G2 & G3) Hview.
  assert (roles b = roles a) as Hr
    by (apply map_eq; intros r; by apply (roleView_eq a b r)).
  assert (frameworkSorters b = frameworkSorters a) as Hs
    by (apply map_eq; intros r; by apply (roleView_eq a b r)).
  assert (roleSorter b = roleSorter a) as Hrs.
  { assert (clients (roleSorter b) = clients (roleSorter a)) as Hc
      by (apply map_eq; intros r; by apply (roleView_eq a b r)).
    destruct (roleSorter b), (roleSorter a). simpl in *. by subst. }
  destruct a, b. simpl in *. by subst.
Qed.

(** The state after [addFramework] without used resources: relative to
    the state before, the framework is just added under each of its roles,
    and nothing else differs but the entry of the framework and, for a
    framework added active, the request for a run. *)
Lemma addFramework_added a f i act sup a' :
  trackingConsistent a ->
  frameworks a !! f = None ->
  addFramework a f i ∅ act sup = Some a' ->
  initialized a' = true /\
  (exists fw', frameworks a' = <[f := fw']> (frameworks a) /\
               fw_roles fw' = fi_roles i) /\
  sameFrame (if act then allocateAll a else a)
    (set_frameworks a' (frameworks a)) /\
  (forall r, r ∉ fi_roles i -> roleView a' r = roleView a r) /\
  (forall r, r ∈ fi_roles i -> justAdded a a' f r).
Proof.
  intros Hwf Hfresh H. unfold addFramework in H.
  destruct (initialized a) eqn:Hi; [|done]. simpl in H.
  destruct (negb (map_contains (frameworks a) f)); [|done]. simpl in H.
  apply bind_Some in H as (a2 & H2 & H).
  apply bind_Some in H as (a3 & H3 & H).
  rewrite map_to_list_empty in H3. simpl in H3. injection H3 as <-.
  set (a1 := set_frameworks a
               (<[f := newFramework i sup act]> (frameworks a))) in *.
  pose (J := fun (seen : list string) (b : Allocator) =>
    sameFrame a1 b /\
    (forall r, r ∉ seen -> roleView b r = roleView a r) /\
    (forall r, r ∈ seen -> justAdded a b f r)).
  assert (J (elements (fi_roles i)) a2) as (Hfr & Hout & Hin).
  { eapply (foreach_accum J); [| | exact H2].
    - intros seen r b c b' (Hfb & Hob & Hib) Hb.
      assert (r ∉ seen) as Hnew.
      { intros Hr. destruct (Hib r Hr) as (_ & _ & _ & _ & _ & _ & Hro & _).
        apply bind_Some in Hb as (b1 & Hb1 & _).
        apply trackFrameworkUnderRole_untracked in Hb1.
        assert (isFrameworkTrackedUnderRole b f r = true) as Ht; [|congruence].
        apply isTracked_true. eexists. split; [exact Hro|].
        apply elem_of_union_l. by apply elem_of_singleton. }
      assert (c = Continue) as ->.
      { apply bind_Some in Hb as (b1 & _ & Hb).
        apply bind_Some in Hb as (fs & _ & Hb). by injection Hb as <- _. }
      split; [done|].
      destruct (addFramework_step a f sup r b Continue b')
        as (Hf' & Ho' & Ha'); [|by apply Hob|exact Hb|].
      { destruct Hfb as ((_ & _ & _ & -> & _) & _). done. }
      split_and!.
      + by eapply sameFrame_trans.
      + intros r' Hr'. rewrite Ho'.
        * apply Hob. intros ?. apply Hr', elem_of_app. by left.
        * intros ->. apply Hr', elem_of_app. right.
          by apply list_elem_of_singleton.
      + intros r' [Hr'| ->%list_elem_of_singleton]%elem_of_app; [|done].
        eapply justAdded_view; [|by apply Hib].
        apply Ho'. by intros ->.
    - unfold J. split_and!; [apply sameFrame_refl|done|].
      by intros r ?%elem_of_nil. }
  destruct Hfr as ((O1 & O2 & O3 & O4 & O5 & O6 & O7 & O8 & O9 & O10 & O11)
                   & G1 & G2 & G3).
  simpl in *.
  assert (forall r, r ∉ fi_roles i -> roleView a2 r = roleView a r) as Hout'
    by (intros r Hr; apply Hout; by rewrite elem_of_elements).
  assert (forall r, r ∈ fi_roles i -> justAdded a a2 f r) as Hin'
    by (intros r Hr; apply Hin; by rewrite elem_of_elements).
  destruct act.
  - injection H as <-.
    assert (forall r, roleView (allocateAll a2) r = roleView a2 r) as Hv.
    { intros r. unfold roleView, allocateAll, allocate.
      destruct (paused a2); [done|]. simpl.
      by destruct (allocation_isPending a2). }
    split_and!.
    + unfold allocateAll, allocate. destruct (paused a2); [congruence|].
      simpl. destruct (allocation_isPending a2); simpl; congruence.
    + exists (newFramework i sup true). split; [|done]. rewrite <- O5.
      unfold allocateAll, allocate. destruct (paused a2); [done|].
      simpl. by destruct (allocation_isPending a2).
    + unfold allocateAll, allocate. rewrite O2.
      destruct (paused a) eqn:Hp; [repeat split; simpl; congruence|].
      simpl. rewrite O10, O4, O7.
      destruct (allocation_isPending a) eqn:Hpd;
        repeat split; simpl; congruence.
    + intros r Hr. rewrite Hv. by apply Hout'.
    + intros r Hr. eapply justAdded_view; [apply Hv|]. by apply Hin'.
  - unfold deactivateFramework in H. rewrite O1, Hi in H. simpl in H.
    rewrite O5, lookup_insert_eq in H. simpl in H.
    apply bind_Some in H as (a4 & H4 & H). injection H as <-.
    destruct (foreach_sorters (fun _ fs => sorter_deactivate fs f)
                (fun role a =>
                   fs ← frameworkSorters a !! role;
                   Some (Continue,
                         set_frameworkSorters a
                           (<[role := sorter_deactivate fs f]>
                              (frameworkSorters a))))
                (elements (fi_roles i)) ltac:(done)
                (NoDup_elements _) a2) as [_ Heff].
    destruct (Heff a4 H4) as (Heq & Hins & Houts).
    split_and!.
    + simpl. rewrite Heq. simpl. congruence.
    + eexists. simpl. rewrite Heq. simpl. rewrite O5.
      rewrite insert_insert_eq. split; [reflexivity|done].
    + rewrite Heq. repeat split; simpl; congruence.
    + intros r Hr. rewrite <- (Hout' r Hr). apply roleView_eq. simpl.
      rewrite Heq. simpl. split_and!; [done| |done].
      apply Houts. by rewrite elem_of_elements.
    + intros r Hr.
      destruct (Hin' r Hr) as (fs & c & A1 & A2 & A3 & A4 & A5 & A6 & A7).
      destruct (Hins r) as (fs' & Hfs' & Hnew);
        [by rewrite elem_of_elements|].
      rewrite A1 in Hfs'. injection Hfs' as <-.
      exists (sorter_deactivate fs f),
             {| client_active := false;
                client_allocation := client_allocation c |}.
      simpl. rewrite Heq. simpl. split_and!; try done.
      * unfold sorter_deactivate. simpl. by rewrite lookup_alter_eq, A2.
      * by rewrite sorter_remove_deactivate.
Qed.

(** X23. Adding a framework without used resources and then removing it
    leaves no trace: on a consistent registry that does not know the
    framework, when [addFramework] returns, [removeFramework] returns the
    state from before the two calls, changed only by the request for an
    allocation run over all agents that a framework added active makes. *)
Theorem addFramework_removeFramework (a : Allocator) (f : FrameworkID)
    (i : FrameworkInfo) (act : bool) (sup : gset string)
    (a' : Allocator) :
  trackingConsistent a ->
  frameworks a !! f = None ->
  addFramework a f i ∅ act sup = Some a' ->
  removeFramework a' f = Some (if act then allocateAll a else a).
Proof.
  intros Hwf Hfresh H.
  destruct (addFramework_added a f i act sup a' Hwf Hfresh H)
    as (Hi' & (fw' & Hfws' & Hroles') & Hframe & Hout & Hin).
  unfold removeFramework. rewrite Hi', Hfws', lookup_insert_eq. simpl.
  rewrite Hroles'.
  pose (J := fun (seen : list string) (b : Allocator) =>
    sameFrame a' b /\
    (forall r, r ∈ seen -> roleView b r = roleView a r) /\
    (forall r, r ∉ seen -> roleView b r = roleView a' r)).
  destruct (foreach_total_accum J (elements (fi_roles i))
              (fun role a =>
                 match frameworkSorters a !! role with
                 | None => Some (Continue, a)
                 | Some fs =>
                     if negb (sorter_contains fs f) then Some (Continue, a)
                     else
                       let allocation := sorter_allocation fs f in
                       a' ← foreach (map_to_list allocation)
                              (fun '(slaveId, allocated_) a =>
                                 a' ← untrackAllocatedResources a slaveId f
                                        allocated_;
                                 Some (Continue, a'))
                              a;
                       a'' ← untrackFrameworkUnderRole a' f role;
                       Some (Continue, a'')
                 end)) with (s := a') as (b & Hb & Hfb & Hseen & Hrest).
  - intros seen r b (Hfb & Hsb & Hrb) Hnew Hr%elem_of_elements.
    destruct (removeFramework_step a f r b) as (b' & Hb' & Hf' & Ho' & Hv').
    + destruct Hfb as ((-> & _) & _). done.
    + intros fws Hfws. destruct Hwf as (_ & _ & Hne). by eapply Hne.
    + eapply justAdded_view; [by apply Hrb|]. by apply Hin.
    + exists b'. split; [exact Hb'|]. split_and!.
      * by eapply sameFrame_trans.
      * intros r' [Hr'| ->%list_elem_of_singleton]%elem_of_app; [|done].
        rewrite Ho'; [by apply Hsb|]. by intros ->.
      * intros r' Hr'. rewrite Ho'.
        -- apply Hrb. intros ?. apply Hr', elem_of_app. by left.
        -- intros ->. apply Hr', elem_of_app. right.
           by apply list_elem_of_singleton.
  - apply NoDup_elements.
  - unfold J. split_and!; [apply sameFrame_refl| |done].
    by intros r ?%elem_of_nil.
  - match goal with
    | |- ?m ≫= _ = _ => replace m with (Some b) by (symmetry; exact Hb)
    end.
    simpl. f_equal.
    assert (forall r, roleView (if act then allocateAll a else a) r
                      = roleView a r) as Hv.
    { intros r. destruct act; [|done]. unfold roleView, allocateAll, allocate.
      destruct (paused a); [done|]. simpl.
      by destruct (allocation_isPending a). }
    assert (frameworks (if act then allocateAll a else a) = frameworks a)
      as Hfa.
    { destruct act; [|done]. unfold allocateAll, allocate.
      destruct (paused a); [done|]. simpl.
      by destruct (allocation_isPending a). }
    apply allocator_eq.
    + destruct Hfb as ((B1 & B2 & B3 & B4 & B5 & B6 & B7 & B8 & B9 & B10
                        & B11) & C1 & C2 & C3).
      destruct Hframe as ((F1 & F2 & F3 & F4 & F5 & F6 & F7 & F8 & F9 & F10
                           & F11) & E1 & E2 & E3).
      simpl in *. repeat split; simpl; try congruence.
      rewrite B5, Hfws', Hfa. by apply delete_insert_id.
    + intros r. rewrite Hv. apply roleView_eq. simpl.
      apply roleView_eq.
      destruct (decide (r ∈ elements (fi_roles i))) as [Hr|Hr].
      * by apply Hseen.
      * rewrite Hrest by done. apply Hout. by rewrite <- elem_of_elements.
Qed.

End RoundTrip.

(** ** The further properties on concrete clusters *)

Section OfferReading.
Context `{RA : ResourcesAlgebra} `{Env : !AllocatorEnv}.

Lemma offerMade_intro (run : AllocationRun) f role s :
  run_offers run = map_to_list (offerable (run_locals run)) ->
  isSome (m ← offerable (run_locals run) !! f; ms ← m !! role; ms !! s)
  = true ->
  offerMade run f role s.
Proof.
  intros Hoff H.
  destruct (offerable (run_locals run) !! f) as [m|] eqn:Hm; [|done].
  simpl in H. destruct (m !! role) as [ms|] eqn:Hms; simpl in H; [|done].
  exists m, ms. split_and!; [|done|by apply isSome_is_Some].
  rewrite Hoff. by apply elem_of_map_to_list.
Qed.

End OfferReading.

Section FurtherExamples.
#[local] Existing Instance scalarAlgebra.
#[local] Existing Instance scalarEnv.

Lemma consistent_stateOf (o : option Allocator) :
  (forall a, o = Some a -> trackingConsistent a) ->
  trackingConsistent (stateOf o).
Proof.
  intros H. destruct o as [a|]; simpl; [by apply H|].
  apply initialize_consistent.
Qed.

Lemma clusterF_consistent : trackingConsistent (stateOf clusterF).
Proof.
  apply consistent_stateOf. intros a Ha. unfold clusterF in Ha.
  eapply addFramework_consistent; [|exact Ha]. apply initialize_consistent.
Qed.

Lemma clusterA_registered_consistent :
  trackingConsistent (stateOf clusterA_registered).
Proof.
  apply consistent_stateOf. intros a Ha. unfold clusterA_registered in Ha.
  apply bind_Some in Ha as (a0 & H0 & H1).
  eapply addSlave_consistent; [|exact H1].
  eapply addFramework_consistent; [|exact H0]. apply initialize_consistent.
Qed.

Lemma shuffle_slaves_id (l : list SlaveID) : shuffle_slaves l ≡ₚ l.
Proof. done. Qed.

(** X1, on the allocator just initialized: tracking "f1" under "r" returns,
    the pair is tracked afterwards, and untracking restores the initial
    state. *)
Lemma trackFrameworkUnderRole_spec_witness :
  exists a',
    trackFrameworkUnderRole (initialize ex_options) "f1" "r" = Some a' /\
    isFrameworkTrackedUnderRole a' "f1" "r" = true /\
    untrackFrameworkUnderRole a' "f1" "r" = Some (initialize ex_options).
Proof.
  destruct (trackFrameworkUnderRole_spec (initialize ex_options) "f1" "r"
              eq_refl (initialize_consistent _)) as [_ H].
  destruct H as (a' & Ha' & _ & Htr & Hun); [vm_compute; reflexivity|].
  exists a'. split; [exact Ha'|]. split; [|exact Hun].
  apply Htr. left. split; reflexivity.
Defined.

(** X2, on cluster A before its first run: untracking "f1" under "r"
    returns, and the pair is not tracked afterwards. *)
Lemma untrackFrameworkUnderRole_spec_witness :
  exists a',
    untrackFrameworkUnderRole (stateOf clusterA_registered) "f1" "r"
    = Some a' /\
    trackingConsistent a' /\
    isFrameworkTrackedUnderRole a' "f1" "r" = false.
Proof.
  destruct (untrackFrameworkUnderRole_spec (stateOf clusterA_registered)
              "f1" "r") as [_ H].
  - vm_compute. reflexivity.
  - apply clusterA_registered_consistent.
  - destruct H as (a' & Ha' & Hwf & Htr & _); [vm_compute; reflexivity|].
    exists a'. split; [exact Ha'|]. split; [exact Hwf|].
    apply not_true_is_false. intros [Hne _]%Htr. apply Hne.
    split; reflexivity.
Defined.

(** X5, on cluster A: the first run offers "f1" resources of "a1" in role
    "r"; "f1" was an active client of the sorter of "r", and "a1" an
    eligible agent. *)
Lemma __allocate_offers_witness :
  offerMade runA "f1" "r" "a1" /\
  activeIn (stateOf clusterA_registered) "r" "f1" = true /\
  eligibleAgent (stateOf clusterA_registered) "a1".
Proof.
  assert (__allocate (stateOf clusterA_registered) = Some runA) as Hrun.
  { unfold runA. apply Some_default. vm_compute. reflexivity. }
  assert (offerMade runA "f1" "r" "a1") as Hmade.
  { apply offerMade_intro; [|vm_compute; reflexivity].
    apply __allocate_runInv in Hrun as (cands & _ & Hoffers & _).
    exact Hoffers. }
  split; [exact Hmade|].
  exact (__allocate_offers (stateOf clusterA_registered) runA
           shuffle_slaves_id Hrun "f1" "r" "a1" Hmade).
Defined.

(** Facts about cluster A before its first run that the examples share. *)
Lemma clusterA_registered_initialized :
  initialized (stateOf clusterA_registered) = true.
Proof. vm_compute. reflexivity. Qed.

Lemma clusterA_registered_f1 :
  frameworks (stateOf clusterA_registered) !! "f1"
  = Some (frameworkOf (stateOf clusterA_registered) "f1").
Proof. apply lookup_frameworkOf. vm_compute. reflexivity. Qed.

Lemma clusterA_registered_a1 :
  slaves (stateOf clusterA_registered) !! "a1"
  = Some (slaveOf (stateOf clusterA_registered) "a1").
Proof. apply lookup_slaveOf. vm_compute. reflexivity. Qed.

Lemma clusterA_registered_roles :
  fw_roles (frameworkOf (stateOf clusterA_registered) "f1") = {["r"]}.
Proof. vm_compute. reflexivity. Qed.

(** X6, on cluster A before its first run: "f1" suppresses all its roles;
    the call returns and "f1" is then inactive in the sorter of "r". *)
Lemma suppressOffers_spec_witness :
  exists a',
    suppressOffers (stateOf clusterA_registered) "f1" ∅ = Some a' /\
    activeIn a' "r" "f1" = false.
Proof.
  destruct (suppressOffers_spec (stateOf clusterA_registered) "f1" ∅
              (frameworkOf (stateOf clusterA_registered) "f1")
              clusterA_registered_initialized clusterA_registered_f1)
    as [_ Heff].
  exists (stateOf (suppressOffers (stateOf clusterA_registered) "f1" ∅)).
  assert (suppressOffers (stateOf clusterA_registered) "f1" ∅
          = Some (stateOf (suppressOffers (stateOf clusterA_registered)
                             "f1" ∅))) as Hrun.
  { unfold stateOf at 2. apply Some_default. vm_compute. reflexivity. }
  split; [exact Hrun|].
  destruct (Heff _ Hrun) as (Hoff & _).
  apply Hoff. rewrite bool_decide_eq_true_2 by reflexivity.
  rewrite clusterA_registered_roles. apply elem_of_singleton. reflexivity.
Defined.

(** X7, on cluster A before its first run: "f1" revives its offers; the
    call returns, every known agent is an allocation candidate and a run is
    pending. *)
Lemma reviveOffers_spec_witness :
  exists a',
    reviveOffers (stateOf clusterA_registered) "f1" ∅ = Some a' /\
    allocationCandidates a'
    = allocationCandidates (stateOf clusterA_registered)
      ∪ dom (slaves (stateOf clusterA_registered)) /\
    allocation_isPending a' = true.
Proof.
  destruct (reviveOffers_spec (stateOf clusterA_registered) "f1" ∅
              (frameworkOf (stateOf clusterA_registered) "f1")
              clusterA_registered_initialized clusterA_registered_f1)
    as [_ Heff].
  exists (stateOf (reviveOffers (stateOf clusterA_registered) "f1" ∅)).
  assert (reviveOffers (stateOf clusterA_registered) "f1" ∅
          = Some (stateOf (reviveOffers (stateOf clusterA_registered)
                             "f1" ∅))) as Hrun.
  { unfold stateOf at 2. apply Some_default. vm_compute. reflexivity. }
  split; [exact Hrun|].
  destruct (Heff _ Hrun) as (_ & _ & Hgo & _).
  apply Hgo. vm_compute. reflexivity.
Defined.

(** X8, on cluster A after "f1" declined its cpus for 30 seconds: once
    the filters for "a1" are removed, the cpus are no longer filtered. *)
Lemma removeFilters_spec_witness :
  exists a',
    removeFilters (stateOf clusterA_declined) "a1" = Some a' /\
    isFiltered a' "f1" "r" "a1" (res "cpus" None false None 4000)
    = Some false.
Proof.
  destruct (removeFilters_spec (stateOf clusterA_declined) "a1")
    as (a' & Ha' & _ & _ & _ & _ & Hflt); [vm_compute; reflexivity|].
  exists a'. split; [exact Ha'|].
  rewrite (Hflt "f1" "r" (res "cpus" None false None 4000)
             (frameworkOf (stateOf clusterA_declined) "f1")
             (slaveOf (stateOf clusterA_declined) "a1")).
  - vm_compute. reflexivity.
  - apply lookup_frameworkOf. vm_compute. reflexivity.
  - apply lookup_slaveOf. vm_compute. reflexivity.
Defined.

(** X9, on cluster A before its first run: removing "a1" returns, the
    agent is unknown afterwards, and removing it again aborts. *)
Lemma removeSlave_spec_witness :
  exists a',
    removeSlave (stateOf clusterA_registered) "a1" = Some a' /\
    slaves a' !! "a1" = None /\
    removeSlave a' "a1" = None.
Proof.
  exists (stateOf (removeSlave (stateOf clusterA_registered) "a1")).
  assert (removeSlave (stateOf clusterA_registered) "a1"
          = Some (stateOf (removeSlave (stateOf clusterA_registered) "a1")))
    as Hrun.
  { unfold stateOf at 2. apply Some_default. vm_compute. reflexivity. }
  split; [exact Hrun|].
  destruct (removeSlave_spec (Laws := scalarLaws)
              (stateOf clusterA_registered) "a1"
              (slaveOf (stateOf clusterA_registered) "a1") _
              clusterA_registered_a1 Hrun)
    as (Hsl & _ & _ & _ & _ & _ & Hagain & _).
  split; [|exact Hagain]. rewrite Hsl. apply lookup_delete_eq.
Defined.

(** X11, on cluster A before its first run: deactivating "a1" returns, the
    agent is then not eligible for a run, and activating it restores the
    state. *)
Lemma deactivateSlave_spec_witness :
  exists a',
    deactivateSlave (stateOf clusterA_registered) "a1" = Some a' /\
    ~ eligibleAgent a' "a1" /\
    activateSlave a' "a1" = Some (stateOf clusterA_registered).
Proof.
  destruct (deactivateSlave_spec (stateOf clusterA_registered) "a1"
              (slaveOf (stateOf clusterA_registered) "a1")
              clusterA_registered_initialized clusterA_registered_a1)
    as (a' & Ha' & _ & Hnot & _ & _ & Hback & _).
  exists a'. split; [exact Ha'|]. split; [exact Hnot|].
  apply Hback. vm_compute. reflexivity.
Defined.

(** X12, on cluster A before its first run: with an empty whitelist the
    agent "a1" is not eligible for a run. *)
Lemma updateWhitelist_spec_witness :
  exists a',
    updateWhitelist (stateOf clusterA_registered) (Some ∅) = Some a' /\
    ~ eligibleAgent a' "a1".
Proof.
  destruct (updateWhitelist_spec (stateOf clusterA_registered) (Some ∅)
              clusterA_registered_initialized)
    as (a' & Ha' & _ & _ & Hnone & _).
  exists a'. split; [exact Ha'|]. apply Hnone. reflexivity.
Defined.

(** X13, on the allocator just initialized: a guarantee of 4 cpus is set
    for "q", and removing the quota restores the initial state. *)
Lemma setQuota_removeQuota_witness :
  exists a',
    setQuota (initialize ex_options) "q"
      {| guarantee := res "cpus" None false None 4000 |} = Some a' /\
    removeQuota a' "q" = Some (initialize ex_options).
Proof.
  destruct (setQuota_removeQuota (initialize ex_options) "q"
              {| guarantee := res "cpus" None false None 4000 |})
    as (_ & a' & Ha' & _ & _ & _ & _ & Hback).
  - reflexivity.
  - reflexivity.
  - vm_compute. reflexivity.
  - exists a'. split; [exact Ha'|exact Hback].
Defined.

(** X16, on cluster A before its first run: deactivating "f1" returns and
    leaves "f1" inactive in the sorter of "r". *)
Lemma deactivateFramework_spec_witness :
  exists a',
    deactivateFramework (stateOf clusterA_registered) "f1" = Some a' /\
    activeIn a' "r" "f1" = false.
Proof.
  destruct (deactivateFramework_spec (stateOf clusterA_registered) "f1"
              (frameworkOf (stateOf clusterA_registered) "f1")
              clusterA_registered_initialized clusterA_registered_f1)
    as [_ Heff].
  exists (stateOf (deactivateFramework (stateOf clusterA_registered) "f1")).
  assert (deactivateFramework (stateOf clusterA_registered) "f1"
          = Some (stateOf (deactivateFramework (stateOf clusterA_registered)
                             "f1"))) as Hrun.
  { unfold stateOf at 2. apply Some_default. vm_compute. reflexivity. }
  split; [exact Hrun|].
  destruct (Heff _ Hrun) as (_ & _ & Hoff & _).
  apply Hoff. rewrite clusterA_registered_roles. apply elem_of_singleton.
  reflexivity.
Defined.

(** X17, on cluster A before its first run: activating "f1" returns, and
    "f1", a client of the sorter of "r", is active there. *)
Lemma activateFramework_spec_witness :
  exists a',
    activateFramework (stateOf clusterA_registered) "f1" = Some a' /\
    activeIn a' "r" "f1" = true.
Proof.
  destruct (activateFramework_spec (stateOf clusterA_registered) "f1"
              (frameworkOf (stateOf clusterA_registered) "f1")
              clusterA_registered_initialized clusterA_registered_f1)
    as [_ Heff].
  exists (stateOf (activateFramework (stateOf clusterA_registered) "f1")).
  assert (activateFramework (stateOf clusterA_registered) "f1"
          = Some (stateOf (activateFramework (stateOf clusterA_registered)
                             "f1"))) as Hrun.
  { unfold stateOf at 2. apply Some_default. vm_compute. reflexivity. }
  split; [exact Hrun|].
  destruct (Heff _ Hrun) as (_ & Hact & _).
  rewrite (Hact "r" (sorterOf (stateOf clusterA_registered) "r")).
  - vm_compute. reflexivity.
  - rewrite clusterA_registered_roles. apply elem_of_singleton. reflexivity.
  - vm_compute. intros H. discriminate H.
  - unfold sorterOf. apply Some_default. vm_compute. reflexivity.
Defined.

(** X18, on cluster A before its first run: removing "f1" returns; the
    framework is unknown afterwards and no longer tracked under "r". *)
Lemma removeFramework_spec_witness :
  exists a',
    removeFramework (stateOf clusterA_registered) "f1" = Some a' /\
    frameworks a' !! "f1" = None /\
    isFrameworkTrackedUnderRole a' "f1" "r" = false.
Proof.
  destruct (removeFramework_spec (stateOf clusterA_registered) "f1"
              (frameworkOf (stateOf clusterA_registered) "f1")
              clusterA_registered_initialized
              clusterA_registered_consistent clusterA_registered_f1)
    as [_ Heff].
  exists (stateOf (removeFramework (stateOf clusterA_registered) "f1")).
  assert (removeFramework (stateOf clusterA_registered) "f1"
          = Some (stateOf (removeFramework (stateOf clusterA_registered)
                             "f1"))) as Hrun.
  { unfold stateOf at 2. apply Some_default. vm_compute. reflexivity. }
  split; [exact Hrun|].
  destruct (Heff _ Hrun) as (Hfws & _ & _ & Hgone & _).
  split.
  - rewrite Hfws. apply lookup_delete_eq.
  - apply Hgone. rewrite clusterA_registered_roles. apply elem_of_singleton.
    reflexivity.
Defined.

(** X19, on the allocator just initialized: adding "f1" with the role "r",
    active and with no suppressed role, returns; "f1" is then tracked under
    "r" and active in its sorter. *)
Lemma addFramework_spec_witness :
  exists a',
    clusterF = Some a' /\
    isFrameworkTrackedUnderRole a' "f1" "r" = true /\
    activeIn a' "r" "f1" = true.
Proof.
  destruct (addFramework_spec (initialize ex_options) "f1"
              (fwInfo "r" capsNone) ∅ true ∅ eq_refl
              (initialize_consistent _)) as [_ Heff].
  exists (stateOf clusterF).
  assert (clusterF = Some (stateOf clusterF)) as Hrun.
  { unfold stateOf. apply Some_default. vm_compute. reflexivity. }
  split; [exact Hrun|].
  destruct (Heff _ Hrun) as (_ & _ & Hroles & _).
  destruct (Hroles "r") as (_ & Htr & Hact).
  - unfold fwInfo. simpl. apply elem_of_singleton. reflexivity.
  - split; [exact Htr|]. rewrite Hact. vm_compute. reflexivity.
Defined.

(** X20, on cluster A after its first run: "f1" returns the 4 cpus that it
    holds on "a1"; afterwards nothing is allocated on the agent. *)
Lemma recoverResources_allocation_witness :
  exists a',
    recoverResources (stateOf clusterA) "f1" "a1" cpusA None = Some a' /\
    map_to_list (getAllocated (slaveOf a' "a1")) = [].
Proof.
  destruct (recoverResources_allocation (stateOf clusterA) "f1" "a1" cpusA
              None (slaveOf (stateOf clusterA) "a1"))
    as (_ & _ & Heff).
  - vm_compute. reflexivity.
  - vm_compute. reflexivity.
  - apply lookup_slaveOf. vm_compute. reflexivity.
  - exists (stateOf (recoverResources (stateOf clusterA) "f1" "a1" cpusA
                       None)).
    assert (recoverResources (stateOf clusterA) "f1" "a1" cpusA None
            = Some (stateOf (recoverResources (stateOf clusterA) "f1" "a1"
                               cpusA None))) as Hrun.
    { unfold stateOf at 2. apply Some_default. vm_compute. reflexivity. }
    split; [exact Hrun|].
    destruct (Heff _ Hrun) as (_ & Hsl & Hal & _).
    unfold slaveOf at 1. rewrite Hsl, lookup_insert_eq. simpl.
    vm_compute. reflexivity.
Defined.

(** X21, on cluster F: adding the agent "a1" with 4 cpus returns; the role
    sorter records its total, and the agent is eligible for the pending
    run. *)
Lemma addSlave_spec_witness :
  exists a',
    addSlave (stateOf clusterF) "a1" (agentInfo "a1") agentCaps None
      (res "cpus" None false None 4000) ∅ = Some a' /\
    sorterKnows (roleSorter a') "a1" (res "cpus" None false None 4000) /\
    eligibleAgent a' "a1".
Proof.
  destruct (addSlave_spec (Laws := scalarLaws) (stateOf clusterF) "a1"
              (agentInfo "a1") agentCaps None
              (res "cpus" None false None 4000) ∅)
    as (_ & _ & _ & Heff); [vm_compute; reflexivity|].
  exists (stateOf (addSlave (stateOf clusterF) "a1" (agentInfo "a1")
                     agentCaps None (res "cpus" None false None 4000) ∅)).
  assert (addSlave (stateOf clusterF) "a1" (agentInfo "a1") agentCaps None
            (res "cpus" None false None 4000) ∅
          = Some (stateOf (addSlave (stateOf clusterF) "a1"
                             (agentInfo "a1") agentCaps None
                             (res "cpus" None false None 4000) ∅)))
    as Hrun.
  { unfold stateOf at 2. apply Some_default. vm_compute. reflexivity. }
  split; [exact Hrun|].
  destruct (Heff _ Hrun) as (_ & _ & _ & Hrole & _ & _ & _ & Hgo & _).
  split.
  - apply Hrole. vm_compute. reflexivity.
  - destruct Hgo as (_ & _ & Hel); [vm_compute; reflexivity|].
    apply Hel. vm_compute. exact I.
Defined.

(** X22, on cluster A before its first run: "f1" moves from the role "r"
    to the role "s"; the call returns and the framework has the new
    role. *)
Lemma updateFramework_spec_witness :
  exists a' fw',
    updateFramework (stateOf clusterA_registered) "f1"
      (fwInfo "s" capsNone) ∅ = Some a' /\
    frameworks a' !! "f1" = Some fw' /\
    fw_roles fw' = {["s"]} /\ suppressedRoles fw' = ∅.
Proof.
  destruct (updateFramework_spec (stateOf clusterA_registered) "f1"
              (fwInfo "s" capsNone) ∅
              (frameworkOf (stateOf clusterA_registered) "f1")
              clusterA_registered_f1) as [_ Heff].
  exists (stateOf (updateFramework (stateOf clusterA_registered) "f1"
                     (fwInfo "s" capsNone) ∅)).
  assert (updateFramework (stateOf clusterA_registered) "f1"
            (fwInfo "s" capsNone) ∅
          = Some (stateOf (updateFramework (stateOf clusterA_registered)
                             "f1" (fwInfo "s" capsNone) ∅))) as Hrun.
  { unfold stateOf at 2. apply Some_default. vm_compute. reflexivity. }
  destruct (Heff _ Hrun) as ((fw' & Hfw' & Hr & Hs & _) & _).
  exists fw'. split; [exact Hrun|]. split; [exact Hfw'|].
  split; [exact Hr|exact Hs].
Defined.

(** X23, on the allocator just initialized: after "f1" was added, active,
    removing it gives the initial state with a run requested. *)
Lemma addFramework_removeFramework_witness :
  removeFramework (stateOf clusterF) "f1"
  = Some (allocateAll (initialize ex_options)).
Proof.
  apply (addFramework_removeFramework (initialize ex_options) "f1"
           (fwInfo "r" capsNone) true ∅ (stateOf clusterF)).
  - apply initialize_consistent.
  - reflexivity.
  - change (clusterF = Some (stateOf clusterF)).
    unfold stateOf. apply Some_default. vm_compute. reflexivity.
Defined.

End FurtherExamples.
